(* ===== verification/_CoqProject ===== *)
-Q . S2P
Prelude.v
GoStrings.v
GoTime.v
Float64.v
GoNet.v
ConfigTypes.v
Config.v
Watcher.v
AdminLimiter.v
RedisClient.v
RedisTopology.v
TokenBucket.v
KeyStrategy.v
InMemory.v
Breaker.v
Auth.v
External.v
Flights.v
Clients.v
CacheControl.v
CacheStore.v
CacheWriter.v
WSLimiter.v
UrlPolicy.v
MTLS.v
Events.v
EventLoop.v
Bucket.v
Chain.v
ChainProps.v
Observe.v
Telemetry.v
AccessLog.v
Admin.v
Transport.v
Proxy.v
ProxyProps.v
Relay.v
Settings.v
Lifecycle.v
LifeRuns.v
Server.v
ServerProps.v
Listeners.v
AdminServer.v
System.v
