(* ===== verification/Prelude.v ===== *)
(** * EdgeQuota: a verification development

    EdgeQuota is a reverse proxy written in Go that authenticates requests,
    limits their rate with token buckets kept in Redis and forwards them to
    backends, with a shared response cache. This library models its decision
    logic and proves what makes it correct. Paths below are relative to [src/].

    ** The program and its model

    A request enters [Chain.ServeHTTP] (internal/middleware/chain.go), which asks
    the auth client (internal/auth), the external limits client and the limiter
    (internal/ratelimit) and hands the request to the proxy (internal/proxy),
    whose responses go through the cache (internal/cache). Configuration
    (internal/config), the Redis client (internal/redis), mTLS identity
    (internal/mtls) and usage events (internal/events) serve those parts. The
    server (internal/server) builds them, offers the admin endpoints and passes
    the configurations on that the file watcher publishes.

    - [Prelude], [GoStrings], [GoTime], [Float64], [GoNet]: the parts of the Go
      run time and standard library the code uses: errors as values ([result]),
      64-bit integers with wrap-around ([wrap64]), strings and header maps,
      [time.ParseDuration], IP addresses, networks and URLs. Floating point is
      rationals with an abstract rounding ([Float64.Rounding]: monotone, exact on
      integers up to 2^53); theorems state whether they hold for every rounding
      or for exact arithmetic.
    - [ConfigTypes], [Config]: the configuration records, defaults,
      normalisation, validation, header filters and the sanitised view
      (config.go).
    - [Watcher]: loading a configuration, and the loops that watch the file and
      the certificates (config.go, config/watcher.go). Notifications, the
      debounce timer, polls, and changes of the file between a load and the
      snapshot are events of one step function.
    - [RedisClient], [RedisTopology]: error classes, the replication client with
      its READONLY retry, and how options, TLS and clients are built for the four
      topologies (redis/client.go).
    - [TokenBucket]: the Lua script, the limiter and its reply parser
      (ratelimit/limiter.go). Redis is the class [RedisHash] with its laws, with
      a concrete instance.
    - [KeyStrategy]: rate-limit keys from client address, headers and path
      (ratelimit/key.go).
    - [InMemory]: the fallback limiter with the asynchronous admission of its
      cache as a step relation (ratelimit/fallback.go).
    - [Breaker]: the auth circuit breaker and the per-tenant breakers
      (auth/auth.go, ratelimit/external.go).
    - [Auth]: the auth client (auth/auth.go).
    - [External]: the external limits client (ratelimit/external.go), one call at
      a time. [Flights]: any number of calls at once, with the semaphore and the
      singleflight group; [External] is that model with a single caller.
      [Clients]: how both clients and the fallback limiter are opened and closed,
      with the goroutine that evicts breakers.
    - [CacheControl], [CacheStore], [CacheWriter]: cacheability and keys, the
      store over Redis, the response writer and the lookup in the proxy
      (cache/cache.go, cache/writer.go, proxy/proxy.go).
    - [WSLimiter]: per-key WebSocket limits (proxy/ws_limiter.go).
    - [UrlPolicy]: which backend URLs and addresses are allowed
      (proxy/url_validator.go, [SafeDialer] of proxy/proxy.go).
    - [MTLS]: identity headers (mtls/identity.go).
    - [Events], [EventLoop]: the usage event emitter, and its flush loop beside
      the requests that emit and the call that closes (events/emitter.go).
    - [Bucket]: rate, burst and TTL from the configuration (chain.go).
    - [Chain], [ChainProps]: the request path of the middleware (chain.go) as
      state transformers, and its theorems. Request copies share one header map
      and refer to body readers, so aliasing is part of the model.
    - [Observe]: the counters of [/v1/stats], the status writer and the write
      deadline (observability/metrics.go, chain.go). [Telemetry]: the exported
      instruments with their series, the gauges of the requests in flight, the
      histogram views, the set-up of exporters, providers and the logger
      (observability/metrics.go, metrics_provider.go, tracing.go, logging.go).
      [AccessLog]: the access log record (chain.go).
    - [Settings]: what the chain takes from a configuration at start-up and on
      reload (chain.go). [Lifecycle], [LifeRuns]: who owns which client, cache and
      proxy through start-up, outage, recovery, reload, proxy swap and shutdown;
      the recovery goroutines are steps that interleave with everything else.
    - [Transport], [Proxy], [ProxyProps]: the transports and how they dial, the
      body limit, request rewriting, response filtering, WebSocket upgrades and the
      drain protocol (proxy/proxy.go). [Relay]: the two goroutines that copy an
      upgraded connection, with deadlines, half-close and keep-alive.
    - [AdminLimiter], [Admin]: the rate limiter of the admin server as
      interleaved atomic operations, the health probes and the purge endpoints
      (server/server.go, observability/health.go, server/admin.go).
    - [Server], [ServerProps]: construction, reload, certificates, [Run] and
      shutdown, and the composition of watcher, server and chain
      (server/server.go, cmd/edgequota/main.go). [Listeners]: the parameters of
      the HTTP servers and the goroutines of [Run] with their channels.
    - [AdminServer]: the HTTP surface of the admin listener, from the limiter and
      the routes to the generated handlers (server/server.go,
      api/gen/http/admin/v1/admin.gen.go).
    - [System]: the process, one step relation over the configuration watcher,
      the certificate watchers, the server with its chain and the shutdown
      (cmd/edgequota/main.go).

    State is a record per component and each operation a function on it; what
    the code changes through pointers is threaded explicitly. Services, DNS,
    JSON, hashing and randomness are parameters ([Chain.Env] and the sections of
    the other files), so a theorem holds for every behaviour of theirs that its
    hypotheses allow; concrete instances (the [Demo] modules, [hash_store])
    show that the hypotheses can hold.

    ** What is proved

    - Rate limiting: the script admits at most burst plus rate times time
      ([TokenBucket.admitted_bound]), its retry delay is exact, the limiter
      runs it exactly once per call; the fallback limiter keeps its buckets
      within range; derived parameters are usable. Theorems also show where the
      bound is lost: keys that expire before the bucket is full, skewed clocks,
      the admission window of the fallback cache.
    - The chain: [ServeHTTP] answers once and forwards exactly the requests its
      specification admits ([ChainProps.ServeHTTP_decision]); the backend sees
      the true mTLS identity; a propagated body is lost; the statistics count
      what was answered ([Observe.stats_exact]).
    - Lifetime: every client has one owner and none is closed twice, used after
      it was closed or leaked at shutdown; a recovery reconnects once Redis is
      back and ends on shutdown. Theorems show what a reload cannot do and which
      orders of events leave the chain without a limiter for good.
    - Reconfiguration: a reload has the effect of a restart on all settings but
      five ([Settings.Reload_settings_restart]); the watcher publishes only valid
      files that need no restart, one poll puts the current file in force, and
      the server accepts what the watcher publishes; certificates follow their
      files. Races that lose an update are theorems too.
    - The process: whatever happens to the files and in whatever order the
      goroutines run, server and chain are on one valid configuration, the last
      published one, whose listeners are the ones that run
      ([System.system_in_force]); the goroutines of [Run] implement its
      sequential view, mark the server ready only once it is bound, never block
      on their channel and come to an end ([Listeners]).
    - The proxy: TCP backends are public when private networks are denied, the
      body limit holds, backends see the true peer, every WebSocket slot is
      returned, draining never closes a transport in use; a relay
      delivers a prefix of what was sent, all of it when nothing goes wrong, and
      an idle one ends.
    - Administration: the admin limiter admits no more than it refills, purged
      entries cannot be read again, only a decodable POST to a purge path has an
      effect, no answer depends on a secret; the configuration endpoint shows the
      configuration of the start.
    - Telemetry: gauges equal the requests in flight under any interleaving,
      every request is counted once, the statistics agree with the exported
      series, a failing exporter never keeps the proxy from starting.
    - Resilience: breakers implement their specification, stay bounded and
      keep open circuits; the external service is called only when cache,
      breaker and semaphore allow it, once per key however many requests ask,
      and every call returns; a leader that gives up fails all who share its
      call. The replication client follows a failover; cancellations never open
      the auth circuit.
    - Caching: only shareable complete responses are stored, they are served
      again to the same request, Vary is honoured, the health gauge is exact.
    - Security of inputs: keys that clients cannot choose, headers they cannot
      forge, addresses that are never dialed, secrets that are never shown.
    - Events: every event is handed over once and in order, pending, or counted
      as dropped; no wake-up of the flush loop is lost; closing flushes.

    ** Fuel and bounds

    [Events.flush] takes one unit per batch; [Close] gives it one more than the
    number of buffered events and [Close_delivers] shows that is enough.
    Duration parsing takes the length of its input, with a lemma that more fuel
    changes nothing. Every other recursion is structural.

    ** What is not modelled

    Sockets, TLS handshakes and the file system are inputs of the model; the
    YAML, JSON and environment parsers, go-redis, net/http's reverse proxy and
    mux, http2, quic-go, gRPC and the OpenTelemetry SDK are parameters or modelled
    as documented. Log messages other than the access log, spans, the pprof pages,
    the parameter errors of the generated code that this API never raises, signal
    delivery and exit codes are left out. Concurrency is covered where the code
    relies on it: atomic operations and goroutines as steps in any order
    ([InMemory], [Events], [EventLoop], [Flights], [WSLimiter], [CacheStore],
    [Breaker], [AdminLimiter], [Watcher], [Lifecycle], [Relay], [Telemetry],
    [Listeners], [System], the drain protocol in [Proxy]); a request is otherwise
    a sequential run against one configuration snapshot. *)
From stdpp Require Export base tactics option list list_numbers strings gmap fin_maps sets numbers.
From Stdlib Require Export Lia ZArith.

#[export] Set Default Goal Selector "!".

(** ** Notations and hint databases *)

Declare Scope go_scope.
Delimit Scope go_scope with go.

(** Lemmas that close routine goals about the model of the Go run time. *)
Create HintDb edgequota.

(** ** Go errors *)

(** A Go [error] as the code can observe it: its text ([Error()]) and the
    answers of [errors.Is] / [errors.As] / [status.Code] the code asks for.
    A Go [nil] error is the [Ok] case of [result]. *)
Record error := mkError {
  err_msg : string;          (* Error() *)
  err_canceled : bool;       (* errors.Is(err, context.Canceled) *)
  err_deadline : bool;       (* errors.Is(err, context.DeadlineExceeded) *)
  err_redis_nil : bool;      (* errors.Is(err, goredis.Nil) *)
  err_net_timeout : bool;    (* errors.As(err, net.Error) and Timeout() *)
  err_net_op : bool;         (* errors.As(err, *net.OpError) *)
  err_grpc_canceled : bool   (* status.Code(err) == codes.Canceled *)
}.

(** [fmt.Errorf] without a wrapped error: a text and nothing else. *)
Definition errorf (msg : string) : error := mkError msg false false false false false false.

(** [fmt.Errorf("prefix: %w", err)]: the text grows, the chain is kept. *)
Definition wrapf (prefix : string) (e : error) : error :=
  mkError (prefix +:+ ": " +:+ err_msg e) (err_canceled e) (err_deadline e)
    (err_redis_nil e) (err_net_timeout e) (err_net_op e) (err_grpc_canceled e).

#[export] Instance error_eq_dec : EqDecision error.
Proof. solve_decision. Defined.

(** A Go pair [(T, error)] where the value is only read when the error is nil. *)
Inductive result (A : Type) : Type :=
| Ok (a : A)
| Err (e : error).
Arguments Ok {A} a.
Arguments Err {A} e.

#[export] Instance result_eq_dec `{EqDecision A} : EqDecision (result A).
Proof. solve_decision. Defined.

#[export] Instance result_ret : MRet result := fun A a => Ok a.
#[export] Instance result_bind : MBind result := fun A B f r =>
  match r with Ok a => f a | Err e => Err e end.

Definition is_ok {A} (r : result A) : bool := match r with Ok _ => true | Err _ => false end.

(** ** Machine integers *)

Local Open Scope Z_scope.

Definition int64_min : Z := - 2 ^ 63.
Definition int64_max : Z := 2 ^ 63 - 1.

(** Two's-complement wrap-around of an [int64] (Go's [int] on 64-bit targets
    and [time.Duration] too). *)
Definition wrap64 (z : Z) : Z := (z + 2 ^ 63) mod 2 ^ 64 - 2 ^ 63.

Definition in_int64 (z : Z) : Prop := int64_min <= z <= int64_max.

#[export] Instance in_int64_dec z : Decision (in_int64 z).
Proof. unfold in_int64. apply _. Defined.

Lemma wrap64_id z : in_int64 z -> wrap64 z = z.
Proof.
  unfold in_int64, wrap64, int64_min, int64_max. intros H.
  rewrite Z.mod_small; lia.
Qed.

Lemma wrap64_range z : in_int64 (wrap64 z).
Proof.
  unfold in_int64, wrap64, int64_min, int64_max.
  pose proof (Z.mod_pos_bound (z + 2 ^ 63) (2 ^ 64) ltac:(lia)). lia.
Qed.

#[export] Hint Resolve wrap64_range : edgequota.

(** ** Time *)

(** [time.Duration] is nanoseconds; [time.Time] is modelled by its nanoseconds
    since the epoch, and every [time.Now()] is an argument of the operation
    that calls it. *)
Definition Nanosecond : Z := 1.
Definition Microsecond : Z := 1000.
Definition Millisecond : Z := 1000 * Microsecond.
Definition Second : Z := 1000 * Millisecond.
Definition Minute : Z := 60 * Second.
Definition Hour : Z := 60 * Minute.

(** ** Tactics *)

(** Destruct every [match]/[if] scrutinee of the goal, closing what computes. *)
Ltac branches := repeat (case_match; simplify_eq/=; try done).

(** The same in the hypotheses. *)
Ltac branches_in H :=
  repeat match type of H with
  | context [match ?x with _ => _ end] => destruct x eqn:?; simplify_eq/=; try done
  end.

(** Split a boolean conjunction / disjunction hypothesis into propositions. *)
Ltac bools :=
  repeat match goal with
  | H : (_ && _) = true |- _ => apply andb_true_iff in H as [? ?]
  | H : (_ || _) = false |- _ => apply orb_false_iff in H as [? ?]
  | H : negb _ = true |- _ => apply negb_true_iff in H
  | H : negb _ = false |- _ => apply negb_false_iff in H
  | H : bool_decide _ = true |- _ => apply bool_decide_eq_true in H
  | H : bool_decide _ = false |- _ => apply bool_decide_eq_false in H
  | H : (_ <=? _) = true |- _ => apply Z.leb_le in H
  | H : (_ <=? _) = false |- _ => apply Z.leb_gt in H
  | H : (_ <? _) = true |- _ => apply Z.ltb_lt in H
  | H : (_ <? _) = false |- _ => apply Z.ltb_ge in H
  | H : (_ =? _) = true |- _ => apply Z.eqb_eq in H
  | H : (_ =? _) = false |- _ => apply Z.eqb_neq in H
  end.
