(* ===== verification/GoStrings.v ===== *)
(** * Go strings

    The operations of Go's [strings], [strconv], [sort] and
    [net/textproto] packages that the program uses, over byte strings
    ([String.string]), and the lemmas the components share.

    [strings.ToLower], [TrimSpace] and [EqualFold] are modelled on ASCII: their
    Unicode case folding and Unicode white space do not occur in the header
    names, tokens and numbers the program applies them to. *)
From S2P Require Import Prelude.
From stdpp Require Export pretty sorting.
From Stdlib Require Import Ascii.

Local Open Scope Z_scope.

(** ** Bytes *)

Definition byteZ (c : ascii) : Z := Z.of_nat (nat_of_ascii c).

Definition is_upper (c : ascii) : bool := (65 <=? byteZ c) && (byteZ c <=? 90).
Definition is_lower (c : ascii) : bool := (97 <=? byteZ c) && (byteZ c <=? 122).
Definition is_digit (c : ascii) : bool := (48 <=? byteZ c) && (byteZ c <=? 57).
Definition lower_byte (c : ascii) : ascii :=
  if is_upper c then ascii_of_nat (nat_of_ascii c + 32) else c.
Definition upper_byte (c : ascii) : ascii :=
  if is_lower c then ascii_of_nat (nat_of_ascii c - 32) else c.
Definition is_space (c : ascii) : bool :=
  ((9 <=? byteZ c) && (byteZ c <=? 13)) || (byteZ c =? 32).

Definition dquote : ascii := Ascii.ascii_of_nat 34.
Definition backslash : ascii := Ascii.ascii_of_nat 92.

(** Prove a property of every byte by running it on all 256 of them. *)
Definition all_bytes : list ascii := map ascii_of_nat (seq 0 256).

Lemma all_bytes_complete c : c ∈ all_bytes.
Proof.
  apply list_elem_of_In, in_map_iff. exists (nat_of_ascii c). split.
  - apply ascii_nat_embedding.
  - apply in_seq. pose proof (nat_ascii_bounded c). lia.
Qed.

Lemma byte_forall (P : ascii -> bool) : forallb P all_bytes = true -> forall c, P c = true.
Proof.
  intros H c. rewrite forallb_forall in H. apply H, list_elem_of_In, all_bytes_complete.
Qed.

(** Decide [f c = g c] for every byte. *)
Lemma byte_eq {A} `{EqDecision A} (f g : ascii -> A) :
  forallb (fun c => bool_decide (f c = g c)) all_bytes = true -> forall c, f c = g c.
Proof. intros H c. exact (bool_decide_eq_true_1 _ (byte_forall (fun c => bool_decide (f c = g c)) H c)). Qed.

(** ** Operations *)

Definition len (s : string) : Z := Z.of_nat (String.length s).

Fixpoint map_bytes (f : ascii -> ascii) (s : string) : string :=
  match s with
  | EmptyString => EmptyString
  | String c s' => String (f c) (map_bytes f s')
  end.

Fixpoint all_in (P : ascii -> bool) (s : string) : bool :=
  match s with
  | EmptyString => true
  | String c s' => P c && all_in P s'
  end.

Definition ToLower : string -> string := map_bytes lower_byte.
Definition ToUpper : string -> string := map_bytes upper_byte.
Definition EqualFold (a b : string) : bool := bool_decide (ToLower a = ToLower b).

Definition HasPrefix (s pre : string) : bool := String.prefix pre s.

(** [strings.CutPrefix]. *)
Fixpoint CutPrefix (s pre : string) {struct pre} : option string :=
  match pre, s with
  | EmptyString, _ => Some s
  | String p pre', String c s' => if bool_decide (p = c) then CutPrefix s' pre' else None
  | String _ _, EmptyString => None
  end.
Definition TrimPrefix (s pre : string) : string :=
  match CutPrefix s pre with Some t => t | None => s end.

Fixpoint HasSuffix (s suf : string) : bool :=
  bool_decide (s = suf) ||
  match s with EmptyString => false | String _ s' => HasSuffix s' suf end.
Definition TrimSuffix (s suf : string) : string :=
  if HasSuffix s suf then String.substring 0 (String.length s - String.length suf) s else s.

Fixpoint Contains (s sub : string) : bool :=
  HasPrefix s sub ||
  match s with EmptyString => false | String _ s' => Contains s' sub end.

Fixpoint trim_left (P : ascii -> bool) (s : string) : string :=
  match s with
  | EmptyString => EmptyString
  | String c s' => if P c then trim_left P s' else s
  end.
Fixpoint trim_right (P : ascii -> bool) (s : string) : string :=
  match s with
  | EmptyString => EmptyString
  | String c s' =>
      match trim_right P s' with
      | EmptyString => if P c then EmptyString else String c EmptyString
      | t => String c t
      end
  end.
Definition trim (P : ascii -> bool) (s : string) : string := trim_right P (trim_left P s).
Definition TrimSpace : string -> string := trim is_space.

(** [strings.Split(s, sep)] for a one-byte separator. *)
Fixpoint Split (sep : ascii) (s : string) : list string :=
  match s with
  | EmptyString => [EmptyString]
  | String c s' =>
      if bool_decide (c = sep) then EmptyString :: Split sep s'
      else match Split sep s' with
           | x :: xs => String c x :: xs
           | [] => [String c EmptyString]
           end
  end.

(** [strings.Join]. *)
Fixpoint Join (sep : string) (l : list string) : string :=
  match l with
  | [] => EmptyString
  | [x] => x
  | x :: l' => x +:+ sep +:+ Join sep l'
  end.

(** [strings.Cut] at a one-byte separator: (before, after, found). *)
Fixpoint Cut (sep : ascii) (s : string) : string * string * bool :=
  match s with
  | EmptyString => (EmptyString, EmptyString, false)
  | String c s' =>
      if bool_decide (c = sep) then (EmptyString, s', true)
      else let '(a, b, ok) := Cut sep s' in (String c a, b, ok)
  end.

(** [strconv.ParseInt(s, 10, 64)], and [strconv.Atoi] on a 64-bit target. *)
Fixpoint parse_digits (acc : Z) (s : string) : option Z :=
  match s with
  | EmptyString => Some acc
  | String c s' => if is_digit c then parse_digits (acc * 10 + (byteZ c - 48)) s' else None
  end.
Definition ParseInt (s : string) : option Z :=
  let '(neg, body) :=
    match s with
    | String c s' =>
        if bool_decide (c = "-"%char) then (true, s')
        else if bool_decide (c = "+"%char) then (false, s') else (false, s)
    | EmptyString => (false, s)
    end in
  match body with
  | EmptyString => None
  | _ => v ← parse_digits 0 body;
         let v := if (neg : bool) then - v else v in
         if bool_decide (in_int64 v) then Some v else None
  end.
Definition Atoi : string -> option Z := ParseInt.
Definition Itoa (z : Z) : string := pretty z.

(** [sort.Strings]. *)
Definition SortStrings (l : list string) : list string := merge_sort String.le l.

(** [http.CanonicalHeaderKey]: a name with a byte that is no token byte is
    returned unchanged; otherwise the first letter and every letter after a
    hyphen is upper case and the rest lower case. *)
Definition is_token_byte (c : ascii) : bool :=
  is_upper c || is_lower c || is_digit c ||
  existsb (fun z => byteZ c =? z) [33; 35; 36; 37; 38; 39; 42; 43; 45; 46; 94; 95; 96; 124; 126].
Fixpoint canonical_go (up : bool) (s : string) : string :=
  match s with
  | EmptyString => EmptyString
  | String c s' =>
      String (if up then upper_byte c else lower_byte c) (canonical_go (byteZ c =? 45) s')
  end.
Definition CanonicalHeaderKey (s : string) : string :=
  if all_in is_token_byte s then canonical_go true s else s.

(** ** [http.Header]: canonical name to values *)

Abbreviation Header := (gmap string (list string)).

Definition Header_Values (h : Header) (k : string) : list string :=
  match h !! CanonicalHeaderKey k with Some vs => vs | None => [] end.
Definition Header_Get (h : Header) (k : string) : string :=
  match Header_Values h k with v :: _ => v | [] => "" end.
Definition Header_Set (h : Header) (k v : string) : Header :=
  <[CanonicalHeaderKey k := [v]]> h.
Definition Header_Add (h : Header) (k v : string) : Header :=
  <[CanonicalHeaderKey k := Header_Values h k ++ [v]]> h.
Definition Header_Del (h : Header) (k : string) : Header := delete (CanonicalHeaderKey k) h.

(** ** Lemmas *)

Lemma app_nil_s s : "" +:+ s = s.
Proof. done. Qed.
Lemma app_cons_s c s t : String c s +:+ t = String c (s +:+ t).
Proof. done. Qed.
Lemma app_s_nil s : s +:+ "" = s.
Proof. induction s as [|c s IH]; [done|]. by rewrite app_cons_s, IH. Qed.
Lemma app_assoc_s a b c : (a +:+ b) +:+ c = a +:+ (b +:+ c).
Proof. induction a as [|x a IH]; [done|]. by rewrite !app_cons_s, IH. Qed.
Lemma length_app_s a b : String.length (a +:+ b) = (String.length a + String.length b)%nat.
Proof. induction a as [|x a IH]; [done|]. rewrite app_cons_s. simpl. by rewrite IH. Qed.

Lemma substring_app a b : String.substring 0 (String.length a) (a +:+ b) = a.
Proof. induction a as [|c a IH]; [by destruct b|]. rewrite app_cons_s. cbn [String.length String.substring]. by rewrite IH. Qed.
Lemma substring_full s : String.substring 0 (String.length s) s = s.
Proof. pose proof (substring_app s "") as H. by rewrite app_s_nil in H. Qed.
Lemma substring_app_long n c s :
  (String.length c <= n)%nat -> String.substring 0 n (c +:+ s) = c +:+ String.substring 0 (n - String.length c) s.
Proof.
  revert n. induction c as [|x c IH]; intros n Hn; cbn in *; [by rewrite Nat.sub_0_r|].
  destruct n as [|n]; [lia|]. rewrite app_cons_s. cbn [String.substring]. rewrite IH by lia. done.
Qed.
Lemma substring_app_short n c s : (n < String.length c)%nat -> String.substring 0 n (c +:+ s) = String.substring 0 n c.
Proof.
  revert n. induction c as [|x c IH]; intros n Hn; cbn in *; [lia|].
  destruct n as [|n]; [by rewrite app_cons_s|]. rewrite app_cons_s. cbn [String.substring]. rewrite IH by lia. done.
Qed.

Create Rewrite HintDb gostrings.
#[export] Hint Rewrite app_nil_s app_cons_s app_s_nil app_assoc_s : gostrings.

Lemma app_inj_l_s a b c : a +:+ b = a +:+ c -> b = c.
Proof. induction a as [|x a IH]; [done|]. rewrite !app_cons_s. intros [= H]. auto. Qed.

Lemma len_app a b : len (a +:+ b) = len a + len b.
Proof. unfold len. rewrite length_app_s. lia. Qed.
Lemma len_nonneg s : 0 <= len s.
Proof. unfold len. lia. Qed.

(** *** Case mapping *)

Lemma lower_byte_idem c : lower_byte (lower_byte c) = lower_byte c.
Proof. revert c. apply byte_eq. by vm_compute. Qed.

Lemma ToLower_idem s : ToLower (ToLower s) = ToLower s.
Proof.
  unfold ToLower. induction s as [|c s IH]; [done|]. simpl. by rewrite lower_byte_idem, IH.
Qed.

Lemma map_bytes_app f a b : map_bytes f (a +:+ b) = map_bytes f a +:+ map_bytes f b.
Proof. induction a as [|c a IH]; [done|]. rewrite app_cons_s. simpl. by rewrite IH, app_cons_s. Qed.

Lemma EqualFold_refl s : EqualFold s s = true.
Proof. by apply bool_decide_eq_true. Qed.

(** *** Canonical header names *)

Lemma canonical_byte_token (up : bool) c :
  is_token_byte (if up then upper_byte c else lower_byte c) = is_token_byte c.
Proof. destruct up; revert c; apply byte_eq; by vm_compute. Qed.

Lemma canonical_byte_hyphen (up : bool) c :
  (byteZ (if up then upper_byte c else lower_byte c) =? 45) = (byteZ c =? 45).
Proof. destruct up; revert c; apply byte_eq; by vm_compute. Qed.

Lemma canonical_byte_idem (up : bool) c :
  (if up then upper_byte (if up then upper_byte c else lower_byte c)
   else lower_byte (if up then upper_byte c else lower_byte c))
  = if up then upper_byte c else lower_byte c.
Proof. destruct up; revert c; apply byte_eq; by vm_compute. Qed.

Lemma canonical_go_token up s : all_in is_token_byte (canonical_go up s) = all_in is_token_byte s.
Proof.
  revert up. induction s as [|c s IH]; intros up; [done|]. simpl.
  by rewrite canonical_byte_token, IH.
Qed.

Lemma canonical_go_idem up s : canonical_go up (canonical_go up s) = canonical_go up s.
Proof.
  revert up. induction s as [|c s IH]; intros up; [done|]. simpl.
  by rewrite canonical_byte_hyphen, canonical_byte_idem, IH.
Qed.

(** Canonical names are fixed points, so a header written under any spelling
    is read under any other spelling of the same name. *)
Lemma CanonicalHeaderKey_idem s :
  CanonicalHeaderKey (CanonicalHeaderKey s) = CanonicalHeaderKey s.
Proof.
  unfold CanonicalHeaderKey at 2 3. destruct (all_in is_token_byte s) eqn:E.
  - unfold CanonicalHeaderKey. by rewrite canonical_go_token, E, canonical_go_idem.
  - unfold CanonicalHeaderKey. by rewrite E.
Qed.

Lemma lower_canonical_byte (up : bool) c :
  lower_byte (if up then upper_byte c else lower_byte c) = lower_byte c.
Proof. destruct up; revert c; apply byte_eq; by vm_compute. Qed.

Lemma ToLower_canonical s : ToLower (CanonicalHeaderKey s) = ToLower s.
Proof.
  unfold CanonicalHeaderKey. destruct (all_in _ s); [|done].
  generalize true. unfold ToLower. induction s as [|c s IH]; intros up; [done|]. simpl.
  by rewrite lower_canonical_byte, IH.
Qed.

(** *** Headers *)

Lemma Header_Get_Set h k k' v :
  CanonicalHeaderKey k = CanonicalHeaderKey k' -> Header_Get (Header_Set h k v) k' = v.
Proof.
  intros E. unfold Header_Get, Header_Values, Header_Set. by rewrite E, lookup_insert_eq.
Qed.
Lemma Header_Values_Set_ne h k k' v :
  CanonicalHeaderKey k ≠ CanonicalHeaderKey k' ->
  Header_Values (Header_Set h k v) k' = Header_Values h k'.
Proof. intros E. unfold Header_Values, Header_Set. by rewrite lookup_insert_ne. Qed.
Lemma Header_Get_Set_ne h k k' v :
  CanonicalHeaderKey k ≠ CanonicalHeaderKey k' ->
  Header_Get (Header_Set h k v) k' = Header_Get h k'.
Proof. intros E. unfold Header_Get. by rewrite Header_Values_Set_ne. Qed.
Lemma Header_Get_Del h k k' :
  CanonicalHeaderKey k = CanonicalHeaderKey k' -> Header_Get (Header_Del h k) k' = "".
Proof.
  intros E. unfold Header_Get, Header_Values, Header_Del. by rewrite E, lookup_delete_eq.
Qed.
Lemma Header_Get_Del_ne h k k' :
  CanonicalHeaderKey k ≠ CanonicalHeaderKey k' -> Header_Get (Header_Del h k) k' = Header_Get h k'.
Proof.
  intros E. unfold Header_Get, Header_Values, Header_Del. by rewrite lookup_delete_ne.
Qed.

(** *** Splitting and joining *)

Lemma Split_not_nil sep s : Split sep s ≠ [].
Proof. induction s as [|c s IH]; simpl; [done|]. case_bool_decide; [done|]. by destruct (Split sep s). Qed.

Lemma Split_app sep a b :
  Split sep (a +:+ String sep b) = Split sep a ++ Split sep b.
Proof.
  induction a as [|c a IH].
  - rewrite app_nil_s. simpl. by rewrite bool_decide_eq_true_2.
  - rewrite app_cons_s. simpl. case_bool_decide; [by rewrite IH|].
    rewrite IH. by pose proof (Split_not_nil sep a); destruct (Split sep a).
Qed.

Lemma Join_cons sep x l : l ≠ [] -> Join sep (x :: l) = x +:+ sep +:+ Join sep l.
Proof. by destruct l. Qed.

Lemma Join_Split sep s : Join (String sep "") (Split sep s) = s.
Proof.
  induction s as [|c s IH]; [done|]. simpl. case_bool_decide as E.
  - subst. rewrite Join_cons by apply Split_not_nil. by rewrite IH.
  - destruct (Split sep s) as [|x xs] eqn:Es; [by apply Split_not_nil in Es|].
    destruct xs as [|y ys]; simpl in *; [by subst|]. by rewrite app_cons_s, IH.
Qed.

(** *** Prefixes *)

Lemma CutPrefix_app p s : CutPrefix (p +:+ s) p = Some s.
Proof. induction p as [|c p IH]; [done|]. rewrite app_cons_s. simpl. by rewrite bool_decide_eq_true_2, IH. Qed.

Lemma CutPrefix_Some s p t : CutPrefix s p = Some t -> s = p +:+ t.
Proof.
  revert s. induction p as [|c p IH]; intros s; simpl; [by intros [= ->]|].
  destruct s as [|d s]; [done|]. case_bool_decide; [|done]. subst.
  intros H%IH. by rewrite app_cons_s, H.
Qed.

(** *** Sorting: a permutation of the input has the same sorted list *)

Lemma SortStrings_perm l1 l2 : l1 ≡ₚ l2 -> SortStrings l1 = SortStrings l2.
Proof.
  intros H. apply (StronglySorted_unique String.le).
  - apply (StronglySorted_merge_sort _).
  - apply (StronglySorted_merge_sort _).
  - unfold SortStrings. by rewrite !merge_sort_Permutation.
Qed.
Lemma SortStrings_permutation l : SortStrings l ≡ₚ l.
Proof. apply merge_sort_Permutation. Qed.
