(* ===== verification/GoTime.v ===== *)
(** * Go's [time.ParseDuration]

    The duration grammar the configuration, the TTL values and the cache
    headers use: an optional sign and a sequence of decimal numbers with
    units. Integer overflow is an error, as in Go. The fraction of a number is
    scaled with exact arithmetic and truncated. *)
From S2P Require Import Prelude GoStrings.
From Stdlib Require Import Ascii.

Local Open Scope Z_scope.

Definition unit_value (u : string) : option Z :=
  if bool_decide (u = "ns") then Some Nanosecond
  else if bool_decide (u = "us") then Some Microsecond
  else if bool_decide (u = "µs") then Some Microsecond
  else if bool_decide (u = "μs") then Some Microsecond
  else if bool_decide (u = "ms") then Some Millisecond
  else if bool_decide (u = "s") then Some Second
  else if bool_decide (u = "m") then Some Minute
  else if bool_decide (u = "h") then Some Hour
  else None.

(** [leadingInt]: the digits at the front; more than 2^63 is an error. *)
Fixpoint leadingInt (x : Z) (s : string) : option (Z * string) :=
  match s with
  | String c s' =>
      if is_digit c then
        if 2 ^ 63 / 10 <? x then None
        else
          let x := x * 10 + (byteZ c - 48) in
          if 2 ^ 63 <? x then None else leadingInt x s'
      else Some (x, s)
  | EmptyString => Some (x, s)
  end.

(** [leadingFraction]: (digits, scale, rest); digits past an overflow are
    skipped. *)
Fixpoint leadingFraction (x scale : Z) (overflow : bool) (s : string) : Z * Z * string :=
  match s with
  | String c s' =>
      if is_digit c then
        if overflow then leadingFraction x scale true s'
        else if (2 ^ 63 - 1) / 10 <? x then leadingFraction x scale true s'
        else
          let y := x * 10 + (byteZ c - 48) in
          if 2 ^ 63 <? y then leadingFraction x scale true s'
          else leadingFraction y (scale * 10) false s'
      else (x, scale, s)
  | EmptyString => (x, scale, s)
  end.

(** The unit: everything up to the next digit or dot. *)
Fixpoint take_unit (s : string) : string * string :=
  match s with
  | String c s' =>
      if is_digit c || bool_decide (c = "."%char) then ("", s)
      else let '(u, r) := take_unit s' in (String c u, r)
  | EmptyString => ("", "")
  end.

(** One turn of the loop: a number and its unit, in nanoseconds. *)
Definition duration_item (s : string) : option (Z * string) :=
  match s with
  | EmptyString => None
  | String c _ =>
      if negb (bool_decide (c = "."%char) || is_digit c) then None else
      r ← leadingInt 0 s;
      let '(v, s1) := r in
      let pre := bool_decide (s1 ≠ s) in
      let '(f, scale, s2, post) :=
        match s1 with
        | String d s1' =>
            if bool_decide (d = "."%char) then
              let '(f, scale, s2) := leadingFraction 0 1 false s1' in
              (f, scale, s2, bool_decide (s2 ≠ s1'))
            else (0, 1, s1, false)
        | EmptyString => (0, 1, s1, false)
        end in
      if negb pre && negb post then None else
      let '(u, s3) := take_unit s2 in
      if bool_decide (u = "") then None else
      unit ← unit_value u;
      if 2 ^ 63 / unit <? v then None else
      let v := v * unit in
      let v := if 0 <? f then v + f * unit / scale else v in
      if 2 ^ 63 <? v then None else Some (v, s3)
  end.

(** Each turn consumes at least one byte, so the length of the text is enough
    fuel. *)
Fixpoint duration_items (fuel : nat) (d : Z) (s : string) : option Z :=
  match s with
  | EmptyString => Some d
  | _ =>
      match fuel with
      | O => None
      | S fuel' =>
          r ← duration_item s;
          let '(v, s') := r in
          if 2 ^ 63 <? d + v then None else duration_items fuel' (d + v) s'
      end
  end.

Definition time_ParseDuration (s : string) : option Z :=
  let '(neg, body) :=
    match s with
    | String c s' =>
        if bool_decide (c = "-"%char) then (true, s')
        else if bool_decide (c = "+"%char) then (false, s') else (false, s)
    | EmptyString => (false, s)
    end in
  if bool_decide (body = "0") then Some 0
  else if bool_decide (body = "") then None
  else
    d ← duration_items (String.length body) 0 body;
    if (neg : bool) then Some (- d)
    else if 2 ^ 63 - 1 <? d then None else Some d.

Example duration_1 : time_ParseDuration "1m30s" = Some (90 * Second).
Proof. reflexivity. Qed.
Example duration_2 : time_ParseDuration "1.5s" = Some (1500 * Millisecond).
Proof. reflexivity. Qed.
Example duration_3 : time_ParseDuration "10" = None /\ time_ParseDuration "s" = None.
Proof. split; reflexivity. Qed.

(** ** The result is a duration: it fits an [int64] *)

Lemma is_digit_value c : is_digit c = true -> 0 <= byteZ c - 48 <= 9.
Proof. unfold is_digit. intros H. bools. lia. Qed.

Lemma leadingInt_bounds s : forall x v r,
  0 <= x <= 2 ^ 63 -> leadingInt x s = Some (v, r) -> 0 <= v <= 2 ^ 63.
Proof.
  induction s as [|c s IH]; intros x v r Hx; simpl; [by intros [= <- _]|].
  destruct (is_digit c) eqn:Ed; [|by intros [= <- _]].
  destruct (2 ^ 63 / 10 <? x); [done|]. destruct (2 ^ 63 <? _) eqn:Eo; [done|]. bools.
  apply IH. pose proof (is_digit_value c Ed). lia.
Qed.

Lemma leadingFraction_bounds s : forall x scale o f sc r,
  0 <= x -> 0 < scale -> leadingFraction x scale o s = (f, sc, r) -> 0 <= f /\ 0 < sc.
Proof.
  induction s as [|c s IH]; intros x scale o f sc r Hx Hs; simpl; [by intros [= <- <- _]|].
  destruct (is_digit c) eqn:Ed; [|by intros [= <- <- _]].
  pose proof (is_digit_value c Ed).
  destruct o; [by apply IH|]. destruct (_ <? x); [by apply IH|].
  destruct (2 ^ 63 <? _); [by apply IH|]. apply IH; lia.
Qed.

Lemma unit_value_pos u z : unit_value u = Some z -> 0 < z.
Proof. unfold unit_value. repeat case_bool_decide; intros [= <-]; unfold Hour, Minute, Second, Millisecond, Microsecond, Nanosecond; lia. Qed.

Lemma duration_item_bounds s v r : duration_item s = Some (v, r) -> 0 <= v <= 2 ^ 63.
Proof.
  destruct s as [|c s']; [done|]. unfold duration_item. destruct (negb _); [done|].
  set (s := String c s'). intros H. apply bind_Some in H as ([v0 s1] & Hi & H).
  apply leadingInt_bounds in Hi; [|lia].
  destruct (match s1 with EmptyString => _ | _ => _ end) as [[[f scale] s2] post] eqn:Ef.
  assert (0 <= f /\ 0 < scale) as [Hf Hsc].
  { destruct s1 as [|d s1']; [injection Ef as <- <- _ _; lia|]. revert Ef.
    destruct (bool_decide (d = "."%char)); intros Ef; [|injection Ef as <- <- _ _; lia].
    destruct (leadingFraction 0 1 false s1') as [[f' sc'] s2'] eqn:El. simplify_eq.
    by eapply leadingFraction_bounds in El. }
  destruct (_ && _); [done|]. destruct (take_unit s2) as [u s3]. case_bool_decide; [done|].
  apply bind_Some in H as (un & Hu & H). apply unit_value_pos in Hu.
  destruct (2 ^ 63 / un <? v0); [done|]. destruct (2 ^ 63 <? _) eqn:Eo; [done|]. bools. simplify_eq.
  split; [|done]. assert (0 <= f * un / scale) by (apply Z.div_pos; nia). destruct (0 <? f); nia.
Qed.

Lemma duration_items_bounds fuel : forall s d v,
  0 <= d <= 2 ^ 63 -> duration_items fuel d s = Some v -> 0 <= v <= 2 ^ 63.
Proof.
  induction fuel as [|fuel IH]; intros s d v Hd; destruct s as [|c s]; cbn [duration_items]; try by intros [= <-].
  intros H. apply bind_Some in H as ([x s'] & Hi & H). apply duration_item_bounds in Hi.
  destruct (2 ^ 63 <? d + x) eqn:E; [done|]. bools. apply (IH s' (d + x) v); [lia|done].
Qed.

(** A parsed duration never wraps: the sum and the fractions stay in [int64]. *)
Lemma ParseDuration_in_int64 s d : time_ParseDuration s = Some d -> in_int64 d.
Proof.
  unfold time_ParseDuration, in_int64, int64_min, int64_max.
  destruct (match s with EmptyString => _ | _ => _ end) as [neg body].
  case_bool_decide; [intros [= <-]; lia|]. case_bool_decide; [done|].
  intros H1. apply bind_Some in H1 as (v & Hv & H1). apply duration_items_bounds in Hv; [|lia].
  destruct neg; [simplify_eq; lia|]. destruct (_ <? v) eqn:E; [done|]. bools. simplify_eq. lia.
Qed.
#[export] Hint Resolve ParseDuration_in_int64 : edgequota.

(** ** The fuel is enough *)

Lemma leadingInt_length s : forall x v r,
  leadingInt x s = Some (v, r) -> (String.length r <= String.length s)%nat.
Proof.
  induction s as [|c s IH]; intros x v r; simpl; [intros [= _ <-]; simpl; lia|].
  destruct (is_digit c); [|intros [= _ <-]; simpl; lia].
  destruct (_ <? x); [done|]. destruct (_ <? _); [done|]. intros H%IH. lia.
Qed.

Lemma leadingFraction_length s : forall x sc o f sc' r,
  leadingFraction x sc o s = (f, sc', r) -> (String.length r <= String.length s)%nat.
Proof.
  induction s as [|c s IH]; intros x sc o f sc' r; simpl; [intros [= _ _ <-]; simpl; lia|].
  destruct (is_digit c); [|intros [= _ _ <-]; simpl; lia].
  destruct o; [intros H%IH; lia|]. destruct (_ <? x); [intros H%IH; lia|].
  destruct (_ <? _); intros H%IH; lia.
Qed.

Lemma take_unit_length s u r :
  take_unit s = (u, r) -> (String.length u + String.length r = String.length s)%nat.
Proof.
  revert u r. induction s as [|c s IH]; intros u r; simpl; [by intros [= <- <-]|].
  destruct (_ || _); [by intros [= <- <-]|]. destruct (take_unit s) as [u' r'].
  intros [= <- <-]. simpl. by rewrite (IH u' r' eq_refl).
Qed.

Lemma duration_item_length s v r :
  duration_item s = Some (v, r) -> (String.length r < String.length s)%nat.
Proof.
  destruct s as [|c s']; [done|]. unfold duration_item. destruct (negb _); [done|].
  set (s := String c s'). intros H. apply bind_Some in H as ([v0 s1] & Hi & H).
  apply leadingInt_length in Hi.
  destruct (match s1 with EmptyString => _ | _ => _ end) as [[[f scale] s2] post] eqn:Ef.
  assert (String.length s2 <= String.length s1)%nat as Hs2.
  { destruct s1 as [|d s1']; [injection Ef as _ _ <- _; simpl; lia|]. revert Ef.
    destruct (bool_decide (d = "."%char)); intros Ef; [|injection Ef as _ _ <- _; lia].
    destruct (leadingFraction 0 1 false s1') as [[f' sc'] s2'] eqn:El.
    injection Ef as _ _ <- _. apply leadingFraction_length in El. simpl. lia. }
  destruct (_ && _); [done|]. destruct (take_unit s2) as [u s3] eqn:Eu.
  apply take_unit_length in Eu. case_bool_decide as Hu; [done|].
  apply bind_Some in H as (un & _ & H). destruct (_ <? v0); [done|].
  destruct (2 ^ 63 <? _); [done|]. injection H as _ <-.
  destruct u; [done|]. simpl in Eu. lia.
Qed.

(** More fuel than the length of the text never changes the answer. *)
Lemma duration_items_fuel n : forall m d s,
  (String.length s <= n)%nat -> (String.length s <= m)%nat ->
  duration_items n d s = duration_items m d s.
Proof.
  induction n as [|n IH]; intros m d s Hn Hm; destruct s as [|c s]; try (by destruct m);
    [simpl in Hn; lia|].
  destruct m as [|m]; [simpl in Hm; lia|]. cbn [duration_items].
  destruct (duration_item (String c s)) as [[v r]|] eqn:E; [|done]. cbn.
  apply duration_item_length in E. destruct (_ <? _); [done|]. apply IH; simpl in *; lia.
Qed.
