(* ===== verification/Float64.v ===== *)
(** * Floating-point numbers

    Go's [float64] and Lua's numbers, as rationals with an explicit rounding
    after every operation. [Rounding] states what the components rely on:
    rounding is monotone and exact on the integers up to 2^53. Round-to-nearest
    has both properties; so has exact arithmetic, the instance the witnesses
    evaluate. Infinities and NaN are outside the model: rates come from finite
    configuration values and no operation divides by zero. *)
From S2P Require Import Prelude.
From Stdlib Require Export QArith Qround Qminmax Qreduction Lqa.

Local Open Scope Q_scope.

Class Rounding := {
  rnd : Q -> Q;
  rnd_proper :: Proper (Qeq ==> Qeq) rnd;
  rnd_mono : forall x y, x <= y -> rnd x <= rnd y;
  rnd_Z : forall z, (Z.abs z <= 2 ^ 53)%Z -> rnd (inject_Z z) == inject_Z z
}.

(** Exact arithmetic: normalise, never round. *)
#[export] Instance exact_rounding : Rounding.
Proof.
  refine {| rnd := Qred |}.
  - intros x y H. rewrite !Qred_correct. lra.
  - intros z _. apply Qred_correct.
Defined.

Section ops.
Context `{R : Rounding}.

Definition fadd (x y : Q) : Q := rnd (x + y).
Definition fsub (x y : Q) : Q := rnd (x - y).
Definition fmul (x y : Q) : Q := rnd (x * y).
Definition fdiv (x y : Q) : Q := rnd (x / y).
Definition float (z : Z) : Q := rnd (inject_Z z).
End ops.

Definition fltb (x y : Q) : bool := negb (Qle_bool y x).
Definition fleb (x y : Q) : bool := Qle_bool x y.

(** [int64(f)] for an in-range [f]: truncation toward zero. *)
Definition ftrunc (x : Q) : Z := if fleb 0 x then Qfloor x else Qceiling x.

Lemma fltb_lt x y : fltb x y = true <-> x < y.
Proof.
  unfold fltb. rewrite negb_true_iff. split.
  - intros H. apply Qnot_le_lt. intros E. apply Qle_bool_iff in E. congruence.
  - intros H. apply not_true_iff_false. intros E. apply Qle_bool_iff in E. lra.
Qed.
Lemma fltb_ge x y : fltb x y = false <-> y <= x.
Proof. unfold fltb. rewrite negb_false_iff. apply Qle_bool_iff. Qed.
Lemma fleb_le x y : fleb x y = true <-> x <= y.
Proof. apply Qle_bool_iff. Qed.
Lemma fleb_gt x y : fleb x y = false <-> y < x.
Proof. rewrite <- fltb_lt. unfold fltb, fleb. by rewrite negb_true_iff. Qed.

(** Turn a boolean float comparison in a hypothesis into the order on Q. *)
Ltac fcompare :=
  repeat match goal with
  | H : fltb _ _ = true |- _ => apply fltb_lt in H
  | H : fltb _ _ = false |- _ => apply fltb_ge in H
  | H : fleb _ _ = true |- _ => apply fleb_le in H
  | H : fleb _ _ = false |- _ => apply fleb_gt in H
  end.

(** ** Facts about rounding *)

Section facts.
Context `{R : Rounding}.

Lemma rnd_0 : rnd 0 == 0.
Proof. exact (rnd_Z 0 ltac:(lia)). Qed.

Lemma rnd_nonneg x : 0 <= x -> 0 <= rnd x.
Proof. intros H%rnd_mono. rewrite rnd_0 in H. exact H. Qed.

Lemma float_id z : (Z.abs z <= 2 ^ 53)%Z -> float z == inject_Z z.
Proof. apply rnd_Z. Qed.

Lemma fsub_Z a b : (Z.abs (a - b) <= 2 ^ 53)%Z -> fsub (inject_Z a) (inject_Z b) == inject_Z (a - b).
Proof.
  intros H. unfold fsub.
  assert (inject_Z a - inject_Z b == inject_Z (a - b)) as ->.
  { unfold Z.sub. rewrite inject_Z_plus, inject_Z_opp. reflexivity. }
  by apply rnd_Z.
Qed.

#[global] Instance fadd_proper : Proper (Qeq ==> Qeq ==> Qeq) fadd.
Proof. intros x x' Hx y y' Hy. unfold fadd. by rewrite Hx, Hy. Qed.
#[global] Instance fsub_proper : Proper (Qeq ==> Qeq ==> Qeq) fsub.
Proof. intros x x' Hx y y' Hy. unfold fsub. by rewrite Hx, Hy. Qed.
#[global] Instance fmul_proper : Proper (Qeq ==> Qeq ==> Qeq) fmul.
Proof. intros x x' Hx y y' Hy. unfold fmul. by rewrite Hx, Hy. Qed.
#[global] Instance fdiv_proper : Proper (Qeq ==> Qeq ==> Qeq) fdiv.
Proof. intros x x' Hx y y' Hy. unfold fdiv. by rewrite Hx, Hy. Qed.
End facts.

#[export] Instance fltb_proper : Proper (Qeq ==> Qeq ==> eq) fltb.
Proof. intros x x' Hx y y' Hy. unfold fltb. by rewrite Hx, Hy. Qed.
#[export] Instance fleb_proper : Proper (Qeq ==> Qeq ==> eq) fleb.
Proof. intros x x' Hx y y' Hy. unfold fleb. by rewrite Hx, Hy. Qed.

(** Under [exact_rounding] every operation is the exact one. *)
Lemma exact_fadd x y : fadd (R := exact_rounding) x y == x + y.
Proof. apply Qred_correct. Qed.
Lemma exact_fsub x y : fsub (R := exact_rounding) x y == x - y.
Proof. apply Qred_correct. Qed.
Lemma exact_fmul x y : fmul (R := exact_rounding) x y == x * y.
Proof. apply Qred_correct. Qed.
Lemma exact_fdiv x y : fdiv (R := exact_rounding) x y == x / y.
Proof. apply Qred_correct. Qed.
Lemma exact_float z : float (R := exact_rounding) z == inject_Z z.
Proof. apply Qred_correct. Qed.

Create Rewrite HintDb exact.
#[export] Hint Rewrite exact_fadd exact_fsub exact_fmul exact_fdiv exact_float : exact.
