(* ===== verification/GoNet.v ===== *)
(** * Go's [net], [net/url] and [net/http] data

    IP addresses, their text form and CIDR networks ([net.ParseIP],
    [net.ParseCIDR], [IPNet.Contains]), [net.SplitHostPort],
    [url.URL.Hostname], and the request and response data the handlers read. *)
From S2P Require Import Prelude GoStrings.
From Stdlib Require Import Ascii.

Local Open Scope Z_scope.

(** ** IP addresses: 4 or 16 bytes *)

Abbreviation IP := (list Z).

Definition v4InV6Prefix : list Z := [0; 0; 0; 0; 0; 0; 0; 0; 0; 0; 255; 255].

Definition To4 (ip : IP) : option IP :=
  if bool_decide (length ip = 4%nat) then Some ip
  else if bool_decide (length ip = 16%nat) && bool_decide (take 12 ip = v4InV6Prefix)
       then Some (drop 12 ip) else None.

(** A decimal field of a dotted quad: 1 to 3 digits, no leading zero, at most 255. *)
Definition parse_octet (s : string) : option Z :=
  match s with
  | EmptyString => None
  | String c rest =>
      if negb (all_in is_digit s) || (3 <? len s) then None
      else if bool_decide (c = "0"%char) && negb (bool_decide (rest = "")) then None
      else v ← parse_digits 0 s; if v <=? 255 then Some v else None
  end.
Definition parseIPv4 (s : string) : option IP :=
  match Split "." s with
  | [a; b; c; d] =>
      a ← parse_octet a; b ← parse_octet b; c ← parse_octet c; d ← parse_octet d; Some [a; b; c; d]
  | _ => None
  end.

Definition hex_value (c : ascii) : option Z :=
  if is_digit c then Some (byteZ c - 48)
  else if (97 <=? byteZ c) && (byteZ c <=? 102) then Some (byteZ c - 87)
  else if (65 <=? byteZ c) && (byteZ c <=? 70) then Some (byteZ c - 55)
  else None.

(** The longest prefix of hex digits: (value, digits read, rest). *)
Fixpoint hex_prefix (acc : Z) (n : nat) (s : string) : Z * nat * string :=
  match s with
  | String c s' =>
      match hex_value c with
      | Some v => hex_prefix (acc * 16 + v) (S n) s'
      | None => (acc, n, s)
      end
  | EmptyString => (acc, n, s)
  end.

(** The group loop of [netip.parseIPv6]: [acc] is the bytes so far and [ell] the
    position of the ellipsis; a turn adds two or four bytes, so eight turns are
    enough for sixteen bytes. Returns what is left of the text. *)
Fixpoint ipv6_groups (fuel : nat) (acc : list Z) (ell : option nat) (s : string)
    : option (list Z * option nat * string) :=
  match fuel with
  | O => Some (acc, ell, s)
  | S fuel' =>
      let '(v, n, rest) := hex_prefix 0 0 s in
      if (bool_decide (n = 0%nat) || bool_decide (4 < n)%nat) then None
      else if HasPrefix rest "." then
        if (bool_decide (ell = None) && negb (bool_decide (length acc = 12%nat)))
           || bool_decide (16 < length acc + 4)%nat then None
        else q ← parseIPv4 s; Some (acc ++ q, ell, "")
      else
        let acc := acc ++ [v / 256; v mod 256] in
        match rest with
        | EmptyString => Some (acc, ell, "")
        | String c rest1 =>
            if negb (bool_decide (c = ":"%char)) then None
            else match rest1 with
            | EmptyString => None
            | String c2 rest2 =>
                if bool_decide (c2 = ":"%char) then
                  match ell with
                  | Some _ => None
                  | None =>
                      match rest2 with
                      | EmptyString => Some (acc, Some (length acc), "")
                      | _ => ipv6_groups fuel' acc (Some (length acc)) rest2
                      end
                  end
                else ipv6_groups fuel' acc ell rest1
            end
        end
  end.

Definition parseIPv6 (s : string) : option IP :=
  let start :=
    match CutPrefix s "::" with
    | Some "" => Some (replicate 16 0)
    | _ => None
    end in
  match start with
  | Some ip => Some ip
  | None =>
      let '(ell, body) :=
        match CutPrefix s "::" with Some t => (Some 0%nat, t) | None => (None, s) end in
      r ← ipv6_groups 8 [] ell body;
      let '(acc, ell, rest) := r in
      if negb (bool_decide (rest = "")) then None
      else if bool_decide (length acc < 16)%nat then
        e ← ell; Some (take e acc ++ replicate (16 - length acc) 0 ++ drop e acc)
      else if bool_decide (is_Some ell) then None else Some acc
  end.

(** [netip.ParseAddr]: the first of '.', ':' and '%' decides the form. *)
Fixpoint addr_form (s : string) : option ascii :=
  match s with
  | EmptyString => None
  | String c s' =>
      if bool_decide (c = "."%char) || bool_decide (c = ":"%char) || bool_decide (c = "%"%char)
      then Some c else addr_form s'
  end.
(** A zone ("%eth0") is refused by [net.ParseIP] and [net.ParseCIDR]. *)
Definition ParseAddr (s : string) : option IP :=
  if Contains s "%" then None else
  match addr_form s with
  | Some c => if bool_decide (c = "."%char) then parseIPv4 s else parseIPv6 s
  | None => None
  end.

Definition to16 (ip : IP) : IP :=
  if bool_decide (length ip = 4%nat) then v4InV6Prefix ++ ip else ip.
Definition ParseIP (s : string) : option IP := to16 <$> ParseAddr s.

(** ** Networks *)

Record IPNet := mkIPNet { net_IP : IP; net_Mask : list Z }.

Definition and_bytes (a b : list Z) : list Z := zip_with Z.land a b.

(** [CIDRMask(ones, 8 * bytes)]. *)
Fixpoint CIDRMask (ones : Z) (bytes : nat) : list Z :=
  match bytes with
  | O => []
  | S n =>
      (if 8 <=? ones then 255 else if ones <=? 0 then 0 else 256 - 2 ^ (8 - ones))
      :: CIDRMask (ones - 8) n
  end.

(** The prefix length: decimal digits below 0xFFFFFF. *)
Definition dtoi (s : string) : option Z :=
  match s with
  | EmptyString => None
  | _ => v ← parse_digits 0 s; if v <? 16777215 then Some v else None
  end.

(** [net.ParseCIDR], the network part of its result. *)
Definition ParseCIDR (s : string) : option IPNet :=
  let '(addr, mask, found) := Cut "/" s in
  if negb found then None else
  ip ← ParseAddr addr;
  n ← dtoi mask;
  if 8 * Z.of_nat (length ip) <? n then None
  else
    let m := CIDRMask n (length ip) in
    Some (mkIPNet (and_bytes ip m) m).

(** [networkNumberAndMask] and [IPNet.Contains]. *)
Definition networkNumberAndMask (n : IPNet) : list Z * list Z :=
  let ip := default (net_IP n) (To4 (net_IP n)) in
  if negb (bool_decide (length ip = 4%nat)) && negb (bool_decide (length ip = 16%nat)) then ([], [])
  else
    let m := net_Mask n in
    if bool_decide (length m = 4%nat) then
      if bool_decide (length ip = 4%nat) then (ip, m) else ([], [])
    else if bool_decide (length m = 16%nat) then
      (ip, if bool_decide (length ip = 4%nat) then drop 12 m else m)
    else ([], []).

Definition IPNet_Contains (n : IPNet) (ip : IP) : bool :=
  let '(nn, m) := networkNumberAndMask n in
  let ip := default ip (To4 ip) in
  bool_decide (length ip = length nn) && bool_decide (and_bytes nn m = and_bytes ip m).

(** ** Host and port *)

Definition LastIndexByte (c : ascii) (s : string) : option nat :=
  (fix go s i acc :=
     match s with
     | EmptyString => acc
     | String d s' => go s' (S i) (if bool_decide (d = c) then Some i else acc)
     end) s 0%nat None.
Definition IndexByte (c : ascii) (s : string) : option nat :=
  let '(a, _, found) := Cut c s in if found : bool then Some (String.length a) else None.
Definition slice (s : string) (i j : nat) : string := String.substring i (j - i) s.
Definition slice_from (s : string) (i : nat) : string := slice s i (String.length s).

(** [net.SplitHostPort]; [None] is an error. *)
Definition SplitHostPort (hostport : string) : option (string * string) :=
  i ← LastIndexByte ":" hostport;
  r ← (if HasPrefix hostport "[" then
         e ← IndexByte "]" hostport;
         if bool_decide (S e = i) then Some (slice hostport 1 e, 1%nat, S e) else None
       else
         let host := slice hostport 0 i in
         if Contains host ":" then None else Some (host, 0%nat, 0%nat));
  let '(host, j, k) := r in
  if Contains (slice_from hostport j) "[" || Contains (slice_from hostport k) "]" then None
  else Some (host, slice_from hostport (S i)).

(** The parts of [url.URL] the program reads. *)
Record URL := mkURL { URL_Scheme : string; URL_Host : string; URL_Path : string; URL_RawQuery : string }.

Definition validOptionalPort (p : string) : bool :=
  match p with EmptyString => true | String c s => bool_decide (c = ":"%char) && all_in is_digit s end.

(** [URL.Hostname]. *)
Definition Hostname (u : URL) : string :=
  let h := URL_Host u in
  let h := match LastIndexByte ":" h with
           | Some i => if validOptionalPort (slice_from h i) then slice h 0 i else h
           | None => h
           end in
  if HasPrefix h "[" && HasSuffix h "]" then slice h 1 (String.length h - 1) else h.

(** ** Requests *)

(** The fields of [http.Request] the handlers read; the body is opaque. *)
Record Request := mkRequest {
  Method : string;
  ReqURL : URL;
  RequestURI : string;
  Host : string;
  RemoteAddr : string;
  ReqHeader : Header;
  ProtoMajor : Z;
  ReqTLS : bool;
  ContentLength : Z
}.

Definition with_header (r : Request) (h : Header) : Request :=
  mkRequest (Method r) (ReqURL r) (RequestURI r) (Host r) (RemoteAddr r) h (ProtoMajor r) (ReqTLS r)
    (ContentLength r).

(** ** Lemmas *)

Example parse_ip_v4 : ParseIP "192.168.1.7" = Some (v4InV6Prefix ++ [192; 168; 1; 7]).
Proof. reflexivity. Qed.
Example parse_ip_v6 : ParseIP "fe80::1" = Some [254; 128; 0; 0; 0; 0; 0; 0; 0; 0; 0; 0; 0; 0; 0; 1].
Proof. reflexivity. Qed.
Example parse_ip_mapped : ParseIP "::ffff:10.0.0.1" = ParseIP "10.0.0.1".
Proof. reflexivity. Qed.
Example parse_ip_bad : ParseIP "010.0.0.1" = None /\ ParseIP "1::2::3" = None /\ ParseIP "1:2" = None.
Proof. repeat split. Qed.
Example parse_cidr : ParseCIDR "172.16.9.1/12" = Some (mkIPNet [172; 16; 0; 0] [255; 240; 0; 0]).
Proof. reflexivity. Qed.
Example split_v6 : SplitHostPort "[::1]:443" = Some ("::1", "443").
Proof. reflexivity. Qed.

(** A 16-byte IPv4-mapped address is in a network iff its 4-byte form is. *)
Lemma Contains_to16 n ip : length ip = 4%nat -> IPNet_Contains n (to16 ip) = IPNet_Contains n ip.
Proof.
  intros Hl. unfold IPNet_Contains, to16. rewrite bool_decide_eq_true_2 by done.
  destruct (networkNumberAndMask n) as [nn m].
  assert (To4 (v4InV6Prefix ++ ip) = Some ip) as ->.
  { unfold To4. rewrite bool_decide_eq_false_2 by (rewrite length_app; simpl; lia).
    rewrite !bool_decide_eq_true_2; [done|done|rewrite length_app; simpl; lia]. }
  assert (To4 ip = Some ip) as ->; [|done].
  unfold To4. by rewrite bool_decide_eq_true_2.
Qed.
