(* ===== verification/ConfigTypes.v ===== *)
(** * Configuration data

    The structs of [internal/config/config.go], with the source's field names
    behind a two-letter prefix, the constants of its typed-string enums, and
    [Defaults]. The enums stay strings: the code loads them from YAML and the
    environment and has to cope with any text. [FallbackConfig] has the fields of
    [StaticRateLimitConfig]; the three gRPC sections have one shape. *)
From S2P Require Import Prelude GoStrings.
From Stdlib Require Export QArith.

Local Open Scope Z_scope.

Record CacheConfig := mkCacheConfig {
  cc_Enabled : bool;
  cc_MaxBodySize : string
}.

Record HeaderFilterConfig := mkHeaderFilterConfig {
  hfc_AllowList : list string;
  hfc_DenyList : list string
}.

Record GRPCTLSConfig := mkGRPCTLSConfig {
  gt_Enabled : bool;
  gt_CAFile : string;
  gt_ServerName : string
}.

Record EventsHTTPConfig := mkEventsHTTPConfig {
  eh_URL : string;
  eh_Headers : gmap string string;
  eh_AuthToken : string;
  eh_AuthHeader : string
}.

Record GRPCConfig := mkGRPCConfig {
  gc_Address : string;
  gc_TLS : GRPCTLSConfig
}.

Record EventsConfig := mkEventsConfig {
  ev_Enabled : bool;
  ev_HTTP : EventsHTTPConfig;
  ev_GRPC : GRPCConfig;
  ev_BatchSize : Z;
  ev_FlushInterval : string;
  ev_BufferSize : Z;
  ev_MaxRetries : Z;
  ev_RetryBackoff : string;
  ev_HeaderFilter : HeaderFilterConfig
}.

Record MTLSConfig := mkMTLSConfig {
  mt_Enabled : bool;
  mt_ListenAddr : string;
  mt_ClientCAFile : string;
  mt_ClientAuth : string
}.

Record ServerTLSConfig := mkServerTLSConfig {
  st_Enabled : bool;
  st_CertFile : string;
  st_KeyFile : string;
  st_HTTP3Enabled : bool;
  st_HTTP3AdvertisePort : Z;
  st_MinVersion : string;
  st_MTLS : MTLSConfig
}.

Record ServerConfig := mkServerConfig {
  sc_Address : string;
  sc_ReadTimeout : string;
  sc_WriteTimeout : string;
  sc_IdleTimeout : string;
  sc_DrainTimeout : string;
  sc_RequestTimeout : string;
  sc_TLS : ServerTLSConfig;
  sc_MaxConcurrentRequests : Z;
  sc_AllowedWebSocketOrigins : list string;
  sc_MaxWebSocketConnsPerKey : Z;
  sc_MaxWebSocketTransferBytes : Z;
  sc_WebSocketIdleTimeout : string;
  sc_BypassPreflightAuth : bool
}.

Record AdminConfig := mkAdminConfig {
  ac_Address : string;
  ac_ReadTimeout : string;
  ac_WriteTimeout : string;
  ac_IdleTimeout : string
}.

Record TransportConfig := mkTransportConfig {
  tc_BackendProtocol : string;
  tc_DialTimeout : string;
  tc_DialKeepAlive : string;
  tc_TLSHandshakeTimeout : string;
  tc_ExpectContinueTimeout : string;
  tc_H2ReadIdleTimeout : string;
  tc_H2PingTimeout : string;
  tc_WebSocketDialTimeout : string;
  tc_H3UDPReceiveBufferSize : Z;
  tc_H3UDPSendBufferSize : Z
}.

Record URLPolicyConfig := mkURLPolicyConfig {
  up_AllowedSchemes : list string;
  up_DenyPrivateNetworks : option bool;
  up_AllowedHosts : list string
}.

Record BackendConfig := mkBackendConfig {
  bc_Timeout : string;
  bc_MaxIdleConns : Z;
  bc_IdleConnTimeout : string;
  bc_TLSInsecureVerify : bool;
  bc_MaxRequestBodySize : Z;
  bc_Transport : TransportConfig;
  bc_URLPolicy : URLPolicyConfig
}.

Record CircuitBreakerConfig := mkCircuitBreakerConfig {
  cb_Threshold : Z;
  cb_ResetTimeout : string
}.

Record AuthHTTPConfig := mkAuthHTTPConfig {
  ah_URL : string;
  ah_ForwardOriginalHeaders : bool
}.

Record AuthConfig := mkAuthConfig {
  au_Enabled : bool;
  au_Timeout : string;
  au_FailurePolicy : string;
  au_HTTP : AuthHTTPConfig;
  au_GRPC : GRPCConfig;
  au_HeaderFilter : HeaderFilterConfig;
  au_AllowedInjectionHeaders : list string;
  au_PropagateRequestBody : bool;
  au_MaxAuthBodySize : Z;
  au_CircuitBreaker : CircuitBreakerConfig
}.

Record KeyStrategyConfig := mkKeyStrategyConfig {
  ks_Type : string;
  ks_HeaderName : string;
  ks_PathPrefix : bool;
  ks_GlobalKey : string;
  ks_TrustedProxies : list string;
  ks_TrustedIPDepth : Z
}.

Record StaticRateLimitConfig := mkStaticRateLimitConfig {
  rs_Average : Z;
  rs_Burst : Z;
  rs_Period : string;
  rs_KeyStrategy : KeyStrategyConfig;
  rs_BackendURL : string
}.

Record ExternalRLConfig := mkExternalRLConfig {
  xr_Enabled : bool;
  xr_Timeout : string;
  xr_FailurePolicy : string;
  xr_HTTPURL : string;
  xr_GRPC : GRPCConfig;
  xr_HeaderFilter : HeaderFilterConfig;
  xr_Fallback : StaticRateLimitConfig;
  xr_MaxConcurrentRequests : Z;
  xr_MaxCircuitBreakers : Z;
  xr_MaxLatency : string;
  xr_CircuitBreaker : CircuitBreakerConfig
}.

Record RateLimitConfig := mkRateLimitConfig {
  rl_Static : StaticRateLimitConfig;
  rl_FailurePolicy : string;
  rl_FailureCode : Z;
  rl_KeyPrefix : string;
  rl_External : ExternalRLConfig;
  rl_MinTTL : string;
  rl_MaxRecoveryAttempts : Z;
  rl_GlobalPassthroughRPS : Q
}.

Record RedisTLSConfig := mkRedisTLSConfig {
  rt_Enabled : bool;
  rt_InsecureSkipVerify : bool
}.

Record RedisConfig := mkRedisConfig {
  rc_Endpoints : list string;
  rc_Mode : string;
  rc_MasterName : string;
  rc_Username : string;
  rc_Password : string;
  rc_DB : Z;
  rc_PoolSize : Z;
  rc_DialTimeout : string;
  rc_ReadTimeout : string;
  rc_WriteTimeout : string;
  rc_TLS : RedisTLSConfig;
  rc_SentinelUsername : string;
  rc_SentinelPassword : string
}.

Record LoggingConfig := mkLoggingConfig {
  lc_Level : string;
  lc_Format : string;
  lc_AccessLog : option bool
}.

Record TracingConfig := mkTracingConfig {
  tr_Enabled : bool;
  tr_Protocol : string;
  tr_Endpoint : string;
  tr_Insecure : bool;
  tr_ServiceName : string;
  tr_SampleRate : Q;
  tr_Level : string
}.

Record MetricsConfig := mkMetricsConfig {
  me_Enabled : bool
}.

Record Config := mkConfig {
  cfg_Server : ServerConfig;
  cfg_Admin : AdminConfig;
  cfg_Backend : BackendConfig;
  cfg_Auth : AuthConfig;
  cfg_RateLimit : RateLimitConfig;
  cfg_Redis : RedisConfig;
  cfg_CacheRedis : option RedisConfig;
  cfg_Cache : CacheConfig;
  cfg_ResponseCacheRedis : option RedisConfig;
  cfg_Events : EventsConfig;
  cfg_Logging : LoggingConfig;
  cfg_Tracing : TracingConfig;
  cfg_Metrics : MetricsConfig
}.

(** ** Field updates *)

Definition set_mt_ClientAuth (x : string) (r : MTLSConfig) : MTLSConfig :=
  mkMTLSConfig (mt_Enabled r) (mt_ListenAddr r) (mt_ClientCAFile r) x.

Definition set_st_MinVersion (x : string) (r : ServerTLSConfig) : ServerTLSConfig :=
  mkServerTLSConfig (st_Enabled r) (st_CertFile r) (st_KeyFile r) (st_HTTP3Enabled r) (st_HTTP3AdvertisePort r) x (st_MTLS r).

Definition set_st_MTLS (x : MTLSConfig) (r : ServerTLSConfig) : ServerTLSConfig :=
  mkServerTLSConfig (st_Enabled r) (st_CertFile r) (st_KeyFile r) (st_HTTP3Enabled r) (st_HTTP3AdvertisePort r) (st_MinVersion r) x.

Definition set_sc_TLS (x : ServerTLSConfig) (r : ServerConfig) : ServerConfig :=
  mkServerConfig (sc_Address r) (sc_ReadTimeout r) (sc_WriteTimeout r) (sc_IdleTimeout r) (sc_DrainTimeout r) (sc_RequestTimeout r) x (sc_MaxConcurrentRequests r) (sc_AllowedWebSocketOrigins r) (sc_MaxWebSocketConnsPerKey r) (sc_MaxWebSocketTransferBytes r) (sc_WebSocketIdleTimeout r) (sc_BypassPreflightAuth r).

Definition set_au_FailurePolicy (x : string) (r : AuthConfig) : AuthConfig :=
  mkAuthConfig (au_Enabled r) (au_Timeout r) x (au_HTTP r) (au_GRPC r) (au_HeaderFilter r) (au_AllowedInjectionHeaders r) (au_PropagateRequestBody r) (au_MaxAuthBodySize r) (au_CircuitBreaker r).

Definition set_ks_Type (x : string) (r : KeyStrategyConfig) : KeyStrategyConfig :=
  mkKeyStrategyConfig x (ks_HeaderName r) (ks_PathPrefix r) (ks_GlobalKey r) (ks_TrustedProxies r) (ks_TrustedIPDepth r).

Definition set_rs_Burst (x : Z) (r : StaticRateLimitConfig) : StaticRateLimitConfig :=
  mkStaticRateLimitConfig (rs_Average r) x (rs_Period r) (rs_KeyStrategy r) (rs_BackendURL r).

Definition set_rs_KeyStrategy (x : KeyStrategyConfig) (r : StaticRateLimitConfig) : StaticRateLimitConfig :=
  mkStaticRateLimitConfig (rs_Average r) (rs_Burst r) (rs_Period r) x (rs_BackendURL r).

Definition set_rs_BackendURL (x : string) (r : StaticRateLimitConfig) : StaticRateLimitConfig :=
  mkStaticRateLimitConfig (rs_Average r) (rs_Burst r) (rs_Period r) (rs_KeyStrategy r) x.

Definition set_xr_FailurePolicy (x : string) (r : ExternalRLConfig) : ExternalRLConfig :=
  mkExternalRLConfig (xr_Enabled r) (xr_Timeout r) x (xr_HTTPURL r) (xr_GRPC r) (xr_HeaderFilter r) (xr_Fallback r) (xr_MaxConcurrentRequests r) (xr_MaxCircuitBreakers r) (xr_MaxLatency r) (xr_CircuitBreaker r).

Definition set_xr_Fallback (x : StaticRateLimitConfig) (r : ExternalRLConfig) : ExternalRLConfig :=
  mkExternalRLConfig (xr_Enabled r) (xr_Timeout r) (xr_FailurePolicy r) (xr_HTTPURL r) (xr_GRPC r) (xr_HeaderFilter r) x (xr_MaxConcurrentRequests r) (xr_MaxCircuitBreakers r) (xr_MaxLatency r) (xr_CircuitBreaker r).

Definition set_rl_Static (x : StaticRateLimitConfig) (r : RateLimitConfig) : RateLimitConfig :=
  mkRateLimitConfig x (rl_FailurePolicy r) (rl_FailureCode r) (rl_KeyPrefix r) (rl_External r) (rl_MinTTL r) (rl_MaxRecoveryAttempts r) (rl_GlobalPassthroughRPS r).

Definition set_rl_FailurePolicy (x : string) (r : RateLimitConfig) : RateLimitConfig :=
  mkRateLimitConfig (rl_Static r) x (rl_FailureCode r) (rl_KeyPrefix r) (rl_External r) (rl_MinTTL r) (rl_MaxRecoveryAttempts r) (rl_GlobalPassthroughRPS r).

Definition set_rl_External (x : ExternalRLConfig) (r : RateLimitConfig) : RateLimitConfig :=
  mkRateLimitConfig (rl_Static r) (rl_FailurePolicy r) (rl_FailureCode r) (rl_KeyPrefix r) x (rl_MinTTL r) (rl_MaxRecoveryAttempts r) (rl_GlobalPassthroughRPS r).

Definition set_rc_Mode (x : string) (r : RedisConfig) : RedisConfig :=
  mkRedisConfig (rc_Endpoints r) x (rc_MasterName r) (rc_Username r) (rc_Password r) (rc_DB r) (rc_PoolSize r) (rc_DialTimeout r) (rc_ReadTimeout r) (rc_WriteTimeout r) (rc_TLS r) (rc_SentinelUsername r) (rc_SentinelPassword r).

Definition set_lc_Level (x : string) (r : LoggingConfig) : LoggingConfig :=
  mkLoggingConfig x (lc_Format r) (lc_AccessLog r).

Definition set_lc_Format (x : string) (r : LoggingConfig) : LoggingConfig :=
  mkLoggingConfig (lc_Level r) x (lc_AccessLog r).

Definition set_tr_Level (x : string) (r : TracingConfig) : TracingConfig :=
  mkTracingConfig (tr_Enabled r) (tr_Protocol r) (tr_Endpoint r) (tr_Insecure r) (tr_ServiceName r) (tr_SampleRate r) x.

Definition set_eh_Headers (x : gmap string string) (r : EventsHTTPConfig) : EventsHTTPConfig :=
  mkEventsHTTPConfig (eh_URL r) x (eh_AuthToken r) (eh_AuthHeader r).

Definition set_ev_HTTP (x : EventsHTTPConfig) (r : EventsConfig) : EventsConfig :=
  mkEventsConfig (ev_Enabled r) x (ev_GRPC r) (ev_BatchSize r) (ev_FlushInterval r) (ev_BufferSize r) (ev_MaxRetries r) (ev_RetryBackoff r) (ev_HeaderFilter r).

Definition set_cfg_Server (x : ServerConfig) (r : Config) : Config :=
  mkConfig x (cfg_Admin r) (cfg_Backend r) (cfg_Auth r) (cfg_RateLimit r) (cfg_Redis r) (cfg_CacheRedis r) (cfg_Cache r) (cfg_ResponseCacheRedis r) (cfg_Events r) (cfg_Logging r) (cfg_Tracing r) (cfg_Metrics r).

Definition set_cfg_Auth (x : AuthConfig) (r : Config) : Config :=
  mkConfig (cfg_Server r) (cfg_Admin r) (cfg_Backend r) x (cfg_RateLimit r) (cfg_Redis r) (cfg_CacheRedis r) (cfg_Cache r) (cfg_ResponseCacheRedis r) (cfg_Events r) (cfg_Logging r) (cfg_Tracing r) (cfg_Metrics r).

Definition set_cfg_RateLimit (x : RateLimitConfig) (r : Config) : Config :=
  mkConfig (cfg_Server r) (cfg_Admin r) (cfg_Backend r) (cfg_Auth r) x (cfg_Redis r) (cfg_CacheRedis r) (cfg_Cache r) (cfg_ResponseCacheRedis r) (cfg_Events r) (cfg_Logging r) (cfg_Tracing r) (cfg_Metrics r).

Definition set_cfg_Redis (x : RedisConfig) (r : Config) : Config :=
  mkConfig (cfg_Server r) (cfg_Admin r) (cfg_Backend r) (cfg_Auth r) (cfg_RateLimit r) x (cfg_CacheRedis r) (cfg_Cache r) (cfg_ResponseCacheRedis r) (cfg_Events r) (cfg_Logging r) (cfg_Tracing r) (cfg_Metrics r).

Definition set_cfg_CacheRedis (x : option RedisConfig) (r : Config) : Config :=
  mkConfig (cfg_Server r) (cfg_Admin r) (cfg_Backend r) (cfg_Auth r) (cfg_RateLimit r) (cfg_Redis r) x (cfg_Cache r) (cfg_ResponseCacheRedis r) (cfg_Events r) (cfg_Logging r) (cfg_Tracing r) (cfg_Metrics r).

Definition set_cfg_Events (x : EventsConfig) (r : Config) : Config :=
  mkConfig (cfg_Server r) (cfg_Admin r) (cfg_Backend r) (cfg_Auth r) (cfg_RateLimit r) (cfg_Redis r) (cfg_CacheRedis r) (cfg_Cache r) (cfg_ResponseCacheRedis r) x (cfg_Logging r) (cfg_Tracing r) (cfg_Metrics r).

Definition set_cfg_Logging (x : LoggingConfig) (r : Config) : Config :=
  mkConfig (cfg_Server r) (cfg_Admin r) (cfg_Backend r) (cfg_Auth r) (cfg_RateLimit r) (cfg_Redis r) (cfg_CacheRedis r) (cfg_Cache r) (cfg_ResponseCacheRedis r) (cfg_Events r) x (cfg_Tracing r) (cfg_Metrics r).

Definition set_cfg_Tracing (x : TracingConfig) (r : Config) : Config :=
  mkConfig (cfg_Server r) (cfg_Admin r) (cfg_Backend r) (cfg_Auth r) (cfg_RateLimit r) (cfg_Redis r) (cfg_CacheRedis r) (cfg_Cache r) (cfg_ResponseCacheRedis r) (cfg_Events r) (cfg_Logging r) x (cfg_Metrics r).

(** ** Defaults *)

Definition no_filter : HeaderFilterConfig := mkHeaderFilterConfig [] [].
Definition no_grpc : GRPCConfig := mkGRPCConfig "" (mkGRPCTLSConfig false "" "").
Definition no_breaker : CircuitBreakerConfig := mkCircuitBreakerConfig 0 "".
Definition no_key_strategy : KeyStrategyConfig := mkKeyStrategyConfig "" "" false "" [] 0.

Definition Defaults : Config := {|
  cfg_Server := mkServerConfig ":8080" "30s" "30s" "120s" "30s" "60s"
    (mkServerTLSConfig false "" "" false 0 "" (mkMTLSConfig false "" "" ""))
    0 [] 0 0 "" false;
  cfg_Admin := mkAdminConfig ":9090" "5s" "60s" "30s";
  cfg_Backend := mkBackendConfig "30s" 100 "90s" false (10 * 2 ^ 20)
    (mkTransportConfig "" "30s" "30s" "10s" "1s" "30s" "15s" "10s" 0 0)
    (mkURLPolicyConfig [] None []);
  cfg_Auth := mkAuthConfig false "5s" "" (mkAuthHTTPConfig "" false) no_grpc no_filter [] false 0 no_breaker;
  cfg_RateLimit := mkRateLimitConfig
    (mkStaticRateLimitConfig 0 1 "1s" (mkKeyStrategyConfig "clientip" "" false "" [] 0) "")
    "passthrough" 429 ""
    (mkExternalRLConfig false "5s" "" "" no_grpc no_filter
       (mkStaticRateLimitConfig 0 0 "" no_key_strategy "") 0 0 "" no_breaker)
    "" 0 0;
  cfg_Redis := mkRedisConfig ["localhost:6379"] "single" "" "" "" 0 10 "5s" "3s" "3s"
    (mkRedisTLSConfig false false) "" "";
  cfg_CacheRedis := None;
  cfg_Cache := mkCacheConfig false "";
  cfg_ResponseCacheRedis := None;
  cfg_Events := mkEventsConfig false (mkEventsHTTPConfig "" ∅ "" "") no_grpc 0 "" 0 0 "" no_filter;
  cfg_Logging := mkLoggingConfig "info" "json" None;
  cfg_Tracing := mkTracingConfig false "grpc" "" true "edgequota" (1 # 10) "";
  cfg_Metrics := mkMetricsConfig false
|}.
