(* ===== verification/Config.v ===== *)
(** * Configuration: enums, filters, normalisation, validation

    The functions of [internal/config/config.go] over the data of
    [ConfigTypes]. Reading the file and the environment is I/O and not
    modelled. [url.Parse] and [URL.String] are parameters of the functions
    that normalise a backend URL; everything else is concrete. *)
From S2P Require Import Prelude GoStrings GoTime GoNet ConfigTypes.
From Stdlib Require Import Ascii.

Local Open Scope Z_scope.

(** ** Enums *)

Definition one_of (l : list string) (s : string) : bool := bool_decide (s ∈ l).

Definition FailurePolicy_Valid := one_of ["passthrough"; "failclosed"; "inmemoryfallback"].
Definition KeyStrategyType_Valid := one_of ["clientip"; "header"; "composite"; "global"].
Definition RedisMode_Valid := one_of ["single"; "replication"; "sentinel"; "cluster"].
Definition LogLevel_Valid := one_of ["debug"; "info"; "warn"; "error"].
Definition LogFormat_Valid := one_of ["json"; "text"].
Definition TLSVersion_Valid := one_of ["1.2"; "1.3"; ""].
Definition ClientAuthMode_Valid := one_of ["request"; "require_any"; "require_and_verify"; ""].
Definition AuthFailurePolicy_Valid := one_of ["failclosed"; "failopen"; ""].
Definition ExternalRLFailurePolicy_Valid := one_of ["static_fallback"; "failclosed"; ""].
Definition TracingLevel_Valid := one_of ["basic"; "external"; "full"; ""].
Definition TracingProtocol_Valid := one_of ["grpc"; "http"; ""].

(** ** Small accessors *)

Definition ParseMaxBodySize (c : CacheConfig) : Z :=
  let s := TrimSpace (ToUpper (cc_MaxBodySize c)) in
  if bool_decide (s = "") then 2 ^ 20 else
  let '(multiplier, s) :=
    if HasSuffix s "GB" then (2 ^ 30, TrimSuffix s "GB")
    else if HasSuffix s "MB" then (2 ^ 20, TrimSuffix s "MB")
    else if HasSuffix s "KB" then (2 ^ 10, TrimSuffix s "KB")
    else (1, s) in
  match ParseInt (TrimSpace s) with
  | Some n => if n <=? 0 then 2 ^ 20 else wrap64 (n * multiplier)
  | None => 2 ^ 20
  end.

Definition CacheRedisConfig (c : Config) : RedisConfig :=
  match cfg_CacheRedis c with
  | Some r => if bool_decide (rc_Endpoints r = []) then cfg_Redis c else r
  | None => cfg_Redis c
  end.

Definition ResponseCacheRedisConfig (c : Config) : RedisConfig :=
  match cfg_ResponseCacheRedis c with
  | Some r => if bool_decide (rc_Endpoints r = []) then CacheRedisConfig c else r
  | None => CacheRedisConfig c
  end.

Definition ResolvedClientAuth (m : MTLSConfig) : string :=
  if bool_decide (mt_ClientAuth m = "") then "require_and_verify" else mt_ClientAuth m.

Definition DenyPrivateNetworksEnabled (p : URLPolicyConfig) : bool :=
  default true (up_DenyPrivateNetworks p).

Definition ResolvedBackendProtocol (c : TransportConfig) : string :=
  if bool_decide (tc_BackendProtocol c = "") then "auto" else tc_BackendProtocol c.

Definition ValidateBackendProtocol (c : TransportConfig) : option error :=
  if one_of [""; "auto"; "h1"; "h2"; "h3"] (tc_BackendProtocol c) then None
  else Some (errorf "invalid backend_protocol: must be auto, h1, h2, or h3").

Definition ResolveServerName (c : GRPCTLSConfig) (grpcAddress : string) : string :=
  if negb (bool_decide (gt_ServerName c = "")) then gt_ServerName c
  else match SplitHostPort grpcAddress with
       | Some (host, _) => host
       | None => grpcAddress
       end.

Definition AccessLogEnabled (l : LoggingConfig) : bool := default true (lc_AccessLog l).

Definition ResolvedProtocol (c : TracingConfig) : string :=
  if one_of ["grpc"; "http"] (tr_Protocol c) then tr_Protocol c else "grpc".

Definition ResolvedLevel (c : TracingConfig) : string :=
  if one_of ["basic"; "external"; "full"] (tr_Level c) then tr_Level c else "external".

Definition redactedPlaceholder : string := "[REDACTED]".
Definition RedactedString_String (r : string) : string :=
  if bool_decide (r = "") then "" else redactedPlaceholder.

(** [TransportConfig] is compared with Go's struct equality. *)
#[export] Instance TransportConfig_eq_dec : EqDecision TransportConfig.
Proof. solve_decision. Defined.

Definition BackendConfig_Equal (b other : BackendConfig) : bool :=
  if negb (bool_decide (bc_Timeout b = bc_Timeout other)) ||
     negb (bool_decide (bc_MaxIdleConns b = bc_MaxIdleConns other)) ||
     negb (bool_decide (bc_IdleConnTimeout b = bc_IdleConnTimeout other)) ||
     negb (bool_decide (bc_TLSInsecureVerify b = bc_TLSInsecureVerify other)) ||
     negb (bool_decide (bc_MaxRequestBodySize b = bc_MaxRequestBodySize other)) then false
  else if negb (bool_decide (bc_Transport b = bc_Transport other)) then false
  else if negb (bool_decide (DenyPrivateNetworksEnabled (bc_URLPolicy b)
                             = DenyPrivateNetworksEnabled (bc_URLPolicy other))) then false
  else
    let same (l m : list string) :=
      bool_decide (length l = length m) &&
      forallb (fun p => bool_decide (p.1 = p.2)) (zip l m) in
    same (up_AllowedSchemes (bc_URLPolicy b)) (up_AllowedSchemes (bc_URLPolicy other)) &&
    same (up_AllowedHosts (bc_URLPolicy b)) (up_AllowedHosts (bc_URLPolicy other)).

Definition ParseDuration (s : string) (def : Z) : result Z :=
  if bool_decide (s = "") then Ok def
  else match time_ParseDuration s with
       | Some d => Ok d
       | None => Err (errorf ("time: invalid duration " +:+ s))
       end.

Definition MustParseDuration (s : string) (def : Z) : Z :=
  match ParseDuration s def with Ok d => d | Err _ => def end.

Definition RequiresRestart (c : Config) (old : option Config) : list string :=
  match old with
  | None => []
  | Some old =>
      (if bool_decide (sc_Address (cfg_Server c) = sc_Address (cfg_Server old)) then [] else ["server.address"]) ++
      (if bool_decide (ac_Address (cfg_Admin c) = ac_Address (cfg_Admin old)) then [] else ["admin.address"]) ++
      (if bool_decide (rc_Mode (cfg_Redis c) = rc_Mode (cfg_Redis old)) then [] else ["redis.mode"]) ++
      (if bool_decide (st_Enabled (sc_TLS (cfg_Server c)) = st_Enabled (sc_TLS (cfg_Server old)))
       then [] else ["server.tls.enabled"]) ++
      (if bool_decide (st_HTTP3Enabled (sc_TLS (cfg_Server c)) = st_HTTP3Enabled (sc_TLS (cfg_Server old)))
       then [] else ["server.tls.http3_enabled"]) ++
      (if bool_decide (mt_Enabled (st_MTLS (sc_TLS (cfg_Server c))) = mt_Enabled (st_MTLS (sc_TLS (cfg_Server old))))
       then [] else ["server.tls.mtls.enabled"]) ++
      (if bool_decide (mt_ListenAddr (st_MTLS (sc_TLS (cfg_Server c))) = mt_ListenAddr (st_MTLS (sc_TLS (cfg_Server old))))
       then [] else ["server.tls.mtls.listen_addr"])
  end.

(** ** Header filters *)

Definition DefaultSensitiveHeaders : list string :=
  ["Authorization"; "Cookie"; "Set-Cookie"; "Proxy-Authorization"; "Proxy-Authenticate";
   "X-Api-Key"; "X-Csrf-Token"; "X-Xsrf-Token"].

Definition DefaultAuthDenyHeaders : list string :=
  ["Cookie"; "Set-Cookie"; "Proxy-Authorization"; "Proxy-Authenticate"; "X-Csrf-Token"; "X-Xsrf-Token"].

Definition DefaultEphemeralHeaders : list string :=
  ["Traceparent"; "Tracestate"; "X-B3-Traceid"; "X-B3-Spanid"; "X-B3-Parentspanid"; "X-B3-Sampled";
   "X-B3-Flags"; "B3"; "Uber-Trace-Id"; "X-Amzn-Trace-Id"; "X-Cloud-Trace-Context"; "X-Request-Id";
   "X-Correlation-Id"; "Request-Id"; "X-Req-Id"; "X-Envoy-Attempt-Count"; "X-Envoy-External-Address";
   "X-Envoy-Decorator-Operation"; "X-Envoy-Upstream-Service-Time"; "X-Forwarded-For";
   "X-Forwarded-Proto"; "X-Forwarded-Host"; "X-Forwarded-Port"; "X-Real-Ip"; "Forwarded"; "Via";
   "X-Amz-Cf-Id"; "Cf-Ray"; "Cdn-Loop"; "X-Request-Start"; "X-Queue-Start"; "True-Client-Ip"].

Definition lower_set (l : list string) : gset string := list_to_set (map ToLower l).

Definition BuildEphemeralSet : gset string := lower_set DefaultEphemeralHeaders.

(** [nil] and a compiled set are told apart: [None] is Go's nil map. *)
Record HeaderFilter := mkHeaderFilter { allowSet : option (gset string); denySet : option (gset string) }.

Definition NewHeaderFilter (cfg : HeaderFilterConfig) : HeaderFilter :=
  if bool_decide (0 < length (hfc_AllowList cfg))%nat then
    mkHeaderFilter (Some (lower_set (hfc_AllowList cfg))) None
  else
    let deny := if bool_decide (length (hfc_DenyList cfg) = 0%nat) then DefaultSensitiveHeaders
                else hfc_DenyList cfg in
    mkHeaderFilter None (Some (lower_set deny)).

Definition HeaderFilter_Allowed (hf : HeaderFilter) (name : string) : bool :=
  let lower := ToLower name in
  match allowSet hf with
  | Some a => bool_decide (lower ∈ a)
  | None =>
      match denySet hf with
      | Some d => negb (bool_decide (lower ∈ d))
      | None => true
      end
  end.

Definition FilterHeaders (hf : HeaderFilter) (headers : gmap string string) : gmap string string :=
  filter (fun kv => HeaderFilter_Allowed hf kv.1 = true) headers.

Definition BuildFilteredHeaderMap (hf : HeaderFilter) (h : Header) : gmap string string :=
  omap (fun v => head v) (filter (fun kv => (0 < length kv.2)%nat /\ HeaderFilter_Allowed hf kv.1 = true) h).

(** ** Normalisation *)

Definition normalizeTLSVersion (v : string) : string :=
  if one_of ["1.3"; "tls13"; "tls1.3"] (ToLower v) then "1.3"
  else if one_of ["1.2"; "tls12"; "tls1.2"] (ToLower v) then "1.2"
  else v.

Definition normalize_rate_limit (r : RateLimitConfig) : RateLimitConfig :=
  let lower_type ks := set_ks_Type (ToLower (ks_Type ks)) ks in
  let st := rl_Static r in
  let ext := rl_External r in
  let fb := xr_Fallback ext in
  let st := set_rs_KeyStrategy (lower_type (rs_KeyStrategy st)) st in
  let fb := set_rs_KeyStrategy (lower_type (rs_KeyStrategy fb)) fb in
  let ext := set_xr_Fallback fb (set_xr_FailurePolicy (ToLower (xr_FailurePolicy ext)) ext) in
  set_rl_External ext (set_rl_Static st (set_rl_FailurePolicy (ToLower (rl_FailurePolicy r)) r)).

Definition normalize_server (s : ServerConfig) : ServerConfig :=
  let tls := sc_TLS s in
  let tls := set_st_MinVersion (normalizeTLSVersion (st_MinVersion tls)) tls in
  let tls := set_st_MTLS (set_mt_ClientAuth (ToLower (mt_ClientAuth (st_MTLS tls))) (st_MTLS tls)) tls in
  set_sc_TLS tls s.

Definition lower_mode (r : RedisConfig) : RedisConfig := set_rc_Mode (ToLower (rc_Mode r)) r.

Definition normalize (cfg : Config) : Config :=
  let cfg := set_cfg_RateLimit (normalize_rate_limit (cfg_RateLimit cfg)) cfg in
  let cfg := set_cfg_Redis (lower_mode (cfg_Redis cfg)) cfg in
  let cfg := set_cfg_CacheRedis (lower_mode <$> cfg_CacheRedis cfg) cfg in
  let cfg := set_cfg_Auth (set_au_FailurePolicy (ToLower (au_FailurePolicy (cfg_Auth cfg))) (cfg_Auth cfg)) cfg in
  let lg := cfg_Logging cfg in
  let cfg := set_cfg_Logging (set_lc_Format (ToLower (lc_Format lg)) (set_lc_Level (ToLower (lc_Level lg)) lg)) cfg in
  let cfg := set_cfg_Server (normalize_server (cfg_Server cfg)) cfg in
  set_cfg_Tracing (set_tr_Level (ToLower (tr_Level (cfg_Tracing cfg))) (cfg_Tracing cfg)) cfg.

(** ** Validation *)

(** A Go function that returns only an error: [None] is nil. *)
Definition check (b : bool) (msg : string) : result unit := if b then Err (errorf msg) else Ok tt.

Definition validateKeyStrategy (prefix : string) (ks : KeyStrategyConfig) : result unit :=
  _ ← check (negb (bool_decide (ks_Type ks = "")) && negb (KeyStrategyType_Valid (ks_Type ks)))
        ("unknown " +:+ prefix +:+ ".key_strategy.type");
  check ((bool_decide (ks_Type ks = "header") || bool_decide (ks_Type ks = "composite"))
         && bool_decide (ks_HeaderName ks = ""))
    (prefix +:+ ".key_strategy.header_name is required").

Definition validateExternalRL (cfg : Config) : result Config :=
  let rl := cfg_RateLimit cfg in
  let ext := rl_External rl in
  _ ← check (bool_decide (xr_HTTPURL ext = "") && bool_decide (gc_Address (xr_GRPC ext) = ""))
        "rate_limit.external requires http.url or grpc.address when enabled";
  let fb := xr_Fallback ext in
  _ ← check (bool_decide (ks_Type (rs_KeyStrategy fb) = ""))
        "rate_limit.external.fallback.key_strategy is required when external RL is enabled";
  _ ← validateKeyStrategy "rate_limit.external.fallback" (rs_KeyStrategy fb);
  _ ← check (rs_Average fb <=? 0) "rate_limit.external.fallback.average must be > 0";
  Ok (if rs_Burst fb <? 1
      then set_cfg_RateLimit (set_rl_External (set_xr_Fallback (set_rs_Burst 1 fb) ext) rl) cfg
      else cfg).

Definition validateRateLimit (cfg : Config) : result Config :=
  let rl := cfg_RateLimit cfg in
  _ ← check (rs_Average (rl_Static rl) <? 0) "rate_limit.static.average must be >= 0";
  let cfg := if rs_Burst (rl_Static rl) <? 1
             then set_cfg_RateLimit (set_rl_Static (set_rs_Burst 1 (rl_Static rl)) rl) cfg else cfg in
  let rl := cfg_RateLimit cfg in
  _ ← check (negb (bool_decide (rl_FailurePolicy rl = "")) && negb (FailurePolicy_Valid (rl_FailurePolicy rl)))
        "invalid rate_limit.failure_policy: must be passthrough, failclosed, or inmemoryfallback";
  _ ← check (negb (rl_FailureCode rl =? 0) && ((rl_FailureCode rl <? 400) || (599 <? rl_FailureCode rl)))
        "invalid rate_limit.failure_code: must be 4xx or 5xx";
  _ ← validateKeyStrategy "rate_limit.static" (rs_KeyStrategy (rl_Static rl));
  if xr_Enabled (rl_External rl) then validateExternalRL cfg else Ok cfg.

Definition validated_durations (cfg : Config) : list (string * string) :=
  let s := cfg_Server cfg in let b := cfg_Backend cfg in let a := cfg_Admin cfg in
  let t := bc_Transport b in
  [("server.read_timeout", sc_ReadTimeout s); ("server.write_timeout", sc_WriteTimeout s);
   ("server.idle_timeout", sc_IdleTimeout s); ("server.drain_timeout", sc_DrainTimeout s);
   ("server.request_timeout", sc_RequestTimeout s); ("backend.timeout", bc_Timeout b);
   ("backend.idle_conn_timeout", bc_IdleConnTimeout b); ("admin.read_timeout", ac_ReadTimeout a);
   ("admin.write_timeout", ac_WriteTimeout a); ("admin.idle_timeout", ac_IdleTimeout a);
   ("backend.transport.dial_timeout", tc_DialTimeout t);
   ("backend.transport.dial_keep_alive", tc_DialKeepAlive t);
   ("backend.transport.tls_handshake_timeout", tc_TLSHandshakeTimeout t);
   ("backend.transport.expect_continue_timeout", tc_ExpectContinueTimeout t);
   ("backend.transport.h2_read_idle_timeout", tc_H2ReadIdleTimeout t);
   ("backend.transport.h2_ping_timeout", tc_H2PingTimeout t);
   ("backend.transport.websocket_dial_timeout", tc_WebSocketDialTimeout t);
   ("rate_limit.min_ttl", rl_MinTTL (cfg_RateLimit cfg))].

Fixpoint check_durations (l : list (string * string)) : result unit :=
  match l with
  | [] => Ok tt
  | (name, val) :: l' =>
      if bool_decide (val = "") then check_durations l'
      else match time_ParseDuration val with
           | Some _ => check_durations l'
           | None => Err (errorf ("invalid " +:+ name +:+ " " +:+ val))
           end
  end.
Definition validateDurations (cfg : Config) : result unit := check_durations (validated_durations cfg).

Definition validateMTLS (cfg : Config) : result unit :=
  let tls := sc_TLS (cfg_Server cfg) in
  let mtls := st_MTLS tls in
  if negb (mt_Enabled mtls) then Ok tt else
  _ ← check (negb (st_Enabled tls)) "server.tls.mtls.enabled requires server.tls.enabled to be true";
  _ ← check (bool_decide (mt_ClientCAFile mtls = "")) "server.tls.mtls.client_ca_file is required when mTLS is enabled";
  _ ← check (bool_decide (mt_ListenAddr mtls = "")) "server.tls.mtls.listen_addr is required when mTLS is enabled";
  _ ← check (bool_decide (mt_ListenAddr mtls = sc_Address (cfg_Server cfg)))
        "server.tls.mtls.listen_addr must differ from server.address";
  check (negb (ClientAuthMode_Valid (mt_ClientAuth mtls))) "invalid server.tls.mtls.client_auth".

Definition validateTLS (cfg : Config) : result unit :=
  let tls := sc_TLS (cfg_Server cfg) in
  _ ← check (st_Enabled tls && (bool_decide (st_CertFile tls = "") || bool_decide (st_KeyFile tls = "")))
        "server.tls.cert_file and server.tls.key_file are required when TLS is enabled";
  _ ← check (st_HTTP3Enabled tls && negb (st_Enabled tls)) "server.tls.http3_enabled requires server.tls.enabled";
  _ ← check (negb (bool_decide (st_MinVersion tls = "")) && negb (TLSVersion_Valid (st_MinVersion tls)))
        "invalid server.tls.min_version: must be 1.2 or 1.3";
  validateMTLS cfg.

Definition validateAuth (cfg : Config) : result unit :=
  let a := cfg_Auth cfg in
  if negb (au_Enabled a) then Ok tt else
  _ ← check (bool_decide (ah_URL (au_HTTP a) = "") && bool_decide (gc_Address (au_GRPC a) = ""))
        "auth.http.url or auth.grpc.address is required when auth is enabled";
  check (negb (bool_decide (au_FailurePolicy a = "")) && negb (AuthFailurePolicy_Valid (au_FailurePolicy a)))
    "invalid auth.failure_policy: must be failclosed or failopen".

Definition validateRedisConfig (rc : RedisConfig) (prefix : string) : result unit :=
  let n := length (rc_Endpoints rc) in
  _ ← check (negb (RedisMode_Valid (rc_Mode rc))) ("invalid " +:+ prefix +:+ ".mode");
  _ ← check (bool_decide (n = 0%nat)) (prefix +:+ ".endpoints: at least one endpoint is required");
  _ ← check (bool_decide (rc_Mode rc = "single") && bool_decide (1 < n)%nat)
        (prefix +:+ ".endpoints: single mode requires exactly one endpoint");
  _ ← check (bool_decide (rc_Mode rc = "sentinel") && bool_decide (rc_MasterName rc = ""))
        (prefix +:+ ".master_name is required for sentinel mode");
  check (bool_decide (rc_Mode rc = "replication") && bool_decide (n < 2)%nat)
    (prefix +:+ ".endpoints: replication mode requires at least 2 endpoints").

Definition validateRedis (cfg : Config) : result unit := validateRedisConfig (cfg_Redis cfg) "redis".

Definition validateCacheRedis (cfg : Config) : result Config :=
  match cfg_CacheRedis cfg with
  | None => Ok cfg
  | Some rc =>
      if bool_decide (rc_Endpoints rc = []) then Ok cfg else
      let rc := if bool_decide (rc_Mode rc = "") then set_rc_Mode "single" rc else rc in
      _ ← validateRedisConfig rc "cache_redis";
      Ok (set_cfg_CacheRedis (Some rc) cfg)
  end.

Definition validateLogging (cfg : Config) : result unit :=
  _ ← check (negb (LogLevel_Valid (lc_Level (cfg_Logging cfg)))) "invalid logging.level";
  check (negb (LogFormat_Valid (lc_Format (cfg_Logging cfg)))) "invalid logging.format".

Definition eventsHeaderDenySet : list string :=
  ["Host"; "Content-Length"; "Content-Type"; "Transfer-Encoding"; "Connection"; "Te"; "Upgrade";
   "Proxy-Authorization"; "Proxy-Connection"; "Keep-Alive"; "Trailer"].

(** The Go loop stops at the first offending header in map order; any
    offending header makes it fail, so the order only selects the message. *)
Definition validateEvents (cfg : Config) : result Config :=
  let ev := cfg_Events cfg in
  let h := ev_HTTP ev in
  let headers :=
    if bool_decide (eh_AuthToken h = "") then eh_Headers h
    else
      let name := if bool_decide (eh_AuthHeader h = "") then "Authorization" else eh_AuthHeader h in
      match eh_Headers h !! name with
      | Some _ => eh_Headers h
      | None => <[name := "Bearer " +:+ eh_AuthToken h]> (eh_Headers h)
      end in
  let cfg := set_cfg_Events (set_ev_HTTP (set_eh_Headers headers h) ev) cfg in
  if bool_decide (map_Forall (fun name _ => (CanonicalHeaderKey name ∉ eventsHeaderDenySet) /\ name ≠ "") headers)
  then Ok cfg
  else Err (errorf "events.http.headers: restricted or empty header name").

Definition validateTracing (cfg : Config) : result unit :=
  let t := cfg_Tracing cfg in
  _ ← check (tr_Enabled t && bool_decide (tr_Endpoint t = "")) "tracing.endpoint is required when tracing is enabled";
  _ ← check (negb (TracingProtocol_Valid (tr_Protocol t))) "invalid tracing.protocol: must be grpc or http";
  check (negb (TracingLevel_Valid (tr_Level t))) "invalid tracing.level: must be basic, external, or full".

(** [URL.Port]. *)
Definition URL_Port (u : URL) : string :=
  match LastIndexByte ":"%char (URL_Host u) with
  | Some i => let p := slice_from (URL_Host u) i in
              if validOptionalPort p then slice_from p 1 else ""
  | None => ""
  end.

Section urls.
Variable url_Parse : string -> result URL.
Variable URL_String : URL -> string.

Definition normalizeURL (raw : string) : result string :=
  u ← url_Parse raw;
  if bool_decide (URL_Scheme u = "") || bool_decide (URL_Host u = "")
  then Err (errorf "scheme and host are required")
  else
    let u :=
      if bool_decide (URL_Port u = "") then
        mkURL (URL_Scheme u)
          (URL_Host u +:+ (if one_of ["https"; "wss"] (ToLower (URL_Scheme u)) then ":443" else ":80"))
          (URL_Path u) (URL_RawQuery u)
      else u in
    Ok (URL_String u).

Definition validateBackend (cfg : Config) : result Config :=
  let rl := cfg_RateLimit cfg in
  let ext := rl_External rl in
  if xr_Enabled ext then
    let fb := xr_Fallback ext in
    _ ← check (bool_decide (rs_BackendURL fb = ""))
          "rate_limit.external.fallback.backend_url is required when external RL is enabled";
    match normalizeURL (rs_BackendURL fb) with
    | Err e => Err (wrapf "invalid rate_limit.external.fallback.backend_url" e)
    | Ok normalized =>
        Ok (set_cfg_RateLimit (set_rl_External (set_xr_Fallback (set_rs_BackendURL normalized fb) ext) rl) cfg)
    end
  else
    let st := rl_Static rl in
    _ ← check (bool_decide (rs_BackendURL st = ""))
          "rate_limit.static.backend_url is required when external RL is not enabled";
    match normalizeURL (rs_BackendURL st) with
    | Err e => Err (wrapf "invalid rate_limit.static.backend_url" e)
    | Ok normalized => Ok (set_cfg_RateLimit (set_rl_Static (set_rs_BackendURL normalized st) rl) cfg)
    end.

Definition Validate (cfg : Config) : result Config :=
  cfg ← validateBackend cfg;
  _ ← validateDurations cfg;
  _ ← validateTLS cfg;
  _ ← validateAuth cfg;
  cfg ← validateRateLimit cfg;
  _ ← validateRedis cfg;
  cfg ← validateCacheRedis cfg;
  cfg ← validateEvents cfg;
  _ ← validateLogging cfg;
  _ ← validateTracing cfg;
  Ok cfg.

(** ** The view the admin endpoint exposes *)

Record SanitizedConfig := mkSanitizedConfig {
  sz_Server : ServerConfig;
  sz_Admin : AdminConfig;
  sz_BackendTimeout : string;
  sz_BackendMaxIdleConns : Z;
  sz_BackendIdleConnTimeout : string;
  sz_BackendMaxRequestBodySize : Z;
  sz_BackendTransport : TransportConfig;
  sz_Average : Z;
  sz_Burst : Z;
  sz_Period : string;
  sz_FailurePolicy : string;
  sz_FailureCode : Z;
  sz_KeyStrategy : string;
  sz_ExternalEnabled : bool;
  sz_BackendURL : string;
  sz_Logging : LoggingConfig;
  sz_Tracing : TracingConfig;
  sz_Metrics : MetricsConfig
}.

Definition Sanitized (c : Config) : SanitizedConfig :=
  let rl := cfg_RateLimit c in
  let st := rl_Static rl in
  let backendURL := if xr_Enabled (rl_External rl) then rs_BackendURL (xr_Fallback (rl_External rl))
                    else rs_BackendURL st in
  let backendURL :=
    match url_Parse backendURL with
    | Ok u => if bool_decide (URL_Host u = "") then backendURL
              else URL_Scheme u +:+ "://" +:+ URL_Host u
    | Err _ => backendURL
    end in
  let b := cfg_Backend c in
  mkSanitizedConfig (cfg_Server c) (cfg_Admin c)
    (bc_Timeout b) (bc_MaxIdleConns b) (bc_IdleConnTimeout b) (bc_MaxRequestBodySize b) (bc_Transport b)
    (rs_Average st) (rs_Burst st) (rs_Period st) (rl_FailurePolicy rl) (rl_FailureCode rl)
    (ks_Type (rs_KeyStrategy st)) (xr_Enabled (rl_External rl)) backendURL
    (cfg_Logging c) (cfg_Tracing c) (cfg_Metrics c).
End urls.

(** ** What a validated configuration guarantees *)

Definition key_strategy_valid (ks : KeyStrategyConfig) : Prop :=
  (ks_Type ks = "" \/ KeyStrategyType_Valid (ks_Type ks) = true) /\
  (ks_Type ks = "header" \/ ks_Type ks = "composite" -> ks_HeaderName ks ≠ "").

Definition redis_valid (rc : RedisConfig) : Prop :=
  RedisMode_Valid (rc_Mode rc) = true /\ rc_Endpoints rc ≠ [] /\
  (rc_Mode rc = "single" -> length (rc_Endpoints rc) = 1%nat) /\
  (rc_Mode rc = "sentinel" -> rc_MasterName rc ≠ "") /\
  (rc_Mode rc = "replication" -> (2 <= length (rc_Endpoints rc))%nat).

Record valid_config (cfg : Config) : Prop := {
  vc_average : 0 <= rs_Average (rl_Static (cfg_RateLimit cfg));
  vc_burst : 1 <= rs_Burst (rl_Static (cfg_RateLimit cfg));
  vc_failure_policy : rl_FailurePolicy (cfg_RateLimit cfg) = "" \/
    FailurePolicy_Valid (rl_FailurePolicy (cfg_RateLimit cfg)) = true;
  vc_failure_code : rl_FailureCode (cfg_RateLimit cfg) = 0 \/ 400 <= rl_FailureCode (cfg_RateLimit cfg) <= 599;
  vc_key : key_strategy_valid (rs_KeyStrategy (rl_Static (cfg_RateLimit cfg)));
  vc_external : let ext := rl_External (cfg_RateLimit cfg) in
    xr_Enabled ext = true ->
    1 <= rs_Burst (xr_Fallback ext) /\ 0 < rs_Average (xr_Fallback ext) /\
    key_strategy_valid (rs_KeyStrategy (xr_Fallback ext)) /\
    ks_Type (rs_KeyStrategy (xr_Fallback ext)) ≠ "" /\
    (xr_HTTPURL ext ≠ "" \/ gc_Address (xr_GRPC ext) ≠ "");
  vc_redis : redis_valid (cfg_Redis cfg);
  vc_cache_redis : redis_valid (CacheRedisConfig cfg);
  vc_durations : Forall (fun d => d.2 = "" \/ is_Some (time_ParseDuration d.2)) (validated_durations cfg);
  vc_tls : st_HTTP3Enabled (sc_TLS (cfg_Server cfg)) = true -> st_Enabled (sc_TLS (cfg_Server cfg)) = true;
  vc_mtls : mt_Enabled (st_MTLS (sc_TLS (cfg_Server cfg))) = true ->
    st_Enabled (sc_TLS (cfg_Server cfg)) = true /\
    mt_ListenAddr (st_MTLS (sc_TLS (cfg_Server cfg))) ≠ sc_Address (cfg_Server cfg);
  vc_event_headers : map_Forall (fun name _ => (CanonicalHeaderKey name ∉ eventsHeaderDenySet) /\ name ≠ "")
    (eh_Headers (ev_HTTP (cfg_Events cfg)))
}.

Lemma result_bind_Ok {A B} (f : A -> result B) r b :
  (r ≫= f) = Ok b <-> exists a, r = Ok a /\ f a = Ok b.
Proof. destruct r; simpl; naive_solver. Qed.

Lemma check_Ok b msg u : check b msg = Ok u <-> b = false.
Proof. destruct b, u; simpl; naive_solver. Qed.

(** Take a validation pipeline apart: every check that passed becomes a fact. *)
Ltac checks :=
  repeat match goal with
  | H : (_ ≫= _) = Ok _ |- _ => apply result_bind_Ok in H as (? & ? & H)
  | H : check _ _ = Ok _ |- _ => apply check_Ok in H
  end.

Lemma bool_decide_false_ne {A} `{EqDecision A} (x y : A) : bool_decide (x = y) = false -> x ≠ y.
Proof. by intros H%bool_decide_eq_false. Qed.

Lemma validateKeyStrategy_sound p ks u : validateKeyStrategy p ks = Ok u -> key_strategy_valid ks.
Proof.
  unfold validateKeyStrategy. intros H. checks. split.
  - destruct (bool_decide (ks_Type ks = "")) eqn:E; bools; [by left|right]. simpl in *. by bools.
  - intros Ht He. rewrite He in H. simpl in H. rewrite andb_true_r in H.
    apply orb_false_iff in H as [H1 H2]. bools. naive_solver.
Qed.

Lemma validateRedisConfig_sound rc p u : validateRedisConfig rc p = Ok u -> redis_valid rc.
Proof.
  unfold validateRedisConfig, redis_valid. intros H. checks. bools.
  repeat split; [done| | | |].
  - intros E. rewrite E in *. by simpl in *.
  - intros E. rewrite E in *. simpl in *. bools. destruct (rc_Endpoints rc) as [|? [|? ?]]; simpl in *; [done|done|lia].
  - intros E Hm. rewrite E, Hm in *. by simpl in *.
  - intros E. rewrite E in H. simpl in H. bools. lia.
Qed.

Lemma check_durations_sound l u :
  check_durations l = Ok u -> Forall (fun d => d.2 = "" \/ is_Some (time_ParseDuration d.2)) l.
Proof.
  induction l as [|[n v] l IH]; simpl; [constructor|]. case_bool_decide; [intros; constructor; auto|].
  destruct (time_ParseDuration v) eqn:E; [|done]. intros. constructor; [right; simpl; rewrite E; eauto|auto].
Qed.

(** What the rate-limit stage establishes, and that it only touches bursts. *)
Lemma validateExternalRL_sound c c' :
  validateExternalRL c = Ok c' ->
  (exists b, 1 <= b /\ let rl := cfg_RateLimit c in let ext := rl_External rl in
     c' = c /\ b = rs_Burst (xr_Fallback ext) \/
     c' = set_cfg_RateLimit (set_rl_External (set_xr_Fallback (set_rs_Burst b (xr_Fallback ext)) ext) rl) c) /\
  let ext := rl_External (cfg_RateLimit c) in
  0 < rs_Average (xr_Fallback ext) /\ key_strategy_valid (rs_KeyStrategy (xr_Fallback ext)) /\
  ks_Type (rs_KeyStrategy (xr_Fallback ext)) ≠ "" /\
  (xr_HTTPURL ext ≠ "" \/ gc_Address (xr_GRPC ext) ≠ "").
Proof.
  unfold validateExternalRL. intros H. checks. injection H as <-. bools.
  match goal with Hk : validateKeyStrategy _ _ = Ok _ |- _ => apply validateKeyStrategy_sound in Hk end.
  split.
  - destruct (rs_Burst _ <? 1) eqn:E; bools; eexists; (split; [|eauto]); lia.
  - split; [lia|]. split; [done|]. split; [done|].
    match goal with Hu : (_ && _) = false |- _ => apply andb_false_iff in Hu as [Hu|Hu]; bools; auto end.
Qed.

Record rate_valid (rl : RateLimitConfig) : Prop := {
  rv_average : 0 <= rs_Average (rl_Static rl);
  rv_burst : 1 <= rs_Burst (rl_Static rl);
  rv_policy : rl_FailurePolicy rl = "" \/ FailurePolicy_Valid (rl_FailurePolicy rl) = true;
  rv_code : rl_FailureCode rl = 0 \/ 400 <= rl_FailureCode rl <= 599;
  rv_key : key_strategy_valid (rs_KeyStrategy (rl_Static rl));
  rv_ext : xr_Enabled (rl_External rl) = true ->
    1 <= rs_Burst (xr_Fallback (rl_External rl)) /\ 0 < rs_Average (xr_Fallback (rl_External rl)) /\
    key_strategy_valid (rs_KeyStrategy (xr_Fallback (rl_External rl))) /\
    ks_Type (rs_KeyStrategy (xr_Fallback (rl_External rl))) ≠ "" /\
    (xr_HTTPURL (rl_External rl) ≠ "" \/ gc_Address (xr_GRPC (rl_External rl)) ≠ "")
}.

Lemma validateRateLimit_sound c c' :
  validateRateLimit c = Ok c' ->
  rate_valid (cfg_RateLimit c') /\
  c' = set_cfg_RateLimit (cfg_RateLimit c') c /\
  rl_MinTTL (cfg_RateLimit c') = rl_MinTTL (cfg_RateLimit c).
Proof.
  unfold validateRateLimit. intros H. checks.
  set (c1 := if rs_Burst (rl_Static (cfg_RateLimit c)) <? 1 then _ else c) in *.
  assert (1 <= rs_Burst (rl_Static (cfg_RateLimit c1)) /\
          rs_Average (rl_Static (cfg_RateLimit c1)) = rs_Average (rl_Static (cfg_RateLimit c)) /\
          c1 = set_cfg_RateLimit (cfg_RateLimit c1) c /\
          rl_MinTTL (cfg_RateLimit c1) = rl_MinTTL (cfg_RateLimit c)) as (Hb & Ha & Hc & Hm).
  { unfold c1. destruct (_ <? 1) eqn:E; bools; destruct c; simpl in *; (split; [lia|done]). }
  clearbody c1.
  match goal with Hk : validateKeyStrategy _ _ = Ok _ |- _ => apply validateKeyStrategy_sound in Hk end.
  assert (rl_FailurePolicy (cfg_RateLimit c1) = "" \/
          FailurePolicy_Valid (rl_FailurePolicy (cfg_RateLimit c1)) = true) as Hp.
  { match goal with Hu : (_ && negb (FailurePolicy_Valid _)) = false |- _ =>
      apply andb_false_iff in Hu as [Hu|Hu]; bools; auto end. }
  assert (rl_FailureCode (cfg_RateLimit c1) = 0 \/ 400 <= rl_FailureCode (cfg_RateLimit c1) <= 599) as Hcode.
  { match goal with Hu : (_ && (_ || _)) = false |- _ => apply andb_false_iff in Hu as [Hu|Hu]; bools; auto end. }
  bools. destruct (xr_Enabled (rl_External (cfg_RateLimit c1))) eqn:Ex.
  - apply validateExternalRL_sound in H as ((b & Hb1 & [[-> Hb2]|Hc']) & Hext & Hk & Ht & Hu).
    + split; [|done]. split; try done; [lia|]. intros _. rewrite <- Hb2. done.
    + rewrite Hc'. split; [|split; [by rewrite Hc|done]]. split; try done; simpl; lia.
  - injection H as <-. split; [|done]. split; try done; [lia|]. by rewrite Ex.
Qed.

Lemma validateCacheRedis_sound c c' :
  validateCacheRedis c = Ok c' -> redis_valid (cfg_Redis c) ->
  redis_valid (CacheRedisConfig c') /\ c' = set_cfg_CacheRedis (cfg_CacheRedis c') c.
Proof.
  unfold validateCacheRedis, CacheRedisConfig. intros H Hr.
  destruct (cfg_CacheRedis c) as [rc|] eqn:E; [|injection H as <-; rewrite E; split; [done|by destruct c; simpl in *; subst]].
  case_bool_decide as Ee.
  { injection H as <-. rewrite E, bool_decide_eq_true_2 by done. split; [done|by destruct c; simpl in *; subst]. }
  checks. injection H as <-. simpl.
  match goal with Hv : validateRedisConfig _ _ = Ok _ |- _ => apply validateRedisConfig_sound in Hv end.
  rewrite bool_decide_eq_false_2; [done|]. by case_bool_decide.
Qed.

Lemma validateEvents_sound c c' :
  validateEvents c = Ok c' ->
  map_Forall (fun name _ => (CanonicalHeaderKey name ∉ eventsHeaderDenySet) /\ name ≠ "")
    (eh_Headers (ev_HTTP (cfg_Events c'))) /\
  c' = set_cfg_Events (cfg_Events c') c.
Proof.
  unfold validateEvents. set (h := if bool_decide (eh_AuthToken _ = "") then _ else _). clearbody h.
  case_bool_decide; [|done]. by intros [= <-].
Qed.

Lemma validateTLS_sound c u :
  validateTLS c = Ok u ->
  (st_HTTP3Enabled (sc_TLS (cfg_Server c)) = true -> st_Enabled (sc_TLS (cfg_Server c)) = true) /\
  (mt_Enabled (st_MTLS (sc_TLS (cfg_Server c))) = true ->
   st_Enabled (sc_TLS (cfg_Server c)) = true /\
   mt_ListenAddr (st_MTLS (sc_TLS (cfg_Server c))) ≠ sc_Address (cfg_Server c)).
Proof.
  unfold validateTLS, validateMTLS. intros H. checks. split.
  - intros E. rewrite E in *. simpl in *. by bools.
  - intros E. rewrite E in H. simpl in H. checks. by bools.
Qed.

Lemma Validate_valid_config (url_Parse : string -> result URL) (URL_String : URL -> string) cfg cfg' :
  Validate url_Parse URL_String cfg = Ok cfg' -> valid_config cfg'.
Proof.
  unfold Validate. intros H. apply result_bind_Ok in H as (c1 & _ & H).
  apply result_bind_Ok in H as (u1 & Hdur & H). apply result_bind_Ok in H as (u2 & Htls & H).
  apply result_bind_Ok in H as (u3 & _ & H). apply result_bind_Ok in H as (c2 & Hrl & H).
  apply result_bind_Ok in H as (u4 & Hred & H). apply result_bind_Ok in H as (c3 & Hcr & H).
  apply result_bind_Ok in H as (c4 & Hev & H). checks. injection H as <-.
  apply validateRateLimit_sound in Hrl as ([] & E2 & Hm).
  apply validateRedisConfig_sound in Hred. apply validateCacheRedis_sound in Hcr as [Hcr E3]; [|done].
  apply validateEvents_sound in Hev as [Hev E4]. apply check_durations_sound in Hdur.
  apply validateTLS_sound in Htls as [Ht1 Ht2].
  assert (cfg_RateLimit c4 = cfg_RateLimit c2) as Er by (by rewrite E4, E3).
  assert (cfg_Server c4 = cfg_Server c1) as Es by (by rewrite E4, E3, E2).
  assert (CacheRedisConfig c4 = CacheRedisConfig c3) as Ec by (by rewrite E4).
  assert (cfg_Redis c4 = cfg_Redis c2) as Erd by (by rewrite E4, E3).
  split; rewrite ?Er, ?Es, ?Ec, ?Erd; try done.
  revert Hdur. unfold validated_durations. rewrite Es, Er, Hm.
  assert (cfg_Backend c4 = cfg_Backend c1) as -> by (by rewrite E4, E3, E2).
  by assert (cfg_Admin c4 = cfg_Admin c1) as -> by (by rewrite E4, E3, E2).
Qed.


(** The defaults with a backend URL: accepted as they are, with the port made
    explicit. *)
Definition sample_config : Config :=
  let rl := cfg_RateLimit Defaults in
  set_cfg_RateLimit (set_rl_Static (set_rs_BackendURL "http://app" (rl_Static rl)) rl) Defaults.
Definition sample_parse (s : string) : result URL := Ok (mkURL "http" (TrimPrefix s "http://") "" "").
Definition sample_string (u : URL) : string := URL_Scheme u +:+ "://" +:+ URL_Host u.


(** ** Header filters *)

Lemma elem_of_lower_set x l : x ∈ lower_set l <-> exists h, h ∈ l /\ ToLower h = x.
Proof. unfold lower_set. rewrite elem_of_list_to_set, list_elem_of_fmap. naive_solver. Qed.

Lemma lower_set_spec name l : ToLower name ∈ lower_set l <-> existsb (EqualFold name) l = true.
Proof.
  rewrite elem_of_lower_set, existsb_exists. unfold EqualFold. split.
  - intros (h & Hh & E). exists h. by rewrite <- list_elem_of_In, bool_decide_eq_true.
  - intros (h & Hh & E). exists h. rewrite list_elem_of_In. split; [done|]. by apply bool_decide_eq_true in E.
Qed.

(** The lookup in a filtered header map. *)
Lemma filtered_lookup cfg (h : Header) k v :
  BuildFilteredHeaderMap (NewHeaderFilter cfg) h !! k = Some v <->
  (exists vs, h !! k = Some (v :: vs)) /\
  (if bool_decide (hfc_AllowList cfg = [])
   then existsb (EqualFold k)
          (if bool_decide (hfc_DenyList cfg = []) then DefaultSensitiveHeaders else hfc_DenyList cfg) = false
   else existsb (EqualFold k) (hfc_AllowList cfg) = true).
Proof.
  unfold BuildFilteredHeaderMap. rewrite lookup_omap, bind_Some.
  assert (HeaderFilter_Allowed (NewHeaderFilter cfg) k = true <->
    if bool_decide (hfc_AllowList cfg = [])
    then existsb (EqualFold k)
          (if bool_decide (hfc_DenyList cfg = []) then DefaultSensitiveHeaders else hfc_DenyList cfg) = false
    else existsb (EqualFold k) (hfc_AllowList cfg) = true) as HA.
  { unfold NewHeaderFilter, HeaderFilter_Allowed. destruct (hfc_AllowList cfg) as [|a al].
    - simpl. rewrite negb_true_iff, bool_decide_eq_false.
      replace (bool_decide (length (hfc_DenyList cfg) = 0%nat)) with (bool_decide (hfc_DenyList cfg = []))
        by (destruct (hfc_DenyList cfg); by apply bool_decide_ext).
      rewrite lower_set_spec. by destruct (existsb _ _).
    - cbn [length]. rewrite (bool_decide_eq_true_2 (0 < _)%nat) by lia.
      rewrite (bool_decide_eq_false_2 (a :: al = [])) by done. cbn [allowSet].
      by rewrite bool_decide_eq_true, lower_set_spec. }
  rewrite <- HA. setoid_rewrite map_lookup_filter_Some. simpl. split.
  - intros (vs & (Hk & Hl & Ha) & Hv). destruct vs as [|x vs]; simplify_eq/=. eauto.
  - intros ((vs & Hk) & Ha). exists (v :: vs). simpl. repeat split; [done|lia|done].
Qed.

(** A header filter forwards exactly what its configuration says, whatever
    the letter case: with an allow list, the headers on it; otherwise every
    header not on the deny list, where an absent deny list means the
    sensitive-header list. A forwarded header carries the first value the
    request had. *)
Theorem BuildFilteredHeaderMap_spec cfg (h : Header) k v :
  BuildFilteredHeaderMap (NewHeaderFilter cfg) h !! k = Some v <->
  (exists vs, h !! k = Some (v :: vs)) /\
  (if bool_decide (hfc_AllowList cfg = [])
   then existsb (EqualFold k)
          (if bool_decide (hfc_DenyList cfg = []) then DefaultSensitiveHeaders else hfc_DenyList cfg) = false
   else existsb (EqualFold k) (hfc_AllowList cfg) = true).
Proof. apply filtered_lookup. Qed.

(** What the admin endpoint shows depends on no secret and no service
    address. Two configurations that agree on the server, admin, backend,
    logging, tracing and metrics sections and on the public rate-limit fields
    have the same sanitized view, whatever their Redis credentials, auth
    section, event receivers and external service addresses are. *)
Theorem Sanitized_noninterference (url_Parse : string -> result URL) (c c' : Config) :
  cfg_Server c = cfg_Server c' -> cfg_Admin c = cfg_Admin c' -> cfg_Backend c = cfg_Backend c' ->
  cfg_Logging c = cfg_Logging c' -> cfg_Tracing c = cfg_Tracing c' -> cfg_Metrics c = cfg_Metrics c' ->
  rl_Static (cfg_RateLimit c) = rl_Static (cfg_RateLimit c') ->
  rl_FailurePolicy (cfg_RateLimit c) = rl_FailurePolicy (cfg_RateLimit c') ->
  rl_FailureCode (cfg_RateLimit c) = rl_FailureCode (cfg_RateLimit c') ->
  xr_Enabled (rl_External (cfg_RateLimit c)) = xr_Enabled (rl_External (cfg_RateLimit c')) ->
  rs_BackendURL (xr_Fallback (rl_External (cfg_RateLimit c)))
    = rs_BackendURL (xr_Fallback (rl_External (cfg_RateLimit c'))) ->
  Sanitized url_Parse c = Sanitized url_Parse c'.
Proof. unfold Sanitized. by intros -> -> -> -> -> -> -> -> -> -> ->. Qed.

Lemma Sanitized_noninterference_witness :
  let secret := mkRedisConfig ["10.0.0.9:6379"] "single" "" "root" "hunter2" 0 10 "5s" "3s" "3s"
                  (mkRedisTLSConfig false false) "" "" in
  Sanitized sample_parse (set_cfg_Redis secret sample_config) = Sanitized sample_parse sample_config.
Proof. intros secret. apply Sanitized_noninterference; reflexivity. Defined.

(** ** Backend equality *)

Lemma zip_same (l m : list string) :
  (bool_decide (length l = length m) && forallb (fun p => bool_decide (p.1 = p.2)) (zip l m)) = true <-> l = m.
Proof.
  revert m. induction l as [|x l IH]; intros [|y m]; simpl; try done.
  rewrite andb_true_iff, bool_decide_eq_true. simpl. rewrite andb_true_iff, bool_decide_eq_true.
  specialize (IH m). rewrite andb_true_iff, bool_decide_eq_true in IH.
  split; [intros (? & -> & ?); f_equal; apply IH; split; [lia|done]|].
  intros [= -> ->]. destruct IH as [_ IH]. destruct (IH eq_refl). done.
Qed.

(** [Equal] is equality of every field, the private-network switch being
    compared after its default is applied. *)
Lemma BackendConfig_Equal_spec b b' :
  BackendConfig_Equal b b' = true <->
  bc_Timeout b = bc_Timeout b' /\ bc_MaxIdleConns b = bc_MaxIdleConns b' /\
  bc_IdleConnTimeout b = bc_IdleConnTimeout b' /\ bc_TLSInsecureVerify b = bc_TLSInsecureVerify b' /\
  bc_MaxRequestBodySize b = bc_MaxRequestBodySize b' /\ bc_Transport b = bc_Transport b' /\
  DenyPrivateNetworksEnabled (bc_URLPolicy b) = DenyPrivateNetworksEnabled (bc_URLPolicy b') /\
  up_AllowedSchemes (bc_URLPolicy b) = up_AllowedSchemes (bc_URLPolicy b') /\
  up_AllowedHosts (bc_URLPolicy b) = up_AllowedHosts (bc_URLPolicy b').
Proof.
  unfold BackendConfig_Equal.
  repeat match goal with
  | |- context [negb (bool_decide ?P)] =>
      destruct (bool_decide_reflect P); cbn [negb orb]; [|split; [done|naive_solver]]
  end.
  rewrite andb_true_iff, !zip_same. naive_solver.
Qed.
