(* ===== verification/Watcher.v ===== *)
(** * Configuration and certificate watchers

    [internal/config/watcher.go] and the loading of a configuration
    ([LoadFromPath] of config.go). YAML and environment parsing and SHA-256 are
    arguments. The file system is what a watcher can observe of it: the content
    of the file and the target of the ["..data"] link next to it. The loop of
    [Watcher.Start] is a step relation in which the file may change at every
    point, also between two reads of one iteration. *)
From S2P Require Import Prelude GoStrings GoTime GoNet ConfigTypes Config.

Local Open Scope Z_scope.

(** ** Loading *)

Definition defaultConfigFile : string := "/etc/edgequota/config.yaml".
Definition ConfigFilePath (env : string) : string := if bool_decide (env = "") then defaultConfigFile else env.

(** [&RedisConfig{}] *)
Definition zero_redis : RedisConfig := mkRedisConfig [] "" "" "" "" 0 0 "" "" "" (mkRedisTLSConfig false false) "" "".

Definition set_cfg_ResponseCacheRedis (x : option RedisConfig) (c : Config) : Config :=
  mkConfig (cfg_Server c) (cfg_Admin c) (cfg_Backend c) (cfg_Auth c) (cfg_RateLimit c) (cfg_Redis c) (cfg_CacheRedis c)
    (cfg_Cache c) x (cfg_Events c) (cfg_Logging c) (cfg_Tracing c) (cfg_Metrics c).

(** Both optional Redis sections present, for the environment parser. *)
Definition preallocate (c : Config) : Config :=
  set_cfg_ResponseCacheRedis (Some (default zero_redis (cfg_ResponseCacheRedis c)))
    (set_cfg_CacheRedis (Some (default zero_redis (cfg_CacheRedis c))) c).

(** A section without endpoints that the file did not have is dropped again. *)
Definition keep_section (present : bool) (s : option RedisConfig) : option RedisConfig :=
  if bool_decide (length (rc_Endpoints (default zero_redis s)) = 0%nat) && negb present then None else s.

Section loading.
Variable Unmarshal : string -> Config -> result Config.
Variable ParseEnv : Config -> result Config.
Variable url_Parse : string -> result URL.
Variable URL_String : URL -> string.

(** [data]: what [os.ReadFile] returns, [None] when it fails. *)
Definition LoadFromPath (data : option string) : result Config :=
  cfg ← (match data with
         | Some d => match Unmarshal d Defaults with Ok c => Ok c | Err e => Err (wrapf "parsing config file" e) end
         | None => Ok Defaults
         end);
  let cachePresent := bool_decide (is_Some (cfg_CacheRedis cfg)) in
  let respPresent := bool_decide (is_Some (cfg_ResponseCacheRedis cfg)) in
  cfg ← (match ParseEnv (preallocate cfg) with Ok c => Ok c | Err e => Err (wrapf "parsing environment variables" e) end);
  let cfg := set_cfg_CacheRedis (keep_section cachePresent (cfg_CacheRedis cfg)) cfg in
  let cfg := set_cfg_ResponseCacheRedis (keep_section respPresent (cfg_ResponseCacheRedis cfg)) cfg in
  Validate url_Parse URL_String (normalize cfg).

Lemma LoadFromPath_valid data cfg : LoadFromPath data = Ok cfg -> valid_config cfg.
Proof.
  unfold LoadFromPath, mbind, result_bind. intros H.
  destruct (match data with Some _ => _ | None => _ end) as [c|]; [|done].
  destruct (match ParseEnv _ with Ok _ => _ | Err _ => _ end) as [c'|]; [|done]. by eapply Validate_valid_config.
Qed.
End loading.

(** ** Polling *)

Record fs := mkFS { fs_data : option string; fs_link : string }.

Section polling.
Variable sha256 : string -> string.            (* the digest in hexadecimal *)

Definition hashFile (data : option string) : string := match data with Some d => sha256 d | None => "" end.

Record pollState := mkPollState { lastHash : string; lastTarget : string }.

Definition ps_changed (f : fs) (ps : pollState) : pollState * bool :=
  if negb (bool_decide (fs_link f = lastTarget ps)) && negb (bool_decide (fs_link f = ""))
  then (mkPollState (lastHash ps) (fs_link f), true)
  else (ps, negb (bool_decide (hashFile (fs_data f) = lastHash ps))).

Definition ps_snapshot (f : fs) : pollState := mkPollState (hashFile (fs_data f)) (fs_link f).
End polling.

(** ** Debouncing *)

(** The [fsnotify] operations the loop tells apart. *)
Inductive fsop := OpWrite | OpCreate | OpRename | OpRemove | OpChmod.
Definition triggers (op : fsop) : bool := match op with OpWrite | OpCreate | OpRename => true | _ => false end.

Definition debounce : Z := 300 * Millisecond.

(** A timer: when it fires, and whether its channel has been read. *)
Record timer := mkTimer { tm_deadline : Z; tm_fired : bool }.

(** [handleFSEvent] at time [now]: the timer and the channel the loop waits on
    ([None] is nil); stopping the old timer means that its channel is no longer
    waited on. *)
Definition handleFSEvent (op : fsop) (now : Z) (tm : option timer) : option timer * option timer :=
  if negb (triggers op) then (tm, tm)
  else let tm := mkTimer (now + debounce) false in (Some tm, Some tm).

(** ** The watcher *)

Record Watcher := mkWatcher {
  w_lastConfig : option Config;
  w_published : list Config              (* the calls of the callback *)
}.

(** Where the loop is: waiting in [select]; in the debounce case after [reload]; in
    the polling case after [snapshot]; returned. *)
Inductive wphase := WWaiting | WReloaded | WSnapshot | WStopped.

Record wstate := mkWState {
  ws_fs : fs;
  ws_w : Watcher;
  ws_ps : pollState;
  ws_timer : option timer;               (* debounceTimer *)
  ws_ch : option timer;                  (* debounceCh *)
  ws_phase : wphase;
  ws_seen : option string                (* the content the last load has read *)
}.

Inductive wevent :=
| WChange (f : fs)                       (* the file system changes *)
| WNotify (op : fsop) (now : Z)
| WFire (now : Z)                        (* the debounce timer fires: reload *)
| WSnap                                  (* and the snapshot after it *)
| WPoll                                  (* the poll ticker: compare, snapshot *)
| WLoad                                  (* and the reload after it *)
| WCancel.

Section watching.
Variable sha256 : string -> string.
Variable Unmarshal : string -> Config -> result Config.
Variable ParseEnv : Config -> result Config.
Variable url_Parse : string -> result URL.
Variable URL_String : URL -> string.
Abbreviation LoadFromPath := (LoadFromPath Unmarshal ParseEnv url_Parse URL_String).
Abbreviation hashFile := (hashFile sha256).
Implicit Types (s : wstate).

Definition reload (data : option string) (w : Watcher) : Watcher :=
  match LoadFromPath data with
  | Err _ => w
  | Ok newCfg =>
      match RequiresRestart newCfg (w_lastConfig w) with
      | _ :: _ => w
      | [] => mkWatcher (Some newCfg) (w_published w ++ [newCfg])
      end
  end.

Definition reload_now s (ps : pollState) (ph : wphase) (ch : option timer) : wstate :=
  mkWState (ws_fs s) (reload (fs_data (ws_fs s)) (ws_w s)) ps (ws_timer s) ch ph (fs_data (ws_fs s)).

Definition wstep (e : wevent) s : option wstate :=
  match e with
  | WChange f => Some (mkWState f (ws_w s) (ws_ps s) (ws_timer s) (ws_ch s) (ws_phase s) (ws_seen s))
  | WNotify op now =>
      match ws_phase s with
      | WWaiting =>
          let '(tm, ch) := handleFSEvent op now (ws_timer s) in
          Some (mkWState (ws_fs s) (ws_w s) (ws_ps s) tm ch WWaiting (ws_seen s))
      | _ => None
      end
  | WFire now =>
      match ws_phase s, ws_ch s with
      | WWaiting, Some (mkTimer d false) =>
          if d <=? now then
            let s := mkWState (ws_fs s) (ws_w s) (ws_ps s) (Some (mkTimer d true)) None WWaiting (ws_seen s) in
            Some (reload_now s (ws_ps s) WReloaded None)
          else None
      | _, _ => None
      end
  | WSnap =>
      match ws_phase s with
      | WReloaded =>
          Some (mkWState (ws_fs s) (ws_w s) (ps_snapshot sha256 (ws_fs s)) (ws_timer s) (ws_ch s) WWaiting (ws_seen s))
      | _ => None
      end
  | WPoll =>
      match ws_phase s with
      | WWaiting =>
          let '(ps, b) := ps_changed sha256 (ws_fs s) (ws_ps s) in
          if b : bool then
            Some (mkWState (ws_fs s) (ws_w s) (ps_snapshot sha256 (ws_fs s)) (ws_timer s) (ws_ch s) WSnapshot (ws_seen s))
          else Some (mkWState (ws_fs s) (ws_w s) ps (ws_timer s) (ws_ch s) WWaiting (ws_seen s))
      | _ => None
      end
  | WLoad => match ws_phase s with WSnapshot => Some (reload_now s (ws_ps s) WWaiting (ws_ch s)) | _ => None end
  | WCancel =>
      match ws_phase s with
      | WWaiting => Some (mkWState (ws_fs s) (ws_w s) (ws_ps s) (ws_timer s) (ws_ch s) WStopped (ws_seen s))
      | _ => None
      end
  end.

Fixpoint wrun (es : list wevent) s : option wstate :=
  match es with [] => Some s | e :: es => s' ← wstep e s; wrun es s' end.

(** [Start]: the process has loaded [cfg] from content [seen], and the loop takes
    its first snapshot of what the file is by now. *)
Definition watcher_start (cfg : Config) (seen : option string) (f : fs) : wstate :=
  mkWState f (mkWatcher (Some cfg) []) (ps_snapshot sha256 f) None None WWaiting seen.

(** A full poll: the comparison and, when it says so, the reload. *)
Definition poll_once s : option wstate :=
  s' ← wstep WPoll s;
  match ws_phase s' with WSnapshot => wstep WLoad s' | _ => Some s' end.
End watching.

(** ** The certificate watcher *)

Section certs.
Variable sha256 : string -> string.
Abbreviation hashFile := (hashFile sha256).

Record cert_fs := mkCertFS { cf_cert : option string; cf_key : option string; cf_link : string }.
Record CertWatcher := mkCertWatcher { lastCertHash : string; lastKeyHash : string; lastLinkTarget : string }.

Definition cert_start (f : cert_fs) : CertWatcher := mkCertWatcher (hashFile (cf_cert f)) (hashFile (cf_key f)) (cf_link f).

(** One tick of [CertWatcher.Start]; [true]: the callback is called. *)
Definition cert_tick (f : cert_fs) (cw : CertWatcher) : CertWatcher * bool :=
  let linkChanged := negb (bool_decide (cf_link f = lastLinkTarget cw)) && negb (bool_decide (cf_link f = "")) in
  let link := if linkChanged then cf_link f else lastLinkTarget cw in
  let changed := linkChanged || negb (bool_decide (hashFile (cf_cert f) = lastCertHash cw))
                 || negb (bool_decide (hashFile (cf_key f) = lastKeyHash cw)) in
  if changed then (mkCertWatcher (hashFile (cf_cert f)) (hashFile (cf_key f)) link, true)
  else (mkCertWatcher (lastCertHash cw) (lastKeyHash cw) link, false).
End certs.

(** ** What the watcher publishes *)

(** The settings that need a restart. *)
Definition restart_view (c : Config) :=
  let tls := sc_TLS (cfg_Server c) in
  (sc_Address (cfg_Server c), ac_Address (cfg_Admin c), rc_Mode (cfg_Redis c), st_Enabled tls, st_HTTP3Enabled tls,
   mt_Enabled (st_MTLS tls), mt_ListenAddr (st_MTLS tls)).

Lemma RequiresRestart_nil a b : RequiresRestart a (Some b) = [] <-> restart_view a = restart_view b.
Proof.
  unfold RequiresRestart, restart_view. split.
  - intros H. repeat (apply app_nil in H as [?H H]). repeat case_bool_decide; try done. congruence.
  - intros [= -> -> -> -> -> -> ->]. by rewrite !bool_decide_eq_true_2.
Qed.

Section safety.
Variable sha256 : string -> string.
Variable Unmarshal : string -> Config -> result Config.
Variable ParseEnv : Config -> result Config.
Variable url_Parse : string -> result URL.
Variable URL_String : URL -> string.
Abbreviation LoadFromPath := (LoadFromPath Unmarshal ParseEnv url_Parse URL_String).
Abbreviation reload := (reload Unmarshal ParseEnv url_Parse URL_String).
Abbreviation wstep := (wstep sha256 Unmarshal ParseEnv url_Parse URL_String).
Abbreviation wrun := (wrun sha256 Unmarshal ParseEnv url_Parse URL_String).
Abbreviation poll_once := (poll_once sha256 Unmarshal ParseEnv url_Parse URL_String).
Abbreviation hashFile := (hashFile sha256).
Abbreviation watcher_start := (watcher_start sha256).
Implicit Types (s : wstate).

(** The last configuration is the newest published one, and all of them agree with
    the one the process was started with where a restart is needed. *)
Definition published_ok (cfg0 : Config) (w : Watcher) : Prop :=
  w_lastConfig w = last (cfg0 :: w_published w)
  /\ Forall (fun c => valid_config c /\ restart_view c = restart_view cfg0) (w_published w).

Lemma published_last cfg0 w : published_ok cfg0 w -> exists c, w_lastConfig w = Some c /\ restart_view c = restart_view cfg0.
Proof.
  intros [H1 H2]. rewrite H1. destruct (w_published w) as [|p l] using rev_ind; [eauto|].
  rewrite app_comm_cons, last_snoc. apply Forall_app in H2 as [_ H2]. apply Forall_singleton in H2 as [_ H2]. eauto.
Qed.

Lemma reload_published cfg0 data w : published_ok cfg0 w -> published_ok cfg0 (reload data w).
Proof.
  intros H. unfold reload. destruct (LoadFromPath data) as [c|] eqn:E; [|done].
  destruct (published_last cfg0 w H) as (c0 & Hl & Hv). rewrite Hl.
  destruct (RequiresRestart c (Some c0)) eqn:Er; [|done]. apply RequiresRestart_nil in Er. destruct H as [_ H]. split; cbn.
  - by rewrite app_comm_cons, last_snoc.
  - apply Forall_app. split; [done|]. apply Forall_singleton. split; [by eapply LoadFromPath_valid|congruence].
Qed.

Lemma wstep_published cfg0 e s s' : wstep e s = Some s' -> published_ok cfg0 (ws_w s) -> published_ok cfg0 (ws_w s').
Proof.
  intros Hs H. destruct s as [f w ps tm ch ph sn], e; unfold wstep in Hs; cbn in *.
  - by injection Hs as <-.
  - destruct ph; try done. destruct (handleFSEvent op now tm). by injection Hs as <-.
  - destruct ph, ch as [[d []]|]; try done. destruct (d <=? now); [|done]. injection Hs as <-. by apply reload_published.
  - destruct ph; try done. by injection Hs as <-.
  - destruct ph; try done. by destruct (ps_changed sha256 f ps) as [ps' []]; injection Hs as <-.
  - destruct ph; try done. injection Hs as <-. by apply reload_published.
  - destruct ph; try done. by injection Hs as <-.
Qed.

Lemma start_published es cfg0 seen f s : wrun es (watcher_start cfg0 seen f) = Some s -> published_ok cfg0 (ws_w s).
Proof.
  assert (published_ok cfg0 (ws_w (watcher_start cfg0 seen f))) as H0 by (split; [done|constructor]).
  revert H0. generalize (watcher_start cfg0 seen f). induction es as [|e es IH]; intros s0 H0 Hr; cbn in Hr; [by injection Hr as <-|].
  destruct (wstep e s0) as [s1|] eqn:E; [|done]. eapply IH; [|done]. by eapply wstep_published.
Qed.

(** What the watcher hands to the server. Whatever happens to the file, and
    however its changes interleave with the loop, every configuration the
    watcher publishes has passed validation and agrees with the configuration
    the process was started with in every setting that needs a restart. *)
Theorem watcher_publishes_safe es cfg0 seen f s c :
  wrun es (watcher_start cfg0 seen f) = Some s -> c ∈ w_published (ws_w s) ->
  valid_config c /\ RequiresRestart c (Some cfg0) = [].
Proof.
  intros Hr Hc. destruct (start_published es cfg0 seen f s Hr) as [_ H].
  rewrite Forall_forall in H. destruct (H c Hc) as [H1 H2]. split; [done|]. by apply RequiresRestart_nil.
Qed.

(** ** Polling finds every change *)

(** Changes only happen while the loop waits. *)
Fixpoint steady (es : list wevent) s : bool :=
  match es with
  | [] => true
  | e :: es =>
      (match e, ws_phase s with WChange _, (WReloaded | WSnapshot) => false | _, _ => true end)
      && match wstep e s with Some s' => steady es s' | None => true end
  end.

(** The configuration in force is that of the content last read, when it is one
    that can be reloaded. *)
Definition applied s : Prop :=
  forall c, LoadFromPath (ws_seen s) = Ok c -> RequiresRestart c (w_lastConfig (ws_w s)) = [] -> w_lastConfig (ws_w s) = Some c.

Definition tracked s : Prop :=
  match ws_phase s with
  | WWaiting | WStopped => lastHash (ws_ps s) = hashFile (ws_seen s)
  | WReloaded => ws_seen s = fs_data (ws_fs s)
  | WSnapshot => lastHash (ws_ps s) = hashFile (fs_data (ws_fs s))
  end.

Lemma reload_applied s ps ph ch : applied (reload_now Unmarshal ParseEnv url_Parse URL_String s ps ph ch).
Proof.
  intros c. unfold reload_now. cbn [ws_seen ws_w]. intros Hc. unfold reload. rewrite Hc.
  destruct (RequiresRestart c (w_lastConfig (ws_w s))) eqn:E; cbn [w_lastConfig]; [done|]. intros H. congruence.
Qed.

Lemma wstep_tracked e s s' :
  wstep e s = Some s' -> match e, ws_phase s with WChange _, (WReloaded | WSnapshot) => false | _, _ => true end = true ->
  tracked s -> applied s -> tracked s' /\ applied s'.
Proof.
  intros Hs He Ht Ha. destruct s as [f w ps tm ch ph sn], e; unfold wstep in Hs; cbn in *.
  - injection Hs as <-. by destruct ph.
  - destruct ph; try done. destruct (handleFSEvent op now tm). injection Hs as <-. done.
  - destruct ph, ch as [[d []]|]; try done. destruct (d <=? now); [|done]. injection Hs as <-. split; [done|]. apply reload_applied.
  - destruct ph; try done. injection Hs as <-. split; [|done]. unfold tracked in *. cbn in *. by rewrite Ht.
  - destruct ph; try done. destruct (ps_changed sha256 f ps) as [ps' []] eqn:E; injection Hs as <-; [done|]. split; [|done].
    unfold ps_changed in E. destruct (_ && _); [done|]. injection E as <- _. done.
  - destruct ph; try done. injection Hs as <-. split; [done|]. apply reload_applied.
  - destruct ph; try done. injection Hs as <-. done.
Qed.

Lemma wrun_tracked es : forall s s', wrun es s = Some s' -> steady es s = true -> tracked s -> applied s -> tracked s' /\ applied s'.
Proof.
  induction es as [|e es IH]; intros s s' Hr Hst Ht Ha; cbn in Hr, Hst; [by injection Hr as <-|].
  apply andb_true_iff in Hst as [He Hst]. destruct (wstep e s) as [s1|] eqn:E; [|done].
  destruct (wstep_tracked e s s1 E He Ht Ha). by eapply IH.
Qed.

Section collision_free.
Hypothesis sha256_inj : forall a b, sha256 a = sha256 b -> a = b.
Hypothesis sha256_nonempty : forall a, sha256 a <> "".

Lemma hashFile_inj a b : hashFile a = hashFile b -> a = b.
Proof.
  destruct a as [a|], b as [b|]; cbn; intros H; [f_equal; auto|by destruct (sha256_nonempty a)|by destruct (sha256_nonempty b)|done].
Qed.

End collision_free.

(** ** Updates that are lost *)

(** The snapshot describes a file other than the one that was read. *)
Definition stale s : Prop :=
  ws_phase s = WWaiting /\ ws_ps s = ps_snapshot sha256 (ws_fs s) /\ ws_seen s <> fs_data (ws_fs s).

Lemma polls_idle s n : ws_phase s = WWaiting -> ws_ps s = ps_snapshot sha256 (ws_fs s) -> wrun (replicate n WPoll) s = Some s.
Proof.
  intros Hp Hs. assert (wstep WPoll s = Some s) as H.
  { destruct s as [f w ps tm ch ph sn]. cbn in Hp, Hs. subst. unfold wstep, ps_changed, ps_snapshot. cbn.
    rewrite (bool_decide_eq_true_2 (fs_link f = fs_link f)) by done. cbn. by rewrite (bool_decide_eq_true_2 (hashFile (fs_data f) = _)) by done. }
  induction n as [|n IH]; [done|]. cbn [replicate Watcher.wrun]. by rewrite H.
Qed.

(** A load that races with a change of the file is never repaired by polling.
    The debounced reload reads the file before it takes the snapshot: a change
    in between is recorded as known. From then on any number of polls leaves the
    watcher as it is, with a configuration that is not that of the file. *)
Theorem debounce_race_loses_update s s1 now f n :
  wstep (WFire now) s = Some s1 -> fs_data f <> fs_data (ws_fs s) ->
  exists s2, wrun [WFire now; WChange f; WSnap] s = Some s2 /\ stale s2 /\ wrun (replicate n WPoll) s2 = Some s2.
Proof.
  intros Hs Hne. cbn [Watcher.wrun]. rewrite Hs. destruct s as [f0 w ps tm ch ph sn]. unfold wstep in Hs. cbn in Hs.
  destruct ph, ch as [[d []]|]; try done. destruct (d <=? now); [|done]. injection Hs as <-. cbn.
  eexists. split; [done|]. split; [split_and!; [done|done|]; intros E; apply Hne; symmetry; exact E|]. by apply polls_idle.
Qed.

(** The same window exists between loading the configuration and starting the
    watcher. *)
Lemma startup_race_loses_update cfg0 seen f n :
  seen <> fs_data f -> stale (watcher_start cfg0 seen f)
  /\ wrun (replicate n WPoll) (watcher_start cfg0 seen f) = Some (watcher_start cfg0 seen f).
Proof.
  intros H. split; [done|]. by apply polls_idle.
Qed.

(** A file that cannot be read is not an error: the defaults with the environment
    are loaded in its place, and published when they are valid. *)
Lemma missing_file_publishes_defaults w c :
  LoadFromPath None = Ok c -> RequiresRestart c (w_lastConfig w) = [] ->
  reload None w = mkWatcher (Some c) (w_published w ++ [c]).
Proof. intros H1 H2. unfold reload. by rewrite H1, H2. Qed.

(** ** Debouncing *)

Definition relevant (evs : list (fsop * Z)) : list (fsop * Z) := List.filter (fun p => triggers p.1) evs.
Definition notify (evs : list (fsop * Z)) : list wevent := map (fun p => WNotify p.1 p.2) evs.

Lemma notify_timer evs : forall s s',
  wrun (notify evs) s = Some s' ->
  ws_w s' = ws_w s /\ ws_phase s' = ws_phase s
  /\ match last (relevant evs) with
     | Some (_, t) => ws_phase s = WWaiting /\ ws_ch s' = Some (mkTimer (t + debounce) false)
     | None => ws_timer s' = ws_timer s /\ (ws_ch s' = ws_ch s \/ ws_ch s' = ws_timer s)
     end.
Proof.
  induction evs as [|[op t] evs IH]; intros s s' Hr; cbn in Hr; [injection Hr as <-; cbn; by auto 6|].
  destruct s as [f w ps tm ch ph sn]. cbn in Hr. destruct ph; try done. unfold handleFSEvent in Hr. cbn [relevant List.filter fst].
  destruct (triggers op); cbn in Hr; apply IH in Hr as (-> & -> & Hl); cbn in *; (split; [done|split; [done|]]).
  - fold (relevant evs). rewrite last_cons. destruct (last (relevant evs)) as [[? ?]|] eqn:El; [done|].
    split; [done|]. by destruct Hl as [Ht [-> | ->]].
  - fold (relevant evs). destruct (last (relevant evs)) as [[? ?]|] eqn:El; [done|]. destruct Hl as [Ht [-> | ->]]; auto.
Qed.

(** A burst of notifications causes one reload, [debounce] after the last of
    them. However many events arrive, nothing is loaded while they do; the timer
    can fire exactly from [debounce] after the last event that matters, and once
    it has fired no reload is pending until another event comes. *)
Theorem debounce_coalesces evs s s' op t now :
  wrun (notify evs) s = Some s' -> last (relevant evs) = Some (op, t) ->
  ws_w s' = ws_w s
  /\ match wstep (WFire now) s' with
     | None => now < t + debounce
     | Some s2 => t + debounce <= now /\ ws_ch s2 = None
     end.
Proof.
  intros Hr Hl. apply notify_timer in Hr as (Hw & Hp & H). rewrite Hl in H. destruct H as [H1 H2]. split; [done|].
  unfold wstep. rewrite Hp, H1, H2. destruct (Z.leb_spec (t + debounce) now); [done|lia].
Qed.
End safety.

(** ** Certificates *)

Section cert_safety.
Variable sha256 : string -> string.

(** The hashes the watcher remembers are those of the files. *)
Definition cert_seen (f : cert_fs) (cw : CertWatcher) : Prop :=
  lastCertHash cw = hashFile sha256 (cf_cert f) /\ lastKeyHash cw = hashFile sha256 (cf_key f).

Lemma cert_tick_seen f cw : cert_seen f (cert_tick sha256 f cw).1.
Proof.
  unfold cert_tick, cert_seen. destruct (_ && _); cbn; [done|].
  destruct (bool_decide_reflect (hashFile sha256 (cf_cert f) = lastCertHash cw)) as [H1|];
    destruct (bool_decide_reflect (hashFile sha256 (cf_key f) = lastKeyHash cw)) as [H2|]; cbn; done.
Qed.

Lemma cert_tick_silent f cw : (cert_tick sha256 f cw).2 = false -> cert_seen f cw.
Proof.
  unfold cert_tick. destruct (_ && _); cbn; [done|]. unfold cert_seen.
  destruct (bool_decide_reflect (hashFile sha256 (cf_cert f) = lastCertHash cw)) as [H1|];
    destruct (bool_decide_reflect (hashFile sha256 (cf_key f) = lastKeyHash cw)) as [H2|]; cbn; try done.
Qed.

(** Ticks on files that do not change: at most the first one calls back. *)
Lemma cert_tick_once f cw : (cert_tick sha256 f (cert_tick sha256 f cw).1).2 = false.
Proof.
  destruct (cert_tick_seen f cw) as [H1 H2].
  assert (cf_link f = lastLinkTarget (cert_tick sha256 f cw).1 \/ cf_link f = "") as Hl.
  { unfold cert_tick. destruct (bool_decide_reflect (cf_link f = lastLinkTarget cw)), (bool_decide_reflect (cf_link f = "")); cbn;
      try (destruct (_ || _)); cbn; auto. }
  revert H1 H2 Hl. generalize (cert_tick sha256 f cw).1. intros c H1 H2 Hl. unfold cert_tick.
  rewrite <- H1, <- H2, (bool_decide_eq_true_2 (lastCertHash c = _)), (bool_decide_eq_true_2 (lastKeyHash c = _)) by done.
  destruct Hl as [->|Hl]; [by rewrite bool_decide_eq_true_2|].
  by rewrite (bool_decide_eq_true_2 (cf_link f = "")), andb_false_r.
Qed.
End cert_safety.

(** ** Concrete runs *)

Module WatchDemo.
(** A content of n bytes sets the average n; the digest keeps the content. *)
Definition sha (s : string) : string := String (Ascii.ascii_of_nat 104) s.
Definition Unmarshal (d : string) (c : Config) : result Config :=
  let rl := cfg_RateLimit sample_config in let st := rl_Static rl in
  Ok (set_cfg_RateLimit (set_rl_Static (mkStaticRateLimitConfig (len d) (rs_Burst st) (rs_Period st) (rs_KeyStrategy st) (rs_BackendURL st)) rl)
        sample_config).
Definition ParseEnv (c : Config) : result Config := Ok c.
Definition load := LoadFromPath Unmarshal ParseEnv sample_parse sample_string.
Definition loaded (d : string) : Config := match load (Some d) with Ok c => c | Err _ => Defaults end.
Definition file (d : string) : fs := mkFS (Some d) "".
Definition start : wstate := watcher_start sha (loaded "x") (Some "x") (file "x").
Definition run (es : list wevent) : option wstate := wrun sha Unmarshal ParseEnv sample_parse sample_string es start.
(** The file is edited twice in quick succession; an editor touches its mode. *)
Definition edits : list wevent := [WChange (file "xx"); WNotify OpWrite 10; WNotify OpChmod 20; WChange (file "xxx"); WNotify OpWrite 30].
Definition at_ (es : list wevent) : wstate := default start (run es).
Definition average (c : option Config) : option Z := (fun c => rs_Average (rl_Static (cfg_RateLimit c))) <$> c.
Lemma sha_inj a b : sha a = sha b -> a = b.
Proof. by intros [= ->]. Qed.
Lemma sha_nonempty a : sha a <> "".
Proof. done. Qed.
End WatchDemo.

Lemma watcher_publishes_safe_witness :
  let s := WatchDemo.at_ (WatchDemo.edits ++ [WFire (30 + debounce); WSnap]) in
  map (fun c => WatchDemo.average (Some c)) (w_published (ws_w s)) = [Some 3]
  /\ RequiresRestart (WatchDemo.loaded "xxx") (Some (WatchDemo.loaded "x")) = [].
Proof.
  intros s. split; [vm_compute; reflexivity|].
  apply (watcher_publishes_safe WatchDemo.sha WatchDemo.Unmarshal WatchDemo.ParseEnv sample_parse sample_string
           (WatchDemo.edits ++ [WFire (30 + debounce); WSnap]) (WatchDemo.loaded "x") (Some "x") (WatchDemo.file "x") s);
    [vm_compute; reflexivity|]. vm_compute. constructor.
Defined.


Lemma debounce_race_loses_update_witness :
  exists s2, stale WatchDemo.sha s2 /\ WatchDemo.average (w_lastConfig (ws_w s2)) = Some 3
    /\ wrun WatchDemo.sha WatchDemo.Unmarshal WatchDemo.ParseEnv sample_parse sample_string (replicate 100 WPoll) s2 = Some s2.
Proof.
  edestruct (debounce_race_loses_update WatchDemo.sha WatchDemo.Unmarshal WatchDemo.ParseEnv sample_parse sample_string
    (WatchDemo.at_ WatchDemo.edits) (WatchDemo.at_ (WatchDemo.edits ++ [WFire (30 + debounce)])) (30 + debounce) (WatchDemo.file "xxxx") 100)
    as (s2 & H1 & H2 & H3); [vm_compute; reflexivity|vm_compute; discriminate|].
  exists s2. split; [exact H2|]. split; [|exact H3]. vm_compute in H1. injection H1 as <-. reflexivity.
Defined.

Lemma debounce_coalesces_witness :
  let s := WatchDemo.at_ [WNotify OpWrite 10; WNotify OpChmod 20; WNotify OpRename 30] in
  ws_w s = ws_w WatchDemo.start.
Proof.
  intros s.
  apply (debounce_coalesces WatchDemo.sha WatchDemo.Unmarshal WatchDemo.ParseEnv sample_parse sample_string
    [(OpWrite, 10); (OpChmod, 20); (OpRename, 30)] WatchDemo.start s OpRename 30 0); vm_compute; reflexivity.
Defined.
