(* ===== verification/AdminLimiter.v ===== *)
(** * The admin interface: rate limiter and health endpoints

    [adminRateLimiter] (internal/server/server.go): a token counter that requests
    and a ticker change with compare-and-swap loops. A step is one atomic load or
    one compare-and-swap, so the steps of concurrent requests and of the refill
    interleave in every way the code allows.

    [HealthChecker] (internal/observability/health.go): the probes. *)
From S2P Require Import Prelude GoStrings.

Local Open Scope Z_scope.

(** ** The limiter *)

(** The refill loop of the ticker goroutine: waiting for the next tick, about to
    load, or holding the value it has loaded. *)
Inductive refill_phase := RfWaiting | RfLoad | RfSwap (cur : Z).

Record adminRateLimiter := mkAdminRL {
  ar_tokens : Z;
  ar_burst : Z;
  ar_loaded : list Z;               (* what requests have loaded and not yet swapped *)
  ar_refill : refill_phase;
  ar_admitted : Z;                  (* requests passed to the handler *)
  ar_rejected : Z;                  (* requests answered with 429 *)
  ar_refills : Z                    (* refills done *)
}.

Definition newAdminRateLimiter (burst : Z) : adminRateLimiter := mkAdminRL burst burst [] RfWaiting 0 0 0.

Definition refill_amount (burst : Z) : Z := let refill := Z.quot burst 10 in if refill <? 1 then 1 else refill.

Inductive ar_event :=
| ArLoad                            (* a request loads the counter *)
| ArSwap (i : nat)                  (* a request tries to take its token *)
| ArTick                            (* the ticker fires *)
| ArRefillLoad
| ArRefillSwap.

Definition ar_step (e : ar_event) (rl : adminRateLimiter) : option adminRateLimiter :=
  let 'mkAdminRL t b l ph ad rj rf := rl in
  match e with
  | ArLoad =>
      Some (if t <=? 0 then mkAdminRL t b l ph ad (rj + 1) rf else mkAdminRL t b (l ++ [t]) ph ad rj rf)
  | ArSwap i =>
      cur ← l !! i;
      let l := delete i l in
      Some (if t =? cur then mkAdminRL (cur - 1) b l ph (ad + 1) rj rf else mkAdminRL t b l ph ad rj rf)
  | ArTick => match ph with RfWaiting => Some (mkAdminRL t b l RfLoad ad rj rf) | _ => None end
  | ArRefillLoad => match ph with RfLoad => Some (mkAdminRL t b l (RfSwap t) ad rj rf) | _ => None end
  | ArRefillSwap =>
      match ph with
      | RfSwap cur =>
          let next := cur + refill_amount b in
          let next := if b <? next then b else next in
          Some (if t =? cur then mkAdminRL next b l RfWaiting ad rj (rf + 1) else mkAdminRL t b l RfLoad ad rj rf)
      | _ => None
      end
  end.

Fixpoint ar_run (es : list ar_event) (rl : adminRateLimiter) : option adminRateLimiter :=
  match es with [] => Some rl | e :: es => rl' ← ar_step e rl; ar_run es rl' end.

(** ** Health *)

(** [redisPinger]: whether one is registered. *)
Record HealthChecker := mkHealth { h_started : bool; h_ready : bool; h_redisPinger : bool }.

Definition NewHealthChecker : HealthChecker := mkHealth false false false.
Definition SetStarted (h : HealthChecker) : HealthChecker := mkHealth true (h_ready h) (h_redisPinger h).
Definition SetReady (h : HealthChecker) : HealthChecker := mkHealth (h_started h) true (h_redisPinger h).
Definition SetNotReady (h : HealthChecker) : HealthChecker := mkHealth (h_started h) false (h_redisPinger h).
Definition SetRedisPinger (p : bool) (h : HealthChecker) : HealthChecker := mkHealth (h_started h) (h_ready h) p.

(** The status field and the redis field of the answer. *)
Record probe := mkProbe { pr_code : Z; pr_status : string; pr_redis : option string }.

Definition StartzHandler (h : HealthChecker) : probe :=
  if h_started h then mkProbe 200 "started" None else mkProbe 503 "not_started" None.
Definition HealthzHandler (h : HealthChecker) : probe := mkProbe 200 "alive" None.

(** [deep]: the query parameter; [ping]: the answer of the pinger. *)
Definition ReadyzHandler (h : HealthChecker) (deep : string) (ping : option error) : probe :=
  if negb (h_ready h) then mkProbe 503 "not_ready" None
  else if bool_decide (deep = "true") then
    if h_redisPinger h && bool_decide (is_Some ping) then mkProbe 503 "not_ready" (Some "unreachable")
    else mkProbe 200 "ready" (Some "ok")
  else mkProbe 200 "ready" None.

(** ** The limiter keeps its bound *)

(** Tokens stay in range, and what was handed out is what was there at the start
    or refilled since. *)
Record ar_ok (rl : adminRateLimiter) : Prop := mkArOk {
  ao_tokens : 0 <= ar_tokens rl <= ar_burst rl;
  ao_loaded : Forall (fun cur => 0 < cur <= ar_burst rl) (ar_loaded rl);
  ao_swap : forall cur, ar_refill rl = RfSwap cur -> 0 <= cur <= ar_burst rl;
  ao_account : ar_tokens rl + ar_admitted rl <= ar_burst rl + ar_refills rl * refill_amount (ar_burst rl)
}.

Lemma refill_pos b : 1 <= refill_amount b.
Proof. unfold refill_amount. destruct (Z.ltb_spec (Z.quot b 10) 1); lia. Qed.

Lemma ar_step_ok e rl rl' : ar_step e rl = Some rl' -> ar_ok rl -> ar_ok rl' /\ ar_burst rl' = ar_burst rl.
Proof.
  pose proof refill_pos as Hp. destruct rl as [t b l ph ad rj rf]. intros Hs [H1 H2 H3 H4]. cbn in *. specialize (Hp b). destruct e.
  - destruct (Z.leb_spec t 0); injection Hs as <-; (split; [|done]); split; cbn; auto.
    apply Forall_app. split; [done|]. apply Forall_singleton. lia.
  - destruct (l !! i) as [cur|] eqn:El; cbn in Hs; [|done].
    assert (Forall (fun cur => 0 < cur <= b) (delete i l)) as Hd by (by apply Forall_delete).
    pose proof (Forall_lookup_1 _ _ _ _ H2 El) as Hcur. cbn in Hcur.
    destruct (Z.eqb_spec t cur) as [->|]; injection Hs as <-; (split; [|done]); split; cbn; auto; lia.
  - destruct ph; try done. injection Hs as <-. split; [|done]. by split; cbn.
  - destruct ph; try done. injection Hs as <-. split; [|done]. split; cbn; auto. by intros cur [= <-].
  - destruct ph as [| |cur]; try done. specialize (H3 cur eq_refl).
    destruct (Z.eqb_spec t cur) as [->|]; injection Hs as <-; (split; [|done]); split; cbn; auto; try done.
    + destruct (Z.ltb_spec b (cur + refill_amount b)); lia.
    + destruct (Z.ltb_spec b (cur + refill_amount b)); lia.
Qed.

Lemma ar_run_ok es : forall rl rl', ar_run es rl = Some rl' -> ar_ok rl -> ar_ok rl' /\ ar_burst rl' = ar_burst rl.
Proof.
  induction es as [|e es IH]; intros rl rl' Hr H; cbn in Hr; [by injection Hr as <-|].
  destruct (ar_step e rl) as [rl1|] eqn:E; [|done]. destruct (ar_step_ok e rl rl1 E H) as [H1 E1].
  destruct (IH rl1 rl' Hr H1) as [H2 E2]. split; [done|congruence].
Qed.

(** C30: The admin limiter under concurrency. In every interleaving of the atomic
    operations of any number of requests and of the refill loop, the counter
    stays between zero and the burst, and at most the burst plus what has been
    refilled is admitted: no lost update hands out a token twice. *)
Theorem admin_limiter_bound burst es rl :
  0 <= burst -> ar_run es (newAdminRateLimiter burst) = Some rl ->
  0 <= ar_tokens rl <= burst /\ ar_admitted rl <= burst + ar_refills rl * refill_amount burst.
Proof.
  intros Hb Hr. destruct (ar_run_ok es _ rl Hr) as [[H1 _ _ H4] E].
  { split; cbn; [lia|constructor|discriminate|lia]. }
  cbn in E. rewrite E in *. lia.
Qed.

(** Ten tokens, two requests that load the same value: the second has to load
    again. *)
Lemma admin_limiter_bound_witness :
  exists rl, ar_run [ArLoad; ArLoad; ArTick; ArSwap 0; ArSwap 0; ArRefillLoad; ArLoad; ArSwap 0; ArRefillSwap; ArRefillLoad; ArRefillSwap]
               (newAdminRateLimiter 10) = Some rl
    /\ ar_admitted rl = 2 /\ ar_tokens rl = 9 /\ 0 <= ar_tokens rl <= 10.
Proof.
  eexists. split; [vm_compute; reflexivity|]. split; [reflexivity|]. split; [reflexivity|].
  eapply (admin_limiter_bound 10 [ArLoad; ArLoad; ArTick; ArSwap 0; ArSwap 0; ArRefillLoad; ArLoad; ArSwap 0; ArRefillSwap; ArRefillLoad; ArRefillSwap]);
    [discriminate|vm_compute; reflexivity].
Defined.

(** A compare-and-swap fails only when another one succeeded since the load: an
    undisturbed request or refill needs one attempt. *)
Lemma undisturbed_request rl :
  0 < ar_tokens rl -> exists rl', ar_run [ArLoad; ArSwap (length (ar_loaded rl))] rl = Some rl'
    /\ ar_admitted rl' = ar_admitted rl + 1 /\ ar_tokens rl' = ar_tokens rl - 1 /\ ar_loaded rl' = ar_loaded rl.
Proof.
  intros Ht. destruct rl as [t b l ph ad rj rf]. cbn in *. destruct (Z.leb_spec t 0); [lia|]. cbn.
  rewrite list_lookup_middle by done. cbn. rewrite Z.eqb_refl. eexists. split; [done|]. cbn. split_and!; [done|done|].
  by rewrite delete_middle, app_nil_r.
Qed.

(** ** Probes *)

(** Readiness. The service reports ready only between [SetReady] and
    [SetNotReady]; a deep probe of a ready service fails exactly when a pinger
    is registered and its ping fails. Startup and liveness never depend on it. *)
Theorem readyz_exact h deep ping :
  (pr_code (ReadyzHandler h deep ping) = 200 <->
     h_ready h = true /\ (deep = "true" -> h_redisPinger h = true -> ping = None))
  /\ StartzHandler (SetNotReady h) = StartzHandler h
  /\ pr_code (ReadyzHandler (SetNotReady h) deep ping) = 503
  /\ pr_code (HealthzHandler h) = 200.
Proof.
  split; [|done]. unfold ReadyzHandler. destruct h as [st rd p]. cbn. destruct rd; cbn; [|naive_solver].
  case_bool_decide as Hd; cbn; [|naive_solver]. destruct p; cbn; [|naive_solver].
  destruct ping; cbn; naive_solver.
Qed.
