(* ===== verification/RedisClient.v ===== *)
(** * Redis client

    [internal/redis/client.go]: the classification of Redis errors, and the
    replication client that discovers the primary with ROLE, caches it for 30
    seconds and retries once on READONLY.

    The Redis servers are outside the repository. They are parameters: [role]
    is the ROLE answer of an endpoint in a world [W], [clock] is the wall clock,
    and a command is a function that steps the world. *)
From S2P Require Import Prelude GoStrings.

Local Open Scope Z_scope.

(** ** Error classification *)

Definition IsNoScriptErr (err : option error) : bool :=
  match err with Some e => HasPrefix (err_msg e) "NOSCRIPT" | None => false end.

Definition IsReadOnlyErr (err : option error) : bool :=
  match err with Some e => Contains (err_msg e) "READONLY" | None => false end.

Definition IsNilErr (err : option error) : bool :=
  match err with Some e => err_redis_nil e | None => false end.

Definition IsCanceledErr (err : option error) : bool :=
  match err with Some e => err_canceled e | None => false end.

Definition connectivity_markers : list string :=
  ["connection refused"; "connection reset"; "broken pipe";
   "EOF"; "no such host"; "no route to host";
   "network is unreachable"; "i/o timeout";
   "deadline exceeded"; "CLUSTERDOWN"; "LOADING"].

Definition IsConnectivityErr (err : option error) : bool :=
  match err with
  | None => false
  | Some e =>
      if err_canceled e then false
      else if err_deadline e then true
      else if err_net_timeout e then true
      else if err_net_op e then true
      else existsb (fun s => Contains (err_msg e) s) connectivity_markers
  end.

(** The error part of a Go [(T, error)] pair. *)
Definition err_of {A} (r : result A) : option error :=
  match r with Ok _ => None | Err e => Some e end.

(** ** The replication client *)

Definition masterCacheTTL : Z := 30 * Second.

(** [master] is the address the current go-redis client was created for;
    [lastCheck = None] is the zero time. [closed] collects the clients closed so
    far, in order. *)
Record ReplicationClient := mkReplicationClient {
  endpoints : list string;
  masterAddr : string;
  master : option string;
  lastCheck : option Z;
  closed : list string
}.

Section replication.
Context {W : Type}.
Variable clock : W -> Z.                        (* time.Now() *)
Variable role : W -> string -> option string.   (* first element of ROLE, None on error *)

Fixpoint discover (w : W) (addrs : list string) : option string :=
  match addrs with
  | [] => None
  | addr :: rest =>
      match role w addr with
      | Some r => if bool_decide (ToLower r = "master") then Some addr else discover w rest
      | None => discover w rest
      end
  end.

Definition discoverMaster (r : ReplicationClient) (w : W) : result string :=
  match discover w (endpoints r) with
  | Some addr => Ok addr
  | None => Err (errorf "no master found among endpoints")
  end.

Definition refreshMaster (r : ReplicationClient) (w : W) : ReplicationClient * option error :=
  match discoverMaster r w with
  | Err e => (r, Some e)
  | Ok addr =>
      let r1 :=
        if bool_decide (addr ≠ masterAddr r) then
          mkReplicationClient (endpoints r) addr (Some addr) (lastCheck r)
            (match master r with Some old => closed r ++ [old] | None => closed r end)
        else r in
      (mkReplicationClient (endpoints r1) (masterAddr r1) (master r1) (Some (clock w)) (closed r1), None)
  end.

(** [time.Since(lastCheck) < masterCacheTTL]; the zero time is always stale. *)
Definition master_fresh (r : ReplicationClient) (now : Z) : bool :=
  match lastCheck r with Some t => now - t <? masterCacheTTL | None => false end.

(** A [nil] master without an error is possible in the Go code only when an
    endpoint is the empty string; the option keeps that case visible. *)
Definition getMaster (r : ReplicationClient) (w : W) : ReplicationClient * result (option string) :=
  if bool_decide (is_Some (master r)) && master_fresh r (clock w) then (r, Ok (master r))
  else
    match refreshMaster r w with
    | (r', Some e) => (r', Err e)
    | (r', None) => (r', Ok (master r'))
    end.

Definition invalidateMaster (r : ReplicationClient) : ReplicationClient :=
  mkReplicationClient (endpoints r) (masterAddr r) (master r) None (closed r).

(** [withReadOnlyRetry] with the closure of its callers inlined: [fn] is the
    command run on a master, and the command result the closure captured is
    returned with the error. [n] is the number of attempts left. *)
Section retry.
Context {A : Type}.
Variable fn : W -> option string -> W * result A.

Fixpoint retry_loop (n : nat) (first : bool) (captured : option (result A))
    (r : ReplicationClient) (w : W) : ReplicationClient * W * option (result A) * option error :=
  match n with
  | O => (r, w, captured, Some (errorf "replication: READONLY retry exhausted"))
  | S n' =>
      match getMaster r w with
      | (r', Err e) => (r', w, captured, Some e)
      | (r', Ok m) =>
          let '(w', res) := fn w m in
          if IsReadOnlyErr (err_of res) && first
          then retry_loop n' false (Some res) (invalidateMaster r') w'
          else (r', w', Some res, err_of res)
      end
  end.

Definition withReadOnlyRetry (r : ReplicationClient) (w : W)
    : ReplicationClient * W * option (result A) * option error :=
  retry_loop 2 true None r w.

(** [Eval], [EvalSha], [Set], [Del] and [SAdd]: the captured result, or a
    command carrying the discovery error when [fn] never ran. *)
Definition replicated (r : ReplicationClient) (w : W) : ReplicationClient * W * result A :=
  let '(r', w', captured, err) := withReadOnlyRetry r w in
  match captured with
  | Some res => (r', w', res)
  | None => (r', w', Err (default (errorf "") err))
  end.

(** [Get], [Ping] and [SMembers]: the cached or rediscovered master, no retry. *)
Definition unreplicated (r : ReplicationClient) (w : W) : ReplicationClient * W * result A :=
  match getMaster r w with
  | (r', Err e) => (r', w, Err e)
  | (r', Ok m) => let '(w', res) := fn w m in (r', w', res)
  end.
End retry.

Definition newReplication (eps : list string) (w : W) : result ReplicationClient :=
  let rc := mkReplicationClient eps "" None None [] in
  match refreshMaster rc w with
  | (_, Some e) => Err (wrapf "replication: initial master discovery" e)
  | (rc', None) => Ok rc'
  end.

Definition ReplicationClient_Close (r : ReplicationClient) : ReplicationClient :=
  match master r with
  | Some m => mkReplicationClient (endpoints r) (masterAddr r) (master r) (lastCheck r) (closed r ++ [m])
  | None => r
  end.

(** ** Lemmas *)

(** The cached client always belongs to the cached address. *)
Definition rc_ok (r : ReplicationClient) : Prop :=
  forall m, master r = Some m -> masterAddr r = m.

Lemma discover_master w addrs a :
  discover w addrs = Some a ->
  a ∈ addrs /\ exists s, role w a = Some s /\ ToLower s = "master".
Proof.
  induction addrs as [|x xs IH]; simpl; [done|].
  destruct (role w x) as [s|] eqn:E.
  - case_bool_decide; [intros [= <-]; split; [left|eauto]|].
    intros [? ?]%IH. split; [by right|done].
  - intros [? ?]%IH. split; [by right|done].
Qed.

Lemma refreshMaster_ok r w : rc_ok r -> rc_ok (refreshMaster r w).1.
Proof.
  unfold rc_ok, refreshMaster. intros H m. destruct (discoverMaster r w); [|auto].
  simpl. case_bool_decide; simpl; [by intros [= ->]|auto].
Qed.

Lemma getMaster_ok r w : rc_ok r -> rc_ok (getMaster r w).1.
Proof.
  intros H. unfold getMaster. destruct (_ && _); [done|].
  pose proof (refreshMaster_ok r w H). by destruct (refreshMaster r w) as [? []].
Qed.

End replication.

(** Every operation of the client keeps [rc_ok]; a new client has it. *)
Lemma newReplication_ok {W} (clock : W -> Z) role eps w r :
  newReplication clock role eps w = Ok r -> rc_ok r /\ (master r = None -> masterAddr r = "").
Proof.
  unfold newReplication. destruct (refreshMaster _ _ _ _) as [r' [e|]] eqn:E; [done|].
  intros [= <-]. pose proof (refreshMaster_ok clock role (mkReplicationClient eps "" None None []) w) as H.
  rewrite E in H. split; [apply H; by intros m|]. clear H.
  unfold refreshMaster, discoverMaster in E. simpl in E.
  destruct (discover role w eps) as [a|]; [|discriminate]. injection E as <-. simpl. by case_bool_decide.
Qed.

(** After a failover the replication client follows the new primary. When the
    cached master refuses a command with READONLY, the cache is invalidated and
    the command is run once more on the endpoint that now answers ROLE with
    master; that second answer is the one the caller gets, and the client ends
    up holding a connection to the new primary. *)
Theorem readonly_retry_follows_failover {W A} (clock : W -> Z) (role : W -> string -> option string)
    (fn : W -> option string -> W * result A) r r1 w m w1 e a :
  rc_ok r ->
  getMaster clock role r w = (r1, Ok (Some m)) ->
  fn w (Some m) = (w1, Err e) ->
  IsReadOnlyErr (Some e) = true ->
  discover role w1 (endpoints r1) = Some a ->
  replicated clock role fn r w =
    (fst (getMaster clock role (invalidateMaster r1) w1), (fn w1 (Some a)).1, (fn w1 (Some a)).2) /\
  master (fst (getMaster clock role (invalidateMaster r1) w1)) = Some a.
Proof.
  intros Hr Hg Hf He Hd.
  assert (rc_ok r1) as Hr1.
  { pose proof (getMaster_ok clock role r w Hr) as H. by rewrite Hg in H. }
  assert (master r1 = Some m) as Hm.
  { revert Hg. unfold getMaster. destruct (_ && _); [by intros [= -> ?]|].
    destruct (refreshMaster _ _ _ _) as [? []]; by intros [= -> ?]. }
  assert (getMaster clock role (invalidateMaster r1) w1
          = (fst (getMaster clock role (invalidateMaster r1) w1), Ok (Some a)) /\
          master (fst (getMaster clock role (invalidateMaster r1) w1)) = Some a) as [Hg1 Hm1].
  { unfold getMaster. simpl. rewrite andb_false_r.
    unfold refreshMaster, discoverMaster. simpl. rewrite Hd.
    case_bool_decide as Hx; simpl; [done|].
    apply Hr1 in Hm as Hma. by rewrite Hm, Hx, Hma. }
  split; [|done]. unfold replicated, withReadOnlyRetry. simpl. rewrite Hg, Hf. change (err_of (Err e)) with (Some e).
  rewrite He. cbn [andb]. rewrite Hg1. destruct (fn w1 (Some a)) as [w2 res]. by rewrite andb_false_r.
Qed.

(** A two-node cluster: node [a] is demoted while the client caches it. *)
Definition failover_role (w : nat) (addr : string) : option string :=
  if bool_decide (addr = "b:6379") then Some "master" else Some "slave".
Definition failover_fn (w : nat) (m : option string) : nat * result nat :=
  if bool_decide (m = Some "b:6379") then (S w, Ok 7%nat)
  else (S w, Err (errorf "READONLY You can't write against a read only replica.")).

Lemma readonly_retry_follows_failover_witness :
  replicated (fun _ => 0) failover_role failover_fn
    (mkReplicationClient ["a:6379"; "b:6379"] "a:6379" (Some "a:6379") (Some 0) []) 0%nat
  = (mkReplicationClient ["a:6379"; "b:6379"] "b:6379" (Some "b:6379") (Some 0) ["a:6379"], 2%nat, Ok 7%nat).
Proof.
  refine (proj1 (readonly_retry_follows_failover (fun _ => 0) failover_role failover_fn
    (mkReplicationClient ["a:6379"; "b:6379"] "a:6379" (Some "a:6379") (Some 0) [])
    (mkReplicationClient ["a:6379"; "b:6379"] "a:6379" (Some "a:6379") (Some 0) [])
    0%nat "a:6379" 1%nat (errorf "READONLY You can't write against a read only replica.") "b:6379"
    _ eq_refl eq_refl eq_refl eq_refl)).
  intros m H. simpl in H. injection H as <-. reflexivity.
Defined.

(** A command is run at most twice, and a second time only after READONLY. *)
Lemma replicated_attempts {W A} (clock : W -> Z) role (fn : W -> option string -> W * result A)
    (count : W -> nat) r w r' w' res :
  (forall w m, count (fn w m).1 = S (count w)) ->
  replicated clock role fn r w = (r', w', res) ->
  (count w' <= count w + 2)%nat /\
  (count w' = count w + 2 -> exists m, IsReadOnlyErr (err_of (fn w m).2) = true)%nat.
Proof.
  intros Hc. unfold replicated, withReadOnlyRetry. simpl.
  destruct (getMaster clock role r w) as [r1 [m|e]]; [|intros [= <- <- <-]; split; lia].
  pose proof (Hc w m) as Hm. destruct (fn w m) as [w1 res1] eqn:Ef. simpl in Hm.
  destruct (IsReadOnlyErr (err_of res1)) eqn:Er; simpl; [|intros [= <- <- <-]; split; lia].
  destruct (getMaster _ _ _ w1) as [r2 [m2|e]].
  - pose proof (Hc w1 m2) as Hm2. destruct (fn w1 m2) as [w2 res2].
    rewrite andb_false_r. intros [= <- <- <-]. simpl in Hm2. split; [lia|].
    intros _. exists m. by rewrite Ef.
  - intros [= <- <- <-]. split; lia.
Qed.
