(* ===== verification/RedisTopology.v ===== *)
(** * Redis clients for each topology

    [internal/redis/client.go]: the options a client is created with, the
    constructor for the configured mode, and the commands of the replication
    client. Connections and commands of go-redis are arguments; a slice index
    that does not exist ([endpoints[0]]) is [None], the panic it would be. *)
From S2P Require Import Prelude GoStrings GoTime ConfigTypes Config RedisClient.

Local Open Scope Z_scope.

(** ** Options *)

Definition defaultMaxRetries : Z := -1.
Definition defaultMinRetryBackoff : Z := 100 * Millisecond.
Definition defaultMaxRetryBackoff : Z := 5 * Second.

Record options := mkOptions {
  o_endpoints : list string;
  o_mode : string;
  o_masterName : string;
  o_username : string;
  o_password : string;
  o_db : Z;
  o_poolSize : Z;
  o_dialTimeout : Z;
  o_readTimeout : Z;
  o_writeTimeout : Z;
  o_tlsEnabled : bool;
  o_tlsSkipVerify : bool;
  o_sentinelUsername : string;
  o_sentinelPassword : string
}.

(** [crypto/tls.Config]: minimum version and whether certificates are checked. *)
Record tls_config := mkTLSConfig { tls_MinVersion : Z; tls_InsecureSkipVerify : bool }.

(** The fields the option structs of go-redis have in common. *)
Record conn_options := mkConnOptions {
  co_Username : string;
  co_Password : string;
  co_PoolSize : Z;
  co_DialTimeout : Z;
  co_ReadTimeout : Z;
  co_WriteTimeout : Z;
  co_MaxRetries : Z;
  co_MinRetryBackoff : Z;
  co_MaxRetryBackoff : Z;
  co_TLSConfig : option tls_config
}.

(** [goredis.Options], [FailoverOptions] and [ClusterOptions]. *)
Inductive client_options :=
| SingleOptions (addr : string) (db : Z) (c : conn_options)
| FailoverOptions (masterName : string) (sentinels : list string) (user password : string) (db : Z) (c : conn_options)
| ClusterOptions (addrs : list string) (c : conn_options).

Definition conn_of (o : client_options) : conn_options :=
  match o with SingleOptions _ _ c => c | FailoverOptions _ _ _ _ _ c => c | ClusterOptions _ c => c end.

Definition parseDur (s : string) (def : Z) : option Z := if bool_decide (s = "") then Some def else time_ParseDuration s.

Definition parseOptions (cfg : RedisConfig) : result options :=
  let mode := if bool_decide (rc_Mode cfg = "") then "single" else rc_Mode cfg in
  let poolSize := if rc_PoolSize cfg <=? 0 then 10 else rc_PoolSize cfg in
  match parseDur (rc_DialTimeout cfg) (5 * Second) with
  | None => Err (errorf "invalid dial_timeout")
  | Some dialTimeout =>
      match parseDur (rc_ReadTimeout cfg) (3 * Second) with
      | None => Err (errorf "invalid read_timeout")
      | Some readTimeout =>
          match parseDur (rc_WriteTimeout cfg) (3 * Second) with
          | None => Err (errorf "invalid write_timeout")
          | Some writeTimeout =>
              Ok (mkOptions (rc_Endpoints cfg) mode (rc_MasterName cfg) (rc_Username cfg) (rc_Password cfg) (rc_DB cfg) poolSize
                    dialTimeout readTimeout writeTimeout (rt_Enabled (rc_TLS cfg)) (rt_InsecureSkipVerify (rc_TLS cfg))
                    (rc_SentinelUsername cfg) (rc_SentinelPassword cfg))
          end
      end
  end.

Definition tlsConfig (o : options) : option tls_config :=
  if negb (o_tlsEnabled o) then None else Some (mkTLSConfig 771 (o_tlsSkipVerify o)).

Definition common (o : options) : conn_options :=
  mkConnOptions (o_username o) (o_password o) (o_poolSize o) (o_dialTimeout o) (o_readTimeout o) (o_writeTimeout o)
    defaultMaxRetries defaultMinRetryBackoff defaultMaxRetryBackoff (tlsConfig o).

Definition singleOptions (o : options) : option client_options :=
  addr ← head (o_endpoints o); Some (SingleOptions addr (o_db o) (common o)).
Definition singleOptionsForAddr (o : options) (addr : string) : option client_options :=
  opts ← singleOptions o;
  match opts with SingleOptions _ db c => Some (SingleOptions addr db c) | _ => None end.
Definition failoverOptions (o : options) : client_options :=
  FailoverOptions (o_masterName o) (o_endpoints o) (o_sentinelUsername o) (o_sentinelPassword o) (o_db o) (common o).
Definition clusterOptions (o : options) : client_options := ClusterOptions (o_endpoints o) (common o).

(** ** Construction *)

Inductive redis_client := GoRedis (opts : client_options) | Replicated (opts : options) (c : ReplicationClient).

(** The options of every connection the client makes. *)
Definition connections (c : redis_client) : list client_options :=
  match c with
  | GoRedis opts => [opts]
  | Replicated opts r => omap (singleOptionsForAddr opts) (endpoints r)
  end.

Section construct.
Context {W : Type}.
Variable clock : W -> Z.
Variable role : W -> string -> option string.
(** Whether a client with these options can ping its server. *)
Variable pings : W -> client_options -> bool.

(** [None] is a panic. *)
Definition newClient (cfg : RedisConfig) (ping : bool) (w : W) : option (result redis_client) :=
  match parseOptions cfg with
  | Err e => Some (Err e)
  | Ok opts =>
      let checked (label : string) (o : client_options) :=
        if ping && negb (pings w o) then Some (Err (errorf label)) else Some (Ok (GoRedis o)) in
      if bool_decide (o_mode opts = "single") then
        o ← singleOptions opts; checked "single: connect" o
      else if bool_decide (o_mode opts = "replication") then
        match newReplication clock role (o_endpoints opts) w with
        | Ok r => Some (Ok (Replicated opts r))
        | Err e => Some (Err e)
        end
      else if bool_decide (o_mode opts = "sentinel") then checked "sentinel: connect" (failoverOptions opts)
      else if bool_decide (o_mode opts = "cluster") then checked "cluster: connect" (clusterOptions opts)
      else Some (Err (errorf "unknown redis mode"))
  end.

Definition NewClient (cfg : RedisConfig) (w : W) : option (result redis_client) := newClient cfg true w.
Definition NewClientWithoutPing (cfg : RedisConfig) (w : W) : option (result redis_client) := newClient cfg false w.

(** ** Commands of the replication client *)

(** The commands of a node; [None] is the nil client. *)
Variable node_Eval : W -> option string -> string -> list string -> list string -> W * result string.
Variable node_EvalSha : W -> option string -> string -> list string -> list string -> W * result string.
Variable node_Get : W -> option string -> string -> W * result string.
Variable node_Set : W -> option string -> string -> string -> Z -> W * result unit.
Variable node_Del : W -> option string -> list string -> W * result Z.
Variable node_SAdd : W -> option string -> string -> list string -> W * result Z.
Variable node_SMembers : W -> option string -> string -> W * result (list string).
Variable node_Ping : W -> option string -> W * result unit.
Implicit Types (r : ReplicationClient) (w : W).

Definition RC_Eval r w (script : string) (keys args : list string) :=
  replicated clock role (fun w m => node_Eval w m script keys args) r w.
Definition RC_EvalSha r w (sha1 : string) (keys args : list string) :=
  replicated clock role (fun w m => node_EvalSha w m sha1 keys args) r w.
Definition RC_Get r w (key : string) := unreplicated clock role (fun w m => node_Get w m key) r w.
Definition RC_Set r w (key value : string) (expiration : Z) :=
  replicated clock role (fun w m => node_Set w m key value expiration) r w.
Definition RC_Ping r w := unreplicated clock role (fun w m => node_Ping w m) r w.
Definition RC_Del r w (keys : list string) := replicated clock role (fun w m => node_Del w m keys) r w.
Definition RC_SAdd r w (key : string) (members : list string) :=
  replicated clock role (fun w m => node_SAdd w m key members) r w.
Definition RC_SMembers r w (key : string) := unreplicated clock role (fun w m => node_SMembers w m key) r w.

End construct.

(** ** Clients of a validated configuration *)

Section theorems.
Context {W : Type}.
Variable clock : W -> Z.
Variable role : W -> string -> option string.
Implicit Types (w : W).

Definition timeouts_parse (cfg : RedisConfig) : Prop :=
  Forall (fun s => s = "" \/ is_Some (time_ParseDuration s)) [rc_DialTimeout cfg; rc_ReadTimeout cfg; rc_WriteTimeout cfg].

Lemma parseOptions_ok cfg :
  timeouts_parse cfg -> exists o, parseOptions cfg = Ok o /\ o_endpoints o = rc_Endpoints cfg
    /\ o_mode o = (if bool_decide (rc_Mode cfg = "") then "single" else rc_Mode cfg)
    /\ o_tlsEnabled o = rt_Enabled (rc_TLS cfg) /\ o_tlsSkipVerify o = rt_InsecureSkipVerify (rc_TLS cfg).
Proof.
  unfold timeouts_parse. rewrite !Forall_cons. intros (H1 & H2 & H3 & _). unfold parseOptions.
  assert (forall s d, s = "" \/ is_Some (time_ParseDuration s) -> is_Some (parseDur s d)) as Hp.
  { intros s d [->|H]; unfold parseDur; [by rewrite bool_decide_eq_true_2; eauto|]. by case_bool_decide; eauto. }
  destruct (Hp _ (5 * Second) H1) as [d1 ->]. destruct (Hp _ (3 * Second) H2) as [d2 ->]. destruct (Hp _ (3 * Second) H3) as [d3 ->].
  eexists. split; [done|]. done.
Qed.

Lemma discover_none w eps : discover role w eps = None <-> Forall (fun a => forall x, role w a = Some x -> ToLower x <> "master") eps.
Proof.
  induction eps as [|a eps IH]; cbn; [split; [constructor|done]|]. rewrite Forall_cons.
  destruct (role w a) as [r|] eqn:E; [|rewrite IH; naive_solver]. case_bool_decide as Hm; [|rewrite IH; naive_solver].
  split; [done|]. intros [H _]. by destruct (H r eq_refl).
Qed.

Lemma newReplication_spec eps w :
  is_ok (newReplication clock role eps w) = true <-> exists a r, a ∈ eps /\ role w a = Some r /\ ToLower r = "master".
Proof.
  unfold newReplication, refreshMaster, discoverMaster. cbn. destruct (discover role w eps) as [a|] eqn:E; cbn.
  - split; [|done]. intros _. revert E. induction eps as [|b eps IH]; cbn; [done|].
    destruct (role w b) as [r|] eqn:Er; [case_bool_decide as Hm|]; intros H.
    + injection H as ->. exists a, r. split; [by left|done].
    + destruct (IH H) as (x & y & ? & ?). exists x, y. split; [by right|done].
    + destruct (IH H) as (x & y & ? & ?). exists x, y. split; [by right|done].
  - split; [done|]. intros (a & r & Ha & Hr & Hm). apply discover_none in E. rewrite Forall_forall in E. by destruct (E a Ha r Hr).
Qed.

Variable pings : W -> client_options -> bool.

(** A Redis client can be created from every validated section whose timeouts
    parse (which validation does not check), without panic, in the topology the
    section names; only replication mode needs a server for that: it fails
    exactly when no endpoint says it is the master, even when no ping is asked
    for. *)
Theorem NewClientWithoutPing_total cfg w :
  redis_valid cfg -> timeouts_parse cfg ->
  exists r, NewClientWithoutPing clock role pings cfg w = Some r
    /\ (is_ok r = true <-> (rc_Mode cfg = "replication" -> exists a x, a ∈ rc_Endpoints cfg /\ role w a = Some x /\ ToLower x = "master")).
Proof.
  intros (Hm & He & _) Ht. destruct (parseOptions_ok cfg Ht) as (o & Ho & Ee & Em & _). unfold NewClientWithoutPing, newClient.
  rewrite Ho, Em, Ee. unfold RedisMode_Valid, one_of in Hm. apply bool_decide_eq_true in Hm.
  rewrite !elem_of_cons, elem_of_nil in Hm. destruct Hm as [Hm|[Hm|[Hm|[Hm|[]]]]]; rewrite Hm; cbn.
  - unfold singleOptions. rewrite Ee. destruct (rc_Endpoints cfg) as [|a eps]; [done|]. cbn. eexists. split; [done|]. done.
  - pose proof (newReplication_spec (rc_Endpoints cfg) w) as Hr.
    destruct (newReplication clock role (rc_Endpoints cfg) w); eexists; (split; [done|]); cbn in *; naive_solver.
  - eexists. split; [done|]. done.
  - eexists. split; [done|]. done.
Qed.

(** TLS to Redis. With TLS enabled, every connection a client makes, in any
    topology and to any of its endpoints, speaks TLS 1.2 or newer and checks the
    server's certificate unless the configuration says not to; without it no
    connection is encrypted. *)
Theorem redis_tls cfg ping w c o :
  newClient clock role pings cfg ping w = Some (Ok c) -> o ∈ connections c ->
  co_TLSConfig (conn_of o) =
    (if rt_Enabled (rc_TLS cfg) then Some (mkTLSConfig 771 (rt_InsecureSkipVerify (rc_TLS cfg))) else None).
Proof.
  unfold newClient. destruct (parseOptions cfg) as [opts|e] eqn:Ep; [|done]. intros Hc Ho.
  assert (o_tlsEnabled opts = rt_Enabled (rc_TLS cfg) /\ o_tlsSkipVerify opts = rt_InsecureSkipVerify (rc_TLS cfg)) as [E1 E2].
  { unfold parseOptions in Ep. destruct (parseDur _ _); [|done]. destruct (parseDur _ _); [|done]. destruct (parseDur _ _); [|done].
    by injection Ep as <-. }
  assert (tlsConfig opts = if rt_Enabled (rc_TLS cfg) then Some (mkTLSConfig 771 (rt_InsecureSkipVerify (rc_TLS cfg))) else None) as Et.
  { unfold tlsConfig. rewrite E1, E2. by destruct (rt_Enabled _). }
  assert (co_TLSConfig (conn_of o) = tlsConfig opts) as ->; [|done]. revert Hc.
  assert (forall x, singleOptions opts = Some x -> co_TLSConfig (conn_of x) = tlsConfig opts) as Hsingle.
  { unfold singleOptions. destruct (head (o_endpoints opts)); [|done]. by intros x [= <-]. }
  destruct (bool_decide (o_mode opts = "single")).
  { destruct (singleOptions opts) as [x|]; [|done]. cbn. destruct (ping && _); [done|]. intros [= <-].
    apply list_elem_of_singleton in Ho as ->. by apply Hsingle. }
  destruct (bool_decide (o_mode opts = "replication")).
  { destruct (newReplication _ _ _ _) as [r|]; [|done]. intros [= <-]. apply list_elem_of_omap in Ho as (a & _ & Ha).
    unfold singleOptionsForAddr in Ha. destruct (singleOptions opts) as [[]|] eqn:E; try done. injection Ha as <-.
    exact (Hsingle _ eq_refl). }
  destruct (bool_decide (o_mode opts = "sentinel")); [|destruct (bool_decide (o_mode opts = "cluster")); [|done]];
    (destruct (ping && _); [done|]); intros [= <-]; apply list_elem_of_singleton in Ho as ->; done.
Qed.
End theorems.

Module TopologyDemo.
Definition section (mode : string) (eps : list string) : RedisConfig :=
  mkRedisConfig eps mode "" "" "secret" 0 0 "" "" "" (mkRedisTLSConfig true false) "" "".
(** The second node is the master. *)
Definition role (w : unit) (addr : string) : option string := Some (if bool_decide (addr = "b:6379") then "master" else "slave").
Definition clock (w : unit) : Z := 0.
Definition pings (w : unit) (o : client_options) : bool := true.
Definition client : redis_client :=
  match newClient clock role pings (section "replication" ["a:6379"; "b:6379"]) false tt with
  | Some (Ok c) => c
  | _ => GoRedis (ClusterOptions [] (common (mkOptions [] "" "" "" "" 0 0 0 0 0 false false "" "")))
  end.
End TopologyDemo.

Lemma NewClientWithoutPing_total_witness :
  exists r, NewClientWithoutPing TopologyDemo.clock TopologyDemo.role TopologyDemo.pings
              (TopologyDemo.section "replication" ["a:6379"; "b:6379"]) tt = Some r /\ is_ok r = true.
Proof.
  destruct (NewClientWithoutPing_total TopologyDemo.clock TopologyDemo.role TopologyDemo.pings
    (TopologyDemo.section "replication" ["a:6379"; "b:6379"]) tt) as (r & H1 & H2).
  - split; [vm_compute; reflexivity|]. split; [discriminate|]. split; [discriminate|]. split; [discriminate|]. intros _. cbn. lia.
  - apply Forall_cons. split; [left; reflexivity|]. apply Forall_cons. split; [left; reflexivity|].
    apply Forall_cons. split; [left; reflexivity|]. apply Forall_nil. exact I.
  - exists r. split; [exact H1|]. apply H2. intros _. exists "b:6379", "master". split; [right; left|split; reflexivity].
Defined.

Lemma redis_tls_witness :
  length (connections TopologyDemo.client) = 2%nat
  /\ forall o, o ∈ connections TopologyDemo.client -> co_TLSConfig (conn_of o) = Some (mkTLSConfig 771 false).
Proof.
  split; [vm_compute; reflexivity|]. intros o Ho.
  apply (redis_tls TopologyDemo.clock TopologyDemo.role TopologyDemo.pings (TopologyDemo.section "replication" ["a:6379"; "b:6379"])
    false tt TopologyDemo.client o); [vm_compute; reflexivity|exact Ho].
Defined.
