(* ===== verification/TokenBucket.v ===== *)
(** * The Redis token bucket

    [internal/ratelimit/limiter.go]: the Lua script that runs inside Redis, the
    [Limiter] that calls it and the parsing of its reply.

    Redis itself is outside the repository: [RedisHash] lists the commands the
    script uses with the documented behaviour the proofs rely on, and
    [hash_store] is an instance, so the laws can hold. Redis numbers travel as
    decimal text with 17 significant digits, which every double survives, so a
    hash field holds the number that was stored. *)
From S2P Require Import Prelude GoStrings Float64 RedisClient.

Local Open Scope Q_scope.

(** ** The Redis commands the script calls *)

(** HGET/HMGET, HSET and EXPIREAT on a store [S]; [deadline] is the absolute
    expiry second of a key, and [purge now] removes what has expired at the
    server time [now] (microseconds), as Redis does before a key is read. *)
Class RedisHash (S : Type) := {
  hget : S -> string -> string -> option Q;
  hset : S -> string -> list (string * Q) -> S;
  expireat : S -> string -> Z -> S;
  deadline : S -> string -> option Z;
  purge : Z -> S -> S
}.

(** A key is expired at [now] when its deadline has passed. *)
Definition expired (now : Z) (d : option Z) : bool :=
  match d with Some d => (d * 1000000 <=? now)%Z | None => false end.

Fixpoint assoc (f : string) (l : list (string * Q)) : option Q :=
  match l with
  | [] => None
  | (g, v) :: l' => if bool_decide (f = g) then Some v else assoc f l'
  end.

Class RedisHashLaws (S : Type) `{RedisHash S} := {
  hget_hset s k l f :
    hget (hset s k l) k f = match assoc f l with Some v => Some v | None => hget s k f end;
  hget_hset_ne s k k' l f : k ≠ k' -> hget (hset s k l) k' f = hget s k' f;
  hget_expireat s k k' d f : hget (expireat s k d) k' f = hget s k' f;
  deadline_hset s k k' l : deadline (hset s k l) k' = deadline s k';
  deadline_expireat s k d f v : hget s k f = Some v -> deadline (expireat s k d) k = Some d;
  deadline_expireat_ne s k k' d : k ≠ k' -> deadline (expireat s k d) k' = deadline s k';
  hget_purge now s k f :
    hget (purge now s) k f = if expired now (deadline s k) then None else hget s k f;
  deadline_purge now s k :
    deadline (purge now s) k = if expired now (deadline s k) then None else deadline s k
}.

(** An instance: each key with its fields and its deadline. *)
Abbreviation hash_store := (gmap string (gmap string Q * option Z)).
Definition empty_store : hash_store := ∅.

#[export] Instance hash_store_ops : RedisHash hash_store := {|
  hget := fun (s : hash_store) k f => e ← s !! k; e.1 !! f;
  hset := fun (s : hash_store) k l =>
    let e := default (∅, None) (s !! k) in
    <[k := (foldr (fun p m => <[p.1 := p.2]> m) e.1 l, e.2)]> s;
  expireat := fun (s : hash_store) k d =>
    match s !! k with Some e => <[k := (e.1, Some d)]> s | None => s end;
  deadline := fun (s : hash_store) k => e ← s !! k; e.2;
  purge := fun now (s : hash_store) => filter (fun p => expired now p.2.2 = false) s
|}.

Lemma foldr_insert_lookup (l : list (string * Q)) (m : gmap string Q) f :
  foldr (fun p m => <[p.1 := p.2]> m) m l !! f
  = match assoc f l with Some v => Some v | None => m !! f end.
Proof.
  induction l as [|[g v] l IH]; [done|]. simpl. case_bool_decide as E.
  - subst. by rewrite lookup_insert_eq.
  - by rewrite lookup_insert_ne.
Qed.

#[export] Instance hash_store_laws : RedisHashLaws hash_store.
Proof.
  split; simpl; intros.
  - rewrite lookup_insert_eq. simpl. rewrite foldr_insert_lookup.
    destruct (assoc f l); [done|]. by destruct (s !! k).
  - by rewrite lookup_insert_ne.
  - destruct (s !! k) eqn:E; [|done]. destruct (decide (k = k')) as [<-|].
    + by rewrite lookup_insert_eq, E.
    + by rewrite lookup_insert_ne.
  - destruct (decide (k = k')) as [<-|]; [|by rewrite lookup_insert_ne].
    rewrite lookup_insert_eq. simpl. by destruct (s !! k).
  - destruct (s !! k); [|done]. by rewrite lookup_insert_eq.
  - destruct (s !! k); [|done]. by rewrite lookup_insert_ne.
  - rewrite map_lookup_filter. destruct (s !! k) as [[fs d]|]; [|done]. simpl.
    case_guard as Hg; simpl in *; [by rewrite Hg|]. by destruct (expired now d).
  - rewrite map_lookup_filter. destruct (s !! k) as [[fs d]|]; [|done]. simpl.
    case_guard as Hg; simpl in *; [by rewrite Hg|]. by destruct (expired now d).
Qed.

(** ** The script *)

(** What a Redis reply element can be on the Go side ([any]). *)
Inductive any :=
| AInt64 (z : Z)
| AInt (z : Z)
| AFloat64 (q : Q)
| AString (s : string)
| AOther (text : string).   (* any other dynamic type, with its fmt.Sprint text *)

Section script.
Context `{R : Rounding} {S : Type} `{RedisHash S}.

(** Lua's [math.min] of two numbers. *)
Definition lua_min (x y : Q) : Q := if fltb y x then y else x.

(** Redis converts a Lua number in a reply to an integer by truncation. *)
Definition lua_reply (l : list Q) : list any := map (fun q => AInt64 (ftrunc q)) l.

(** [rateLimitLua], line by line. *)
Definition rateLimitLua (s : S) (key : string) (rate burst ttl now : Q) : S * list any :=
  if fleb rate 0 then (s, lua_reply [1; 0; burst; burst; 0]) else
  let last := default 0 (hget s key "last") in
  let tokens := default burst (hget s key "tokens") in
  let last_expire := default 0 (hget s key "last_expire") in
  let last := if fltb now last then now else last in
  let elapsed := fsub now last in
  let tokens := lua_min burst (fadd tokens (fmul rate elapsed)) in
  let reset_after :=
    if fltb tokens burst then inject_Z (Qceiling (fdiv (fsub burst tokens) rate)) else 0 in
  let ttl_half_us := fmul ttl 500000 in
  let needs_expire := fltb ttl_half_us (fsub now last_expire) in
  let expire_at := fadd (inject_Z (Qfloor (fdiv now 1000000))) ttl in
  if fleb 1 tokens then
    let tokens := fsub tokens 1 in
    let s :=
      if needs_expire then
        expireat (hset s key [("last", now); ("tokens", tokens); ("last_expire", now)])
          key (ftrunc expire_at)
      else hset s key [("last", now); ("tokens", tokens)] in
    let remaining := inject_Z (Qfloor tokens) in
    (s, lua_reply [1; 0; remaining; burst; reset_after])
  else
    let s :=
      if needs_expire then
        expireat (hset s key [("last", now); ("tokens", tokens); ("last_expire", now)])
          key (ftrunc expire_at)
      else hset s key [("last", now); ("tokens", tokens)] in
    let retry := inject_Z (Qceiling (fdiv (fsub 1 tokens) rate)) in
    (s, lua_reply [0; retry; 0; burst; reset_after]).

(** The script as it is invoked: integer arguments arrive as doubles, and the
    key is dropped first if it has expired. *)
Definition run_script (s : S) (key : string) (rate : Q) (burst ttl now : Z) : S * list any :=
  rateLimitLua (purge now s) key rate (float burst) (float ttl) (float now).
End script.

(** ** The limiter *)

(** The fields of [Limiter] the operations read; the logger and the tracing
    flag have no effect on the decision. *)
Record Limiter := mkLimiter {
  lim_hash : string;
  lim_src : string;
  lim_rate : Q;
  lim_burst : Z;
  lim_ttl : Z;
  lim_keyPrefix : string;
  lim_closed : bool
}.

Record Result := mkResult {
  Allowed : bool;
  RetryAfter : Z;
  Remaining : Z;
  Limit : Z;
  ResetAfter : Z
}.

Definition ErrLimiterClosed : error := errorf "limiter is closed".

Definition NewLimiter `{Rounding} (hash src : string) (ratePerSecond : Q) (burst ttl : Z) (prefix : string) : Limiter :=
  mkLimiter hash src (fdiv ratePerSecond 1000000) burst ttl prefix false.

(** [toInt64]; a float is truncated. *)
Definition toInt64 (v : any) : result Z :=
  let parse x := match ParseInt x with
                 | Some z => Ok z
                 | None => Err (errorf ("strconv.ParseInt: parsing " +:+ x))
                 end in
  match v with
  | AInt64 x => Ok x
  | AInt x => Ok x
  | AFloat64 x => Ok (ftrunc x)
  | AString x => parse x
  | AOther x => parse x
  end.

(** A Go [v, err := f(x); if err != nil { return wrap }] step. *)
Definition wrap_err {A} (prefix : string) (r : result A) : result A :=
  match r with Ok a => Ok a | Err e => Err (wrapf prefix e) end.

Definition parseScriptResult (cmd : result (list any)) : result Result :=
  arr ← wrap_err "reading script result" cmd;
  match arr with
  | [a0; a1; a2; a3; a4] =>
      allowed ← wrap_err "parsing allowed" (toInt64 a0);
      retryMicros ← wrap_err "parsing retry_after" (toInt64 a1);
      remaining ← wrap_err "parsing remaining" (toInt64 a2);
      limit ← wrap_err "parsing limit" (toInt64 a3);
      resetMicros ← wrap_err "parsing reset_after" (toInt64 a4);
      Ok (mkResult (allowed =? 1)%Z (wrap64 (retryMicros * Microsecond)) remaining limit
            (wrap64 (resetMicros * Microsecond)))
  | _ => Err (errorf ("script returned " +:+ Itoa (Z.of_nat (length arr)) +:+ " elements, want 5"))
  end.

(** The scripting commands of the [redis.Client] interface: a server state,
    EVALSHA by digest and EVAL by source, with keys and arguments. *)
Record script_args := mkArgs { arg_rate : Q; arg_burst : Z; arg_ttl : Z; arg_now : Z }.

Class Scripting (W : Type) := {
  EvalSha : W -> string -> string -> script_args -> W * result (list any);
  Eval : W -> string -> string -> script_args -> W * result (list any)
}.

Section limiter.
Context {W : Type} `{Scripting W}.

Definition evalScript (l : Limiter) (w : W) (key : string) (args : script_args)
    : W * result (list any) :=
  let '(w1, cmd) := EvalSha w (lim_hash l) key args in
  if IsNoScriptErr (err_of cmd) then Eval w1 (lim_src l) key args
  else (w1, cmd).

(** [Allow] at the time [now] (UnixMicro). *)
Definition Limiter_Allow (l : Limiter) (w : W) (key : string) (now : Z) : W * result Result :=
  if lim_closed l then (w, Err ErrLimiterClosed) else
  let fullKey := lim_keyPrefix l +:+ key in
  let '(w', cmd) := evalScript l w fullKey (mkArgs (lim_rate l) (lim_burst l) (lim_ttl l) now) in
  match cmd with
  | Err e => (w', Err e)
  | Ok _ => (w', parseScriptResult cmd)
  end.

Definition AllowWithOverrides `{Rounding} (l : Limiter) (w : W) (key : string) (ratePerSecond : Q)
    (burst ttlOverride now : Z) : W * result Result :=
  if lim_closed l then (w, Err ErrLimiterClosed) else
  let fullKey := lim_keyPrefix l +:+ key in
  let rate := fdiv ratePerSecond 1000000 in
  let ttl := if (0 <? ttlOverride)%Z then ttlOverride else lim_ttl l in
  let '(w', cmd) := evalScript l w fullKey (mkArgs rate burst ttl now) in
  match cmd with
  | Err e => (w', Err e)
  | Ok _ => (w', parseScriptResult cmd)
  end.
End limiter.

(** [Close] marks the limiter; the client it closes is the replication or
    go-redis client of [RedisClient]. *)
Definition Limiter_Close (l : Limiter) : Limiter :=
  mkLimiter (lim_hash l) (lim_src l) (lim_rate l) (lim_burst l) (lim_ttl l) (lim_keyPrefix l) true.

(** ** What one run of the script does *)

Section step.
Context `{R : Rounding} {S : Type} `{RedisHashLaws S}.
Implicit Types (s : S) (key : string) (rate burst ttl now : Q).

(** The level the bucket has been refilled to when the decision is taken. *)
Definition level s key rate burst now : Q :=
  let last := default 0 (hget s key "last") in
  lua_min burst (fadd (default burst (hget s key "tokens"))
                   (fmul rate (fsub now (if fltb now last then now else last)))).

Definition allowed_reply (r : list any) : bool :=
  match r with AInt64 z :: _ => bool_decide (z = 1%Z) | _ => false end.

Definition needs_expire s key ttl now : bool :=
  fltb (fmul ttl 500000) (fsub now (default 0 (hget s key "last_expire"))).

Lemma script_allowed s key rate burst ttl now :
  0 < rate ->
  allowed_reply (rateLimitLua s key rate burst ttl now).2 = fleb 1 (level s key rate burst now).
Proof.
  intros Hr. unfold rateLimitLua. replace (fleb rate 0) with false by (symmetry; by apply fleb_gt).
  fold (level s key rate burst now). by destruct (fleb 1 _).
Qed.

Ltac script_fields :=
  match goal with Hr : 0 < ?rate |- _ =>
    unfold rateLimitLua; replace (fleb rate 0) with false by (symmetry; by apply fleb_gt)
  end.

Lemma script_tokens s key rate burst ttl now :
  0 < rate ->
  hget (rateLimitLua s key rate burst ttl now).1 key "tokens"
  = Some (if fleb 1 (level s key rate burst now) then fsub (level s key rate burst now) 1
          else level s key rate burst now).
Proof.
  intros Hr. script_fields. fold (level s key rate burst now) (needs_expire s key ttl now).
  destruct (fleb 1 _), (needs_expire _ _ _ _); simpl; by rewrite ?hget_expireat, hget_hset.
Qed.

Lemma script_last s key rate burst ttl now :
  0 < rate -> hget (rateLimitLua s key rate burst ttl now).1 key "last" = Some now.
Proof.
  intros Hr. script_fields. fold (level s key rate burst now) (needs_expire s key ttl now).
  destruct (fleb 1 _), (needs_expire _ _ _ _); simpl; by rewrite ?hget_expireat, hget_hset.
Qed.

Lemma script_last_expire s key rate burst ttl now :
  0 < rate ->
  hget (rateLimitLua s key rate burst ttl now).1 key "last_expire"
  = if needs_expire s key ttl now then Some now else hget s key "last_expire".
Proof.
  intros Hr. script_fields. fold (level s key rate burst now) (needs_expire s key ttl now).
  destruct (fleb 1 _), (needs_expire _ _ _ _); simpl; by rewrite ?hget_expireat, hget_hset.
Qed.

Lemma script_deadline s key rate burst ttl now :
  0 < rate ->
  deadline (rateLimitLua s key rate burst ttl now).1 key
  = if needs_expire s key ttl now
    then Some (ftrunc (fadd (inject_Z (Qfloor (fdiv now 1000000))) ttl)) else deadline s key.
Proof.
  intros Hr. script_fields. fold (level s key rate burst now) (needs_expire s key ttl now).
  destruct (fleb 1 _), (needs_expire _ _ _ _); simpl; rewrite ?deadline_hset; try done;
    by erewrite deadline_expireat by (by rewrite (hget_hset _ _ _ "last")).
Qed.

Lemma lua_min_spec x y : lua_min x y <= x /\ lua_min x y <= y /\ (lua_min x y == x \/ lua_min x y == y).
Proof. unfold lua_min. destruct (fltb y x) eqn:E; fcompare; repeat split; lra. Qed.

Lemma level_le_burst s key rate burst now : level s key rate burst now <= burst.
Proof. unfold level. apply lua_min_spec. Qed.

(** The elapsed time the script computes is never negative. *)
Lemma elapsed_nonneg now last : 0 <= fsub now (if fltb now last then now else last).
Proof. unfold fsub. apply rnd_nonneg. destruct (fltb now last) eqn:E; fcompare; lra. Qed.

Definition tokens_ok s key : Prop := forall t, hget s key "tokens" = Some t -> 0 <= t.

Lemma level_nonneg s key rate burst now :
  0 < rate -> 0 <= burst -> tokens_ok s key -> 0 <= level s key rate burst now.
Proof.
  intros Hr Hb Hs. unfold level.
  assert (0 <= default burst (hget s key "tokens")) as Ht.
  { destruct (hget s key "tokens") eqn:E; simpl; [by apply Hs|done]. }
  pose proof (elapsed_nonneg now (default 0 (hget s key "last"))) as He.
  set (e := fsub _ _) in *.
  assert (0 <= fmul rate e) by (apply rnd_nonneg, Qmult_le_0_compat; lra).
  assert (0 <= fadd (default burst (hget s key "tokens")) (fmul rate e)) by (apply rnd_nonneg; lra).
  pose proof (lua_min_spec burst (fadd (default burst (hget s key "tokens")) (fmul rate e))). lra.
Qed.

Lemma fsub_1_bounds x : 1 <= x -> 0 <= fsub x 1.
Proof. intros. apply rnd_nonneg. lra. Qed.

Lemma script_tokens_bounds s key rate burst ttl now t :
  0 < rate -> 0 <= burst -> rnd burst == burst -> tokens_ok s key ->
  hget (rateLimitLua s key rate burst ttl now).1 key "tokens" = Some t ->
  0 <= t <= burst.
Proof.
  intros Hr Hb Hrb Hs. rewrite script_tokens by done. intros [= <-].
  pose proof (level_le_burst s key rate burst now).
  pose proof (level_nonneg s key rate burst now Hr Hb Hs).
  destruct (fleb 1 _) eqn:E; fcompare; [|lra]. split; [by apply fsub_1_bounds|].
  apply Qle_trans with (rnd burst); [apply rnd_mono|]; lra.
Qed.

(** A key is touched only by calls for that key. *)
Lemma script_other_key s key key' rate burst ttl now f :
  key ≠ key' ->
  hget (rateLimitLua s key rate burst ttl now).1 key' f = hget s key' f /\
  deadline (rateLimitLua s key rate burst ttl now).1 key' = deadline s key'.
Proof.
  intros Hk. unfold rateLimitLua. destruct (fleb rate 0); [done|].
  fold (level s key rate burst now) (needs_expire s key ttl now).
  destruct (fleb 1 _), (needs_expire _ _ _ _); simpl;
    by rewrite ?hget_expireat, ?hget_hset_ne, ?deadline_expireat_ne, ?deadline_hset.
Qed.
End step.

(** ** Runs on one key *)

Lemma last_default {A} (l : list A) d d' : l ≠ [] -> List.last l d = List.last l d'.
Proof. induction l as [|x [|y l] IH]; [done|done|]. intros _. by apply IH. Qed.
Lemma last_cons_default {A} (x : A) l d : List.last (x :: l) d = List.last l x.
Proof. destruct l as [|y l]; [done|]. exact (last_default (y :: l) d x ltac:(done)). Qed.

Section runs.
Context `{R : Rounding} {S : Type} `{RedisHashLaws S}.
Variables (key : string) (rate : Q) (burst ttl : Z).

(** The decisions of a sequence of calls, at the times given (microseconds);
    the server clock agrees with the caller's. *)
Fixpoint decisions (s : S) (times : list Z) : list bool :=
  match times with
  | [] => []
  | t :: ts =>
      let '(s', r) := run_script s key rate burst ttl t in
      allowed_reply r :: decisions s' ts
  end.

Fixpoint admitted (l : list bool) : Z :=
  match l with [] => 0 | b :: l' => (if b then 1 else 0) + admitted l' end.

(** The state a call at [L] leaves: the time of the call, a level within the
    bucket, and a deadline no earlier than a full refill. *)
Record bucket_at (s : S) (L : Z) (tok : Q) : Prop := {
  ba_last : exists l, hget s key "last" = Some l /\ l == inject_Z L;
  ba_tokens : hget s key "tokens" = Some tok;
  ba_bounds : 0 <= tok <= inject_Z burst;
  ba_deadline d : deadline s key = Some d ->
    exists le E, hget s key "last_expire" = Some le /\ le == inject_Z E /\
      (0 <= E <= L /\ L - E <= ttl * 500000 /\ E + ttl * 1000000 - 1000000 <= d * 1000000)%Z
}.

Hypothesis Hrate : 0 < rate.
Hypothesis Hburst : (0 <= burst <= 2 ^ 53)%Z.
Hypothesis Httl : (0 <= ttl /\ ttl * 500000 <= 2 ^ 53)%Z.

Variable eps : Q.
Hypothesis Heps : 0 <= eps.
Hypothesis Hrnd : forall x, 0 <= x -> x <= inject_Z burst -> rnd x <= x + eps.

Lemma float_burst : float burst == inject_Z burst.
Proof using Hburst. apply float_id. lia. Qed.

Lemma burst_rounds : rnd (float burst) == float burst.
Proof using Hburst. rewrite float_burst. apply rnd_Z. lia. Qed.

(** A refill adds at most [rate * elapsed], up to two rounding errors. *)
Lemma refill_bound tok e x :
  0 <= tok -> 0 <= e -> x == rate * e ->
  lua_min (float burst) (fadd tok (fmul rate e)) <= tok + x + 2 * eps.
Proof using Hburst Hrate Heps Hrnd.
  intros Ht He Hx. pose proof float_burst as Hb.
  pose proof (lua_min_spec (float burst) (fadd tok (fmul rate e))) as (Hm1 & Hm2 & _).
  assert (0 <= rate * e) as Hx0 by (apply Qmult_le_0_compat; lra).
  destruct (Qlt_le_dec (inject_Z burst) (rate * e)); [lra|].
  assert (fmul rate e <= x + eps) as Hy by (rewrite Hx; apply Hrnd; [done|lra]).
  assert (0 <= fmul rate e) by (by apply rnd_nonneg).
  destruct (Qlt_le_dec (inject_Z burst) (tok + fmul rate e)); [lra|].
  assert (fadd tok (fmul rate e) <= tok + fmul rate e + eps) by (apply Hrnd; lra). lra.
Qed.

(** Taking a token removes one, up to a rounding error. *)
Lemma take_bound lvl :
  0 <= lvl -> lvl <= inject_Z burst ->
  (if fleb 1 lvl then fsub lvl 1 else lvl) + (if fleb 1 lvl then 1 else 0) <= lvl + eps.
Proof using Heps Hrnd.
  intros Hl Hb. destruct (fleb 1 lvl) eqn:E; fcompare; [|lra].
  assert (fsub lvl 1 <= lvl - 1 + eps) by (apply Hrnd; lra). lra.
Qed.

Lemma expire_at_bound t :
  (0 <= t <= 2 ^ 53)%Z ->
  (t + ttl * 1000000 - 1000000 <=
   ftrunc (fadd (inject_Z (Qfloor (fdiv (float t) 1000000))) (float ttl)) * 1000000)%Z.
Proof using Httl.
  intros Ht. set (f := Qfloor (fdiv (float t) 1000000)).
  assert (t / 1000000 <= f)%Z as Hf.
  { rewrite <- (Qfloor_Z (t / 1000000)). unfold f, fdiv.
    apply Qfloor_resp_le. rewrite <- (rnd_Z (t / 1000000)).
    - apply rnd_mono. rewrite float_id by lia.
      unfold Qle, Qdiv, Qmult. simpl. pose proof (Z.mul_div_le t 1000000). lia.
    - pose proof (Z.div_pos t 1000000). pose proof (Z.div_le_upper_bound t 1000000 t). lia. }
  assert (t / 1000000 + ttl <= ftrunc (fadd (inject_Z f) (float ttl)))%Z as Hx.
  { assert (inject_Z (t / 1000000 + ttl) <= fadd (inject_Z f) (float ttl)) as Hq.
    { unfold fadd. rewrite <- (rnd_Z (t / 1000000 + ttl)).
      - apply rnd_mono. rewrite float_id by lia. rewrite inject_Z_plus.
        apply Qplus_le_compat; [by rewrite <- Zle_Qle|lra].
      - assert (0 <= t / 1000000 <= 2 ^ 53 / 1000000)%Z by
          (split; [apply Z.div_pos|apply Z.div_le_mono]; lia).
        assert (2 ^ 53 / 1000000 = 9007199254)%Z as E by reflexivity. lia. }
    unfold ftrunc. replace (fleb 0 _) with true.
    - rewrite <- (Qfloor_Z (t / 1000000 + ttl)). by apply Qfloor_resp_le.
    - symmetry. apply fleb_le. eapply Qle_trans; [|exact Hq].
      change 0 with (inject_Z 0). rewrite <- Zle_Qle. pose proof (Z.div_pos t 1000000). lia. }
  pose proof (Z.mod_pos_bound t 1000000 ltac:(lia)). pose proof (Z.div_mod t 1000000 ltac:(lia)). lia.
Qed.

Lemma elapsed_Z l L t :
  l == inject_Z L -> (0 <= L <= t)%Z -> (t <= 2 ^ 53)%Z ->
  fsub (float t) (if fltb (float t) l then float t else l) == inject_Z (t - L).
Proof using.
  intros El HL Ht. pose proof (float_id t ltac:(lia)) as Hf.
  assert (fltb (float t) l = false) as ->.
  { apply fltb_ge. rewrite Hf, El. rewrite <- Zle_Qle. lia. }
  rewrite Hf, El. apply fsub_Z. lia.
Qed.

(** The full-refill condition on the TTL: a key that expires has been idle long
    enough for its bucket to be full. *)
Hypothesis Hfull : inject_Z burst <= rate * inject_Z (ttl * 500000 - 1000000).

(** One call never adds more than the elapsed time pays for, whether the key
    is still there or has expired. *)
Lemma level_step s L t tok :
  bucket_at s L tok -> (0 <= L <= t)%Z -> (t <= 2 ^ 53)%Z ->
  0 <= level (purge t s) key rate (float burst) (float t) /\
  level (purge t s) key rate (float burst) (float t) <= tok + rate * inject_Z (t - L) + 2 * eps.
Proof using All.
  intros [(l & Hl & El) Ht Hb Hd] HL Ht53. pose proof float_burst as Hfb.
  pose proof (elapsed_Z l L t El HL Ht53) as Hel.
  assert (0 <= inject_Z (t - L)) as Hpos.
  { change 0 with (inject_Z 0). rewrite <- Zle_Qle. lia. }
  assert (0 <= rate * inject_Z (t - L)) by (apply Qmult_le_0_compat; lra).
  destruct (expired t (deadline s key)) eqn:Ex.
  - split; [apply level_nonneg; [done|lra|]; intros x; by rewrite hget_purge, Ex|].
    pose proof (level_le_burst (purge t s) key rate (float burst) (float t)).
    destruct (deadline s key) as [d|] eqn:Ed; [|done]. simpl in Ex. bools.
    destruct (Hd d eq_refl) as (le & E & _ & _ & Hz).
    assert (rate * inject_Z (ttl * 500000 - 1000000) <= rate * inject_Z (t - L)).
    { apply Qmult_le_l; [done|]. rewrite <- Zle_Qle. lia. }
    lra.
  - split.
    { apply level_nonneg; [done|lra|]. intros x. rewrite hget_purge, Ex, Ht. intros [= <-]. lra. }
    unfold level. rewrite !hget_purge, Ex, Hl, Ht. simpl default.
    apply refill_bound; [lra| |]; rewrite Hel; [done|reflexivity].
Qed.

(** A call at [t] leaves a bucket, and what it gave away plus what is left is
    paid for by the level before and the time that passed. *)
Lemma run_step s t lvl :
  (0 <= t <= 2 ^ 53)%Z ->
  lvl = level (purge t s) key rate (float burst) (float t) ->
  0 <= lvl ->
  (forall d, deadline s key = Some d ->
     exists le E, hget s key "last_expire" = Some le /\ le == inject_Z E /\
       (0 <= E <= t /\ E + ttl * 1000000 - 1000000 <= d * 1000000)%Z) ->
  exists tok',
    bucket_at (run_script s key rate burst ttl t).1 t tok' /\
    tok' + (if allowed_reply (run_script s key rate burst ttl t).2 then 1 else 0) <= lvl + eps.
Proof using All.
  intros Ht El Hl Hd. pose proof float_burst as Hfb. unfold run_script.
  pose proof (level_le_burst (purge t s) key rate (float burst) (float t)) as Hlb.
  rewrite <- El in Hlb.
  exists (if fleb 1 lvl then fsub lvl 1 else lvl). split.
  - split.
    + exists (float t). split; [by apply script_last|apply float_id; lia].
    + rewrite script_tokens by done. by rewrite <- El.
    + destruct (fleb 1 lvl) eqn:E; fcompare; [|lra]. split; [by apply fsub_1_bounds|].
      rewrite <- float_burst. apply Qle_trans with (rnd (float burst));
        [apply rnd_mono; lra|rewrite burst_rounds; lra].
    + intros d. rewrite script_deadline, script_last_expire by done.
      destruct (needs_expire _ _ _ _) eqn:En.
      * intros [= <-]. exists (float t), t. split; [done|]. split; [apply float_id; lia|].
        pose proof (expire_at_bound t Ht). lia.
      * rewrite deadline_purge, hget_purge. destruct (expired t (deadline s key)) eqn:Ex; [done|].
        intros Ed. destruct (Hd d Ed) as (le & E & Hle & Ele & HE). exists le, E.
        split; [done|]. split; [done|]. split; [lia|]. split; [|lia].
        unfold needs_expire in En. rewrite hget_purge, Ex, Hle in En. simpl in En. fcompare.
        assert (fmul (float ttl) 500000 == inject_Z (ttl * 500000)) as Hm.
        { unfold fmul. rewrite float_id by lia. change 500000 with (inject_Z 500000).
          rewrite <- inject_Z_mult. apply rnd_Z. lia. }
        rewrite Hm, Ele, float_id, fsub_Z in En by lia. rewrite <- Zle_Qle in En. lia.
  - rewrite script_allowed by done. rewrite <- El. apply take_bound; [done|]. by rewrite <- Hfb.
Qed.

Lemma run_bound times : forall s L tok,
  bucket_at s L tok -> (0 <= L)%Z -> Sorted Z.le (L :: times) -> Forall (fun t => (t <= 2 ^ 53)%Z) times ->
  inject_Z (admitted (decisions s times))
  <= tok + rate * inject_Z (List.last times L - L) + 3 * eps * inject_Z (Z.of_nat (length times)).
Proof using All.
  induction times as [|t ts IH]; intros s L tok HB HL Hs Hf.
  - cbn [decisions admitted length List.last]. rewrite Z.sub_diag. pose proof (ba_bounds _ _ _ HB).
    change (inject_Z (Z.of_nat 0)) with 0. change (inject_Z 0) with 0. lra.
  - apply Sorted_inv in Hs as [Hs Hle]. apply HdRel_inv in Hle. apply Forall_cons in Hf as [Ht Hf].
    destruct (level_step s L t tok HB ltac:(lia) Ht) as [Hl0 Hl].
    destruct (run_step s t _ ltac:(lia) eq_refl Hl0) as (tok' & HB' & Hpay).
    { intros d Hd. destruct (ba_deadline _ _ _ HB d Hd) as (le & E & ? & ? & ?). exists le, E.
      repeat split; try done; lia. }
    specialize (IH _ t tok' HB' ltac:(lia) Hs Hf). cbn [decisions].
    destruct (run_script s key rate burst ttl t) as [s' r]. cbn [admitted length fst snd] in *.
    rewrite last_cons_default.
    assert (rate * inject_Z (List.last ts t - L)
            == rate * inject_Z (List.last ts t - t) + rate * inject_Z (t - L)) as ->.
    { replace (List.last ts t - L)%Z with ((List.last ts t - t) + (t - L))%Z by lia.
      rewrite inject_Z_plus. ring. }
    rewrite Nat2Z.inj_succ, <- Z.add_1_l, !inject_Z_plus.
    change (inject_Z 1) with 1. destruct (allowed_reply r); change (inject_Z 1) with 1;
      change (inject_Z 0) with 0; lra.
Qed.
End runs.

(** ** Correctness of the script *)

(** C2: The token bucket enforces the rate. For calls on one key in clock order,
    starting from a key Redis does not have, the number of admitted requests is
    at most the burst plus the rate times the time span, plus three rounding
    errors per call. Keys may expire in between: the bound needs the TTL to
    cover a full refill, [burst <= rate * (ttl/2 - 1s)]. It holds for any
    monotone rounding of the arithmetic whose error on the bucket's range is at
    most [eps]; with exact arithmetic [eps] is 0. *)
Theorem admitted_bound `{R : Rounding} {S} `{RedisHashLaws S} (s : S) key rate burst ttl eps t ts :
  0 < rate -> (0 <= burst <= 2 ^ 53)%Z -> (0 <= ttl /\ ttl * 500000 <= 2 ^ 53)%Z ->
  0 <= eps -> (forall x, 0 <= x -> x <= inject_Z burst -> rnd x <= x + eps) ->
  inject_Z burst <= rate * inject_Z (ttl * 500000 - 1000000) ->
  hget s key "tokens" = None -> deadline s key = None ->
  (0 <= t)%Z -> Sorted Z.le (t :: ts) -> Forall (fun u => (u <= 2 ^ 53)%Z) (t :: ts) ->
  inject_Z (admitted (decisions key rate burst ttl s (t :: ts)))
  <= inject_Z burst + rate * inject_Z (List.last ts t - t)
     + 3 * eps * inject_Z (Z.of_nat (length (t :: ts))).
Proof.
  intros Hr Hb Httl He Hrnd Hfull Hn Hd Ht0 Hs Hf. apply Forall_cons in Hf as [Ht Hf].
  pose proof (float_burst burst Hb) as Hfb.
  pose proof (level_le_burst (purge t s) key rate (float burst) (float t)) as Hl.
  assert (0 <= level (purge t s) key rate (float burst) (float t)) as Hl0.
  { apply level_nonneg; [done| |].
    - rewrite Hfb. change 0 with (inject_Z 0). rewrite <- Zle_Qle. lia.
    - intros x. rewrite hget_purge, Hd. simpl. by rewrite Hn. }
  destruct (run_step key rate burst ttl Hr Hb Httl eps He Hrnd Hfull s t _ ltac:(lia) eq_refl Hl0)
    as (tok & HB & Hpay); [by rewrite Hd|].
  pose proof (run_bound key rate burst ttl Hr Hb Httl eps He Hrnd Hfull ts _ t tok HB Ht0 Hs Hf) as HR.
  cbn [decisions]. destruct (run_script s key rate burst ttl t) as [s' r].
  cbn [admitted length fst snd] in *.
  rewrite Nat2Z.inj_succ, <- Z.add_1_l, !inject_Z_plus.
  destruct (allowed_reply r); change (inject_Z 1) with 1; change (inject_Z 0) with 0; lra.
Qed.

(** Ten tokens a second, burst 2: three calls in the first 50 ms, then one
    after 100 ms; exact arithmetic. *)
Lemma admitted_bound_witness :
  decisions "k" (1 # 100000) 2 10 empty_store [1000000; 1010000; 1050000; 1150000]%Z
    = [true; true; false; true] /\
  inject_Z (admitted (decisions "k" (1 # 100000) 2 10 empty_store [1000000; 1010000; 1050000; 1150000]%Z))
  <= inject_Z 2 + (1 # 100000) * inject_Z (1150000 - 1000000) + 3 * 0 * inject_Z 4.
Proof.
  split; [vm_compute; reflexivity|].
  apply (admitted_bound empty_store "k" (1 # 100000) 2 10 0 1000000 [1010000; 1050000; 1150000]%Z).
  - reflexivity.
  - lia.
  - lia.
  - lra.
  - intros x _ _. simpl. rewrite Qred_correct. lra.
  - vm_compute. discriminate.
  - reflexivity.
  - reflexivity.
  - lia.
  - repeat constructor; lia.
  - repeat constructor; lia.
Defined.

(** ** The reply *)

Lemma ftrunc_Z z : ftrunc (inject_Z z) = z.
Proof. unfold ftrunc. destruct (fleb _ _); [apply Qfloor_Z|apply Qceiling_Z]. Qed.

Lemma ftrunc_comp x y : x == y -> ftrunc x = ftrunc y.
Proof.
  intros E. unfold ftrunc. rewrite E. destruct (fleb 0 y); [by apply Qfloor_comp|by apply Qceiling_comp].
Qed.

Lemma Qceiling_nonneg x : 0 <= x -> (0 <= Qceiling x)%Z.
Proof. intros Hx. rewrite <- (Qceiling_Z 0). by apply Qceiling_resp_le. Qed.

Section reply.
Context `{R : Rounding} {S : Type} `{RedisHashLaws S}.

Lemma fdiv_nonneg x y : 0 <= x -> 0 < y -> 0 <= fdiv x y.
Proof. intros. apply rnd_nonneg. apply Qle_shift_div_l; [done|]. lra. Qed.

(** Five integers: the decision, the retry delay, the remaining tokens, the
    limit and the reset delay, each in its range. *)
Lemma script_reply (s : S) key rate burst ttl now :
  (0 <= burst <= 2 ^ 53)%Z -> tokens_ok s key ->
  exists a retry rem reset,
    (run_script s key rate burst ttl now).2
      = map AInt64 [if a : bool then 1 else 0; retry; rem; burst; reset]%Z /\
    a = (fleb rate 0 || fleb 1 (level (purge now s) key rate (float burst) (float now))) /\
    (0 <= retry /\ 0 <= rem <= burst /\ 0 <= reset)%Z /\
    (a = true -> retry = 0)%Z /\ (a = false -> rem = 0)%Z.
Proof.
  intros Hb Hs. unfold run_script. set (s1 := purge now s).
  assert (tokens_ok s1 key) as Hs1.
  { intros x. unfold s1. rewrite hget_purge. destruct (expired _ _); [done|apply Hs]. }
  assert (float burst == inject_Z burst) as Hfb by (apply float_id; lia).
  assert (0 <= float burst) as Hb0.
  { rewrite Hfb. change 0 with (inject_Z 0). rewrite <- Zle_Qle. lia. }
  assert (ftrunc (float burst) = burst) as Htb.
  { rewrite (ftrunc_comp _ _ Hfb). apply ftrunc_Z. }
  destruct (fleb rate 0) eqn:Er.
  { exists true, 0%Z, burst, 0%Z. unfold rateLimitLua, lua_reply. rewrite Er. simpl.
    rewrite Htb. repeat split; done || lia. }
  fcompare. pose proof (level_nonneg s1 key rate (float burst) (float now) Er Hb0 Hs1) as Hl0.
  pose proof (level_le_burst s1 key rate (float burst) (float now)) as Hl.
  set (lvl := level s1 key rate (float burst) (float now)) in *.
  assert (0 <= if fltb lvl (float burst)
               then Qceiling (fdiv (fsub (float burst) lvl) rate) else 0)%Z as Hreset.
  { destruct (fltb lvl (float burst)) eqn:E; fcompare; [|lia].
    apply Qceiling_nonneg, fdiv_nonneg; [|done]. apply rnd_nonneg. lra. }
  set (reset := (if fltb lvl _ then _ else 0)%Z) in *.
  assert (ftrunc (if fltb lvl (float burst)
      then inject_Z (Qceiling (fdiv (fsub (float burst) lvl) rate)) else 0) = reset) as Ereset.
  { unfold reset. destruct (fltb lvl _); [apply ftrunc_Z|done]. }
  unfold rateLimitLua. replace (fleb rate 0) with false by (symmetry; by apply fleb_gt).
  fold (level s1 key rate (float burst) (float now)). fold lvl.
  destruct (fleb 1 lvl) eqn:E; fcompare; simpl; rewrite Htb, Ereset, ftrunc_Z.
  - exists true, 0%Z, (Qfloor (fsub lvl 1)), reset. split; [done|]. split; [done|].
    repeat split; try done; try lia.
    + rewrite <- (Qfloor_Z 0). apply Qfloor_resp_le, fsub_1_bounds. lra.
    + rewrite <- (Qfloor_Z burst). apply Qfloor_resp_le. rewrite <- (rnd_Z burst) by lia.
      apply rnd_mono. lra.
  - exists false, (Qceiling (fdiv (fsub 1 lvl) rate)), 0%Z, reset. split; [done|]. split; [done|].
    repeat split; try done; try lia.
    apply Qceiling_nonneg, fdiv_nonneg; [|done]. apply rnd_nonneg. lra.
Qed.

Lemma script_tokens_ok (s : S) key key' rate burst ttl now :
  (0 <= burst <= 2 ^ 53)%Z -> tokens_ok s key' ->
  tokens_ok (run_script s key rate burst ttl now).1 key'.
Proof.
  intros Hb Hs. unfold run_script.
  assert (tokens_ok (purge now s) key') as Hs1.
  { intros x. rewrite hget_purge. destruct (expired _ _); [done|apply Hs]. }
  intros x Hx. destruct (decide (key = key')) as [->|Hk].
  - destruct (fleb rate 0) eqn:Er.
    { unfold rateLimitLua in Hx. rewrite Er in Hx. by apply Hs1. }
    fcompare. eapply (script_tokens_bounds _ _ _ _ _ _ _ Er) in Hx; [apply Hx| | |done].
    + rewrite float_id by lia. change 0 with (inject_Z 0). rewrite <- Zle_Qle. lia.
    + by apply burst_rounds.
  - apply Hs1. rewrite <- Hx. symmetry. by apply script_other_key.
Qed.
End reply.

(** ** The retry delay *)

Lemma Qceiling_le_iff x z : (Qceiling x <= z)%Z <-> x <= inject_Z z.
Proof.
  split.
  - intros Hz. eapply Qle_trans; [apply Qle_ceiling|]. by rewrite <- Zle_Qle.
  - intros Hz. rewrite <- (Qceiling_Z z). by apply Qceiling_resp_le.
Qed.

(** The retry delay of a denied call is exact. With exact arithmetic, when the
    script denies a call at [t] with delay [retry], a next call at [t'] (the key
    not having expired in between) is admitted if and only if
    [t + retry <= t']: waiting as told is enough, and not a microsecond less. *)
Theorem retry_after_exact {S} `{RedisHashLaws S} (s : S) key rate burst ttl t t' retry rest :
  let run s := run_script (R := exact_rounding) s key rate burst ttl in
  0 < rate -> (1 <= burst <= 2 ^ 53)%Z -> tokens_ok s key -> (t <= t')%Z ->
  (run s t).2 = AInt64 0 :: AInt64 retry :: rest ->
  expired t' (deadline (run s t).1 key) = false ->
  allowed_reply (run (run s t).1 t').2 = bool_decide (t + retry <= t')%Z.
Proof.
  intros run Hr Hb Hs Ht Hrep Hex. unfold run, run_script in *.
  rewrite script_allowed by done.
  set (s1 := (rateLimitLua (purge t s) key rate (float burst) (float ttl) (float t)).1) in *.
  set (lvl := level (purge t s) key rate (float burst) (float t)).
  assert (allowed_reply (rateLimitLua (purge t s) key rate (float burst) (float ttl) (float t)).2 = false) as Hd
    by (by rewrite Hrep).
  rewrite script_allowed in Hd by done. fold lvl in Hd.
  assert (retry = Qceiling (fdiv (fsub 1 lvl) rate)) as ->.
  { revert Hrep. unfold rateLimitLua. replace (fleb rate 0) with false by (symmetry; by apply fleb_gt).
    fold (level (purge t s) key rate (float burst) (float t)). fold lvl. rewrite Hd. simpl.
    intros [= E _]. by rewrite <- E, ftrunc_Z. }
  assert (hget s1 key "tokens" = Some lvl) as Htok.
  { unfold s1. rewrite script_tokens by done. fold lvl. by rewrite Hd. }
  assert (hget s1 key "last" = Some (float t)) as Hlast by (by apply script_last).
  unfold level at 1. rewrite !hget_purge, Hex, Htok, Hlast. cbn [from_option id].
  assert (fltb (float t') (float t) = false) as ->.
  { apply fltb_ge. rewrite !exact_float. by rewrite <- Zle_Qle. }
  assert (inject_Z burst == float burst) as Hfb by (by rewrite exact_float).
  assert (1 <= inject_Z burst) by (change 1 with (inject_Z 1); rewrite <- Zle_Qle; lia).
  fcompare. apply eq_true_iff_eq. rewrite fleb_le, bool_decide_eq_true.
  transitivity (1 <= lvl + rate * inject_Z (t' - t)).
  - pose proof (lua_min_spec (float burst) (fadd lvl (fmul rate (fsub (float t') (float t))))) as (M1 & M2 & M3).
    assert (fadd lvl (fmul rate (fsub (float t') (float t))) == lvl + rate * inject_Z (t' - t)) as E.
    { autorewrite with exact. unfold Z.sub. rewrite inject_Z_plus, inject_Z_opp. lra. }
    split; [lra|]. destruct M3 as [M3|M3]; lra.
  - transitivity (Qceiling (fdiv (fsub 1 lvl) rate) <= t' - t)%Z; [|lia].
    rewrite Qceiling_le_iff. autorewrite with exact. split.
    + intros. apply Qle_shift_div_r; [done|]. lra.
    + intros Hq. assert (rate * ((1 - lvl) / rate) <= rate * inject_Z (t' - t)) as Hm
        by (by apply Qmult_le_l).
      rewrite Qmult_div_r in Hm by lra. lra.
Qed.

(** Ten tokens a second, burst 1: denied at 1.01 s with a delay of 90 ms; a call
    at 1.09999 s is still denied. *)
Lemma retry_after_exact_witness :
  let s1 := (run_script empty_store "k" (1 # 100000) 1 10 1000000).1 in
  let s2 := (run_script s1 "k" (1 # 100000) 1 10 1010000).1 in
  allowed_reply (run_script s2 "k" (1 # 100000) 1 10 1099999).2 = false /\
  allowed_reply (run_script s2 "k" (1 # 100000) 1 10 1100000).2 = true.
Proof.
  assert (tokens_ok (run_script empty_store "k" (1 # 100000) 1 10 1000000).1 "k") as Hok.
  { intros x Hx. vm_compute in Hx. injection Hx as <-. discriminate. }
  split;
    refine (retry_after_exact (run_script empty_store "k" (1 # 100000) 1 10 1000000).1
      "k" (1 # 100000) 1 10 1010000 _ 90000 [AInt64 0; AInt64 1; AInt64 90000] _ _ Hok _ _ _);
    try reflexivity; lia.
Defined.

(** ** The limiter against a Redis server *)

(** What the limiter relies on from Redis scripting: EVALSHA of a digest the
    server has runs the script once, an unknown digest answers NOSCRIPT and
    changes nothing, EVAL runs the source once and remembers its digest. *)
Class ScriptServer (W S : Type) `{Rounding} `{RedisHash S} `{Scripting W} (hash src : string) := {
  srv_store : W -> S;
  loaded : W -> bool;
  EvalSha_loaded w key a :
    loaded w = true ->
    (EvalSha w hash key a).2
      = Ok (run_script (srv_store w) key (arg_rate a) (arg_burst a) (arg_ttl a) (arg_now a)).2 /\
    srv_store (EvalSha w hash key a).1
      = (run_script (srv_store w) key (arg_rate a) (arg_burst a) (arg_ttl a) (arg_now a)).1;
  EvalSha_unknown w key a :
    loaded w = false ->
    (exists e, (EvalSha w hash key a).2 = Err e /\ IsNoScriptErr (Some e) = true) /\
    srv_store (EvalSha w hash key a).1 = srv_store w;
  Eval_runs w key a :
    (Eval w src key a).2
      = Ok (run_script (srv_store w) key (arg_rate a) (arg_burst a) (arg_ttl a) (arg_now a)).2 /\
    srv_store (Eval w src key a).1
      = (run_script (srv_store w) key (arg_rate a) (arg_burst a) (arg_ttl a) (arg_now a)).1
}.

Section server.
Context `{R : Rounding} {W S : Type} `{RedisHashLaws S} `{Scripting W} {hash src : string}.
Context `{!ScriptServer W S hash src}.

(** EVALSHA with its EVAL fallback runs the script exactly once. *)
Lemma evalScript_once l (w : W) key a :
  lim_hash l = hash -> lim_src l = src ->
  (evalScript l w key a).2
    = Ok (run_script (srv_store w) key (arg_rate a) (arg_burst a) (arg_ttl a) (arg_now a)).2 /\
  srv_store (evalScript l w key a).1
    = (run_script (srv_store w) key (arg_rate a) (arg_burst a) (arg_ttl a) (arg_now a)).1.
Proof.
  intros Hh Hs. unfold evalScript. rewrite Hh, Hs. destruct (loaded w) eqn:E.
  - destruct (EvalSha_loaded w key a E) as [H1' H2']. destruct (EvalSha w hash key a) as [w1 c].
    simpl in *. subst c. simpl. done.
  - destruct (EvalSha_unknown w key a E) as [(e & H1' & H2') H3'].
    destruct (EvalSha w hash key a) as [w1 c]. cbn [fst snd] in *. subst c. cbn [err_of]. rewrite H2'.
    rewrite <- H3'. apply Eval_runs.
Qed.

Lemma parse_reply (a : bool) retry rem lim reset :
  parseScriptResult (Ok (map AInt64 [if a then 1 else 0; retry; rem; lim; reset]%Z))
  = Ok (mkResult a (wrap64 (retry * Microsecond)) rem lim (wrap64 (reset * Microsecond))).
Proof. by destruct a. Qed.

Lemma run_reply_parses (s : S) key rate burst ttl now :
  (0 <= burst <= 2 ^ 53)%Z -> tokens_ok s key ->
  exists r, parseScriptResult (Ok (run_script s key rate burst ttl now).2) = Ok r /\
    Allowed r = (fleb rate 0 || fleb 1 (level (purge now s) key rate (float burst) (float now))) /\
    Limit r = burst /\ (0 <= Remaining r <= burst)%Z /\ (Allowed r = true -> RetryAfter r = 0%Z).
Proof.
  intros Hb Hs. destruct (script_reply s key rate burst ttl now Hb Hs)
    as (a & retry & rem & reset & -> & Ha & (Hretry & Hrem & Hreset) & Hz & _).
  eexists. split; [apply parse_reply|]. simpl. repeat split; try done; try lia.
  intros Hat. by rewrite (Hz Hat).
Qed.
End server.

(** C3: [AllowWithOverrides] implements one token-bucket step. On an open limiter,
    whether or not Redis has the script loaded, the call returns a result and
    no error, the script ran exactly once on [keyPrefix + key] with the
    overriding rate, burst and TTL, the decision is the bucket's, and the
    result is well formed (limit = burst, 0 <= remaining <= burst). *)
Theorem AllowWithOverrides_refines `{R : Rounding} {W S} `{RedisHashLaws S} `{Scripting W} hash src
    `{!ScriptServer W S hash src} l (w : W) key rps burst ttlOverride now :
  let fullKey := lim_keyPrefix l +:+ key in
  let ttl := if (0 <? ttlOverride)%Z then ttlOverride else lim_ttl l in
  let rate := fdiv rps 1000000 in
  lim_hash l = hash -> lim_src l = src -> lim_closed l = false ->
  (0 <= burst <= 2 ^ 53)%Z -> tokens_ok (srv_store w) fullKey ->
  exists r,
    (AllowWithOverrides l w key rps burst ttlOverride now).2 = Ok r /\
    srv_store (AllowWithOverrides l w key rps burst ttlOverride now).1
      = (run_script (srv_store w) fullKey rate burst ttl now).1 /\
    Allowed r = (fleb rate 0 ||
      fleb 1 (level (purge now (srv_store w)) fullKey rate (float burst) (float now))) /\
    Limit r = burst /\ (0 <= Remaining r <= burst)%Z /\ (Allowed r = true -> RetryAfter r = 0%Z).
Proof.
  intros fullKey ttl rate Hh Hs Hc Hb Hok. unfold AllowWithOverrides. rewrite Hc.
  fold fullKey ttl rate.
  destruct (evalScript_once (R := R) (S := S) l w fullKey (mkArgs rate burst ttl now) Hh Hs) as [E1 E2].
  destruct (evalScript l w fullKey (mkArgs rate burst ttl now)) as [w' c]. simpl in E1, E2. subst c.
  destruct (run_reply_parses (srv_store w) fullKey rate burst ttl now Hb Hok) as (r & Hp & ?).
  exists r. simpl. by rewrite Hp.
Qed.

(** A server: the store and whether the script has been loaded. *)
Definition demo_server : Type := (hash_store * bool)%type.
#[export] Instance demo_scripting : Scripting demo_server := {|
  EvalSha := fun (w : demo_server) h key a =>
    if w.2 then
      let '(s, r) := run_script w.1 key (arg_rate a) (arg_burst a) (arg_ttl a) (arg_now a) in ((s, true), Ok r)
    else (w, Err (errorf "NOSCRIPT No matching script. Please use EVAL."));
  Eval := fun (w : demo_server) src key a =>
    let '(s, r) := run_script w.1 key (arg_rate a) (arg_burst a) (arg_ttl a) (arg_now a) in ((s, true), Ok r)
|}.
#[export] Instance demo_script_server : ScriptServer demo_server hash_store "sha" "lua".
Proof.
  refine {| srv_store := (fst : demo_server -> hash_store); loaded := (snd : demo_server -> bool) |}; intros [s b] key a; simpl.
  - intros ->. by destruct (run_script _ _ _ _ _ _).
  - intros ->. simpl. split; [eexists; split; reflexivity|done].
  - by destruct (run_script _ _ _ _ _ _).
Defined.

Lemma AllowWithOverrides_refines_witness :
  exists r,
    (AllowWithOverrides (NewLimiter "sha" "lua" 10 5 10 "rl:")
       ((empty_store, false) : demo_server) "k" 10 2 0 1000000).2 = Ok r /\
    Allowed r = true /\ Limit r = 2%Z.
Proof.
  destruct (AllowWithOverrides_refines "sha" "lua" (NewLimiter "sha" "lua" 10 5 10 "rl:")
    ((empty_store, false) : demo_server) "k" 10 2 0 1000000 eq_refl eq_refl eq_refl ltac:(lia))
    as (r & H1 & _ & H2 & H3 & _).
  - intros x Hx. discriminate Hx.
  - exists r. split; [exact H1|]. split; [rewrite H2; vm_compute; reflexivity|exact H3].
Defined.

(** Buckets are independent. A call for one key changes no field and no
    deadline of another key, so the level at which any other key's next
    decision is taken is unchanged. *)
Theorem buckets_independent `{R : Rounding} {S} `{RedisHashLaws S} (s : S) key key' rate burst ttl now
    rate' burst' now' :
  key ≠ key' ->
  level (purge now' (rateLimitLua s key rate burst ttl now).1) key' rate' burst' (float now')
  = level (purge now' s) key' rate' burst' (float now').
Proof.
  intros Hk. unfold level.
  rewrite !hget_purge. pose proof (script_other_key s key key' rate burst ttl now) as Ho.
  destruct (Ho "tokens" Hk) as [-> ->]. by destruct (Ho "last" Hk) as [-> _].
Qed.

Lemma buckets_independent_witness :
  let s1 := (run_script empty_store "a" (1 # 1000000) 1 10 5000000).1 in
  level (purge 6000000 (rateLimitLua s1 "a" (1 # 1000000) 1 10 6000000).1) "b" (1 # 1000000) 1 (float 6000000)
  = level (purge 6000000 s1) "b" (1 # 1000000) 1 (float 6000000).
Proof. apply buckets_independent. discriminate. Defined.

(** Two proxy instances whose clocks differ by ten seconds, calling in turn. *)
Fixpoint alternate (n : nat) (t skew : Z) : list Z :=
  match n with O => [] | S n' => t :: (t + skew)%Z :: alternate n' t skew end.

(** The clock-order hypothesis of the rate bound is necessary. The script
    resets [last] to the caller's clock when that clock is behind, so two
    instances that disagree by ten seconds refill the bucket at every exchange:
    with one token per ten seconds and burst 1, twenty exchanges, possibly
    within one real second, admit 21 requests where clocks that agree would
    admit at most 2. *)
Theorem clock_skew_defeats_bound :
  admitted (decisions "k" (1 # 10000000) 1 60 empty_store (alternate 20 1000000000 10000000)) = 21%Z /\
  inject_Z 21 > inject_Z 1 + (1 # 10000000) * inject_Z 10000000.
Proof. split; vm_compute; reflexivity. Qed.
