(* ===== verification/KeyStrategy.v ===== *)
(** * Rate-limit keys

    [internal/ratelimit/key.go]: the strategies that derive the bucket key of a
    request, the interface they share and their construction from the
    configuration. *)
From S2P Require Import Prelude GoStrings GoNet ConfigTypes Config.
From Stdlib Require Import Ascii.

Local Open Scope Z_scope.

Record ClientIPStrategy := mkClientIPStrategy { trustedNets : list IPNet; ipDepth : Z }.
Record HeaderStrategy := mkHeaderStrategy { hs_HeaderName : string }.
Record CompositeStrategy := mkCompositeStrategy { cs_HeaderName : string; cs_PathPrefix : bool }.
Record GlobalStrategy := mkGlobalStrategy { gs_Key : string }.

(** The values of the [KeyStrategy] interface. *)
Inductive KeyStrategy :=
| KSClientIP (s : ClientIPStrategy)
| KSHeader (s : HeaderStrategy)
| KSComposite (s : CompositeStrategy)
| KSGlobal (s : GlobalStrategy).

Definition remoteIP (remoteAddr : string) : string :=
  match SplitHostPort remoteAddr with Some (ip, _) => ip | None => remoteAddr end.

Definition isTrusted (s : ClientIPStrategy) (ipStr : string) : bool :=
  if bool_decide (length (trustedNets s) = 0%nat) then false
  else match ParseIP ipStr with
       | None => false
       | Some ip => existsb (fun n => IPNet_Contains n ip) (trustedNets s)
       end.

Definition ClientIP_Extract (s : ClientIPStrategy) (req : Request) : result string :=
  let callerIP := remoteIP (RemoteAddr req) in
  let from_xff :=
    let xff := Header_Get (ReqHeader req) "X-Forwarded-For" in
    if bool_decide (xff = "") then None
    else
      let parts := map TrimSpace (Split "," xff) in
      let n := Z.of_nat (length parts) in
      let idx := if (0 <? ipDepth s) && (ipDepth s <=? n) then n - ipDepth s else 0 in
      match parts !! Z.to_nat idx with
      | Some ip => if bool_decide (ip = "") then None else Some ip
      | None => None
      end in
  let from_xri :=
    let xri := Header_Get (ReqHeader req) "X-Real-IP" in
    if bool_decide (xri = "") then None else Some (TrimSpace xri) in
  if isTrusted s callerIP then
    match from_xff with
    | Some ip => Ok ip
    | None => match from_xri with Some ip => Ok ip | None => Ok callerIP end
    end
  else Ok callerIP.

Definition Header_Extract (s : HeaderStrategy) (req : Request) : result string :=
  let v := Header_Get (ReqHeader req) (hs_HeaderName s) in
  if bool_decide (v = "") then Err (errorf ("header " +:+ hs_HeaderName s +:+ " is empty or missing"))
  else Ok v.

Definition FirstPathSegment (path : string) : string :=
  let path := TrimPrefix path "/" in
  match IndexByte "/" path with
  | Some (S i) => slice path 0 (S i)
  | _ => if bool_decide (path = "") then "root" else path
  end.

Definition Composite_Extract (s : CompositeStrategy) (req : Request) : result string :=
  let hv := Header_Get (ReqHeader req) (cs_HeaderName s) in
  if bool_decide (hv = "") then Err (errorf ("header " +:+ cs_HeaderName s +:+ " is empty or missing"))
  else if cs_PathPrefix s then Ok (hv +:+ ":" +:+ FirstPathSegment (URL_Path (ReqURL req)))
  else Ok hv.

Definition Extract (s : KeyStrategy) (req : Request) : result string :=
  match s with
  | KSClientIP s => ClientIP_Extract s req
  | KSHeader s => Header_Extract s req
  | KSComposite s => Composite_Extract s req
  | KSGlobal s => Ok (gs_Key s)
  end.

Definition cidr_of (cidr : string) : string :=
  if Contains cidr "/" then cidr
  else if Contains cidr ":" then cidr +:+ "/128" else cidr +:+ "/32".

Fixpoint parseTrustedProxies (cidrs : list string) : result (list IPNet) :=
  match cidrs with
  | [] => Ok []
  | c :: rest =>
      let c := TrimSpace c in
      if bool_decide (c = "") then parseTrustedProxies rest
      else match ParseCIDR (cidr_of c) with
           | None => Err (errorf ("invalid trusted_proxies CIDR " +:+ cidr_of c))
           | Some n => ns ← parseTrustedProxies rest; Ok (n :: ns)
           end
  end.

Definition NewKeyStrategy (cfg : KeyStrategyConfig) : result KeyStrategy :=
  let t := ks_Type cfg in
  if bool_decide (t = "clientip") || bool_decide (t = "") then
    nets ← parseTrustedProxies (ks_TrustedProxies cfg);
    Ok (KSClientIP (mkClientIPStrategy nets (ks_TrustedIPDepth cfg)))
  else if bool_decide (t = "header") then
    if bool_decide (ks_HeaderName cfg = "") then Err (errorf "header_name is required")
    else Ok (KSHeader (mkHeaderStrategy (CanonicalHeaderKey (ks_HeaderName cfg))))
  else if bool_decide (t = "composite") then
    if bool_decide (ks_HeaderName cfg = "") then Err (errorf "header_name is required")
    else Ok (KSComposite (mkCompositeStrategy (CanonicalHeaderKey (ks_HeaderName cfg)) (ks_PathPrefix cfg)))
  else if bool_decide (t = "global") then
    Ok (KSGlobal (mkGlobalStrategy (if bool_decide (ks_GlobalKey cfg = "") then "global" else ks_GlobalKey cfg)))
  else Err (errorf ("unknown key strategy type " +:+ t)).

(** ** Lemmas *)

Lemma isTrusted_nil d ip : isTrusted (mkClientIPStrategy [] d) ip = false.
Proof. done. Qed.

Lemma parseTrustedProxies_ok cidrs :
  Forall (fun c => TrimSpace c = "" \/ is_Some (ParseCIDR (cidr_of (TrimSpace c)))) cidrs ->
  exists ns, parseTrustedProxies cidrs = Ok ns.
Proof.
  induction 1 as [|c cs Hc _ (ns & IH)]; simpl; [eauto|].
  case_bool_decide; [eauto|]. destruct Hc as [|[n ->]]; [done|]. rewrite IH. simpl. eauto.
Qed.

(** A validated key strategy with parsable proxy ranges can be built. *)
Lemma NewKeyStrategy_ok cfg :
  key_strategy_valid cfg ->
  Forall (fun c => TrimSpace c = "" \/ is_Some (ParseCIDR (cidr_of (TrimSpace c)))) (ks_TrustedProxies cfg) ->
  is_ok (NewKeyStrategy cfg) = true.
Proof.
  intros [Ht Hh] Hp. destruct (parseTrustedProxies_ok _ Hp) as [ns Hns]. unfold NewKeyStrategy.
  destruct (bool_decide_reflect (ks_Type cfg = "clientip")); [by rewrite Hns|].
  destruct (bool_decide_reflect (ks_Type cfg = "")); [by rewrite Hns|]. simpl.
  destruct (bool_decide_reflect (ks_Type cfg = "header")); [rewrite bool_decide_eq_false_2; auto|].
  destruct (bool_decide_reflect (ks_Type cfg = "composite")); [rewrite bool_decide_eq_false_2; auto|].
  destruct (bool_decide_reflect (ks_Type cfg = "global")); [done|].
  destruct Ht as [|Ht]; [done|]. unfold KeyStrategyType_Valid, one_of in Ht. bools. set_solver.
Qed.

Lemma map_length_Split sep s : (0 < length (map TrimSpace (Split sep s)))%nat.
Proof. rewrite length_map. pose proof (Split_not_nil sep s). destruct (Split sep s); [done|simpl; lia]. Qed.

(** ** Trust *)

(** A client that does not come through a trusted proxy cannot choose its
    bucket. If the peer address is outside every trusted range (in particular
    when none is configured), the key is the peer's IP whatever headers the
    request carries. *)
Theorem untrusted_peer_key s req req' :
  isTrusted s (remoteIP (RemoteAddr req)) = false ->
  RemoteAddr req = RemoteAddr req' ->
  ClientIP_Extract s req = Ok (remoteIP (RemoteAddr req)) /\
  ClientIP_Extract s req' = ClientIP_Extract s req.
Proof. intros Ht E. unfold ClientIP_Extract. by rewrite <- E, Ht. Qed.

Definition demo_request (h : Header) : Request :=
  mkRequest "GET" (mkURL "" "" "/api" "") "/api" "example.org" "203.0.113.9:4711" h 1 false 0.

Lemma untrusted_peer_key_witness :
  let s := mkClientIPStrategy (match ParseCIDR "10.0.0.0/8" with Some n => [n] | None => [] end) 1 in
  ClientIP_Extract s (demo_request {[ "X-Forwarded-For" := ["6.6.6.6"] ]}) = Ok "203.0.113.9" /\
  ClientIP_Extract s (demo_request ∅)
    = ClientIP_Extract s (demo_request {[ "X-Forwarded-For" := ["6.6.6.6"] ]}).
Proof. intros s. apply untrusted_peer_key; vm_compute; reflexivity. Defined.

(** C37: Behind [N] trusted proxies the client cannot spoof its key. Let the trusted
    proxies append [N] comma-separated entries [tail] to whatever the client
    sent ([spoof]). With depth [N] the key is the first of those entries,
    whatever [spoof] is. *)
Theorem xff_depth_unspoofable s req spoof tail ip rest :
  isTrusted s (remoteIP (RemoteAddr req)) = true ->
  Header_Get (ReqHeader req) "X-Forwarded-For" = spoof +:+ "," +:+ tail ->
  Split "," tail = ip :: rest ->
  ipDepth s = Z.of_nat (length (ip :: rest)) ->
  TrimSpace ip ≠ "" ->
  ClientIP_Extract s req = Ok (TrimSpace ip).
Proof.
  intros Ht Hx Hs Hd Hip. unfold ClientIP_Extract. rewrite Ht, Hx.
  rewrite bool_decide_eq_false_2 by (by destruct spoof).
  change ("," +:+ tail) with (String ","%char tail). rewrite Split_app, Hs, map_app, length_app, Hd.
  rewrite !length_map. cbn [length map].
  rewrite (proj2 (Z.ltb_lt _ _)) by lia. rewrite (proj2 (Z.leb_le _ _)) by lia. simpl.
  replace (Z.to_nat _) with (length (map TrimSpace (Split "," spoof)) + 0)%nat
    by (rewrite length_map; lia).
  rewrite lookup_app_r by lia. rewrite Nat.add_sub_swap, Nat.sub_diag by lia. simpl.
  by rewrite bool_decide_eq_false_2.
Qed.

Lemma xff_depth_unspoofable_witness :
  let s := mkClientIPStrategy (match ParseCIDR "203.0.113.0/24" with Some n => [n] | None => [] end) 2 in
  ClientIP_Extract s (demo_request {[ "X-Forwarded-For" := ["1.1.1.1, 2.2.2.2, 198.51.100.7, 10.0.0.3"] ]})
  = Ok "198.51.100.7".
Proof.
  intros s. apply (xff_depth_unspoofable s _ "1.1.1.1, 2.2.2.2" " 198.51.100.7, 10.0.0.3" " 198.51.100.7" [" 10.0.0.3"]);
    vm_compute; try reflexivity; discriminate.
Defined.

(** ** Path segments *)

Lemma Cut_app sep a b : all_in (fun c => negb (bool_decide (c = sep))) a = true ->
  Cut sep (a +:+ String sep b) = (a, b, true).
Proof.
  induction a as [|c a IH]; intros H.
  - rewrite app_nil_s. simpl. by rewrite bool_decide_eq_true_2.
  - simpl in H. rewrite app_cons_s. simpl. bools. rewrite bool_decide_eq_false_2 by done.
    by rewrite IH.
Qed.

(** The composite key uses the first path segment of "/seg/rest"; but a path
    with a doubled leading slash keeps the whole remainder, so "//seg/rest"
    falls into a different bucket for every [rest]. *)
Theorem FirstPathSegment_spec seg rest :
  seg ≠ "" -> all_in (fun c => negb (bool_decide (c = "/"%char))) seg = true ->
  FirstPathSegment ("/" +:+ seg +:+ "/" +:+ rest) = seg /\
  FirstPathSegment ("//" +:+ seg +:+ "/" +:+ rest) = "/" +:+ seg +:+ "/" +:+ rest.
Proof.
  intros Hn Ha. unfold FirstPathSegment.
  change ("/" +:+ rest) with (String "/"%char rest).
  change ("//" +:+ ?x) with ("/" +:+ (String "/"%char x)).
  unfold TrimPrefix. rewrite !CutPrefix_app. unfold IndexByte. rewrite Cut_app by done. split.
  - destruct seg as [|c seg]; [done|]. cbn [String.length]. unfold slice.
    rewrite Nat.sub_0_r. change (S (String.length seg)) with (String.length (String c seg)). apply substring_app.
  - simpl. done.
Qed.

Lemma FirstPathSegment_spec_witness :
  FirstPathSegment "/api/v1/users" = "api" /\ FirstPathSegment "//api/v1/users" = "/api/v1/users".
Proof. apply (FirstPathSegment_spec "api" "v1/users"); [discriminate|reflexivity]. Defined.
