(* ===== verification/InMemory.v ===== *)
(** * The in-memory fallback limiter

    [internal/ratelimit/fallback.go]: per-key token buckets in local memory.
    Buckets are shared objects, so they live in a heap and the cache and the
    [pending] map hold references to them.

    The ristretto cache is outside the repository. What the code relies on is
    modelled as it documents it: [SetWithTTL] only enqueues the item, a later
    internal step admits or drops it, and an item can be evicted or expire at
    any time. Those internal steps are transitions of their own ([im_step]). *)
From S2P Require Import Prelude GoStrings Float64.

Local Open Scope Q_scope.

Record bucket := mkBucket { tokens : Q; lastTime : Z }.

Record InMemoryLimiter := mkInMemoryLimiter { im_disabled : bool; im_rate : Q; im_burst : Z; im_ttl : Z }.

(** Shared state: the heap of buckets, the cache contents, the items set but
    not yet admitted, and the [pending] map. *)
Record im_state := mkIM {
  heap : gmap nat bucket;
  next_id : nat;
  cached : gmap string nat;
  buffered : list (string * nat);
  pending : gmap string nat
}.

Definition im_init : im_state := mkIM ∅ 0 ∅ [] ∅.

Section limiter.
Context `{R : Rounding}.

Definition NewInMemoryLimiter (ratePerSecond : Q) (burst ttl : Z) : InMemoryLimiter :=
  mkInMemoryLimiter (fleb ratePerSecond 0) ratePerSecond burst ttl.

(** [Duration.Seconds]. *)
Definition Seconds (d : Z) : Q := fadd (float (Z.quot d Second)) (fdiv (float (Z.rem d Second)) (float Second)).

(** The refill path, under the bucket's lock. *)
Definition bucket_take (l : InMemoryLimiter) (b : bucket) (now : Z) : bucket * bool :=
  let elapsed := Seconds (now - lastTime b) in
  let t := fadd (tokens b) (fmul (im_rate l) elapsed) in
  let t := if fltb (float (im_burst l)) t then float (im_burst l) else t in
  if fleb 1 t then (mkBucket (fsub t 1) now, true) else (mkBucket t now, false).

(** [pending.LoadOrStore(key, newBucket)]: the id in the map and whether it was
    already there. *)
Definition LoadOrStore (st : im_state) (key : string) (b : bucket) : im_state * nat * bool :=
  match pending st !! key with
  | Some id => (st, id, true)
  | None =>
      (mkIM (<[next_id st := b]> (heap st)) (S (next_id st)) (cached st) (buffered st)
         (<[key := next_id st]> (pending st)), next_id st, false)
  end.

(** [cache.SetWithTTL] followed by [pending.Delete]. *)
Definition publish (st : im_state) (key : string) (id : nat) : im_state :=
  mkIM (heap st) (next_id st) (cached st) (buffered st ++ [(key, id)]) (delete key (pending st)).

Definition refill (l : InMemoryLimiter) (st : im_state) (id : nat) (now : Z) : im_state * bool :=
  match heap st !! id with
  | Some b =>
      let '(b', ok) := bucket_take l b now in
      (mkIM (<[id := b']> (heap st)) (next_id st) (cached st) (buffered st) (pending st), ok)
  | None => (st, false)
  end.

Definition InMemory_Allow (l : InMemoryLimiter) (st : im_state) (key : string) (now : Z) : im_state * bool :=
  if im_disabled l then (st, true) else
  match cached st !! key with
  | Some id => refill l st id now
  | None =>
      let newBucket := mkBucket (fsub (float (im_burst l)) 1) now in
      let '(st1, id, loaded) := LoadOrStore st key newBucket in
      if loaded then refill l st1 id now
      else (publish st1 key id, true)
  end.
End limiter.

(** What ristretto may do between calls. *)
Inductive im_step : im_state -> im_state -> Prop :=
| im_admit h n c k id q q' p :
    im_step (mkIM h n c (q ++ (k, id) :: q') p) (mkIM h n (<[k := id]> c) (q ++ q') p)
| im_drop h n c x q q' p :
    im_step (mkIM h n c (q ++ x :: q') p) (mkIM h n c (q ++ q') p)
| im_evict h n c k q p :
    im_step (mkIM h n c q p) (mkIM h n (delete k c) q p).

(** ** Invariant: references are valid and levels stay within the bucket *)

Section invariant.
Context `{R : Rounding}.
Variable l : InMemoryLimiter.

Record im_inv (st : im_state) : Prop := {
  ii_level id b : heap st !! id = Some b -> 0 <= tokens b /\ tokens b <= float (im_burst l);
  ii_fresh id : (next_id st <= id)%nat -> heap st !! id = None;
  ii_cached k id : cached st !! k = Some id -> is_Some (heap st !! id);
  ii_buffered k id : (k, id) ∈ buffered st -> is_Some (heap st !! id);
  ii_pending k id : pending st !! k = Some id -> is_Some (heap st !! id)
}.

Lemma im_init_inv : im_inv im_init.
Proof. split; simpl; intros *; rewrite ?lookup_empty; try done. by intros ?%elem_of_nil. Qed.

Hypothesis Hrate : 0 <= im_rate l.
Hypothesis Hburst : (1 <= im_burst l <= 2 ^ 53)%Z.

Lemma burst_float : float (im_burst l) == inject_Z (im_burst l).
Proof using Hburst. apply float_id. lia. Qed.
Lemma burst_ge_1 : 1 <= float (im_burst l).
Proof using Hburst. rewrite burst_float. change 1 with (inject_Z 1). rewrite <- Zle_Qle. lia. Qed.
Lemma burst_rnd : rnd (float (im_burst l)) == float (im_burst l).
Proof using Hburst. rewrite burst_float. apply rnd_Z. lia. Qed.

Lemma Seconds_nonneg d : (0 <= d)%Z -> 0 <= Seconds d.
Proof using.
  intros Hd. unfold Seconds.
  assert (0 <= Z.quot d Second)%Z by (apply Z.quot_pos; [done|reflexivity]).
  assert (0 <= Z.rem d Second)%Z by (apply Z.rem_nonneg; [discriminate|done]).
  assert (forall z, (0 <= z)%Z -> 0 <= float z) as Hf.
  { intros z Hz. apply rnd_nonneg. change 0 with (inject_Z 0). by rewrite <- Zle_Qle. }
  assert (0 < float Second) by (rewrite float_id by (vm_compute; discriminate); reflexivity).
  apply rnd_nonneg. assert (0 <= fdiv (float (Z.rem d Second)) (float Second)).
  { apply rnd_nonneg, Qle_shift_div_l; [done|]. specialize (Hf _ H0). lra. }
  specialize (Hf _ H). lra.
Qed.

(** A take keeps the level in range as long as the clock does not go back. *)
Lemma bucket_take_range b now :
  0 <= tokens b -> tokens b <= float (im_burst l) -> (lastTime b <= now)%Z ->
  let b' := (bucket_take l b now).1 in
  0 <= tokens b' /\ tokens b' <= float (im_burst l).
Proof using Hrate Hburst.
  intros H0 Hb Ht. unfold bucket_take.
  pose proof (Seconds_nonneg (now - lastTime b) ltac:(lia)) as Hs.
  assert (0 <= fmul (im_rate l) (Seconds (now - lastTime b))) by (apply rnd_nonneg, Qmult_le_0_compat; done).
  assert (0 <= fadd (tokens b) (fmul (im_rate l) (Seconds (now - lastTime b)))) as Ha by (apply rnd_nonneg; lra).
  set (t := fadd _ _) in *. pose proof burst_ge_1 as Hb1.
  assert (forall x, 0 <= x -> x <= float (im_burst l) ->
    let b' := (if fleb 1 x then (mkBucket (fsub x 1) now, true) else (mkBucket x now, false)).1 in
    0 <= tokens b' /\ tokens b' <= float (im_burst l)) as Hx.
  { intros x Hx0 Hxb. destruct (fleb 1 x) eqn:E; fcompare; simpl; [|done]. split.
    - apply rnd_nonneg. lra.
    - apply Qle_trans with (rnd (float (im_burst l))); [apply rnd_mono; lra|rewrite burst_rnd; lra]. }
  destruct (fltb _ t) eqn:E; fcompare; apply Hx; lra.
Qed.
End invariant.

(** Every heap write keeps the references valid. *)
Lemma is_Some_insert {A} (h : gmap nat A) i j x : is_Some (h !! i) -> is_Some (<[j := x]> h !! i).
Proof. intros H. destruct (decide (i = j)) as [->|]; [rewrite lookup_insert_eq|rewrite lookup_insert_ne]; eauto. Qed.
#[export] Hint Resolve is_Some_insert : edgequota.

Section preservation.
Context `{R : Rounding}.
Variable l : InMemoryLimiter.
Hypothesis Hrate : 0 <= im_rate l.
Hypothesis Hburst : (1 <= im_burst l <= 2 ^ 53)%Z.

Definition clock_ok (st : im_state) (now : Z) : Prop :=
  forall id b, heap st !! id = Some b -> (lastTime b <= now)%Z.

Lemma refill_inv st id now : im_inv l st -> clock_ok st now -> im_inv l (refill l st id now).1.
Proof using Hrate Hburst.
  intros HI Hc. unfold refill. destruct (heap st !! id) as [b|] eqn:E; [|done].
  pose proof (ii_level _ _ HI id b E) as [H0 Hb].
  pose proof (bucket_take_range l Hrate Hburst b now H0 Hb (Hc id b E)) as Hr.
  destruct (bucket_take l b now) as [b' ok]. simpl in Hr. simpl. destruct HI. split; simpl.
  - intros i x. destruct (decide (i = id)) as [->|Hne].
    + rewrite lookup_insert_eq. by intros [= <-].
    + rewrite lookup_insert_ne by done. eauto.
  - intros i Hi. rewrite lookup_insert_ne; [auto|]. intros ->.
    rewrite ii_fresh0 in E; done.
  - eauto with edgequota.
  - eauto with edgequota.
  - eauto with edgequota.
Qed.

Lemma Allow_inv st key now : im_inv l st -> clock_ok st now -> im_inv l (InMemory_Allow l st key now).1.
Proof using Hrate Hburst.
  intros HI Hc. unfold InMemory_Allow. destruct (im_disabled l); [done|].
  destruct (cached st !! key) as [id|] eqn:E; [by apply refill_inv|].
  unfold LoadOrStore. destruct (pending st !! key) as [id|] eqn:Ep; [by apply refill_inv|].
  pose proof (burst_ge_1 l Hburst) as Hb1.
  unfold publish. destruct HI. split; simpl.
  - intros i x. destruct (decide (i = next_id st)) as [->|Hne].
    + rewrite lookup_insert_eq. intros [= <-]. simpl. split; [apply rnd_nonneg; lra|].
      apply Qle_trans with (rnd (float (im_burst l))); [apply rnd_mono; lra|].
      rewrite burst_rnd by done. lra.
    + rewrite lookup_insert_ne by done. eauto.
  - intros i Hi. rewrite lookup_insert_ne by lia. apply ii_fresh0. lia.
  - eauto with edgequota.
  - intros k id. rewrite elem_of_app, list_elem_of_singleton. intros [Hin|[= -> ->]]; [eauto with edgequota|].
    rewrite lookup_insert_eq. eauto.
  - intros k id. destruct (decide (k = key)) as [->|Hne]; [by rewrite lookup_delete_eq|].
    rewrite lookup_delete_ne, lookup_insert_ne by done. eauto with edgequota.
Qed.

Lemma im_step_inv st st' : im_step st st' -> im_inv l st -> im_inv l st'.
Proof using.
  clear Hrate Hburst. intros Hs HI. destruct Hs, HI; split; simpl in *; eauto.
  - intros k' i. destruct (decide (k = k')) as [<-|].
    + rewrite lookup_insert_eq. intros [= <-]. apply (ii_buffered0 k). set_solver.
    + rewrite lookup_insert_ne by done. eauto.
  - intros k' i Hin. apply (ii_buffered0 k'). set_solver.
  - intros k' i Hin. apply (ii_buffered0 k'). set_solver.
  - intros k' i Hd. apply lookup_delete_Some in Hd as [_ Hd]. eauto.
Qed.
End preservation.

(** Reachable states: calls at clock times that never go back, interleaved with
    whatever ristretto does. *)
Inductive reachable `{R : Rounding} (l : InMemoryLimiter) : im_state -> Z -> Prop :=
| r_init t : reachable l im_init t
| r_allow st t key now : reachable l st t -> (t <= now)%Z ->
    reachable l (InMemory_Allow l st key now).1 now
| r_cache st st' t : reachable l st t -> im_step st st' -> reachable l st' t.

Lemma heap_clock `{R : Rounding} l st t : reachable l st t -> clock_ok st t.
Proof.
  induction 1 as [t|st t key now H IH Ht|st st' t H IH Hs].
  - intros id b. simpl. by rewrite lookup_empty.
  - assert (forall id, clock_ok (refill l st id now).1 now) as Hr.
    { intros id i b. unfold refill. destruct (heap st !! id) as [b0|] eqn:E; simpl.
      - assert (lastTime (bucket_take l b0 now).1 = now) as Hb.
        { unfold bucket_take. by destruct (fleb 1 _). }
        destruct (bucket_take l b0 now) as [b' ok]. simpl in *.
        destruct (decide (i = id)) as [->|Hne].
        + rewrite lookup_insert_eq. intros [= <-]. lia.
        + rewrite lookup_insert_ne by done. intros Hb'. specialize (IH i b Hb'). lia.
      - intros Hb. specialize (IH i b Hb). lia. }
    unfold InMemory_Allow. destruct (im_disabled l).
    { intros i b Hb. specialize (IH i b Hb). lia. }
    destruct (cached st !! key); [apply Hr|]. unfold LoadOrStore.
    destruct (pending st !! key); [apply Hr|]. simpl. intros i b. simpl.
    destruct (decide (i = next_id st)) as [->|Hne].
    + rewrite lookup_insert_eq. intros [= <-]. simpl. lia.
    + rewrite lookup_insert_ne by done. intros Hb. specialize (IH i b Hb). lia.
  - by destruct Hs.
Qed.



(** [n] calls for one key at one time; counts the allowed ones. *)
Fixpoint burst_calls `{R : Rounding} (l : InMemoryLimiter) (st : im_state) (key : string) (now : Z) (n : nat)
    : im_state * nat :=
  match n with
  | O => (st, O)
  | S n' =>
      let '(st1, ok) := InMemory_Allow l st key now in
      let '(st2, k) := burst_calls l st1 key now n' in
      (st2, if ok : bool then S k else k)
  end.

Lemma burst_calls_unadmitted `{R : Rounding} l key now n : forall st,
  cached st !! key = None -> pending st !! key = None -> (burst_calls l st key now n).2 = n.
Proof.
  induction n as [|n IH]; intros st Hc Hp; [done|]. cbn [burst_calls].
  assert (exists st1, InMemory_Allow l st key now = (st1, true) /\
            cached st1 !! key = None /\ pending st1 !! key = None) as (st1 & -> & Hc1 & Hp1).
  { unfold InMemory_Allow. destruct (im_disabled l); [eauto|]. rewrite Hc. unfold LoadOrStore.
    rewrite Hp. eexists. split; [reflexivity|]. simpl. by rewrite lookup_delete_eq. }
  specialize (IH st1 Hc1 Hp1). destruct (burst_calls l st1 key now n) as [st2 k]. simpl in *. by rewrite IH.
Qed.

(** Until ristretto admits a new key's bucket, the fallback limiter does not
    limit. The pending entry is removed right after the asynchronous set, so
    while no item has been admitted every call for the key creates a fresh
    bucket and is allowed, however many calls there are and whatever the
    burst is. *)
Theorem async_window_unlimited `{R : Rounding} l key now n :
  (burst_calls l im_init key now n).2 = n.
Proof. apply burst_calls_unadmitted; apply lookup_empty. Qed.
