(* ===== verification/Breaker.v ===== *)
(** * Circuit breakers

    The breaker of the auth client ([internal/auth/auth.go]), the per-tenant
    breaker of the external rate-limit client and the bounded map that holds
    the latter ([internal/ratelimit/external.go]). Each method is one critical
    section, so a run is a sequence of method calls; the several [time.Now()]
    of one section are one reading. *)
From S2P Require Import Prelude GoStrings GoTime.

Local Open Scope Z_scope.

(** ** The auth breaker *)

Record circuitBreaker := mkCB {
  failures : Z;
  cb_open : bool;
  openUntil : Z;
  threshold : Z;
  resetTimeout : Z
}.

Definition defaultAuthCBThreshold : Z := 5.
Definition defaultAuthCBResetTimeout : Z := 30 * Second.

Definition newCircuitBreaker (threshold resetTimeout : Z) : circuitBreaker :=
  let threshold := if threshold <=? 0 then defaultAuthCBThreshold else threshold in
  let resetTimeout := if resetTimeout <=? 0 then defaultAuthCBResetTimeout else resetTimeout in
  mkCB 0 false 0 threshold resetTimeout.

Definition isOpen (cb : circuitBreaker) (now : Z) : bool :=
  if negb (cb_open cb) then false else now <? openUntil cb.

Definition recordFailure (cb : circuitBreaker) (now : Z) : circuitBreaker :=
  let f := failures cb + 1 in
  if threshold cb <=? f
  then mkCB f true (now + resetTimeout cb) (threshold cb) (resetTimeout cb)
  else mkCB f (cb_open cb) (openUntil cb) (threshold cb) (resetTimeout cb).

Definition recordSuccess (cb : circuitBreaker) : circuitBreaker :=
  mkCB 0 false (openUntil cb) (threshold cb) (resetTimeout cb).

(** ** What a breaker promises *)

(** The outcome of a call to the protected service, with its time. *)
Inductive outcome := Failure (t : Z) | Success (t : Z).

Definition record (cb : circuitBreaker) (o : outcome) : circuitBreaker :=
  match o with Failure t => recordFailure cb t | Success _ => recordSuccess cb end.

(** A history, most recent outcome first. *)
Fixpoint after (cb : circuitBreaker) (h : list outcome) : circuitBreaker :=
  match h with [] => cb | o :: h' => record (after cb h') o end.

Fixpoint streak (h : list outcome) : Z :=
  match h with Failure _ :: h' => 1 + streak h' | _ => 0 end.

(** The specification: open at [now] when the last [n >= threshold] outcomes all
    failed and the most recent failure is less than the reset timeout ago. *)
Definition open_spec (threshold reset : Z) (h : list outcome) (now : Z) : bool :=
  match h with
  | Failure t :: _ => (threshold <=? streak h) && (now <? t + reset)
  | _ => false
  end.

Lemma streak_nonneg h : 0 <= streak h.
Proof. induction h as [|[t|t] h IH]; simpl; lia. Qed.

Lemma after_params th rt h :
  threshold (after (mkCB 0 false 0 th rt) h) = th /\ resetTimeout (after (mkCB 0 false 0 th rt) h) = rt.
Proof.
  induction h as [|[t|t] h [IH1 IH2]]; simpl; [done| |done].
  unfold recordFailure. destruct (_ <=? _); simpl; by rewrite IH1, IH2.
Qed.

Lemma after_failures th rt h : failures (after (mkCB 0 false 0 th rt) h) = streak h.
Proof.
  induction h as [|[t|t] h IH]; simpl; [done| |done].
  unfold recordFailure. destruct (_ <=? _); simpl; lia.
Qed.

(** Below the threshold the breaker is closed. *)
Lemma after_closed th rt h : 0 < th -> streak h < th -> cb_open (after (mkCB 0 false 0 th rt) h) = false.
Proof.
  intros Hth. induction h as [|[t|t] h IH]; simpl; intros Hs; [done| |done].
  unfold recordFailure. rewrite after_failures, (proj1 (after_params th rt h)).
  destruct (th <=? streak h + 1) eqn:E; bools; [lia|]. simpl. apply IH. lia.
Qed.

(** C10: The circuit breaker implements its specification. After any history of
    outcomes it is open at [now] exactly when the most recent [threshold] or more
    outcomes were all failures and [now] is before the last failure plus the
    reset timeout; one success closes it. *)
Theorem circuitBreaker_refines th rt h now :
  0 < th -> isOpen (after (mkCB 0 false 0 th rt) h) now = open_spec th rt h now.
Proof.
  intros Hth. destruct h as [|[t|t] h]; [done| |done]. simpl.
  unfold recordFailure. rewrite after_failures, (proj1 (after_params th rt h)), (proj2 (after_params th rt h)).
  rewrite (Z.add_comm (streak h)). destruct (th <=? 1 + streak h) eqn:E; simpl; [done|].
  unfold isOpen. simpl. rewrite after_closed; [done|done|]. bools. lia.
Qed.

Lemma circuitBreaker_refines_witness :
  let h := [Failure 300; Failure 200; Success 150; Failure 100] in
  isOpen (after (mkCB 0 false 0 2 1000) h) 1299 = true /\
  isOpen (after (mkCB 0 false 0 2 1000) h) 1300 = false.
Proof.
  intros h. split; [rewrite (circuitBreaker_refines 2 1000 h 1299)|rewrite (circuitBreaker_refines 2 1000 h 1300)];
    vm_compute; reflexivity.
Defined.

(** In the half-open state the breaker does not limit the number of probes.
    Once the reset timeout has elapsed [isOpen] stays false at every later
    time until an outcome is recorded: any number of concurrent requests pass,
    not one. *)
Theorem half_open_unlimited_probes cb now now' :
  cb_open cb = true -> openUntil cb <= now -> now <= now' ->
  isOpen cb now = false /\ isOpen cb now' = false.
Proof. intros Ho H1 H2. unfold isOpen. rewrite Ho. simpl. rewrite !(proj2 (Z.ltb_ge _ _)); [done|lia|lia]. Qed.

Lemma half_open_unlimited_probes_witness :
  isOpen (mkCB 5 true 100 5 30) 100 = false /\ isOpen (mkCB 5 true 100 5 30) 101 = false.
Proof. apply half_open_unlimited_probes; [reflexivity|simpl; lia|lia]. Defined.

(** ** The per-tenant breaker *)

Record tenantCircuitBreaker := mkTCB {
  t_failures : Z;
  t_lastFailure : Z;
  t_open : bool;
  t_openUntil : Z;
  t_lastAccess : Z;
  t_threshold : Z;
  t_resetTimeout : Z
}.

Definition newTenantCB (threshold resetTimeout now : Z) : tenantCircuitBreaker :=
  mkTCB 0 0 false 0 now threshold resetTimeout.

Definition closedBreakerStub : tenantCircuitBreaker := mkTCB 0 0 false 0 0 (2 ^ 31 - 1) Hour.

Definition tenant_isOpen (cb : tenantCircuitBreaker) (now : Z) : tenantCircuitBreaker * bool :=
  (mkTCB (t_failures cb) (t_lastFailure cb) (t_open cb) (t_openUntil cb) now (t_threshold cb) (t_resetTimeout cb),
   if negb (t_open cb) then false else now <? t_openUntil cb).

Definition tenant_recordFailure (cb : tenantCircuitBreaker) (now : Z) : tenantCircuitBreaker :=
  let f := t_failures cb + 1 in
  if t_threshold cb <=? f
  then mkTCB f now true (now + t_resetTimeout cb) now (t_threshold cb) (t_resetTimeout cb)
  else mkTCB f now (t_open cb) (t_openUntil cb) now (t_threshold cb) (t_resetTimeout cb).

Definition tenant_recordSuccess (cb : tenantCircuitBreaker) (now : Z) : tenantCircuitBreaker :=
  mkTCB 0 (t_lastFailure cb) false (t_openUntil cb) now (t_threshold cb) (t_resetTimeout cb).

Definition isStale (cb : tenantCircuitBreaker) (now maxIdle : Z) : bool := maxIdle <? now - t_lastAccess cb.

Definition resolveCBThreshold (configured : Z) : Z := if 0 <? configured then configured else 5.
Definition resolveCBResetTimeout (configured : string) : Z :=
  match time_ParseDuration configured with
  | Some d => if negb (bool_decide (configured = "")) && (0 <? d) then d else 30 * Second
  | None => 30 * Second
  end.

(** The tenant breaker is the auth breaker with access times: a simulation. *)
Definition cb_view (cb : tenantCircuitBreaker) : circuitBreaker :=
  mkCB (t_failures cb) (t_open cb) (t_openUntil cb) (t_threshold cb) (t_resetTimeout cb).

Lemma tenant_isOpen_sim cb now :
  (tenant_isOpen cb now).2 = isOpen (cb_view cb) now /\ cb_view (tenant_isOpen cb now).1 = cb_view cb.
Proof. done. Qed.
Lemma tenant_recordFailure_sim cb now : cb_view (tenant_recordFailure cb now) = recordFailure (cb_view cb) now.
Proof. unfold tenant_recordFailure, recordFailure. simpl. by destruct (_ <=? _). Qed.
Lemma tenant_recordSuccess_sim cb now : cb_view (tenant_recordSuccess cb now) = recordSuccess (cb_view cb).
Proof. done. Qed.

(** ** The bounded breaker map *)

Record breakers := mkBreakers {
  breaker_map : gmap string tenantCircuitBreaker;
  breakerCount : Z;
  stub : tenantCircuitBreaker;     (* the shared closedBreakerStub object *)
  maxBreakers : Z;
  cbThreshold : Z;
  cbResetTimeout : Z
}.

(** Which object a lookup hands out: the tenant's own or the shared stub. *)
Inductive breaker_ref := Own (key : string) | Stub.

Definition set_map (b : breakers) (m : gmap string tenantCircuitBreaker) (n : Z) : breakers :=
  mkBreakers m n (stub b) (maxBreakers b) (cbThreshold b) (cbResetTimeout b).

Definition getOrCreateCB (b : breakers) (key : string) (now : Z) : breakers * breaker_ref :=
  match breaker_map b !! key with
  | Some _ => (b, Own key)
  | None =>
      if maxBreakers b <=? breakerCount b then (b, Stub)
      else (set_map b (<[key := newTenantCB (cbThreshold b) (cbResetTimeout b) now]> (breaker_map b))
              (breakerCount b + 1), Own key)
  end.

Definition deref (b : breakers) (r : breaker_ref) : tenantCircuitBreaker :=
  match r with Own k => default (stub b) (breaker_map b !! k) | Stub => stub b end.

Definition assign (b : breakers) (r : breaker_ref) (cb : tenantCircuitBreaker) : breakers :=
  match r with
  | Own k => set_map b (<[k := cb]> (breaker_map b)) (breakerCount b)
  | Stub => mkBreakers (breaker_map b) (breakerCount b) cb (maxBreakers b) (cbThreshold b) (cbResetTimeout b)
  end.

Definition isCircuitOpen (b : breakers) (key : string) (now : Z) : breakers * bool :=
  let '(b1, r) := getOrCreateCB b key now in
  let '(cb, o) := tenant_isOpen (deref b1 r) now in (assign b1 r cb, o).

Definition ec_recordFailure (b : breakers) (key : string) (now : Z) : breakers :=
  let '(b1, r) := getOrCreateCB b key now in assign b1 r (tenant_recordFailure (deref b1 r) now).

Definition ec_recordSuccess (b : breakers) (key : string) (now : Z) : breakers :=
  let '(b1, r) := getOrCreateCB b key now in assign b1 r (tenant_recordSuccess (deref b1 r) now).

(** [evictStaleBreakers]: every stale entry is deleted and counted down, with a
    floor of zero. *)
Definition evictStaleBreakers (b : breakers) (now : Z) : breakers :=
  let maxIdle := 2 * cbResetTimeout b in
  let stale := filter (fun kv => isStale kv.2 now maxIdle = true) (breaker_map b) in
  set_map b (filter (fun kv => isStale kv.2 now maxIdle = false) (breaker_map b))
    (Z.max 0 (breakerCount b - Z.of_nat (size stale))).

Inductive breaker_op := OpIsOpen (k : string) (t : Z) | OpFail (k : string) (t : Z)
  | OpSucc (k : string) (t : Z) | OpEvict (t : Z).

Definition breaker_apply (b : breakers) (o : breaker_op) : breakers :=
  match o with
  | OpIsOpen k t => (isCircuitOpen b k t).1
  | OpFail k t => ec_recordFailure b k t
  | OpSucc k t => ec_recordSuccess b k t
  | OpEvict t => evictStaleBreakers b t
  end.

(** The count is the number of entries, and the entries are bounded. *)
Definition breakers_ok (b : breakers) : Prop :=
  breakerCount b = Z.of_nat (size (breaker_map b)) /\ breakerCount b <= Z.max 0 (maxBreakers b).

Lemma getOrCreateCB_ok b k t :
  breakers_ok b ->
  let '(b1, r) := getOrCreateCB b k t in
  breakers_ok b1 /\ maxBreakers b1 = maxBreakers b /\
  match r with Own k' => k' = k /\ is_Some (breaker_map b1 !! k) | Stub => b1 = b end.
Proof.
  intros [Hc Hm]. unfold getOrCreateCB. destruct (breaker_map b !! k) eqn:E; [by rewrite E|].
  destruct (_ <=? _) eqn:El; [done|]. bools. split; [|split; [done|split; [done|]]].
  - split; simpl; [|lia]. rewrite map_size_insert_None by done. lia.
  - simpl. rewrite lookup_insert_eq. eauto.
Qed.

Lemma assign_ok b r cb :
  breakers_ok b -> match r with Own k => is_Some (breaker_map b !! k) | Stub => True end ->
  breakers_ok (assign b r cb) /\ maxBreakers (assign b r cb) = maxBreakers b.
Proof.
  intros [Hc Hm] Hr. destruct r as [k|]; [|done]. split; [|done]. split; simpl; [|done].
  rewrite map_size_insert_Some; done.
Qed.

Lemma evict_ok b t : breakers_ok b -> breakers_ok (evictStaleBreakers b t).
Proof.
  intros [Hc Hm]. unfold evictStaleBreakers. split; simpl; [|lia].
  rewrite Hc. set (m := breaker_map b). set (P := fun kv : string * tenantCircuitBreaker => _ = true).
  assert (size m = size (filter P m) + size (filter (fun kv => ¬ P kv) m))%nat as Hs.
  { rewrite <- map_size_disj_union by apply map_disjoint_filter_complement.
    by rewrite map_filter_union_complement. }
  assert (filter (fun kv : string * tenantCircuitBreaker =>
            isStale kv.2 t (2 * cbResetTimeout b) = false) m = filter (fun kv => ¬ P kv) m) as ->.
  { apply map_filter_ext. intros k x _. unfold P. by rewrite not_true_iff_false. }
  lia.
Qed.

Lemma breaker_apply_ok b o : breakers_ok b -> breakers_ok (breaker_apply b o) /\ maxBreakers (breaker_apply b o) = maxBreakers b.
Proof.
  intros H. destruct o as [k t|k t|k t|t]; simpl; [| | |split; [by apply evict_ok|done]];
    unfold isCircuitOpen, ec_recordFailure, ec_recordSuccess;
    pose proof (getOrCreateCB_ok b k t H) as Hg; destruct (getOrCreateCB b k t) as [b1 r];
    destruct Hg as (Hb1 & Hm & Hr); simpl; rewrite <- Hm; apply assign_ok; try done;
    destruct r as [k'|]; try done; by destruct Hr as [-> ?].
Qed.

(** The per-tenant breaker map is bounded. Whatever sequence of lookups,
    failures, successes and evictions happens, for whatever keys, the counter
    equals the number of entries and never exceeds the configured maximum. *)
Theorem breaker_map_bounded b ops :
  breakers_ok b ->
  let b' := fold_left breaker_apply ops b in
  breakerCount b' = Z.of_nat (size (breaker_map b')) /\
  Z.of_nat (size (breaker_map b')) <= Z.max 0 (maxBreakers b).
Proof.
  revert b. induction ops as [|o ops IH]; intros b H; [destruct H; simpl; lia|].
  simpl. destruct (breaker_apply_ok b o H) as [H' Hm]. rewrite <- Hm. by apply IH.
Qed.

Lemma breaker_map_bounded_witness :
  let b := mkBreakers ∅ 0 closedBreakerStub 2 5 30 in
  let ops := [OpIsOpen "a" 1; OpFail "b" 2; OpFail "c" 3; OpEvict 100; OpIsOpen "d" 101] in
  breakerCount (fold_left breaker_apply ops b) = 1 /\
  Z.of_nat (size (breaker_map (fold_left breaker_apply ops b))) <= 2.
Proof.
  intros b ops. split; [reflexivity|].
  apply (breaker_map_bounded b ops). split; simpl; [reflexivity|lia].
Defined.

(** ** Eviction never closes an open circuit *)

Definition tcb_ok (cb : tenantCircuitBreaker) : Prop :=
  t_open cb = true -> t_openUntil cb <= t_lastAccess cb + t_resetTimeout cb.

(** Evicting an idle breaker loses no protection. If every breaker's last
    access is not before its last failure (which each operation maintains for
    a clock that does not go back) and uses the configured reset timeout, a
    key whose circuit is open at [now] is still open after the eviction at
    [now]. *)
Theorem evict_keeps_open b k cb now :
  0 <= cbResetTimeout b -> tcb_ok cb -> t_resetTimeout cb = cbResetTimeout b ->
  breaker_map b !! k = Some cb -> isOpen (cb_view cb) now = true ->
  breaker_map (evictStaleBreakers b now) !! k = Some cb.
Proof.
  intros Hr Hok Hrt Hk Ho. unfold evictStaleBreakers. simpl. apply map_lookup_filter_Some. split; [done|].
  unfold isOpen in Ho. simpl in Ho. destruct (t_open cb) eqn:E; simpl in Ho; [|done]. bools.
  specialize (Hok E). unfold isStale. apply Z.ltb_ge. simpl. lia.
Qed.

Lemma tcb_ok_new th rt t : tcb_ok (newTenantCB th rt t).
Proof. done. Qed.
Lemma tcb_ok_isOpen cb t : t_lastAccess cb <= t -> tcb_ok cb -> tcb_ok (tenant_isOpen cb t).1.
Proof. unfold tcb_ok. simpl. intros H1 H2 H3. specialize (H2 H3). lia. Qed.
Lemma tcb_ok_failure cb t : t_lastAccess cb <= t -> tcb_ok cb -> tcb_ok (tenant_recordFailure cb t).
Proof.
  unfold tcb_ok, tenant_recordFailure. intros H1 H2. destruct (_ <=? _); simpl; [lia|].
  intros H3. specialize (H2 H3). lia.
Qed.
Lemma tcb_ok_success cb t : tcb_ok (tenant_recordSuccess cb t).
Proof. done. Qed.

Lemma evict_keeps_open_witness :
  let cb := tenant_recordFailure (newTenantCB 1 1000 0) 50 in
  let b := mkBreakers {[ "k" := cb ]} 1 closedBreakerStub 10 1 1000 in
  breaker_map (evictStaleBreakers b 1049) !! "k" = Some cb.
Proof.
  intros cb b. apply evict_keeps_open; [simpl; lia| |reflexivity|reflexivity|reflexivity].
  apply tcb_ok_failure; [simpl; lia|apply tcb_ok_new].
Defined.
