(* ===== verification/Auth.v ===== *)
(** * The auth client

    [internal/auth/auth.go]: the request built for the auth service, the HTTP
    and gRPC checks, the cache lifetime of a decision, and the circuit breaker
    around the call.

    The auth service and the codec generated from its API description are
    outside the repository: [http_Do] and [grpc_Check] step a world [W],
    [decode_CheckResponse] is the JSON decoder of a response body, and
    [http_ParseTime] reads an HTTP date. *)
From S2P Require Import Prelude GoStrings GoTime GoNet ConfigTypes Config Breaker.
From Stdlib Require Import Ascii.

Local Open Scope Z_scope.

Definition ErrCircuitOpen : error := errorf "auth circuit breaker is open".

Definition IsCanceled (err : option error) : bool :=
  match err with
  | None => false
  | Some e => if err_canceled e then true else err_grpc_canceled e
  end.

Record CheckRequest := mkCheckRequest {
  cr_Method : string;
  cr_Path : string;
  cr_Headers : gmap string string;
  cr_RemoteAddr : string;
  cr_Body : string
}.

Record CheckResponse := mkCheckResponse {
  ck_Allowed : bool;
  ck_StatusCode : Z;
  ck_ResponseHeaders : gmap string string;
  ck_DenyBody : string;
  ck_RequestHeaders : gmap string string;
  ck_CacheMaxAgeSec : option Z;
  ck_CacheNoStore : bool;
  ck_CacheTags : list string;
  ck_CacheTTLSource : string
}.

(** The generated wire type of the HTTP API: optional fields are pointers. *)
Record WireCheckResponse := mkWireCheckResponse {
  w_Allowed : bool;
  w_StatusCode : Z;
  w_DenyBody : option string;
  w_ResponseHeaders : option (gmap string string);
  w_RequestHeaders : option (gmap string string);
  w_CacheMaxAgeSeconds : option Z;
  w_CacheNoStore : option bool;
  w_CacheTags : option (list string)
}.

(** ** Cache lifetime of a decision *)

Definition ResolveCacheTTL (r : CheckResponse) : Z :=
  if ck_CacheNoStore r then 0
  else match ck_CacheMaxAgeSec r with
       | Some n => if 0 <? n then wrap64 (n * Second) else 0
       | None => 0
       end.

Definition set_cache (maxAge : option Z) (noStore : bool) (source : string) (r : CheckResponse) : CheckResponse :=
  mkCheckResponse (ck_Allowed r) (ck_StatusCode r) (ck_ResponseHeaders r) (ck_DenyBody r) (ck_RequestHeaders r)
    maxAge noStore (ck_CacheTags r) source.

(** The first positive max-age of the directives. *)
Fixpoint first_max_age (directives : list string) : Z :=
  match directives with
  | [] => 0
  | d :: rest =>
      match CutPrefix (ToLower (TrimSpace d)) "max-age=" with
      | Some after =>
          match ParseInt (TrimSpace after) with
          | Some n => if 0 <? n then n else first_max_age rest
          | None => first_max_age rest
          end
      | None => first_max_age rest
      end
  end.
Definition parseAuthMaxAge (cc : string) : Z := first_max_age (Split "," cc).

(** [int64(d.Seconds())] of a positive duration. *)
Definition whole_seconds (d : Z) : Z := d / Second.

Section ttl.
Variable http_ParseTime : string -> option Z.

Definition resolveHTTPCacheTTL (h : Header) (now : Z) (resp : CheckResponse) : CheckResponse :=
  let body_fields :=
    if ck_CacheNoStore resp
    then set_cache (ck_CacheMaxAgeSec resp) true "body: cache_no_store=true" resp
    else match ck_CacheMaxAgeSec resp with
         | Some n => if 0 <? n then set_cache (Some n) false ("body: cache_max_age_seconds=" +:+ Itoa n) resp
                     else resp
         | None => resp
         end in
  let expires_header :=
    let expires := Header_Get h "Expires" in
    if bool_decide (expires = "") then body_fields
    else match http_ParseTime expires with
         | None => body_fields
         | Some expTime =>
             let ttl := expTime - now in
             if 0 <? ttl then set_cache (Some (whole_seconds ttl)) false ("Expires: " +:+ expires) resp
             else set_cache None true ("Expires: " +:+ expires +:+ " (already expired)") resp
         end in
  let cc := Header_Get h "Cache-Control" in
  if bool_decide (cc = "") then expires_header
  else
    let secs := parseAuthMaxAge cc in
    if 0 <? secs then set_cache (Some secs) false ("Cache-Control: max-age=" +:+ Itoa secs) resp
    else
      let lower := ToLower cc in
      if Contains lower "no-cache" || Contains lower "no-store"
      then set_cache None true ("Cache-Control: " +:+ lower) resp
      else expires_header.
End ttl.

(** ** The client *)

Record AuthClient := mkAuthClient {
  httpURL : string;
  has_grpc : bool;                (* grpcClient != nil *)
  headerFilter : HeaderFilter;
  forwardOriginalHeaders : bool;
  propagateBody : bool;
  maxBodySize : Z;
  auth_timeout : Z;
  cb : circuitBreaker
}.

Definition defaultMaxAuthBodySize : Z := 64 * 1024.

(** [NewClient] without the transports and the gRPC dial. *)
Definition NewAuthClient (cfg : AuthConfig) : AuthClient :=
  let timeout := match time_ParseDuration (au_Timeout cfg) with Some d => d | None => 5 * Second end in
  let maxBody := if au_MaxAuthBodySize cfg <=? 0 then defaultMaxAuthBodySize else au_MaxAuthBodySize cfg in
  let hf := au_HeaderFilter cfg in
  let hf := if bool_decide (length (hfc_AllowList hf) = 0%nat) && bool_decide (length (hfc_DenyList hf) = 0%nat)
            then mkHeaderFilterConfig (hfc_AllowList hf) DefaultAuthDenyHeaders else hf in
  mkAuthClient (ah_URL (au_HTTP cfg)) (negb (bool_decide (gc_Address (au_GRPC cfg) = "")))
    (NewHeaderFilter hf) (ah_ForwardOriginalHeaders (au_HTTP cfg)) (au_PropagateRequestBody cfg) maxBody timeout
    (newCircuitBreaker (cb_Threshold (au_CircuitBreaker cfg))
       (MustParseDuration (cb_ResetTimeout (au_CircuitBreaker cfg)) 0)).

Definition set_cb (c : AuthClient) (b : circuitBreaker) : AuthClient :=
  mkAuthClient (httpURL c) (has_grpc c) (headerFilter c) (forwardOriginalHeaders c) (propagateBody c)
    (maxBodySize c) (auth_timeout c) b.

Definition BuildCheckRequest (c : AuthClient) (r : Request) (body : string) : CheckRequest :=
  let headers := BuildFilteredHeaderMap (headerFilter c) (ReqHeader r) in
  let headers := if bool_decide (Host r = "") then headers else <["Host" := Host r]> headers in
  mkCheckRequest (Method r) (URL_Path (ReqURL r)) headers (RemoteAddr r) body.

Definition checkResponseFromHTTP (r : WireCheckResponse) : CheckResponse :=
  mkCheckResponse (w_Allowed r) (w_StatusCode r) (default ∅ (w_ResponseHeaders r)) (default "" (w_DenyBody r))
    (default ∅ (w_RequestHeaders r)) (w_CacheMaxAgeSeconds r) (default false (w_CacheNoStore r))
    (default [] (w_CacheTags r)) "".

(** [CheckResponse{Allowed: true, StatusCode: 200}] with the optional fields of
    the body. *)
Definition allowResponse (parsed : option WireCheckResponse) : CheckResponse :=
  match parsed with
  | Some p => mkCheckResponse true 200 ∅ "" (default ∅ (w_RequestHeaders p)) (w_CacheMaxAgeSeconds p)
                (default false (w_CacheNoStore p)) (default [] (w_CacheTags p)) ""
  | None => mkCheckResponse true 200 ∅ "" ∅ None false [] ""
  end.

(** The answer of the auth service over HTTP. *)
Record HTTPAnswer := mkHTTPAnswer { an_Status : Z; an_Header : Header; an_Body : string }.

(** The headers of the POST: the content type and, on request, a copy of each
    forwarded header under X-Original-. *)
Definition auth_post_headers (c : AuthClient) (req : CheckRequest) : Header :=
  let base := Header_Set ∅ "Content-Type" "application/json" in
  if forwardOriginalHeaders c
  then map_fold (fun k v h => Header_Set h ("X-Original-" +:+ k) v) base (cr_Headers req)
  else base.

Section client.
Context {W : Type}.
Variable clock : W -> Z.
Variable http_ParseTime : string -> option Z.
Variable decode_CheckResponse : string -> option WireCheckResponse.
Variable http_Do : W -> string -> Header -> CheckRequest -> W * result HTTPAnswer.
Variable grpc_Check : W -> CheckRequest -> W * result WireCheckResponse.

Definition checkHTTP (c : AuthClient) (w : W) (req : CheckRequest) : W * result CheckResponse :=
  match http_Do w (httpURL c) (auth_post_headers c req) req with
  | (w', Err e) => (w', Err (wrapf "auth http request" e))
  | (w', Ok a) =>
      let respBody := String.substring 0 4096 (an_Body a) in
      let resolve := resolveHTTPCacheTTL http_ParseTime (an_Header a) (clock w') in
      if an_Status a =? 200 then
        let parsed := if bool_decide (respBody = "") then None else decode_CheckResponse respBody in
        (w', Ok (resolve (allowResponse parsed)))
      else
        let deny := mkCheckResponse false (an_Status a) ∅ respBody ∅ None false [] "" in
        match decode_CheckResponse respBody with
        | Some r => if w_StatusCode r =? 0 then (w', Ok deny) else (w', Ok (resolve (checkResponseFromHTTP r)))
        | None => (w', Ok deny)
        end
  end.

Definition checkGRPC (c : AuthClient) (w : W) (req : CheckRequest) : W * result CheckResponse :=
  match grpc_Check w req with
  | (w', Err e) => (w', Err (wrapf "auth grpc check" e))
  | (w', Ok p) =>
      let r := checkResponseFromHTTP p in
      let source :=
        if ck_CacheNoStore r then "body: cache_no_store=true"
        else match ck_CacheMaxAgeSec r with
             | Some n => if 0 <? n then "body: cache_max_age_seconds=" +:+ Itoa n else ""
             | None => ""
             end in
      (w', Ok (set_cache (ck_CacheMaxAgeSec r) (ck_CacheNoStore r) source r))
  end.

Definition Check (c : AuthClient) (w : W) (req : CheckRequest) : AuthClient * W * result CheckResponse :=
  if isOpen (cb c) (clock w) then (c, w, Err ErrCircuitOpen) else
  let '(w', r) := if has_grpc c then checkGRPC c w req else checkHTTP c w req in
  match r with
  | Err e =>
      if IsCanceled (Some e) then (c, w', Err e)
      else (set_cb c (recordFailure (cb c) (clock w')), w', Err e)
  | Ok resp => (set_cb c (recordSuccess (cb c)), w', Ok resp)
  end.

(** ** Lemmas *)

(** C8: The decision of the HTTP auth check. The request is allowed exactly when
    the service answers 200, or answers with any other status and a body (read
    up to 4 KiB) that decodes to a non-zero status code and [allowed = true]. *)
Theorem checkHTTP_decision c w req w' resp a :
  http_Do w (httpURL c) (auth_post_headers c req) req = (w', Ok a) ->
  checkHTTP c w req = (w', Ok resp) ->
  ck_Allowed resp = true <->
  an_Status a = 200 \/
  exists r, decode_CheckResponse (String.substring 0 4096 (an_Body a)) = Some r /\
    w_StatusCode r ≠ 0 /\ w_Allowed r = true.
Proof using Type.
  clear grpc_Check. intros Hd. unfold checkHTTP. rewrite Hd.
  assert (forall h n r, ck_Allowed (resolveHTTPCacheTTL http_ParseTime h n r) = ck_Allowed r) as Hr.
  { intros h n r. unfold resolveHTTPCacheTTL. by branches. }
  destruct (an_Status a =? 200) eqn:E; bools.
  - intros [= <-]. rewrite Hr. unfold allowResponse. case_match; simpl; naive_solver.
  - destruct (decode_CheckResponse _) as [r|] eqn:Ed; [|intros [= <-]; simpl; naive_solver].
    destruct (w_StatusCode r =? 0) eqn:Es; bools; intros [= <-]; [simpl; naive_solver|].
    rewrite Hr. simpl. naive_solver.
Qed.
End client.

(** A service that answers 403 with an allowing body; the decoder reads "allow". *)
Definition demo_decode (body : string) : option WireCheckResponse :=
  if bool_decide (body = "allow") then Some (mkWireCheckResponse true 200 None None None None None None) else None.
Definition demo_auth_client : AuthClient :=
  mkAuthClient "http://auth" false (NewHeaderFilter no_filter) false false 65536 (5 * Second) (newCircuitBreaker 0 0).
Definition demo_check_request : CheckRequest := mkCheckRequest "GET" "/" ∅ "1.2.3.4:5" "".
Definition demo_do (status : Z) (w : nat) (url : string) (h : Header) (r : CheckRequest) : nat * result HTTPAnswer :=
  (S w, Ok (mkHTTPAnswer status ∅ "allow")).

Lemma checkHTTP_decision_witness :
  ck_Allowed (allowResponse None) = true /\
  exists resp, checkHTTP (fun _ => 0) (fun _ => None) demo_decode (demo_do 403) demo_auth_client 0%nat demo_check_request
    = (1%nat, Ok resp) /\ ck_Allowed resp = true.
Proof.
  split; [reflexivity|]. eexists. split; [vm_compute; reflexivity|].
  apply (checkHTTP_decision (fun _ => 0) (fun _ => None) demo_decode (demo_do 403) demo_auth_client 0%nat
    demo_check_request 1%nat _ (mkHTTPAnswer 403 ∅ "allow")); [reflexivity|reflexivity|].
  right. eexists. split; [vm_compute; reflexivity|]. split; [discriminate|reflexivity].
Defined.

(** ** Cancellations and the breaker *)

Section runs.
Context {W : Type}.
Variable clock : W -> Z.
Variable http_ParseTime : string -> option Z.
Variable decode_CheckResponse : string -> option WireCheckResponse.
Variable http_Do : W -> string -> Header -> CheckRequest -> W * result HTTPAnswer.
Variable grpc_Check : W -> CheckRequest -> W * result WireCheckResponse.

Fixpoint check_run (c : AuthClient) (w : W) (reqs : list CheckRequest) : AuthClient * W * list (result CheckResponse) :=
  match reqs with
  | [] => (c, w, [])
  | r :: rs =>
      let '(c1, w1, res) := Check clock http_ParseTime decode_CheckResponse http_Do grpc_Check c w r in
      let '(c2, w2, l) := check_run c1 w1 rs in (c2, w2, res :: l)
  end.

Lemma checkHTTP_err c w req w' e :
  checkHTTP clock http_ParseTime decode_CheckResponse http_Do c w req = (w', Err e) ->
  exists e0, (http_Do w (httpURL c) (auth_post_headers c req) req).2 = Err e0 /\ IsCanceled (Some e) = IsCanceled (Some e0).
Proof.
  unfold checkHTTP. destruct (http_Do _ _ _ _) as [w1 [a|e0]]; [|intros [= <- <-]; by exists e0].
  simpl. destruct (_ =? 200); [done|]. destruct (decode_CheckResponse _) as [r|]; [|done]. by destruct (_ =? 0).
Qed.

Lemma checkGRPC_err c w req w' e :
  checkGRPC grpc_Check c w req = (w', Err e) ->
  exists e0, (grpc_Check w req).2 = Err e0 /\ IsCanceled (Some e) = IsCanceled (Some e0).
Proof.
  unfold checkGRPC. destruct (grpc_Check _ _) as [w1 [a|e0]]; [done|]. intros [= <- <-]. by exists e0.
Qed.
End runs.

(** Client disconnects never open the auth circuit. If the only errors the
    transports report are cancellations (every genuine outcome is an answer),
    then over any number of requests a closed breaker stays closed: no request
    is short-circuited with [ErrCircuitOpen]. *)
Theorem cancellations_never_trip {W} (clock : W -> Z) http_ParseTime decode http_Do grpc_Check c (w : W) reqs :
  (forall w url h r e, (http_Do w url h r).2 = Err e -> IsCanceled (Some e) = true) ->
  (forall w r e, (grpc_Check w r).2 = Err e -> IsCanceled (Some e) = true) ->
  cb_open (cb c) = false ->
  let '(c', _, results) := check_run clock http_ParseTime decode http_Do grpc_Check c w reqs in
  cb_open (cb c') = false /\ Err ErrCircuitOpen ∉ results.
Proof.
  intros Hh Hg. revert c w. induction reqs as [|r rs IH]; intros c w Ho; [simpl; split; [done|apply not_elem_of_nil]|].
  cbn [check_run].
  assert (exists c1 w1 res, Check clock http_ParseTime decode http_Do grpc_Check c w r = (c1, w1, res) /\
            cb_open (cb c1) = false /\ res ≠ Err ErrCircuitOpen) as (c1 & w1 & res & -> & Ho1 & Hres).
  { unfold Check, isOpen. rewrite Ho. cbn [negb].
    destruct (if has_grpc c then _ else _) as [w1 [resp|e]] eqn:E; [by eexists _, _, _|].
    assert (IsCanceled (Some e) = true) as Hc.
    { destruct (has_grpc c).
      - apply checkGRPC_err in E as (e0 & He & ->). by apply Hg in He.
      - apply checkHTTP_err in E as (e0 & He & ->). by apply Hh in He. }
    rewrite Hc. eexists _, _, _. split; [done|]. split; [done|]. intros [= ->]. by vm_compute in Hc. }
  specialize (IH c1 w1 Ho1). destruct (check_run _ _ _ _ _ c1 w1 rs) as [[c2 w2] l].
  destruct IH as [IH1 IH2]. split; [done|]. rewrite elem_of_cons. intros [Hx|Hx]; [by subst|done].
Qed.

Lemma cancellations_never_trip_witness :
  let gone := mkError "context canceled" true false false false false false in
  let '(c', _, results) := check_run (fun _ => 0) (fun _ => None) demo_decode
      (fun (w : nat) _ _ _ => (S w, Err gone)) (fun w _ => (S w, Err gone))
      demo_auth_client 0%nat (replicate 10 demo_check_request) in
  cb_open (cb c') = false /\ Err ErrCircuitOpen ∉ results.
Proof.
  intros gone. apply cancellations_never_trip; [| |reflexivity];
    intros; match goal with H : _ = Err _ |- _ => injection H as <- end; reflexivity.
Defined.

(** ** What the auth service is shown *)

(** By default the auth service never sees session credentials. With no filter
    configured, the check request carries no Cookie, Set-Cookie,
    Proxy-Authorization, Proxy-Authenticate, X-Csrf-Token or X-Xsrf-Token
    header in any spelling; every other header of the request is forwarded
    with its first value, Host coming from the request line. *)
Theorem default_check_request_headers cfg r body k :
  hfc_AllowList (au_HeaderFilter cfg) = [] -> hfc_DenyList (au_HeaderFilter cfg) = [] -> k ≠ "Host" ->
  cr_Headers (BuildCheckRequest (NewAuthClient cfg) r body) !! k
  = if existsb (EqualFold k) DefaultAuthDenyHeaders then None
    else (ReqHeader r !! k) ≫= head.
Proof.
  intros Ha Hd Hk. unfold BuildCheckRequest, NewAuthClient. rewrite Ha, Hd.
  assert (DefaultAuthDenyHeaders ≠ []) as HD by done.
  generalize dependent DefaultAuthDenyHeaders. intros D HD. simpl.
  set (hf := mkHeaderFilterConfig [] D).
  transitivity (BuildFilteredHeaderMap (NewHeaderFilter hf) (ReqHeader r) !! k).
  { case_bool_decide; [done|]. by rewrite lookup_insert_ne. }
  pose proof (fun v => filtered_lookup hf (ReqHeader r) k v) as HF. simpl in HF.
  rewrite (bool_decide_eq_false_2 (D = [])) in HF by done.
  destruct (BuildFilteredHeaderMap _ _ !! k) as [v|] eqn:E.
  - destruct (proj1 (HF v) eq_refl) as [(vs & Hvs) Hdeny]. by rewrite Hdeny, Hvs.
  - destruct (existsb (EqualFold k) D) eqn:Ed; [done|].
    destruct (ReqHeader r !! k) as [[|v vs]|] eqn:Eh; [done| |done]. simpl.
    apply HF. split; [eauto|done].
Qed.

Lemma default_check_request_headers_witness :
  let r := mkRequest "GET" (mkURL "" "" "/" "") "/" "h" "1.2.3.4:5"
             {[ "Cookie" := ["s=1"]; "Authorization" := ["Bearer t"] ]} 1 false 0 in
  cr_Headers (BuildCheckRequest (NewAuthClient (cfg_Auth Defaults)) r "") !! "Cookie" = None /\
  cr_Headers (BuildCheckRequest (NewAuthClient (cfg_Auth Defaults)) r "") !! "Authorization" = Some "Bearer t".
Proof.
  intros r. split.
  - rewrite (default_check_request_headers (cfg_Auth Defaults) r "" "Cookie"); [reflexivity|reflexivity|reflexivity|discriminate].
  - rewrite (default_check_request_headers (cfg_Auth Defaults) r "" "Authorization"); [reflexivity|reflexivity|reflexivity|discriminate].
Defined.
