(* ===== verification/External.v ===== *)
(** * The external rate-limit client

    [internal/ratelimit/external.go]: the lookup key, the response conversion,
    the cache lifetime and [GetLimits] with its cache, circuit breaker,
    semaphore and stale fallback.

    Outside the repository, and parameters here: the rate-limit service
    ([http_Do], [grpc_GetLimits]), the JSON and gob codecs, Redis GET/SET on a
    world [W] ([RedisKV], with its laws) and HTTP dates. [GetLimits] is modelled
    for one caller at a time; concurrent callers of one key share the call
    through singleflight. *)
From S2P Require Import Prelude GoStrings GoTime GoNet ConfigTypes Config Breaker.
From Stdlib Require Import Ascii.

Local Open Scope Z_scope.

Definition cacheKeyPrefix : string := "rl:extcache:".
Definition staleCachePrefix : string := "rl:extcache:stale:".
Definition staleCacheTTL : Z := 5 * Minute.

(** 64 KiB. *)
Definition maxResponseBodyBytes : nat := Z.to_nat 65536.
#[global] Arguments maxResponseBodyBytes : simpl never.

Record ExternalLimits := mkExternalLimits {
  xl_Average : Z;
  xl_Burst : Z;
  xl_Period : string;
  xl_TenantKey : string;
  xl_FailurePolicy : string;
  xl_FailureCode : Z;
  xl_BackendURL : string;
  xl_BackendProtocol : string;
  xl_RequestTimeout : string;
  xl_CacheMaxAgeSec : option Z;
  xl_CacheNoStore : bool
}.

#[export] Instance ExternalLimits_eq_dec : EqDecision ExternalLimits.
Proof. solve_decision. Defined.

Record ExternalRequest := mkExternalRequest {
  xq_Headers : gmap string string;
  xq_Method : string;
  xq_Path : string
}.

(** ** The lookup key *)

Definition stable_headers (exclude : gset string) (req : ExternalRequest) : list string :=
  SortStrings (filter (fun k => ToLower k ∉ exclude) (map fst (map_to_list (xq_Headers req)))).

Definition key_header (req : ExternalRequest) (k : string) : string :=
  "|" +:+ k +:+ "=" +:+ default "" (xq_Headers req !! k).

Definition lookupKey (exclude : gset string) (req : ExternalRequest) : string :=
  xq_Method req +:+ "|" +:+ xq_Path req +:+
  foldr String.append "" (map (key_header req) (stable_headers exclude req)).

(** ** Responses *)

(** The generated OpenAPI response type. *)
Record WireLimits := mkWireLimits {
  wl_Average : Z;
  wl_Burst : Z;
  wl_Period : string;
  wl_TenantKey : option string;
  wl_FailurePolicy : option string;
  wl_FailureCode : option Z;
  wl_BackendUrl : string;
  wl_BackendProtocol : option string;
  wl_RequestTimeout : option string;
  wl_CacheMaxAgeSeconds : option Z;
  wl_CacheNoStore : option bool
}.

Definition limitsFromHTTPResponse (r : WireLimits) : ExternalLimits :=
  mkExternalLimits (wl_Average r) (wl_Burst r) (wl_Period r) (default "" (wl_TenantKey r))
    (default "" (wl_FailurePolicy r)) (default 0 (wl_FailureCode r)) (wl_BackendUrl r)
    (default "" (wl_BackendProtocol r)) (default "" (wl_RequestTimeout r)) (wl_CacheMaxAgeSeconds r)
    (default false (wl_CacheNoStore r)).

Definition failurePolicyFromProto (v : Z) : string :=
  if v =? 1 then "passthrough" else if v =? 2 then "failclosed"
  else if v =? 3 then "inmemoryfallback" else "".

Definition backendProtocolFromProto (v : Z) : string :=
  if v =? 1 then "h1" else if v =? 2 then "h2" else if v =? 3 then "h3" else "".

(** The generated protobuf response: enums are numbers. *)
Record ProtoLimits := mkProtoLimits {
  pl_Average : Z;
  pl_Burst : Z;
  pl_Period : string;
  pl_TenantKey : string;
  pl_FailurePolicy : Z;
  pl_FailureCode : Z;
  pl_BackendUrl : string;
  pl_BackendProtocol : Z;
  pl_RequestTimeout : string;
  pl_CacheMaxAgeSeconds : option Z;
  pl_CacheNoStore : bool
}.

Definition limitsFromProto (p : ProtoLimits) : ExternalLimits :=
  mkExternalLimits (pl_Average p) (pl_Burst p) (pl_Period p) (pl_TenantKey p)
    (failurePolicyFromProto (pl_FailurePolicy p)) (pl_FailureCode p) (pl_BackendUrl p)
    (backendProtocolFromProto (pl_BackendProtocol p)) (pl_RequestTimeout p) (pl_CacheMaxAgeSeconds p)
    (pl_CacheNoStore p).

(** ** Cache lifetime *)

Definition resolveBodyCacheTTL (l : ExternalLimits) : Z :=
  if xl_CacheNoStore l then 0
  else match xl_CacheMaxAgeSec l with
       | Some n => if 0 <? n then wrap64 (n * Second) else 0
       | None => 0
       end.

Fixpoint max_age_of (directives : list string) : Z :=
  match directives with
  | [] => 0
  | d :: rest =>
      match CutPrefix (ToLower (TrimSpace d)) "max-age=" with
      | Some after =>
          match Atoi after with
          | Some n => if 0 <? n then wrap64 (n * Second) else max_age_of rest
          | None => max_age_of rest
          end
      | None => max_age_of rest
      end
  end.
Definition parseMaxAge (cc : string) : Z := max_age_of (Split "," cc).

Record ServiceAnswer := mkServiceAnswer { sa_Status : Z; sa_Header : Header; sa_Body : string }.

(** ** The client *)

Record ExternalClient := mkExternalClient {
  ec_httpURL : string;
  ec_grpc : bool;                   (* grpcClient != nil *)
  ec_exclude : gset string;         (* cacheKeyExclude *)
  ec_redis : bool;                  (* redisClient != nil *)
  ec_sem_used : Z;
  ec_sem_max : Z;
  ec_breakers : breakers
}.

Definition set_breakers (ec : ExternalClient) (b : breakers) : ExternalClient :=
  mkExternalClient (ec_httpURL ec) (ec_grpc ec) (ec_exclude ec) (ec_redis ec) (ec_sem_used ec) (ec_sem_max ec) b.
Definition set_sem (ec : ExternalClient) (n : Z) : ExternalClient :=
  mkExternalClient (ec_httpURL ec) (ec_grpc ec) (ec_exclude ec) (ec_redis ec) n (ec_sem_max ec) (ec_breakers ec).

(** The part of [NewExternalClient] the operations depend on. *)
Definition NewExternalClient (cfg : ExternalRLConfig) (has_redis : bool) : ExternalClient :=
  let maxConcurrent := if xr_MaxConcurrentRequests cfg <=? 0 then 50 else xr_MaxConcurrentRequests cfg in
  let maxB := if xr_MaxCircuitBreakers cfg <=? 0 then 10000 else xr_MaxCircuitBreakers cfg in
  mkExternalClient (xr_HTTPURL cfg) (negb (bool_decide (gc_Address (xr_GRPC cfg) = ""))) BuildEphemeralSet
    has_redis 0 maxConcurrent
    (mkBreakers ∅ 0 closedBreakerStub maxB (resolveCBThreshold (cb_Threshold (xr_CircuitBreaker cfg)))
       (resolveCBResetTimeout (cb_ResetTimeout (xr_CircuitBreaker cfg)))).

(** Redis GET and SET on a world with a clock. *)
Class RedisKV (W : Type) := {
  kv_clock : W -> Z;
  kv_get : W -> string -> option string;
  kv_set : W -> string -> string -> Z -> W
}.

Section client.
Context {W : Type} `{RedisKV W}.
Variable http_ParseTime : string -> option Z.
Variable encode : ExternalLimits -> string.              (* json.Marshal *)
Variable decode : string -> option ExternalLimits.       (* json.Unmarshal, then gob *)
Variable decode_wire : string -> option WireLimits.      (* the response body decoder *)
Variable http_Do : W -> string -> ExternalRequest -> W * result ServiceAnswer.
Variable grpc_GetLimits : W -> ExternalRequest -> W * result ProtoLimits.

Definition resolveHTTPCacheTTL_rl (h : Header) (now : Z) (l : ExternalLimits) : Z :=
  let expires_header :=
    let expires := Header_Get h "Expires" in
    if bool_decide (expires = "") then resolveBodyCacheTTL l
    else match http_ParseTime expires with
         | Some t => if 0 <? t - now then t - now else 0
         | None => resolveBodyCacheTTL l
         end in
  let cc := Header_Get h "Cache-Control" in
  if bool_decide (cc = "") then expires_header
  else
    let ttl := parseMaxAge cc in
    if 0 <? ttl then ttl
    else if Contains (ToLower cc) "no-cache" || Contains (ToLower cc) "no-store" then 0
    else expires_header.

Definition getLimitsHTTP (ec : ExternalClient) (w : W) (req : ExternalRequest) : W * result (ExternalLimits * Z) :=
  match http_Do w (ec_httpURL ec) req with
  | (w', Err e) => (w', Err (wrapf "http request" e))
  | (w', Ok a) =>
      if negb (sa_Status a =? 200)
      then (w', Err (errorf ("external service returned status " +:+ Itoa (sa_Status a))))
      else match decode_wire (String.substring 0 maxResponseBodyBytes (sa_Body a)) with
           | None => (w', Err (errorf "decode response"))
           | Some r =>
               let limits := limitsFromHTTPResponse r in
               (w', Ok (limits, resolveHTTPCacheTTL_rl (sa_Header a) (kv_clock w') limits))
           end
  end.

Definition getLimitsGRPC (w : W) (req : ExternalRequest) : W * result ExternalLimits :=
  match grpc_GetLimits w req with
  | (w', Err e) => (w', Err (wrapf "grpc get limits" e))
  | (w', Ok p) => (w', Ok (limitsFromProto p))
  end.

(** The latency budget only bounds the context the transports run under. *)
Definition fetchFromService (ec : ExternalClient) (w : W) (req : ExternalRequest) : W * result (ExternalLimits * Z) :=
  if ec_grpc ec then
    match getLimitsGRPC w req with
    | (w', Err e) => (w', Err e)
    | (w', Ok l) => (w', Ok (l, resolveBodyCacheTTL l))
    end
  else if negb (bool_decide (ec_httpURL ec = "")) then getLimitsHTTP ec w req
  else (w, Err (errorf "no external rate limit service configured")).

Definition getFromCache (ec : ExternalClient) (w : W) (key : string) : option ExternalLimits :=
  if ec_redis ec then kv_get w (cacheKeyPrefix +:+ key) ≫= decode else None.

Definition getStaleFromCache (ec : ExternalClient) (w : W) (key : string) : option ExternalLimits :=
  if ec_redis ec then kv_get w (staleCachePrefix +:+ key) ≫= decode else None.

Definition setInCache (ec : ExternalClient) (w : W) (key : string) (l : ExternalLimits) (ttl : Z) : W :=
  if negb (ec_redis ec) || (ttl <=? 0) then w else kv_set w (cacheKeyPrefix +:+ key) (encode l) ttl.

Definition setStaleInCache (ec : ExternalClient) (w : W) (key : string) (l : ExternalLimits) : W :=
  if negb (ec_redis ec) then w else kv_set w (staleCachePrefix +:+ key) (encode l) staleCacheTTL.

(** The singleflight closure: recheck, fetch, record, store. *)
Definition fetch_locked (ec : ExternalClient) (w : W) (lk : string) (req : ExternalRequest)
    : ExternalClient * W * result ExternalLimits :=
  match getFromCache ec w lk with
  | Some cached => (ec, w, Ok cached)
  | None =>
      match fetchFromService ec w req with
      | (w1, Err e) =>
          let ec1 := set_breakers ec (ec_recordFailure (ec_breakers ec) lk (kv_clock w1)) in
          match getStaleFromCache ec1 w1 lk with
          | Some stale => (ec1, w1, Ok stale)
          | None => (ec1, w1, Err e)
          end
      | (w1, Ok (limits, ttl)) =>
          let ec1 := set_breakers ec (ec_recordSuccess (ec_breakers ec) lk (kv_clock w1)) in
          let w2 := setInCache ec1 w1 lk limits ttl in
          (ec1, setStaleInCache ec1 w2 lk limits, Ok limits)
      end
  end.

Definition GetLimits (ec : ExternalClient) (w : W) (req : ExternalRequest)
    : ExternalClient * W * result ExternalLimits :=
  let lk := lookupKey (ec_exclude ec) req in
  match getFromCache ec w lk with
  | Some cached => (ec, w, Ok cached)
  | None =>
      let '(bs, open) := isCircuitOpen (ec_breakers ec) lk (kv_clock w) in
      let ec := set_breakers ec bs in
      if open then
        match getStaleFromCache ec w lk with
        | Some stale => (ec, w, Ok stale)
        | None => (ec, w, Err (errorf ("external rate limit service circuit breaker open for key " +:+ lk)))
        end
      else if negb (ec_sem_used ec + 1 <=? ec_sem_max ec) then
        match getStaleFromCache ec w lk with
        | Some stale => (ec, w, Ok stale)
        | None => (ec, w, Err (errorf ("external rate limit service semaphore full for key " +:+ lk)))
        end
      else
        let '(ec1, w1, r) := fetch_locked (set_sem ec (ec_sem_used ec + 1)) w lk req in
        (set_sem ec1 (ec_sem_used ec1 - 1), w1, r)
  end.
End client.

(** ** The lookup key identifies the stable part of a request *)

Lemma filter_map_fst {A} (P : string -> Prop) `{!forall x, Decision (P x)} (l : list (string * A)) :
  filter P (map fst l) = map fst (filter (fun kv => P kv.1) l).
Proof. induction l as [|[k v] l IH]; [done|]. simpl. rewrite !filter_cons. simpl. by case_decide; simpl; rewrite IH. Qed.

Definition stable_part (exclude : gset string) (h : gmap string string) : gmap string string :=
  filter (fun kv => ToLower kv.1 ∉ exclude) h.

Lemma stable_headers_spec exclude req :
  stable_headers exclude req = SortStrings (map fst (map_to_list (stable_part exclude (xq_Headers req)))).
Proof.
  unfold stable_headers, stable_part. apply SortStrings_perm. rewrite filter_map_fst.
  apply fmap_Permutation, NoDup_Permutation; [apply NoDup_filter, NoDup_map_to_list|apply NoDup_map_to_list|].
  intros [k v]. rewrite list_elem_of_filter, !elem_of_map_to_list, map_lookup_filter_Some. naive_solver.
Qed.

Lemma stable_headers_in exclude req k :
  k ∈ stable_headers exclude req -> xq_Headers req !! k = stable_part exclude (xq_Headers req) !! k.
Proof.
  rewrite stable_headers_spec. intros Hk. rewrite SortStrings_permutation in Hk.
  apply list_elem_of_fmap in Hk as ([k' v] & -> & Hk). apply elem_of_map_to_list in Hk. simpl.
  rewrite Hk. apply map_lookup_filter_Some in Hk. by destruct Hk.
Qed.

(** The external lookup key ignores per-request headers. Two requests with the
    same method, path and stable headers (everything but the built-in tracing,
    correlation and proxy headers) have the same cache, singleflight and
    circuit-breaker key, whatever their ephemeral headers are. *)
Theorem lookupKey_stable exclude r r' :
  xq_Method r = xq_Method r' -> xq_Path r = xq_Path r' ->
  stable_part exclude (xq_Headers r) = stable_part exclude (xq_Headers r') ->
  lookupKey exclude r = lookupKey exclude r'.
Proof.
  intros Hm Hp Hs. unfold lookupKey. rewrite Hm, Hp.
  assert (stable_headers exclude r = stable_headers exclude r') as E by (by rewrite !stable_headers_spec, Hs).
  rewrite <- E. do 3 f_equal. f_equal. apply list_fmap_ext. intros i k Hk.
  apply list_elem_of_lookup_2 in Hk. unfold key_header. rewrite (stable_headers_in exclude r k Hk).
  rewrite E in Hk. by rewrite (stable_headers_in exclude r' k Hk), Hs.
Qed.

Lemma lookupKey_stable_witness :
  lookupKey BuildEphemeralSet (mkExternalRequest {[ "X-Tenant" := "a"; "X-Request-Id" := "1" ]} "GET" "/")
  = lookupKey BuildEphemeralSet (mkExternalRequest {[ "X-Tenant" := "a"; "traceparent" := "2" ]} "GET" "/").
Proof. apply lookupKey_stable; vm_compute; reflexivity. Defined.

(** The lookup key is not injective on stable headers. Names and values are
    joined without escaping, so a header value that contains a separator makes
    two requests with different tenants share one cache entry. *)
Theorem lookupKey_collision :
  let r := mkExternalRequest {[ "X-A" := "1|X-Tenant=acme" ]} "GET" "/" in
  let r' := mkExternalRequest {[ "X-A" := "1"; "X-Tenant" := "acme" ]} "GET" "/" in
  lookupKey BuildEphemeralSet r = lookupKey BuildEphemeralSet r' /\
  stable_part BuildEphemeralSet (xq_Headers r) ≠ stable_part BuildEphemeralSet (xq_Headers r').
Proof.
  split; [vm_compute; reflexivity|]. intros H.
  apply (f_equal (lookup "X-Tenant")) in H. vm_compute in H. discriminate H.
Qed.

(** ** Caching and protection of the service *)

Class RedisKVLaws (W : Type) `{RedisKV W} := {
  kv_get_set w k v ttl : 0 < ttl -> kv_get (kv_set w k v ttl) k = Some v;
  kv_get_set_ne w k k' v ttl : k ≠ k' -> kv_get (kv_set w k v ttl) k' = kv_get w k'
}.

Lemma cache_keys_differ lk : cacheKeyPrefix +:+ lk ≠ staleCachePrefix +:+ lk.
Proof. intros H%(f_equal String.length). rewrite !length_app_s in H. simpl in H. lia. Qed.

Section theorems.
Context {W : Type} `{RedisKVLaws W}.
Variable http_ParseTime : string -> option Z.
Variable encode : ExternalLimits -> string.
Variable decode : string -> option ExternalLimits.
Variable decode_wire : string -> option WireLimits.
Variable http_Do : W -> string -> ExternalRequest -> W * result ServiceAnswer.
Variable grpc_GetLimits : W -> ExternalRequest -> W * result ProtoLimits.

Local Abbreviation getLimits := (GetLimits http_ParseTime encode decode decode_wire http_Do grpc_GetLimits).
Local Abbreviation fetch := (fetchFromService http_ParseTime decode_wire http_Do grpc_GetLimits).

(** The call reaches the service: nothing cached, the circuit closed, a free
    slot in the semaphore. *)
Definition admitted_call (ec : ExternalClient) (w : W) (req : ExternalRequest) : Prop :=
  let lk := lookupKey (ec_exclude ec) req in
  getFromCache decode ec w lk = None /\
  (isCircuitOpen (ec_breakers ec) lk (kv_clock w)).2 = false /\
  ec_sem_used ec + 1 <= ec_sem_max ec.

Lemma fetch_set_sem ec n w req : fetch (set_sem ec n) w req = fetch ec w req.
Proof. done. Qed.

(** What a successful fetch leaves behind. *)
Lemma GetLimits_fetched ec w req w1 l ttl :
  admitted_call ec w req -> fetch ec w req = (w1, Ok (l, ttl)) ->
  exists ec', getLimits ec w req =
    (ec', setStaleInCache encode ec (setInCache encode ec w1 (lookupKey (ec_exclude ec) req) l ttl)
            (lookupKey (ec_exclude ec) req) l, Ok l) /\
    ec_redis ec' = ec_redis ec /\ ec_exclude ec' = ec_exclude ec.
Proof.
  intros (Hc & Ho & Hs) Hf. unfold GetLimits. rewrite Hc.
  destruct (isCircuitOpen _ _ _) as [bs open] eqn:E. simpl in Ho. subst open.
  simpl ec_sem_used. simpl ec_sem_max. rewrite (proj2 (Z.leb_le _ _) Hs). simpl negb. cbv iota.
  unfold fetch_locked.
  change (getFromCache decode (set_sem (set_breakers ec bs) (ec_sem_used ec + 1)) w (lookupKey (ec_exclude ec) req))
    with (getFromCache decode ec w (lookupKey (ec_exclude ec) req)). rewrite Hc.
  change (fetch (set_sem (set_breakers ec bs) (ec_sem_used ec + 1)) w req) with (fetch ec w req). rewrite Hf.
  eexists. split; [reflexivity|done].
Qed.

(** The semaphore slot is returned on every path. *)
Lemma fetch_locked_sem ec w lk req :
  ec_sem_used (fetch_locked http_ParseTime encode decode decode_wire http_Do grpc_GetLimits ec w lk req).1.1
  = ec_sem_used ec.
Proof.
  unfold fetch_locked. destruct (getFromCache _ _ _ _); [done|].
  destruct (fetch ec w req) as [w1 [[l ttl]|e]]; [done|]. by destruct (getStaleFromCache _ _ _ _).
Qed.

Section counting.
(** The number of requests the service has received. *)
Variable calls : W -> nat.
Hypothesis calls_http : forall w u r, calls (http_Do w u r).1 = S (calls w).
Hypothesis calls_grpc : forall w r, calls (grpc_GetLimits w r).1 = S (calls w).
Hypothesis calls_set : forall w k v ttl, calls (kv_set w k v ttl) = calls w.

Lemma calls_fetch ec w req : (calls (fetch ec w req).1 <= S (calls w))%nat.
Proof.
  unfold fetchFromService, getLimitsGRPC, getLimitsHTTP. destruct (ec_grpc ec).
  - pose proof (calls_grpc w req). destruct (grpc_GetLimits w req) as [w' [p|e]]; simpl in *; lia.
  - destruct (negb _); [|simpl; lia]. pose proof (calls_http w (ec_httpURL ec) req).
    destruct (http_Do w (ec_httpURL ec) req) as [w' [a|e]]; simpl in *; [|lia].
    destruct (negb _); simpl; [lia|]. destruct (decode_wire _); simpl; lia.
Qed.

Lemma calls_fetch_locked ec w lk req :
  (calls (fetch_locked http_ParseTime encode decode decode_wire http_Do grpc_GetLimits ec w lk req).1.2
   <= S (calls w))%nat.
Proof.
  unfold fetch_locked. destruct (getFromCache _ _ _ _); [simpl; lia|].
  pose proof (calls_fetch ec w req) as Hc. destruct (fetch ec w req) as [w1 [[l ttl]|e]]; simpl in Hc.
  - simpl. unfold setStaleInCache, setInCache.
    destruct (negb (ec_redis _)); [simpl; lia|]. rewrite calls_set. destruct (_ || _); rewrite ?calls_set; lia.
  - by destruct (getStaleFromCache _ _ _ _).
Qed.

Lemma GetLimits_calls ec w req :
  let '(ec', w', _) := getLimits ec w req in
  ec_sem_used ec' = ec_sem_used ec /\ (calls w' <= S (calls w))%nat /\
  (calls w' ≠ calls w -> admitted_call ec w req).
Proof.
  unfold GetLimits, admitted_call. destruct (getFromCache _ _ _ _) eqn:Ec; [split; [done|split; [lia|by intros []]]|].
  destruct (isCircuitOpen _ _ _) as [bs open] eqn:E. destruct open.
  { destruct (getStaleFromCache _ _ _ _); (split; [done|split; [lia|by intros []]]). }
  simpl ec_sem_used. simpl ec_sem_max. destruct (_ <=? _) eqn:El; simpl negb; cbv iota.
  - set (lk := lookupKey (ec_exclude ec) req).
    pose proof (fetch_locked_sem (set_sem (set_breakers ec bs) (ec_sem_used ec + 1)) w lk req) as Hsem.
    pose proof (calls_fetch_locked (set_sem (set_breakers ec bs) (ec_sem_used ec + 1)) w lk req) as Hcalls.
    destruct (fetch_locked _ _ _ _ _ _ _ _ _ _) as [[ec1 w1] r]. simpl in *. bools.
    split; [lia|]. split; [done|]. intros _. split; [done|]. split; [done|lia].
  - destruct (getStaleFromCache _ _ _ _); (split; [done|split; [lia|by intros []]]).
Qed.
End counting.
End theorems.

(** The external service is protected. A [GetLimits] call contacts the service
    at most once, and only when nothing is cached for the request, the key's
    circuit is closed and a semaphore slot is free; whatever happens the slot
    is given back. *)
Theorem GetLimits_protects_service {W} `{RedisKVLaws W} http_ParseTime encode decode decode_wire
    (http_Do : W -> string -> ExternalRequest -> W * result ServiceAnswer)
    (grpc_GetLimits : W -> ExternalRequest -> W * result ProtoLimits) (calls : W -> nat) ec w req :
  (forall w u r, calls (http_Do w u r).1 = S (calls w)) ->
  (forall w r, calls (grpc_GetLimits w r).1 = S (calls w)) ->
  (forall w k v ttl, calls (kv_set w k v ttl) = calls w) ->
  let '(ec', w', _) := GetLimits http_ParseTime encode decode decode_wire http_Do grpc_GetLimits ec w req in
  ec_sem_used ec' = ec_sem_used ec /\ (calls w' <= S (calls w))%nat /\
  (calls w' ≠ calls w -> admitted_call decode ec w req).
Proof. intros. by apply GetLimits_calls. Qed.

(** C33: A cacheable answer is served from the cache. When the service answers with
    limits and a positive lifetime, the next call with the same lookup key
    returns the same limits without touching the world, whatever the service
    would say now. *)
Theorem GetLimits_cached {W} `{RedisKVLaws W} http_ParseTime encode decode decode_wire
    (http_Do : W -> string -> ExternalRequest -> W * result ServiceAnswer)
    (grpc_GetLimits : W -> ExternalRequest -> W * result ProtoLimits) ec w req req' w1 l ttl :
  (forall l, decode (encode l) = Some l) ->
  ec_redis ec = true ->
  admitted_call decode ec w req ->
  fetchFromService http_ParseTime decode_wire http_Do grpc_GetLimits ec w req = (w1, Ok (l, ttl)) ->
  0 < ttl ->
  lookupKey (ec_exclude ec) req' = lookupKey (ec_exclude ec) req ->
  let '(ec2, w2, r) := GetLimits http_ParseTime encode decode decode_wire http_Do grpc_GetLimits ec w req in
  r = Ok l /\
  GetLimits http_ParseTime encode decode decode_wire http_Do grpc_GetLimits ec2 w2 req' = (ec2, w2, Ok l).
Proof.
  intros Hcodec Hr Ha Hf Ht Hk.
  destruct (GetLimits_fetched http_ParseTime encode decode decode_wire http_Do grpc_GetLimits
              ec w req w1 l ttl Ha Hf) as (ec2 & -> & Hr2 & He2).
  split; [done|]. unfold GetLimits at 1. rewrite He2, Hk.
  set (lk := lookupKey (ec_exclude ec) req).
  assert (getFromCache decode ec2 (setStaleInCache encode ec (setInCache encode ec w1 lk l ttl) lk l) lk = Some l) as ->; [|done].
  unfold getFromCache, setStaleInCache, setInCache. rewrite Hr2, Hr. simpl.
  rewrite (proj2 (Z.leb_gt _ _) Ht). rewrite kv_get_set_ne by (apply not_eq_sym, cache_keys_differ).
  rewrite kv_get_set by done. simpl. apply Hcodec.
Qed.

(** [cache_no_store] does not keep an answer out of Redis. After every
    successful fetch the limits are retrievable as the stale copy, also when
    the service said not to store them. *)
Theorem no_store_is_stored {W} `{RedisKVLaws W} http_ParseTime encode decode decode_wire
    (http_Do : W -> string -> ExternalRequest -> W * result ServiceAnswer)
    (grpc_GetLimits : W -> ExternalRequest -> W * result ProtoLimits) ec w req w1 l ttl :
  (forall l, decode (encode l) = Some l) ->
  ec_redis ec = true ->
  admitted_call decode ec w req ->
  fetchFromService http_ParseTime decode_wire http_Do grpc_GetLimits ec w req = (w1, Ok (l, ttl)) ->
  xl_CacheNoStore l = true ->
  let '(ec2, w2, _) := GetLimits http_ParseTime encode decode decode_wire http_Do grpc_GetLimits ec w req in
  getStaleFromCache decode ec2 w2 (lookupKey (ec_exclude ec) req) = Some l.
Proof.
  intros Hcodec Hr Ha Hf _.
  destruct (GetLimits_fetched http_ParseTime encode decode decode_wire http_Do grpc_GetLimits
              ec w req w1 l ttl Ha Hf) as (ec2 & -> & Hr2 & _).
  unfold getStaleFromCache, setStaleInCache. rewrite Hr2, Hr. simpl.
  rewrite kv_get_set by reflexivity. simpl. apply Hcodec.
Qed.

(** ** A concrete world for the witnesses *)

Module Demo.
(** A codec: limits are countable, and a positive is written in binary. *)
#[export] Instance limits_countable : Countable ExternalLimits.
Proof.
  refine (inj_countable'
    (fun l => (xl_Average l, xl_Burst l, xl_Period l, xl_TenantKey l, xl_FailurePolicy l, xl_FailureCode l,
               xl_BackendURL l, xl_BackendProtocol l, xl_RequestTimeout l, xl_CacheMaxAgeSec l, xl_CacheNoStore l))
    (fun '(a, b, p, t, fp, fc, u, bp, rt, ma, ns) => mkExternalLimits a b p t fp fc u bp rt ma ns) _).
  by intros [].
Defined.

Fixpoint to_bits (p : positive) : string :=
  match p with xH => "" | xO p => String "0" (to_bits p) | xI p => String "1" (to_bits p) end.
Fixpoint of_bits (s : string) : positive :=
  match s with
  | EmptyString => xH
  | String c s => if bool_decide (c = "1"%char) then xI (of_bits s) else xO (of_bits s)
  end.
Lemma of_to_bits p : of_bits (to_bits p) = p.
Proof. induction p as [p IH|p IH|]; simpl; [by rewrite IH|by rewrite IH|done]. Qed.

Definition encode_limits (l : ExternalLimits) : string := to_bits (countable.encode l).
Definition decode_limits (s : string) : option ExternalLimits := countable.decode (of_bits s).
Lemma codec_ok l : decode_limits (encode_limits l) = Some l.
Proof. unfold decode_limits, encode_limits. rewrite of_to_bits. apply decode_encode. Qed.

(** Redis as a map, a counter of service calls. *)
Record world := mkWorld { w_kv : gmap string string; w_calls : nat }.
#[global] Instance world_kv : RedisKV world := {|
  kv_clock := fun _ => 0;
  kv_get := fun w k => w_kv w !! k;
  kv_set := fun w k v _ => mkWorld (<[k := v]> (w_kv w)) (w_calls w)
|}.
#[global] Instance world_kv_laws : RedisKVLaws world.
Proof.
  split; simpl; intros; [by rewrite lookup_insert_eq|by rewrite lookup_insert_ne].
Qed.

Definition service_do (w : world) (url : string) (r : ExternalRequest) : world * result ServiceAnswer :=
  (mkWorld (w_kv w) (S (w_calls w)), Err (errorf "down")).
(** The gRPC service answers one plan, cacheable for a minute or not at all. *)
Definition service_grpc (no_store : bool) (w : world) (r : ExternalRequest) : world * result ProtoLimits :=
  (mkWorld (w_kv w) (S (w_calls w)),
   Ok (mkProtoLimits 100 20 "1s" "acme" 2 0 "" 0 "" (Some 60) no_store)).
Definition client : ExternalClient :=
  mkExternalClient "" true BuildEphemeralSet true 0 50 (mkBreakers ∅ 0 closedBreakerStub 10 5 30).
Definition req : ExternalRequest := mkExternalRequest {[ "X-Tenant" := "a" ]} "GET" "/x".
Definition plan (no_store : bool) : ExternalLimits :=
  mkExternalLimits 100 20 "1s" "acme" "failclosed" 0 "" "" "" (Some 60) no_store.

Lemma client_admitted : admitted_call decode_limits client (mkWorld ∅ 0) req.
Proof. split; [reflexivity|]. split; [reflexivity|simpl; lia]. Defined.
End Demo.

Lemma GetLimits_protects_service_witness :
  let '(ec', w', _) := GetLimits (fun _ => None) Demo.encode_limits Demo.decode_limits (fun _ => None)
      Demo.service_do (Demo.service_grpc false) Demo.client (Demo.mkWorld ∅ 0) Demo.req in
  ec_sem_used ec' = 0 /\ (Demo.w_calls w' <= 1)%nat /\
  (Demo.w_calls w' ≠ 0%nat -> admitted_call Demo.decode_limits Demo.client (Demo.mkWorld ∅ 0) Demo.req).
Proof.
  apply (GetLimits_protects_service (fun _ => None) Demo.encode_limits Demo.decode_limits (fun _ => None)
    Demo.service_do (Demo.service_grpc false) Demo.w_calls Demo.client (Demo.mkWorld ∅ 0) Demo.req); reflexivity.
Defined.

Lemma GetLimits_cached_witness :
  let '(ec2, w2, r) := GetLimits (fun _ => None) Demo.encode_limits Demo.decode_limits (fun _ => None)
      Demo.service_do (Demo.service_grpc false) Demo.client (Demo.mkWorld ∅ 0) Demo.req in
  r = Ok (Demo.plan false) /\
  GetLimits (fun _ => None) Demo.encode_limits Demo.decode_limits (fun _ => None)
    Demo.service_do (Demo.service_grpc false) ec2 w2 Demo.req = (ec2, w2, Ok (Demo.plan false)).
Proof.
  apply (GetLimits_cached (fun _ => None) Demo.encode_limits Demo.decode_limits (fun _ => None)
    Demo.service_do (Demo.service_grpc false) Demo.client (Demo.mkWorld ∅ 0) Demo.req Demo.req
    (Demo.mkWorld ∅ 1) (Demo.plan false) (60 * Second)).
  - apply Demo.codec_ok.
  - reflexivity.
  - apply Demo.client_admitted.
  - reflexivity.
  - reflexivity.
  - reflexivity.
Defined.

Lemma no_store_is_stored_witness :
  let '(ec2, w2, _) := GetLimits (fun _ => None) Demo.encode_limits Demo.decode_limits (fun _ => None)
      Demo.service_do (Demo.service_grpc true) Demo.client (Demo.mkWorld ∅ 0) Demo.req in
  getStaleFromCache Demo.decode_limits ec2 w2 (lookupKey BuildEphemeralSet Demo.req) = Some (Demo.plan true).
Proof.
  apply (no_store_is_stored (fun _ => None) Demo.encode_limits Demo.decode_limits (fun _ => None)
    Demo.service_do (Demo.service_grpc true) Demo.client (Demo.mkWorld ∅ 0) Demo.req
    (Demo.mkWorld ∅ 1) (Demo.plan true) 0).
  - apply Demo.codec_ok.
  - reflexivity.
  - apply Demo.client_admitted.
  - reflexivity.
  - reflexivity.
Defined.
