(* ===== verification/Flights.v ===== *)
(** * Concurrent calls of the external limits client

    [External.GetLimits] is one call running alone. Here any number of calls run
    at once, as in src/internal/ratelimit/external.go: each operation on shared
    state (Redis, a breaker, the semaphore, the singleflight group, the service)
    is one step, and the steps of the callers interleave. *)
From S2P Require Import Prelude GoStrings GoTime ConfigTypes Config Breaker External.

Local Open Scope Z_scope.

(** Where a caller of [GetLimits] stands. *)
Inductive cphase :=
| CLookup                                   (* about to look in the cache *)
| CBreaker                                  (* not cached *)
| CSem                                      (* circuit closed *)
| CStale (e : error)                        (* rejected: the stale copy, else the error *)
| CJoin                                     (* holds a slot, calls sfGroup.Do *)
| CLead                                     (* runs the closure: looks again *)
| CFetch                                    (* calls the service *)
| CRecord (res : result (ExternalLimits * Z))
| CStaleLead (e : error)
| CStore (l : ExternalLimits) (ttl : Z)
| CStoreStale (l : ExternalLimits)
| CWait                                     (* waits for the flight of its key *)
| CRelease (res : result ExternalLimits)    (* Do has returned; the deferred Release *)
| CDone (res : result ExternalLimits).

Record caller := mkCaller { cl_req : ExternalRequest; cl_phase : cphase }.

(** Between [TryAcquire] and [Release]. *)
Definition holding (p : cphase) : bool :=
  match p with CLookup | CBreaker | CSem | CStale _ | CDone _ => false | _ => true end.

(** Inside the closure. *)
Definition leading (p : cphase) : bool :=
  match p with CLead | CFetch | CRecord _ | CStaleLead _ | CStore _ _ | CStoreStale _ => true | _ => false end.

Definition waiting (p : cphase) : bool := match p with CWait => true | _ => false end.
Definition is_done (p : cphase) : bool := match p with CDone _ => true | _ => false end.

Section flights.
Context {W : Type} `{RedisKV W}.
Variable http_ParseTime : string -> option Z.
Variable encode : ExternalLimits -> string.
Variable decode : string -> option ExternalLimits.
Variable decode_wire : string -> option WireLimits.
Variable http_Do : W -> string -> ExternalRequest -> W * result ServiceAnswer.
Variable grpc_GetLimits : W -> ExternalRequest -> W * result ProtoLimits.

Abbreviation getFrom := (getFromCache decode).
Abbreviation getStale := (getStaleFromCache decode).
Abbreviation fetch := (fetchFromService http_ParseTime decode_wire http_Do grpc_GetLimits).

(** The client, the world, the callers and the group: the leader of each key in
    flight. *)
Record fstate := mkFState {
  fl_ec : ExternalClient;
  fl_w : W;
  fl_callers : list caller;
  fl_group : gmap string nat
}.

Implicit Types (s : fstate) (c : caller).

Definition key_of s c : string := lookupKey (ec_exclude (fl_ec s)) (cl_req c).

(** Caller [i] moves on. *)
Definition goto (i : nat) (p : cphase) s : fstate :=
  mkFState (fl_ec s) (fl_w s) (alter (fun c => mkCaller (cl_req c) p) i (fl_callers s)) (fl_group s).
Definition with_ec (ec : ExternalClient) s : fstate := mkFState ec (fl_w s) (fl_callers s) (fl_group s).
Definition with_w (w : W) s : fstate := mkFState (fl_ec s) w (fl_callers s) (fl_group s).

(** The closure returns: the leader and everyone who waits for the key get the
    result, and the key leaves the group ([singleflight.doCall]). *)
Definition land (i : nat) (key : string) (r : result ExternalLimits) s : fstate :=
  let s := goto i (CRelease r) s in
  mkFState (fl_ec s) (fl_w s)
    (map (fun c => if waiting (cl_phase c) && bool_decide (key_of s c = key) then mkCaller (cl_req c) (CRelease r) else c)
       (fl_callers s))
    (delete key (fl_group s)).

Inductive fevent :=
| FCall (req : ExternalRequest)             (* a request calls GetLimits *)
| FStep (i : nat)                           (* caller i does its next operation *)
| FWorld (w : W).                           (* time passes, Redis changes *)

(** The next operation of caller [c] with index [i]; [None]: it has none. *)
Definition caller_step (i : nat) c s : option fstate :=
  let ec := fl_ec s in
  let w := fl_w s in
  let lk := key_of s c in
  match cl_phase c with
  | CLookup => Some (match getFrom ec w lk with Some l => goto i (CDone (Ok l)) s | None => goto i CBreaker s end)
  | CBreaker =>
      let '(bs, open) := isCircuitOpen (ec_breakers ec) lk (kv_clock w) in
      let s := with_ec (set_breakers ec bs) s in
      Some (if open
            then goto i (CStale (errorf ("external rate limit service circuit breaker open for key " +:+ lk))) s
            else goto i CSem s)
  | CSem =>
      Some (if negb (ec_sem_used ec + 1 <=? ec_sem_max ec)
            then goto i (CStale (errorf ("external rate limit service semaphore full for key " +:+ lk))) s
            else goto i CJoin (with_ec (set_sem ec (ec_sem_used ec + 1)) s))
  | CStale e => Some (goto i (CDone (match getStale ec w lk with Some l => Ok l | None => Err e end)) s)
  | CJoin =>
      Some (match fl_group s !! lk with
            | Some _ => goto i CWait s
            | None => let s := goto i CLead s in mkFState (fl_ec s) (fl_w s) (fl_callers s) (<[lk := i]> (fl_group s))
            end)
  | CLead => Some (match getFrom ec w lk with Some l => land i lk (Ok l) s | None => goto i CFetch s end)
  | CFetch => let '(w', r) := fetch ec w (cl_req c) in Some (goto i (CRecord r) (with_w w' s))
  | CRecord (Err e) => Some (goto i (CStaleLead e) (with_ec (set_breakers ec (ec_recordFailure (ec_breakers ec) lk (kv_clock w))) s))
  | CRecord (Ok (l, ttl)) =>
      Some (goto i (CStore l ttl) (with_ec (set_breakers ec (ec_recordSuccess (ec_breakers ec) lk (kv_clock w))) s))
  | CStaleLead e => Some (land i lk (match getStale ec w lk with Some l => Ok l | None => Err e end) s)
  | CStore l ttl => Some (goto i (CStoreStale l) (with_w (setInCache encode ec w lk l ttl) s))
  | CStoreStale l => Some (land i lk (Ok l) (with_w (setStaleInCache encode ec w lk l) s))
  | CRelease r => Some (goto i (CDone r) (with_ec (set_sem ec (ec_sem_used ec - 1)) s))
  | CWait | CDone _ => None
  end.

Definition fstep (e : fevent) s : option fstate :=
  match e with
  | FCall req => Some (mkFState (fl_ec s) (fl_w s) (fl_callers s ++ [mkCaller req CLookup]) (fl_group s))
  | FStep i => c ← fl_callers s !! i; caller_step i c s
  | FWorld w => Some (with_w w s)
  end.

Fixpoint frun (es : list fevent) s : option fstate :=
  match es with [] => Some s | e :: es => s1 ← fstep e s; frun es s1 end.

Definition idle (ec : ExternalClient) (w : W) : fstate := mkFState ec w [] ∅.
End flights.

Arguments mkFState {W} _ _ _ _.
Arguments fl_ec {W} _.
Arguments fl_w {W} _.
Arguments fl_callers {W} _.
Arguments fl_group {W} _.

(** ** The group: one leader per key *)

Section group.
Variable ex : gset string.
Implicit Types (l : list caller) (g : gmap string nat) (c : caller).

Definition ckey c : string := lookupKey ex (cl_req c).

Record group_ok l g : Prop := mkGroupOk {
  go_leader : forall k i, g !! k = Some i -> exists c, l !! i = Some c /\ leading (cl_phase c) = true /\ ckey c = k;
  go_inside : forall i c, l !! i = Some c -> leading (cl_phase c) = true -> g !! ckey c = Some i;
  go_waiters : forall i c, l !! i = Some c -> waiting (cl_phase c) = true -> is_Some (g !! ckey c)
}.

Definition move (i : nat) (p : cphase) l : list caller := alter (fun c => mkCaller (cl_req c) p) i l.

Lemma move_lookup i p l j c :
  move i p l !! j = Some c <-> (j <> i /\ l !! j = Some c) \/ (j = i /\ exists c0, l !! i = Some c0 /\ c = mkCaller (cl_req c0) p).
Proof.
  unfold move. destruct (decide (j = i)) as [->|Hne].
  - rewrite list_lookup_alter_eq. destruct (l !! i); cbn; naive_solver.
  - rewrite list_lookup_alter_ne by done. naive_solver.
Qed.

Lemma group_ok_keep l g i c p :
  l !! i = Some c -> leading p = leading (cl_phase c) -> waiting p = false -> group_ok l g -> group_ok (move i p l) g.
Proof.
  intros Hc Hlead Hw [H1 H2 H3]. split.
  - intros k j Hk. destruct (H1 k j Hk) as (c' & Hj & Hl & Hke). destruct (decide (j = i)) as [->|].
    + exists (mkCaller (cl_req c) p). rewrite move_lookup. simplify_eq. cbn. rewrite Hlead. naive_solver.
    + exists c'. rewrite move_lookup. naive_solver.
  - intros j c'. rewrite move_lookup. intros [[? ?]|(-> & c0 & ? & ->)] Hl; [by apply H2|]. simplify_eq. cbn in Hl.
    rewrite Hlead in Hl. by apply (H2 i c).
  - intros j c'. rewrite move_lookup. intros [[? ?]|(-> & c0 & ? & ->)] Hl; [by eapply H3|]. cbn in Hl. congruence.
Qed.

Lemma group_ok_wait l g i c :
  l !! i = Some c -> leading (cl_phase c) = false -> is_Some (g !! ckey c) -> group_ok l g -> group_ok (move i CWait l) g.
Proof.
  intros Hc Hlead Hg [H1 H2 H3]. split.
  - intros k j Hk. destruct (H1 k j Hk) as (c' & Hj & Hl & Hke). exists c'. rewrite move_lookup.
    destruct (decide (j = i)) as [->|]; [simplify_eq; congruence|naive_solver].
  - intros j c'. rewrite move_lookup. intros [[? ?]|(-> & c0 & ? & ->)] Hl; [by apply H2|done].
  - intros j c'. rewrite move_lookup. intros [[? ?]|(-> & c0 & ? & ->)] Hl; [by eapply H3|]. by simplify_eq.
Qed.

Lemma group_ok_lead l g i c :
  l !! i = Some c -> g !! ckey c = None -> group_ok l g -> group_ok (move i CLead l) (<[ckey c := i]> g).
Proof.
  intros Hc Hg [H1 H2 H3]. split.
  - intros k j. rewrite lookup_insert_Some. intros [[<- <-]|[Hne Hk]].
    + exists (mkCaller (cl_req c) CLead). rewrite move_lookup. naive_solver.
    + destruct (H1 k j Hk) as (c' & Hj & Hl & Hke). exists c'. rewrite move_lookup.
      destruct (decide (j = i)) as [->|]; [simplify_eq; congruence|naive_solver].
  - intros j c'. rewrite move_lookup. intros [[? Hj]|(-> & c0 & ? & ->)] Hl.
    + rewrite lookup_insert_ne; [by apply H2|]. intros E. rewrite E, (H2 j c' Hj Hl) in Hg. done.
    + simplify_eq. apply lookup_insert_eq.
  - intros j c'. rewrite move_lookup. intros [[? Hj]|(-> & c0 & ? & ->)] Hl; [|done].
    destruct (H3 j c' Hj Hl) as [x Hx]. destruct (decide (ckey c = ckey c')) as [->|]; [rewrite lookup_insert_eq; eauto|].
    rewrite lookup_insert_ne by done. eauto.
Qed.

(** The callers after the flight of [key] has landed. *)
Definition landed (key : string) (r : result ExternalLimits) l : list caller :=
  map (fun c => if waiting (cl_phase c) && bool_decide (ckey c = key) then mkCaller (cl_req c) (CRelease r) else c) l.

Lemma landed_lookup key r l j c :
  landed key r l !! j = Some c ->
  exists c0, l !! j = Some c0 /\ ckey c = ckey c0
    /\ (if waiting (cl_phase c0) && bool_decide (ckey c0 = key) then cl_phase c = CRelease r else c = c0).
Proof.
  unfold landed. change (@map caller caller) with (@fmap list _ caller caller). rewrite list_lookup_fmap.
  destruct (l !! j) as [c0|]; [|done]. cbn. intros [= <-]. exists c0. by destruct (_ && _).
Qed.

Lemma group_ok_land l g i c r :
  l !! i = Some c -> leading (cl_phase c) = true -> group_ok l g ->
  group_ok (landed (ckey c) r (move i (CRelease r) l)) (delete (ckey c) g).
Proof.
  intros Hc Hlead [H1 H2 H3]. pose proof (H2 i c Hc Hlead) as Hi. split.
  - intros k j. rewrite lookup_delete_Some. intros [Hne Hk]. destruct (H1 k j Hk) as (c' & Hj & Hl & Hke). exists c'.
    split; [|done]. assert (j <> i) by (intros ->; simplify_eq). unfold landed.
    change (@map caller caller) with (@fmap list _ caller caller). rewrite list_lookup_fmap.
    rewrite (proj2 (move_lookup i (CRelease r) l j c')) by (by left). cbn. by destruct (cl_phase c').
  - intros j c' Hj Hl. destruct (landed_lookup _ _ _ _ _ Hj) as (c0 & Hj0 & Hk0 & Hif).
    apply move_lookup in Hj0. destruct (_ && _); [by rewrite Hif in Hl|]. subst c'.
    destruct Hj0 as [[Hne Hj0]|(-> & c1 & ? & ->)]; [|done]. rewrite lookup_delete_ne; [by apply H2|].
    intros E. pose proof (H2 j c0 Hj0 Hl) as Hj2. rewrite <- E, Hi in Hj2. congruence.
  - intros j c' Hj Hl. destruct (landed_lookup _ _ _ _ _ Hj) as (c0 & Hj0 & Hk0 & Hif).
    destruct (_ && _) eqn:E; [by rewrite Hif in Hl|]. subst c'. rewrite Hl in E. cbn in E. apply bool_decide_eq_false in E.
    rewrite lookup_delete_ne by done. apply move_lookup in Hj0. destruct Hj0 as [[Hne Hj0]|(-> & c1 & ? & ->)]; [by eapply H3|done].
Qed.

Lemma group_ok_call l g req : group_ok l g -> group_ok (l ++ [mkCaller req CLookup]) g.
Proof.
  intros [H1 H2 H3]. split.
  - intros k i Hk. destruct (H1 k i Hk) as (c & Hi & ?). exists c. split; [|done]. by apply lookup_app_l_Some.
  - intros i c [Hi|[_ Hi]]%lookup_app_Some Hl; [by apply H2|]. apply list_lookup_singleton_Some in Hi as [_ <-]. done.
  - intros i c [Hi|[_ Hi]]%lookup_app_Some Hl; [by eapply H3|]. apply list_lookup_singleton_Some in Hi as [_ <-]. done.
Qed.

(** ** The semaphore: one slot per holder *)

Definition holders l : Z := foldr (fun c n => Z.b2z (holding (cl_phase c)) + n) 0 l.

Lemma holders_cons c l : holders (c :: l) = Z.b2z (holding (cl_phase c)) + holders l.
Proof. done. Qed.

Lemma move_cons i p c l : move (S i) p (c :: l) = c :: move i p l.
Proof. done. Qed.

Lemma holders_move i p l c :
  l !! i = Some c -> holders (move i p l) = holders l - Z.b2z (holding (cl_phase c)) + Z.b2z (holding p).
Proof.
  revert i. induction l as [|c0 l IH]; intros [|i] Hi; try done.
  - cbn in Hi. simplify_eq. change (move 0 p (c :: l)) with (mkCaller (cl_req c) p :: l). rewrite !holders_cons. cbn [cl_phase]. lia.
  - rewrite move_cons, !holders_cons, (IH i Hi). lia.
Qed.

Lemma holders_landed key r l : holders (landed key r l) = holders l.
Proof.
  induction l as [|c l IH]; [done|]. unfold landed in *. cbn [map]. rewrite !holders_cons, IH. f_equal.
  by destruct c as [q []], (bool_decide _).
Qed.

Lemma holders_app l k : holders (l ++ k) = holders l + holders k.
Proof. induction l as [|c l IH]; [done|]. cbn [app]. rewrite !holders_cons, IH. lia. Qed.

(** ** Progress *)

(** How many operations a caller has left at most. *)
Definition rank (p : cphase) : nat :=
  match p with
  | CLookup => 11 | CBreaker => 10 | CSem => 9 | CStale _ => 1 | CJoin => 8 | CLead => 7 | CFetch => 6 | CRecord _ => 5
  | CStaleLead _ => 3 | CStore _ _ => 4 | CStoreStale _ => 3 | CWait => 2 | CRelease _ => 1 | CDone _ => 0
  end.

Definition left_over l : nat := foldr (fun c n => (rank (cl_phase c) + n)%nat) 0%nat l.

Lemma left_over_cons c l : left_over (c :: l) = (rank (cl_phase c) + left_over l)%nat.
Proof. done. Qed.

Lemma left_over_move i p l c :
  l !! i = Some c -> (rank p < rank (cl_phase c))%nat -> (left_over (move i p l) < left_over l)%nat.
Proof.
  revert i. induction l as [|c0 l IH]; intros [|i] Hi Hr; try done.
  - cbn in Hi. simplify_eq. change (move 0 p (c :: l)) with (mkCaller (cl_req c) p :: l). rewrite !left_over_cons. cbn [cl_phase]. lia.
  - rewrite move_cons, !left_over_cons. specialize (IH i Hi Hr). lia.
Qed.

Lemma left_over_landed key r l : (left_over (landed key r l) <= left_over l)%nat.
Proof.
  induction l as [|c l IH]; [done|]. unfold landed in *. cbn [map]. rewrite !left_over_cons.
  enough (rank (cl_phase (if waiting (cl_phase c) && bool_decide (ckey c = key) then mkCaller (cl_req c) (CRelease r) else c))
          <= rank (cl_phase c))%nat by lia.
  destruct c as [q []], (bool_decide _); cbn; lia.
Qed.

Lemma left_over_zero l : left_over l = 0%nat <-> Forall (fun c => is_done (cl_phase c) = true) l.
Proof.
  induction l as [|c l IH]; [done|]. rewrite left_over_cons, Forall_cons, <- IH.
  destruct (cl_phase c); cbn; naive_solver lia.
Qed.
End group.

Section concurrency.
Context {W : Type} `{RedisKV W}.
Variable http_ParseTime : string -> option Z.
Variable encode : ExternalLimits -> string.
Variable decode : string -> option ExternalLimits.
Variable decode_wire : string -> option WireLimits.
Variable http_Do : W -> string -> ExternalRequest -> W * result ServiceAnswer.
Variable grpc_GetLimits : W -> ExternalRequest -> W * result ProtoLimits.
Implicit Types (s : fstate (W := W)) (c : caller).

Abbreviation step_of := (caller_step http_ParseTime encode decode decode_wire http_Do grpc_GetLimits).
Abbreviation stepF := (fstep http_ParseTime encode decode decode_wire http_Do grpc_GetLimits).
Abbreviation runF := (frun http_ParseTime encode decode decode_wire http_Do grpc_GetLimits).

Record fl_inv s : Prop := mkFlInv {
  fi_group : group_ok (ec_exclude (fl_ec s)) (fl_callers s) (fl_group s);
  fi_sem : ec_sem_used (fl_ec s) = holders (fl_callers s);
  fi_max : ec_sem_used (fl_ec s) <= ec_sem_max (fl_ec s)
}.

(** What an operation leaves of the invariant and of the work. *)
Definition progressed s s' : Prop :=
  fl_inv s' /\ (left_over (fl_callers s') < left_over (fl_callers s))%nat
  /\ ec_exclude (fl_ec s') = ec_exclude (fl_ec s) /\ ec_sem_max (fl_ec s') = ec_sem_max (fl_ec s).

Lemma progress_keep s s' i c p :
  fl_callers s !! i = Some c -> fl_inv s ->
  fl_callers s' = move i p (fl_callers s) -> fl_group s' = fl_group s ->
  ec_exclude (fl_ec s') = ec_exclude (fl_ec s) -> ec_sem_max (fl_ec s') = ec_sem_max (fl_ec s) ->
  ec_sem_used (fl_ec s') = ec_sem_used (fl_ec s) - Z.b2z (holding (cl_phase c)) + Z.b2z (holding p) ->
  ec_sem_used (fl_ec s') <= ec_sem_max (fl_ec s) ->
  leading p = leading (cl_phase c) -> waiting p = false -> (rank p < rank (cl_phase c))%nat -> progressed s s'.
Proof.
  intros Hc [Hg Hs Hm] El Eg Ee Em Eu Hle Hlead Hwait Hr. split_and!; [split| |done|done].
  - rewrite El, Eg, Ee. by eapply group_ok_keep.
  - by rewrite Eu, El, (holders_move i p _ c Hc), Hs.
  - by rewrite Em.
  - rewrite El. by eapply left_over_move.
Qed.

Ltac keep_phase :=
  (eapply progress_keep; [eassumption|eassumption|reflexivity|reflexivity|reflexivity|reflexivity|..]);
  cbn; try done; bools; lia.

Lemma progress_land s w i c r :
  fl_callers s !! i = Some c -> leading (cl_phase c) = true -> fl_inv s ->
  progressed s (land i (ckey (ec_exclude (fl_ec s)) c) r (with_w w s)).
Proof.
  intros Hc Hlead [Hg Hs Hm]. pose proof (holders_move i (CRelease r) _ c Hc) as Hh.
  assert (holding (cl_phase c) = true) as Hhold by (by destruct (cl_phase c)). rewrite Hhold in Hh. cbn in Hh.
  unfold progressed, land. cbn [fl_ec fl_callers fl_group goto with_w]. split_and!; [split| |done|done].
  - cbn [fl_ec fl_callers fl_group goto with_w]. by apply group_ok_land.
  - cbn [fl_ec fl_callers]. fold (move i (CRelease r) (fl_callers s)).
    change (map _ _) with (landed (ec_exclude (fl_ec s)) (ckey (ec_exclude (fl_ec s)) c) r (move i (CRelease r) (fl_callers s))).
    rewrite holders_landed. lia.
  - done.
  - fold (move i (CRelease r) (fl_callers s)).
    change (map _ _) with (landed (ec_exclude (fl_ec s)) (ckey (ec_exclude (fl_ec s)) c) r (move i (CRelease r) (fl_callers s))).
    eapply Nat.le_lt_trans; [apply left_over_landed|]. apply (left_over_move i _ _ c Hc). destruct (cl_phase c); cbn in *; done || lia.
Qed.

Lemma caller_progress s s' i c :
  fl_callers s !! i = Some c -> step_of i c s = Some s' -> fl_inv s -> progressed s s'.
Proof.
  intros Hc Hst Hi. pose proof (fi_max s Hi) as Hmax. unfold caller_step in Hst. destruct c as [req ph]. cbn [cl_phase] in Hst.
  destruct ph as [| | |e| | | |[[l ttl]|e]|e|l ttl|l| |r|r]; try done.
  - destruct (getFromCache _ _ _ _); simplify_eq; keep_phase.
  - destruct (isCircuitOpen _ _ _) as [bs open]. destruct open; simplify_eq; keep_phase.
  - destruct (_ <=? _) eqn:E; cbn [negb] in Hst; simplify_eq; keep_phase.
  - simplify_eq; keep_phase.
  - destruct (fl_group s !! _) as [j|] eqn:Eg; simplify_eq.
    + split_and!; [split| |done|done]; cbn [fl_ec fl_callers fl_group goto].
      * eapply group_ok_wait; [done|done|by eexists|apply Hi].
      * fold (move i CWait (fl_callers s)). rewrite (holders_move i CWait _ _ Hc). cbn. rewrite (fi_sem s Hi). lia.
      * done.
      * apply (left_over_move i CWait _ _ Hc). cbn. lia.
    + split_and!; [split| |done|done]; cbn [fl_ec fl_callers fl_group goto].
      * apply (group_ok_lead (ec_exclude (fl_ec s)) _ _ i _ Hc); [done|apply Hi].
      * fold (move i CLead (fl_callers s)). rewrite (holders_move i CLead _ _ Hc). cbn. rewrite (fi_sem s Hi). lia.
      * done.
      * apply (left_over_move i CLead _ _ Hc). cbn. lia.
  - destruct (getFromCache _ _ _ _); simplify_eq; [|keep_phase].
    destruct s as [ec w l g]. by apply (progress_land (mkFState ec w l g) w i _ _ Hc).
  - destruct (fetchFromService _ _ _ _ _ _ _) as [w' r]. simplify_eq; keep_phase.
  - simplify_eq; keep_phase.
  - simplify_eq; keep_phase.
  - simplify_eq. destruct s as [ec w l g]. by apply (progress_land (mkFState ec w l g) w i _ _ Hc).
  - simplify_eq; keep_phase.
  - simplify_eq. by apply (progress_land s _ i _ _ Hc).
  - simplify_eq; keep_phase.
Qed.

Lemma step_inv e s s' :
  stepF e s = Some s' -> fl_inv s ->
  fl_inv s' /\ ec_exclude (fl_ec s') = ec_exclude (fl_ec s) /\ ec_sem_max (fl_ec s') = ec_sem_max (fl_ec s).
Proof.
  intros Hs Hi. destruct e as [req|i|w]; cbn in Hs.
  - simplify_eq. destruct Hi as [Hg Hsem Hm]. split_and!; [split| |]; cbn; try done; [by apply group_ok_call|].
    rewrite holders_app. cbn. lia.
  - apply bind_Some in Hs as (c & Hc & Hs). by destruct (caller_progress s s' i c Hc Hs Hi) as (? & _ & ?).
  - simplify_eq. split_and!; [|done..]. destruct Hi. by split.
Qed.

Lemma run_inv es s s' :
  runF es s = Some s' -> fl_inv s ->
  fl_inv s' /\ ec_exclude (fl_ec s') = ec_exclude (fl_ec s) /\ ec_sem_max (fl_ec s') = ec_sem_max (fl_ec s).
Proof.
  revert s. induction es as [|e es IH]; intros s Hr Hi; cbn in Hr; [by simplify_eq|].
  apply bind_Some in Hr as (s1 & Hs & Hr). destruct (step_inv e s s1 Hs Hi) as (Hi1 & He1 & Hm1).
  destruct (IH s1 Hr Hi1) as (? & -> & ->). by rewrite He1, Hm1.
Qed.

Lemma idle_inv ec w : ec_sem_used ec = 0 -> 0 <= ec_sem_max ec -> fl_inv (idle ec w).
Proof. intros Hu Hm. split; cbn; [by split|done|lia]. Qed.

(** C31: The service is called once per key. In every interleaving of any number of
    calls, with Redis and the clock changing under them: at most one caller per
    lookup key is inside the guarded section that asks the service; every caller
    that waits has such a leader for its own key; and the callers that hold a
    slot are counted exactly by the semaphore, which never exceeds its limit. *)
Theorem one_flight_per_key es ec w s :
  ec_sem_used ec = 0 -> 0 <= ec_sem_max ec -> runF es (idle ec w) = Some s ->
  (forall i j ci cj, fl_callers s !! i = Some ci -> fl_callers s !! j = Some cj ->
     leading (cl_phase ci) = true -> leading (cl_phase cj) = true -> key_of s ci = key_of s cj -> i = j)
  /\ (forall i c, fl_callers s !! i = Some c -> waiting (cl_phase c) = true ->
        exists j cj, fl_callers s !! j = Some cj /\ leading (cl_phase cj) = true /\ key_of s cj = key_of s c)
  /\ ec_sem_used (fl_ec s) = holders (fl_callers s) /\ holders (fl_callers s) <= ec_sem_max ec.
Proof.
  intros Hu Hm Hr. destruct (run_inv es _ s Hr (idle_inv ec w Hu Hm)) as ([[H1 H2 H3] Hs Hmax] & _ & Em). split_and!.
  - intros i j ci cj Hi Hj Li Lj Ek. pose proof (H2 i ci Hi Li) as Gi. pose proof (H2 j cj Hj Lj) as Gj.
    unfold key_of in Ek. unfold ckey in Gi, Gj. rewrite Ek in Gi. congruence.
  - intros i c Hi Hw. destruct (H3 i c Hi Hw) as [j Hj]. destruct (H1 _ _ Hj) as (cj & ? & ? & ?). by exists j, cj.
  - done.
  - rewrite <- Hs. by rewrite Em in Hmax.
Qed.

Lemma steps_bounded sch s s' :
  runF (map FStep sch) s = Some s' -> fl_inv s -> (length sch + left_over (fl_callers s') <= left_over (fl_callers s))%nat.
Proof.
  revert s. induction sch as [|i sch IH]; intros s Hr Hi; cbn in Hr; [by simplify_eq|].
  apply bind_Some in Hr as (s1 & Hs & Hr). apply bind_Some in Hs as (c & Hc & Hs).
  destruct (caller_progress s s1 i c Hc Hs Hi) as (Hi1 & Hlt & _). specialize (IH s1 Hr Hi1). cbn. lia.
Qed.

Lemma step_enabled s i c :
  fl_callers s !! i = Some c -> waiting (cl_phase c) = false -> is_done (cl_phase c) = false ->
  exists s', stepF (FStep i) s = Some s'.
Proof.
  intros Hc Hw Hd. unfold fstep. rewrite Hc. cbn. unfold caller_step.
  destruct (cl_phase c) as [| | | | | | |[[]|]| | | | | |]; try done; eauto;
    [destruct (isCircuitOpen _ _ _)|destruct (fetchFromService _ _ _ _ _ _ _)]; eauto.
Qed.

Lemma left_over_bound (l : list caller) : (left_over l <= 11 * length l)%nat.
Proof. induction l as [|c l IH]; [done|]. rewrite left_over_cons. cbn [length]. destruct (cl_phase c); cbn [rank]; lia. Qed.

(** Every call returns. In every reachable state the callers together have at
    most eleven operations each left, whatever the order; as long as one of them
    has not returned, some operation is possible; and when all have returned
    every slot is free and no key is in flight. *)
Theorem calls_return es ec w s :
  ec_sem_used ec = 0 -> 0 <= ec_sem_max ec -> runF es (idle ec w) = Some s ->
  (forall sch s', runF (map FStep sch) s = Some s' -> (length sch <= 11 * length (fl_callers s))%nat)
  /\ (Exists (fun c => is_done (cl_phase c) = false) (fl_callers s) -> exists i s', stepF (FStep i) s = Some s')
  /\ (Forall (fun c => is_done (cl_phase c) = true) (fl_callers s) -> ec_sem_used (fl_ec s) = 0 /\ fl_group s = ∅).
Proof.
  intros Hu Hm Hr. destruct (run_inv es _ s Hr (idle_inv ec w Hu Hm)) as (Hi & _ & _). split_and!.
  - intros sch s' Hs. pose proof (steps_bounded sch s s' Hs Hi). pose proof (left_over_bound (fl_callers s)). lia.
  - rewrite Exists_exists. intros (c & Hin & Hd). apply list_elem_of_lookup in Hin as [i Hc].
    destruct (waiting (cl_phase c)) eqn:Hw; [|exists i; by eapply step_enabled].
    destruct (go_waiters _ _ _ (fi_group s Hi) i c Hc Hw) as [j Hj].
    destruct (go_leader _ _ _ (fi_group s Hi) _ j Hj) as (cj & Hcj & Hl & _). exists j.
    apply (step_enabled s j cj Hcj); by destruct (cl_phase cj).
  - intros Hall. split.
    + rewrite (fi_sem s Hi). induction Hall as [|c l Hd Hall IH]; [done|]. rewrite holders_cons, IH. by destruct (cl_phase c).
    + apply map_empty. intros k. destruct (fl_group s !! k) as [j|] eqn:E; [|done].
      destruct (go_leader _ _ _ (fi_group s Hi) _ j E) as (cj & Hcj & Hl & _).
      rewrite Forall_forall in Hall. pose proof (Hall cj (list_elem_of_lookup_2 _ _ _ Hcj)) as Hd. by destruct (cl_phase cj).
Qed.

(** ** One caller alone *)

Abbreviation GetLimits1 := (GetLimits http_ParseTime encode decode decode_wire http_Do grpc_GetLimits).

(** [n] operations of the single caller lead from [s] to [s']. *)
Definition alone (n : nat) s s' : Prop := runF (replicate n (FStep 0)) s = Some s'.

Lemma alone_0 s : alone 0 s s.
Proof. done. Qed.
Lemma alone_S n ec (w : W) req p g s1 s' :
  step_of 0 (mkCaller req p) (mkFState ec w [mkCaller req p] g) = Some s1 -> alone n s1 s' ->
  alone (S n) (mkFState ec w [mkCaller req p] g) s'.
Proof. intros Hs Hr. unfold alone. cbn [replicate frun fstep fl_callers]. cbn [lookup list_lookup mbind option_bind]. by rewrite Hs. Qed.

Lemma land_alone ec (w : W) req p r lk :
  land 0 lk r (mkFState ec w [mkCaller req p] {[lk := 0%nat]}) = mkFState ec w [mkCaller req (CRelease r)] ∅.
Proof. unfold land. cbn. by rewrite delete_singleton_eq. Qed.

Ltac operate E :=
  eapply alone_S; [unfold caller_step, key_of; cbn [cl_phase cl_req fl_ec fl_w fl_group set_breakers set_sem ec_breakers ec_sem_used ec_sem_max ec_exclude];
    rewrite ?E; reflexivity|];
  unfold goto, with_ec, with_w; cbn [fl_ec fl_w fl_callers fl_group alter list_alter]; rewrite ?land_alone.

(** The closure of a single flight is [fetch_locked]. *)
Lemma alone_locked ec (w : W) req :
  let lk := lookupKey (ec_exclude ec) req in
  let '(ec1, w1, r) := fetch_locked http_ParseTime encode decode decode_wire http_Do grpc_GetLimits ec w lk req in
  exists n, alone n (mkFState ec w [mkCaller req CLead] {[lk := 0%nat]}) (mkFState ec1 w1 [mkCaller req (CRelease r)] ∅).
Proof.
  intros lk. unfold fetch_locked. subst lk. destruct (getFromCache decode ec w _) as [l|] eqn:Ec.
  { exists 1%nat. operate Ec. apply alone_0. }
  destruct (fetchFromService _ _ _ _ ec w req) as [w1 [[l ttl]|e]] eqn:Ef.
  - exists 5%nat. operate Ec. operate Ef. operate Ef. operate Ef. operate Ef. apply alone_0.
  - destruct (getStaleFromCache _ _ w1 _) as [l|] eqn:Es; exists 4%nat; operate Ec; operate Ef; operate Ef; operate Es; apply alone_0.
Qed.

Lemma alone_app n m s1 s2 s3 : alone n s1 s2 -> alone m s2 s3 -> alone (n + m) s1 s3.
Proof.
  unfold alone. rewrite replicate_add. generalize (replicate n (FStep (W := W) 0)) as l. clear n.
  intros l. revert s1. induction l as [|e l IH]; intros s1 H1 H2; cbn in *; [by simplify_eq|].
  apply bind_Some in H1 as (s & -> & H1). cbn. by apply IH.
Qed.


Lemma move_eq i p (l : list caller) c : l !! i = Some c -> move i p l !! i = Some (mkCaller (cl_req c) p).
Proof. intros Hc. apply move_lookup. right. split; [done|]. by exists c. Qed.
Lemma move_move i p q (l : list caller) : move i p (move i q l) = move i p l.
Proof. unfold move. apply list_eq. intros j. destruct (decide (j = i)) as [->|]; [|by rewrite !list_lookup_alter_ne].
  rewrite !list_lookup_alter_eq. by destruct (l !! i). Qed.

Lemma run_cons ev es s s1 : stepF ev s = Some s1 -> runF (ev :: es) s = runF es s1.
Proof. intros Hs. cbn [frun]. by rewrite Hs. Qed.

Lemma step_fetch s i req w' r :
  fl_callers s !! i = Some (mkCaller req CFetch) ->
  fetchFromService http_ParseTime decode_wire http_Do grpc_GetLimits (fl_ec s) (fl_w s) req = (w', r) ->
  stepF (FStep i) s = Some (goto i (CRecord r) (with_w w' s)).
Proof. intros Hc Hf. unfold fstep. rewrite Hc. cbn. by rewrite Hf. Qed.
Lemma step_failed s i req e :
  fl_callers s !! i = Some (mkCaller req (CRecord (Err e))) ->
  stepF (FStep i) s = Some (goto i (CStaleLead e)
    (with_ec (set_breakers (fl_ec s) (ec_recordFailure (ec_breakers (fl_ec s)) (lookupKey (ec_exclude (fl_ec s)) req) (kv_clock (fl_w s)))) s)).
Proof. intros Hc. unfold fstep. by rewrite Hc. Qed.
Lemma step_no_stale s i req e :
  fl_callers s !! i = Some (mkCaller req (CStaleLead e)) ->
  getStaleFromCache decode (fl_ec s) (fl_w s) (lookupKey (ec_exclude (fl_ec s)) req) = None ->
  stepF (FStep i) s = Some (land i (lookupKey (ec_exclude (fl_ec s)) req) (Err e) s).
Proof. intros Hc Hs. unfold fstep. rewrite Hc. cbn. unfold key_of. cbn. by rewrite Hs. Qed.

(** A leader that gives up fails everyone. The service is asked under the
    context of the caller that leads. When its call fails, its own client having
    gone away included, and nothing stale is stored, every caller that shares
    the flight gets that error, although its own request is alive, and the
    breaker of the key counts a failure of the service. *)
Theorem leader_failure_shared s i ci w' e :
  let key := key_of s ci in
  let bs := ec_recordFailure (ec_breakers (fl_ec s)) key (kv_clock w') in
  fl_callers s !! i = Some ci -> cl_phase ci = CFetch ->
  fetchFromService http_ParseTime decode_wire http_Do grpc_GetLimits (fl_ec s) (fl_w s) (cl_req ci) = (w', Err e) ->
  getStaleFromCache decode (fl_ec s) w' key = None ->
  exists s', runF [FStep i; FStep i; FStep i] s = Some s' /\ ec_breakers (fl_ec s') = bs
    /\ forall j cj, fl_callers s !! j = Some cj -> (j = i \/ waiting (cl_phase cj) = true /\ key_of s cj = key) ->
         fl_callers s' !! j = Some (mkCaller (cl_req cj) (CRelease (Err e))).
Proof.
  intros key bs Hc Hp Hf Hs. destruct ci as [req ph]. cbn in Hp. subst ph.
  set (s1 := goto i (CRecord (Err e)) (with_w w' s)).
  assert (fl_callers s1 !! i = Some (mkCaller req (CRecord (Err e)))) as Hc1 by (by apply (move_eq i _ _ _ Hc)).
  set (s2 := goto i (CStaleLead e) (with_ec (set_breakers (fl_ec s) bs) s1)).
  assert (fl_callers s2 !! i = Some (mkCaller req (CStaleLead e))) as Hc2 by (by apply (move_eq i _ _ _ Hc1)).
  exists (land i key (Err e) s2). split_and!.
  - rewrite (run_cons _ _ s s1) by (by apply (step_fetch s i req)). rewrite (run_cons _ _ s1 s2) by (by apply (step_failed s1 i req e)).
    by rewrite (run_cons _ _ s2 (land i key (Err e) s2)) by (by apply (step_no_stale s2 i req e)).
  - done.
  - intros j cj Hj Hcase. unfold land. cbn [fl_callers goto]. change (@map caller caller) with (@fmap list _ caller caller).
    rewrite list_lookup_fmap. change (alter _ i _) with (move i (CRelease (Err e)) (move i (CStaleLead e) (move i (CRecord (Err e)) (fl_callers s)))).
    rewrite !move_move. destruct (decide (j = i)) as [->|Hne]; [rewrite (move_eq i _ _ _ Hc); rewrite Hc in Hj; by simplify_eq|].
    destruct Hcase as [?|[Hw Hk]]; [done|]. rewrite (proj2 (move_lookup i _ _ j cj)) by (by left). cbn. rewrite Hw.
    by rewrite bool_decide_eq_true_2 by exact Hk.
Qed.
End concurrency.

(** ** Two callers of one key *)

Module FlightDemo.
Definition canceled : error := mkError "context canceled" true false false false false false.
(** The service of a caller whose client has gone away. *)
Definition gone (w : Demo.world) (r : ExternalRequest) : Demo.world * result ProtoLimits :=
  (Demo.mkWorld (Demo.w_kv w) (S (Demo.w_calls w)), Err canceled).
Definition run (es : list (fevent (W := Demo.world))) : option fstate :=
  frun (fun _ => None) Demo.encode_limits Demo.decode_limits (fun _ => None) Demo.service_do gone es
    (idle Demo.client (Demo.mkWorld ∅ 0)).
(** Both pass the checks; the first leads and calls the service, the second waits. *)
Definition meet : list (fevent (W := Demo.world)) :=
  [FCall Demo.req; FCall Demo.req; FStep 0; FStep 1; FStep 0; FStep 1; FStep 0; FStep 1; FStep 0; FStep 1; FStep 0].
Definition met : fstate := default (idle Demo.client (Demo.mkWorld ∅ 0)) (run meet).

Example met_phases : cl_phase <$> fl_callers met = [CFetch; CWait].
Proof. vm_compute. reflexivity. Qed.
End FlightDemo.

Lemma one_flight_per_key_witness :
  (forall i j ci cj, fl_callers FlightDemo.met !! i = Some ci -> fl_callers FlightDemo.met !! j = Some cj ->
     leading (cl_phase ci) = true -> leading (cl_phase cj) = true ->
     key_of FlightDemo.met ci = key_of FlightDemo.met cj -> i = j)
  /\ ec_sem_used (fl_ec FlightDemo.met) = 2.
Proof.
  destruct (one_flight_per_key (fun _ => None) Demo.encode_limits Demo.decode_limits (fun _ => None) Demo.service_do FlightDemo.gone
    FlightDemo.meet Demo.client (Demo.mkWorld ∅ 0) FlightDemo.met) as (H1 & _ & H2 & _).
  - reflexivity.
  - discriminate.
  - vm_compute. reflexivity.
  - split; [exact H1|]. rewrite H2. vm_compute. reflexivity.
Defined.

Lemma calls_return_witness :
  exists i s', fstep (fun _ => None) Demo.encode_limits Demo.decode_limits (fun _ => None) Demo.service_do FlightDemo.gone
    (FStep i) FlightDemo.met = Some s'.
Proof.
  destruct (calls_return (fun _ => None) Demo.encode_limits Demo.decode_limits (fun _ => None) Demo.service_do FlightDemo.gone
    FlightDemo.meet Demo.client (Demo.mkWorld ∅ 0) FlightDemo.met) as (_ & H1 & _).
  - reflexivity.
  - discriminate.
  - vm_compute. reflexivity.
  - apply H1. vm_compute. left. reflexivity.
Defined.

Lemma leader_failure_shared_witness :
  exists s', frun (fun _ => None) Demo.encode_limits Demo.decode_limits (fun _ => None) Demo.service_do FlightDemo.gone
      [FStep 0; FStep 0; FStep 0] FlightDemo.met = Some s'
    /\ fl_callers s' !! 1%nat = Some (mkCaller Demo.req (CRelease (Err (wrapf "grpc get limits" FlightDemo.canceled)))).
Proof.
  destruct (leader_failure_shared (fun _ => None) Demo.encode_limits Demo.decode_limits (fun _ => None) Demo.service_do FlightDemo.gone
    FlightDemo.met 0 (mkCaller Demo.req CFetch) (Demo.mkWorld ∅ 1) (wrapf "grpc get limits" FlightDemo.canceled)) as (s' & Hr & _ & H1).
  - vm_compute. reflexivity.
  - reflexivity.
  - vm_compute. reflexivity.
  - vm_compute. reflexivity.
  - exists s'. split; [exact Hr|]. apply (H1 1%nat (mkCaller Demo.req CWait)); [vm_compute; reflexivity|].
    right. split; [reflexivity|vm_compute; reflexivity].
Defined.
