(* ===== verification/Clients.v ===== *)
(** * Opening and closing the service clients

    The connection side of the auth client (src/internal/auth/auth.go) and of the
    external limits client (src/internal/ratelimit/external.go): transports,
    credentials, the gRPC connection, the eviction goroutine and [Close], and the
    same for the in-memory limiter (src/internal/ratelimit/fallback.go). What the
    clients do with a connection is in [Auth], [External] and [Flights].
    Reading a CA file and creating a connection are arguments. *)
From S2P Require Import Prelude GoStrings GoTime GoNet ConfigTypes Config Breaker Auth External.

Local Open Scope Z_scope.

(** ** Transports *)

(** The pool of an HTTP client, and whether its requests carry the trace context. *)
Record http_transport := mkTransport {
  ht_dialTimeout : Z; ht_keepAlive : Z; ht_maxIdle : Z; ht_maxIdlePerHost : Z; ht_idleTimeout : Z; ht_tlsTimeout : Z;
  ht_continueTimeout : Z; ht_traced : bool
}.

Definition traced_level (lvl : string) : bool := one_of ["external"; "full"] lvl.

Definition base_transport (traced : bool) : http_transport :=
  mkTransport (5 * Second) (30 * Second) 100 100 (90 * Second) (10 * Second) Second traced.

Definition buildExternalRLTransport (lvl : string) : http_transport := base_transport (traced_level lvl).

(** The variadic level of both constructors: "external" when none is given. *)
Definition tracing_level (levels : list string) : string := match levels with lvl :: _ => lvl | [] => "external" end.

(** ** Connections *)

Inductive credentials := InsecureCreds | TLSCreds (caFile serverName : string).

Inductive service := AuthService | ExternalService.
Definition service_name_of (s : service) : string := match s with AuthService => "auth" | ExternalService => "external ratelimit" end.

(** A client as the program holds it: its idle HTTP connections, the gRPC
    connection, the [done] channel and its [closeOnce]. *)
Record client := mkClient {
  cl_transport : http_transport;
  cl_timeout : Z;
  cl_idle : Z;                             (* idle connections of the pool *)
  cl_grpc : option (string * credentials);
  cl_grpcOpen : bool;
  cl_done : option bool;                   (* None: no channel; Some true: closed *)
  cl_once : bool
}.

Section clients.
Variable NewClientTLSFromFile : string -> string -> option error.   (* the error of reading the CA file *)
Variable grpc_NewClient : string -> credentials -> option error.

(** The gRPC part of the constructors. *)
Definition open_grpc (svc : service) (cfg : GRPCConfig) : result (option (string * credentials)) :=
  if bool_decide (gc_Address cfg = "") then Ok None
  else
    creds ← (if gt_Enabled (gc_TLS cfg) then
               let name := ResolveServerName (gc_TLS cfg) (gc_Address cfg) in
               match NewClientTLSFromFile (gt_CAFile (gc_TLS cfg)) name with
               | Some e => Err (wrapf (service_name_of svc +:+ " grpc tls") e)
               | None => Ok (TLSCreds (gt_CAFile (gc_TLS cfg)) name)
               end
             else Ok InsecureCreds);
    match grpc_NewClient (gc_Address cfg) creds with
    | Some e => Err (wrapf (service_name_of svc +:+ " grpc dial") e)
    | None => Ok (Some (gc_Address cfg, creds))
    end.

Definition open_auth (cfg : AuthConfig) (levels : list string) : result client :=
  conn ← open_grpc AuthService (au_GRPC cfg);
  Ok (mkClient (base_transport (traced_level (tracing_level levels))) (auth_timeout (NewAuthClient cfg)) 0 conn
        (bool_decide (is_Some conn)) None false).

(** The external client also starts the eviction goroutine, with the period of
    its ticker; [time.NewTicker] panics on a period that is not positive. *)
Definition open_external (cfg : ExternalRLConfig) (levels : list string) : result (client * Z) :=
  conn ← open_grpc ExternalService (xr_GRPC cfg);
  Ok (mkClient (buildExternalRLTransport (tracing_level levels))
        (match time_ParseDuration (xr_Timeout cfg) with Some d => d | None => 5 * Second end) 0 conn
        (bool_decide (is_Some conn)) (Some false) false,
      resolveCBResetTimeout (cb_ResetTimeout (xr_CircuitBreaker cfg))).

(** [Close] of both clients; [None] is a panic, which closing a closed channel
    would be. The error is that of the gRPC connection. *)
Definition client_Close (c : client) : option (client * option error) :=
  done ← (match cl_done c with
          | None => Some None
          | Some closed => if cl_once c then Some (Some closed) else if closed then None else Some (Some true)
          end);
  let once := match cl_done c with None => cl_once c | Some _ => true end in
  let err := match cl_grpc c with
             | None => None
             | Some _ => if cl_grpcOpen c then None else Some (errorf "grpc: the client connection is closing")
             end in
  Some (mkClient (cl_transport c) (cl_timeout c) 0 (cl_grpc c) false done once, err).

Fixpoint close_times (n : nat) (c : client) : option client :=
  match n with O => Some c | S n => r ← client_Close c; close_times n r.1 end.
End clients.

(** ** The eviction goroutine *)

Inductive evict_phase := EvictRunning | EvictReturned.

(** A tick of the ticker at a time, or the closed channel. *)
Inductive evict_event := EvTick (now : Z) | EvDone.

Definition evict_step (c : client) (st : evict_phase * breakers) (e : evict_event) : option (evict_phase * breakers) :=
  match st.1, e with
  | EvictRunning, EvTick now => Some (EvictRunning, evictStaleBreakers st.2 now)
  | EvictRunning, EvDone => if bool_decide (cl_done c = Some true) then Some (EvictReturned, st.2) else None
  | EvictReturned, _ => None
  end.

(** ** The in-memory limiter *)

(** [InMemoryLimiter.Close]; ristretto's [Close] may be called again. *)
Definition InMemory_Close (cache : option bool) : option bool := (fun _ => false) <$> cache.

(** ** Theorems *)

Lemma resolveCBResetTimeout_pos s : 0 < resolveCBResetTimeout s.
Proof.
  unfold resolveCBResetTimeout. destruct (time_ParseDuration s) as [d|]; [|done].
  destruct (_ && (0 <? d)) eqn:E; [|done]. apply andb_true_iff in E as [_ E]. lia.
Qed.

Section facts.
Variable NewClientTLSFromFile : string -> string -> option error.
Variable grpc_NewClient : string -> credentials -> option error.

(** Credentials are never weaker than configured: with TLS on, a client has TLS
    credentials of the configured CA file or is not built at all. *)
Lemma open_grpc_spec svc cfg conn :
  open_grpc NewClientTLSFromFile grpc_NewClient svc cfg = Ok conn ->
  match conn with
  | None => gc_Address cfg = ""
  | Some (addr, creds) =>
      addr = gc_Address cfg /\ addr <> ""
      /\ creds = (if gt_Enabled (gc_TLS cfg) then TLSCreds (gt_CAFile (gc_TLS cfg)) (ResolveServerName (gc_TLS cfg) addr) else InsecureCreds)
  end.
Proof.
  unfold open_grpc. case_bool_decide as Ha; [by intros [= <-]|]. unfold mbind, result_bind.
  destruct (gt_Enabled (gc_TLS cfg)).
  - destruct (NewClientTLSFromFile _ _); [done|]. destruct (grpc_NewClient _ _); [done|]. by intros [= <-].
  - destruct (grpc_NewClient _ _); [done|]. by intros [= <-].
Qed.

(** The state after the first [Close]. *)
Definition closed_client (c : client) : Prop :=
  cl_idle c = 0 /\ cl_grpcOpen c = false /\ (forall b, cl_done c = Some b -> b = true /\ cl_once c = true).

Lemma client_Close_closed c :
  (cl_done c = Some true -> cl_once c = true) -> (cl_once c = true -> cl_done c <> Some false) ->
  exists c' err, client_Close c = Some (c', err) /\ closed_client c' /\ (cl_done c' = Some true <-> cl_done c <> None).
Proof.
  intros H1 H2. unfold client_Close. destruct (cl_done c) as [[]|] eqn:Ed.
  - rewrite (H1 eq_refl). cbn. do 2 eexists. split; [reflexivity|]. split; [|done]. split_and!; [done|done|]. by intros b [= <-].
  - destruct (cl_once c); [by destruct H2|]. cbn. do 2 eexists. split; [reflexivity|]. split; [|done]. split_and!; [done|done|].
    by intros b [= <-].
  - cbn. do 2 eexists. split; [reflexivity|]. split; [|done]. by split_and!.
Qed.

(** Closing again keeps it closed. *)
Lemma close_times_done m : forall x, closed_client x -> cl_done x = Some true ->
  exists y, close_times m x = Some y /\ closed_client y /\ cl_done y = Some true.
Proof.
  induction m as [|m IH]; intros x Hx Hdx; [eauto|]. cbn. destruct (client_Close_closed x) as (y & e & Hy & Hyc & Hyd).
  - intros E. by destruct (proj2 (proj2 Hx) _ E).
  - intros _ E. by destruct (proj2 (proj2 Hx) _ E).
  - rewrite Hy. cbn. apply IH; [done|]. apply Hyd. by rewrite Hdx.
Qed.

(** Clients of the auth and the external service. A client that was built uses
    gRPC exactly when an address is configured, over TLS with the configured CA and
    server name exactly when TLS is on; a CA file that cannot be read is an error
    and never a plaintext connection. The period of the eviction ticker is
    positive. [Close] may be called any number of times without closing a channel
    twice, and after it no connection is left and the eviction goroutine can only
    return. *)
Theorem clients_open_and_close cfg levels cl period n :
  open_external NewClientTLSFromFile grpc_NewClient cfg levels = Ok (cl, period) ->
  match cl_grpc cl with
  | None => gc_Address (xr_GRPC cfg) = ""
  | Some (addr, creds) =>
      addr = gc_Address (xr_GRPC cfg)
      /\ creds = (if gt_Enabled (gc_TLS (xr_GRPC cfg))
                  then TLSCreds (gt_CAFile (gc_TLS (xr_GRPC cfg))) (ResolveServerName (gc_TLS (xr_GRPC cfg)) addr) else InsecureCreds)
  end
  /\ 0 < period
  /\ exists cl', close_times (S n) cl = Some cl' /\ cl_idle cl' = 0 /\ cl_grpcOpen cl' = false
       /\ (forall b, evict_step cl' (EvictRunning, b) EvDone = Some (EvictReturned, b)).
Proof.
  unfold open_external, mbind, result_bind. destruct (open_grpc _ _ _ _) as [conn|] eqn:Eo; [|done]. intros [= <- <-].
  apply open_grpc_spec in Eo. cbn [cl_grpc]. split_and!; [|apply resolveCBResetTimeout_pos|].
  - destruct conn as [[addr creds]|]; [|done]. by destruct Eo as (? & _ & ?).
  - set (c := mkClient _ _ _ _ _ _ _). destruct (client_Close_closed c) as (c' & err & Hc & Hcl & Hd); [done|done|].
    cbn [close_times]. rewrite Hc. cbn [mbind option_bind fst].
    assert (cl_done c' = Some true) as Hd' by (by apply Hd).
    destruct (close_times_done n c' Hcl Hd') as (y & Hy & (Hi & Hg & _) & Hdy). exists y. split_and!; [done|done|done|].
    intros b. unfold evict_step. cbn. by rewrite bool_decide_eq_true_2.
Qed.
End facts.

Lemma clients_open_and_close_witness :
  let cfg := mkExternalRLConfig true "2s" "" "" (mkGRPCConfig "limits:9000" (mkGRPCTLSConfig true "/ca.pem" "")) no_filter
               (xr_Fallback (rl_External (cfg_RateLimit Defaults))) 0 0 "" (xr_CircuitBreaker (rl_External (cfg_RateLimit Defaults))) in
  exists cl period, open_external (fun _ _ => None) (fun _ _ => None) cfg [] = Ok (cl, period)
    /\ cl_grpc cl = Some ("limits:9000", TLSCreds "/ca.pem" "limits") /\ 0 < period.
Proof.
  intros cfg. do 2 eexists. split; [reflexivity|]. split; [reflexivity|].
  eapply (clients_open_and_close (fun _ _ => None) (fun _ _ => None) cfg []  _ _ 2). reflexivity.
Defined.
