(* ===== verification/CacheControl.v ===== *)
(** * Response-cache rules

    The parsing half of [internal/cache/cache.go]: Cache-Control, Vary and
    surrogate-key headers, the cacheability decision and the cache keys. *)
From S2P Require Import Prelude GoStrings GoNet.
From Stdlib Require Import Ascii.

Local Open Scope Z_scope.

(** ** Directives *)

Definition push (c : ascii) (r : string * list string) : string * list string := (String c r.1, r.2).

(** The loop of [splitDirectives] from a point of the text: the piece being
    built and the pieces after it. *)
Fixpoint split_from (inQuotes escaped : bool) (cc : string) : string * list string :=
  match cc with
  | EmptyString => ("", [])
  | String r rest =>
      if escaped then push r (split_from inQuotes false rest)
      else if bool_decide (r = backslash) && inQuotes then push r (split_from inQuotes true rest)
      else if bool_decide (r = dquote) then push r (split_from (negb inQuotes) false rest)
      else if bool_decide (r = ","%char) && negb inQuotes then
        let '(h, t) := split_from inQuotes false rest in ("", h :: t)
      else push r (split_from inQuotes false rest)
  end.

Definition splitDirectives (cc : string) : list string :=
  let '(h, t) := split_from false false cc in h :: t.

Record CacheControl := mkCacheControl {
  MaxAge : Z;
  SMaxAge : Z;
  HasSMaxAge : bool;
  NoStore : bool;
  NoCache : bool;
  Private : bool;
  Public : bool;
  MustRevalidate : bool
}.

Definition no_directives : CacheControl := mkCacheControl 0 0 false false false false false false.

(** The lower-case name and the unquoted argument of a directive. *)
Definition directive_name (d : string) : string := let '(n, _, _) := Cut "=" d in ToLower (TrimSpace n).
Definition directive_value (d : string) : string :=
  let '(_, v, _) := Cut "=" d in trim (fun c => bool_decide (c = dquote)) (TrimSpace v).

Definition apply_directive (c : CacheControl) (d : string) : CacheControl :=
  let name := directive_name d in
  let value := directive_value d in
  if bool_decide (name = "max-age") then
    match Atoi value with
    | Some s => if 0 <? s
                then mkCacheControl (wrap64 (s * Second)) (SMaxAge c) (HasSMaxAge c) (NoStore c) (NoCache c) (Private c) (Public c) (MustRevalidate c)
                else c
    | None => c
    end
  else if bool_decide (name = "s-maxage") then
    match Atoi value with
    | Some s => if 0 <=? s
                then mkCacheControl (MaxAge c) (wrap64 (s * Second)) true (NoStore c) (NoCache c) (Private c) (Public c) (MustRevalidate c)
                else c
    | None => c
    end
  else if bool_decide (name = "no-store") then
    mkCacheControl (MaxAge c) (SMaxAge c) (HasSMaxAge c) true (NoCache c) (Private c) (Public c) (MustRevalidate c)
  else if bool_decide (name = "no-cache") then
    mkCacheControl (MaxAge c) (SMaxAge c) (HasSMaxAge c) (NoStore c) true (Private c) (Public c) (MustRevalidate c)
  else if bool_decide (name = "private") then
    mkCacheControl (MaxAge c) (SMaxAge c) (HasSMaxAge c) (NoStore c) (NoCache c) true (Public c) (MustRevalidate c)
  else if bool_decide (name = "public") then
    mkCacheControl (MaxAge c) (SMaxAge c) (HasSMaxAge c) (NoStore c) (NoCache c) (Private c) true (MustRevalidate c)
  else if bool_decide (name = "must-revalidate") then
    mkCacheControl (MaxAge c) (SMaxAge c) (HasSMaxAge c) (NoStore c) (NoCache c) (Private c) (Public c) true
  else c.

Definition ParseCacheControl (cc : string) : CacheControl :=
  fold_left apply_directive (splitDirectives cc) no_directives.

(** ** Cacheability *)

Definition TrailerPrefix : string := "Trailer:".

Definition is_set_cookie (name : string) : bool :=
  bool_decide (CanonicalHeaderKey (TrimPrefix name TrailerPrefix) = "Set-Cookie").

Definition responseHasSetCookie (h : Header) : bool :=
  existsb is_set_cookie (map fst (map_to_list h)).

(** [None] is Go's [(0, false)]. *)
Definition IsCacheable (r : option Request) (statusCode : Z) (header : Header) : option Z :=
  if negb (statusCode =? 200) && negb (statusCode =? 301) then None
  else if responseHasSetCookie header then None
  else
    let lines := Header_Values header "Cache-Control" in
    if bool_decide (length lines = 0%nat) then None
    else
      let cc := ParseCacheControl (Join "," lines) in
      if NoStore cc || NoCache cc || Private cc then None
      else if match r with
              | Some r => negb (bool_decide (Header_Get (ReqHeader r) "Authorization" = ""))
              | None => false
              end && negb (Public cc) && negb (HasSMaxAge cc) && negb (MustRevalidate cc) then None
      else
        let ttl := if HasSMaxAge cc then SMaxAge cc else MaxAge cc in
        if ttl <=? 0 then None else Some ttl.

(** ** Vary and tags *)

(** [None] is Go's [(nil, false)]. *)
Fixpoint vary_names (names : list string) : option (list string) :=
  match names with
  | [] => Some []
  | h :: rest =>
      let h := TrimSpace h in
      if bool_decide (h = "") then vary_names rest
      else if bool_decide (h = "*") then None
      else (CanonicalHeaderKey h ::.) <$> vary_names rest
  end.

Definition ParseVary (header : Header) : option (list string) :=
  vary_names (concat (map (Split ",") (Header_Values header "Vary"))).

Definition ParseSurrogateKey (header : Header) : list string :=
  let sk := Header_Get header "Surrogate-Key" in
  let sk := if bool_decide (sk = "") then Header_Get header "Cache-Tag" else sk in
  if bool_decide (sk = "") then []
  else filter (fun t => t ≠ "") (map TrimSpace (Split " " sk)).

(** ** Keys *)

Section keys.
Variable EscapedPath : URL -> string.     (* url.URL.EscapedPath *)

Definition baseKey (method : string) (u : URL) : string :=
  method +:+ "|" +:+ EscapedPath u +:+
  (if bool_decide (URL_RawQuery u = "") then "" else "?" +:+ URL_RawQuery u).

Definition vary_part (r : Request) (h : string) : string := "|" +:+ h +:+ "=" +:+ Header_Get (ReqHeader r) h.

Definition KeyFromRequest (r : Request) (varyHeaders : list string) : string :=
  let key := baseKey (Method r) (ReqURL r) in
  if bool_decide (length varyHeaders = 0%nat) then key
  else key +:+ foldr String.append "" (map (vary_part r) (SortStrings varyHeaders)).

(** [KeyFromURL] over the URL that [url.ParseRequestURI] returned. *)
Definition KeyFromURL (method : string) (parsed : result URL) : result string :=
  u ← parsed; Ok (baseKey method u).
End keys.

(** ** Splitting loses nothing *)

Lemma split_from_join cc : forall q e,
  Join "," ((split_from q e cc).1 :: (split_from q e cc).2) = cc.
Proof.
  assert (forall c r, Join "," ((push c r).1 :: (push c r).2) = String c (Join "," (r.1 :: r.2))) as Hp.
  { intros c [h [|x t]]; simpl; [done|]. by rewrite app_cons_s. }
  induction cc as [|r cc IH]; intros q e; [done|]. cbn [split_from].
  destruct e; [by rewrite Hp, IH|].
  destruct (_ && q); [by rewrite Hp, IH|].
  destruct (bool_decide (r = dquote)); [by rewrite Hp, IH|].
  destruct (bool_decide_reflect (r = ","%char)) as [->|]; [|cbn [andb]; by rewrite Hp, IH].
  destruct q; cbn [andb negb]; [by rewrite Hp, IH|].
  specialize (IH false false). destruct (split_from false false cc) as [h t]. cbn [fst snd] in *.
  rewrite Join_cons by done. by rewrite IH.
Qed.

(** Joining what was split gives the header back. *)
Lemma Join_splitDirectives cc : Join "," (splitDirectives cc) = cc.
Proof. unfold splitDirectives. pose proof (split_from_join cc false false) as H. by destruct (split_from _ _ _). Qed.

(** The quoting state at the end of a text. *)
Fixpoint quote_state (inQuotes escaped : bool) (cc : string) : bool * bool :=
  match cc with
  | EmptyString => (inQuotes, escaped)
  | String r rest =>
      if escaped then quote_state inQuotes false rest
      else if bool_decide (r = backslash) && inQuotes then quote_state inQuotes true rest
      else if bool_decide (r = dquote) then quote_state (negb inQuotes) false rest
      else quote_state inQuotes false rest
  end.

(** Every quoted string of the text is closed. *)
Definition balanced (cc : string) : Prop := (quote_state false false cc).1 = false.

Lemma split_from_app a : forall q e b,
  quote_state q e a = (false, false) ->
  split_from q e (a +:+ String "," b)
  = ((split_from q e a).1, (split_from q e a).2 ++ splitDirectives b).
Proof.
  induction a as [|r a IH]; intros q e b.
  - cbn [quote_state]. intros [= -> ->]. rewrite app_nil_s. unfold splitDirectives. cbn [split_from].
    rewrite andb_false_r. change (bool_decide (","%char = dquote)) with false.
    change (bool_decide (","%char = ","%char)) with true. cbn [andb negb].
    by destruct (split_from false false b) as [h t].
  - rewrite app_cons_s. cbn [quote_state split_from].
    destruct e; [intros H; by rewrite IH|].
    destruct (_ && q); [intros H; by rewrite IH|].
    destruct (bool_decide (r = dquote)); [intros H; by rewrite IH|].
    intros H. destruct (_ && negb q); [|by rewrite IH].
    rewrite IH by done. by destruct (split_from q false a) as [h t].
Qed.

Lemma splitDirectives_app a b :
  quote_state false false a = (false, false) ->
  splitDirectives (a +:+ "," +:+ b) = splitDirectives a ++ splitDirectives b.
Proof.
  intros H. unfold splitDirectives at 1. change ("," +:+ b) with (String "," b).
  rewrite split_from_app by done. unfold splitDirectives. by destruct (split_from false false a).
Qed.

(** An escape only exists inside quotes. *)
Lemma quote_state_escaped cc : forall q e, (e = true -> q = true) ->
  (quote_state q e cc).2 = true -> (quote_state q e cc).1 = true.
Proof.
  induction cc as [|r cc IH]; intros q e H; simpl; [done|].
  destruct e; [apply IH; done|]. destruct (_ && q) eqn:E; [bools; subst; apply IH; done|].
  destruct (bool_decide (r = dquote)); apply IH; done.
Qed.

Lemma balanced_state cc : balanced cc -> quote_state false false cc = (false, false).
Proof.
  unfold balanced. intros H. pose proof (quote_state_escaped cc false false ltac:(done)) as He.
  destruct (quote_state false false cc) as [[] []]; simpl in *; try done. by specialize (He eq_refl).
Qed.

(** The directives of several balanced field lines are those of each line. *)
Lemma splitDirectives_lines lines :
  Forall balanced lines -> lines ≠ [] ->
  splitDirectives (Join "," lines) = concat (map splitDirectives lines).
Proof.
  induction lines as [|l ls IH]; [done|]. intros [Hl Hls]%Forall_cons _. destruct ls as [|l2 ls].
  { simpl. by rewrite app_nil_r. }
  rewrite Join_cons by done. rewrite splitDirectives_app by by apply balanced_state.
  rewrite IH by done. done.
Qed.

(** ** What the parsed flags mean *)

Definition has_directive (name cc : string) : bool :=
  existsb (fun d => bool_decide (directive_name d = name)) (splitDirectives cc).

(** Fold over the directives: a flag is the disjunction over its directives. *)
Lemma fold_flag (flag : CacheControl -> bool) (P : string -> bool) l : forall c,
  (forall c d, flag (apply_directive c d) = flag c || P d) ->
  flag (fold_left apply_directive l c) = flag c || existsb P l.
Proof.
  induction l as [|d l IH]; intros c H; simpl; [by rewrite orb_false_r|].
  rewrite IH by done. by rewrite H, orb_assoc.
Qed.

Ltac flag_step :=
  intros c d; unfold apply_directive;
  repeat match goal with
  | |- context [bool_decide (directive_name d = ?n)] =>
      destruct (bool_decide_reflect (directive_name d = n)) as [->|]
  end;
  repeat (case_match; simpl); by rewrite ?orb_false_r, ?orb_true_r.

Lemma NoStore_spec cc : NoStore (ParseCacheControl cc) = has_directive "no-store" cc.
Proof. unfold ParseCacheControl, has_directive. rewrite (fold_flag NoStore (fun d => bool_decide (directive_name d = "no-store"))); [done|]. flag_step. Qed.
Lemma NoCache_spec cc : NoCache (ParseCacheControl cc) = has_directive "no-cache" cc.
Proof. unfold ParseCacheControl, has_directive. rewrite (fold_flag NoCache (fun d => bool_decide (directive_name d = "no-cache"))); [done|]. flag_step. Qed.
Lemma Private_spec cc : Private (ParseCacheControl cc) = has_directive "private" cc.
Proof. unfold ParseCacheControl, has_directive. rewrite (fold_flag Private (fun d => bool_decide (directive_name d = "private"))); [done|]. flag_step. Qed.
Lemma Public_spec cc : Public (ParseCacheControl cc) = has_directive "public" cc.
Proof. unfold ParseCacheControl, has_directive. rewrite (fold_flag Public (fun d => bool_decide (directive_name d = "public"))); [done|]. flag_step. Qed.
Lemma MustRevalidate_spec cc : MustRevalidate (ParseCacheControl cc) = has_directive "must-revalidate" cc.
Proof. unfold ParseCacheControl, has_directive. rewrite (fold_flag MustRevalidate (fun d => bool_decide (directive_name d = "must-revalidate"))); [done|]. flag_step. Qed.

Lemma HasSMaxAge_directive cc : HasSMaxAge (ParseCacheControl cc) = true -> has_directive "s-maxage" cc = true.
Proof.
  unfold ParseCacheControl, has_directive.
  assert (forall l c, HasSMaxAge (fold_left apply_directive l c) = true ->
    HasSMaxAge c || existsb (fun d => bool_decide (directive_name d = "s-maxage")) l = true) as Hf.
  { induction l as [|d l IH]; intros c; simpl; [by rewrite orb_false_r|].
    intros H%IH. apply orb_true_iff in H as [H|H]; [|by rewrite H, !orb_true_r].
    assert (HasSMaxAge c || bool_decide (directive_name d = "s-maxage") = true) as Hd.
    { revert H. unfold apply_directive.
      destruct (bool_decide_reflect (directive_name d = "s-maxage")) as [->|]; [by rewrite orb_true_r|].
      repeat case_match; simpl; by intros ->. }
    by rewrite orb_assoc, Hd. }
  intros H. by apply Hf in H.
Qed.

Lemma responseHasSetCookie_spec h :
  responseHasSetCookie h = false <-> forall name vs, h !! name = Some vs -> is_set_cookie name = false.
Proof.
  unfold responseHasSetCookie. split.
  - intros H name vs Hn. destruct (is_set_cookie name) eqn:E; [|done].
    rewrite <- H. symmetry. apply existsb_exists. exists name. split; [|done].
    apply list_elem_of_In, list_elem_of_fmap. exists (name, vs). by rewrite elem_of_map_to_list.
  - intros H. apply not_true_iff_false. intros (name & Hin & Hc)%existsb_exists.
    apply list_elem_of_In, list_elem_of_fmap in Hin as ([n vs] & -> & Hin).
    apply elem_of_map_to_list in Hin. apply H in Hin. simpl in Hc. congruence.
Qed.

(** The facts behind a positive decision. *)
Lemma IsCacheable_inv r status h ttl :
  IsCacheable r status h = Some ttl ->
  (status = 200 \/ status = 301) /\ responseHasSetCookie h = false /\
  Header_Values h "Cache-Control" ≠ [] /\
  let cc := Join "," (Header_Values h "Cache-Control") in
  has_directive "no-store" cc = false /\ has_directive "no-cache" cc = false /\
  has_directive "private" cc = false /\
  (match r with Some r => Header_Get (ReqHeader r) "Authorization" ≠ "" | None => False end ->
   has_directive "public" cc = true \/ has_directive "s-maxage" cc = true \/
   has_directive "must-revalidate" cc = true) /\
  0 < ttl.
Proof.
  unfold IsCacheable. destruct (negb _ && negb _) eqn:Es; [done|].
  destruct (responseHasSetCookie h) eqn:Ec; [done|]. case_bool_decide as El; [done|].
  set (cc := Join "," _). rewrite NoStore_spec, NoCache_spec, Private_spec, Public_spec, MustRevalidate_spec.
  destruct (_ || _) eqn:Er; [done|]. apply orb_false_iff in Er as [Er E3]. apply orb_false_iff in Er as [E1 E2].
  destruct (_ && negb (has_directive "must-revalidate" cc)) eqn:Ea; [done|].
  destruct (_ <=? 0) eqn:Et; [done|]. intros [= <-]. bools.
  split; [apply andb_false_iff in Es as [Es|Es]; bools; auto|].
  split; [done|]. split; [by intros E; rewrite E in El|]. repeat split; try done.
  intros Hauth. destruct r as [r|]; [|done].
  rewrite bool_decide_eq_false_2 in Ea by done. simpl in Ea.
  apply andb_false_iff in Ea as [Ea|Ea]; [|bools; auto].
  apply andb_false_iff in Ea as [Ea|Ea]; bools; [auto|]. right. left. by apply HasSMaxAge_directive.
Qed.

(** C5: Only responses that are safe to share are cached. If [IsCacheable] accepts a
    response then its status is 200 or 301; no header is Set-Cookie in any
    spelling, announced or as a trailer; none of its Cache-Control lines (each
    with closed quotes) carries no-store, no-cache or private; a response to a
    request with credentials carries public, s-maxage or must-revalidate; and
    its lifetime is positive. *)
Theorem IsCacheable_safe r status h ttl :
  IsCacheable r status h = Some ttl ->
  Forall balanced (Header_Values h "Cache-Control") ->
  (status = 200 \/ status = 301) /\
  (forall name vs, h !! name = Some vs -> is_set_cookie name = false) /\
  (forall line name, line ∈ Header_Values h "Cache-Control" ->
     name = "no-store" \/ name = "no-cache" \/ name = "private" -> has_directive name line = false) /\
  (match r with Some r => Header_Get (ReqHeader r) "Authorization" ≠ "" | None => False end ->
   exists line, line ∈ Header_Values h "Cache-Control" /\
     (has_directive "public" line = true \/ has_directive "s-maxage" line = true \/
      has_directive "must-revalidate" line = true)) /\
  0 < ttl.
Proof.
  intros (Hs & Hc & Hn & H1 & H2 & H3 & Ha & Ht)%IsCacheable_inv Hb.
  assert (forall name, has_directive name (Join "," (Header_Values h "Cache-Control"))
          = existsb (has_directive name) (Header_Values h "Cache-Control")) as HD.
  { intros name. unfold has_directive at 1. rewrite splitDirectives_lines by done.
    generalize (Header_Values h "Cache-Control"). intros ls. induction ls as [|l ls IH]; [done|].
    cbn [map concat existsb]. by rewrite existsb_app, IH. }
  rewrite !HD in *. split; [done|]. split; [by apply responseHasSetCookie_spec|]. split; [|split; [|done]].
  - intros line name Hl Hname. destruct (has_directive name line) eqn:E; [|done].
    assert (existsb (has_directive name) (Header_Values h "Cache-Control") = true) as Hx.
    { apply existsb_exists. exists line. by rewrite <- list_elem_of_In. }
    destruct Hname as [->|[->| ->]]; congruence.
  - intros Hauth. specialize (Ha Hauth).
    assert (forall name, existsb (has_directive name) (Header_Values h "Cache-Control") = true ->
              exists line, line ∈ Header_Values h "Cache-Control" /\ has_directive name line = true) as Hx.
    { intros name (line & Hin & Hd)%existsb_exists. exists line. by rewrite list_elem_of_In. }
    destruct Ha as [Ha|[Ha|Ha]]; apply Hx in Ha as (line & ? & ?); eauto.
Qed.

Definition demo_response : Header :=
  {[ "Cache-Control" := ["public, max-age=60"; "ext=" +:+ String dquote "a, no-store" +:+ String dquote ""] ]}.

Lemma IsCacheable_safe_witness :
  IsCacheable None 200 demo_response = Some (60 * Second) /\
  (forall line name, line ∈ Header_Values demo_response "Cache-Control" ->
     name = "no-store" \/ name = "no-cache" \/ name = "private" -> has_directive name line = false).
Proof.
  assert (IsCacheable None 200 demo_response = Some (60 * Second)) as E by (vm_compute; reflexivity).
  split; [exact E|].
  apply (IsCacheable_safe None 200 demo_response (60 * Second) E).
  vm_compute Header_Values. repeat constructor.
Defined.

(** An unclosed quote hides the next line. Joining the field lines before
    splitting lets an unterminated quoted string on one Cache-Control line
    swallow a no-store on the next one: the response is cached for a minute. *)
Theorem unclosed_quote_hides_no_store :
  let h : Header := {[ "Cache-Control" := ["max-age=60, ext=" +:+ String dquote "a"; "no-store"] ]} in
  IsCacheable None 200 h = Some (60 * Second) /\
  existsb (has_directive "no-store") (Header_Values h "Cache-Control") = true.
Proof. split; vm_compute; reflexivity. Qed.

(** ** Vary *)

Lemma vary_names_spec names :
  vary_names names = (if existsb (fun h => bool_decide (TrimSpace h = "*")) names then None
                      else Some (map CanonicalHeaderKey (filter (fun h => h ≠ "") (map TrimSpace names)))).
Proof.
  induction names as [|h names IH]; [done|]. cbn [vary_names existsb map].
  destruct (bool_decide_reflect (TrimSpace h = "")) as [E|E].
  - rewrite E. simpl. rewrite filter_cons_False by (by intros Hx). by rewrite IH.
  - destruct (bool_decide_reflect (TrimSpace h = "*")); [done|]. simpl.
    rewrite filter_cons_True by done. rewrite IH. by destruct (existsb _ _).
Qed.

(** Vary is honoured completely. A "*" anywhere in any Vary line makes the
    response uncacheable; otherwise every non-empty name of every line is part
    of the key, in canonical form. *)
Theorem ParseVary_spec h :
  ParseVary h =
    let names := concat (map (Split ",") (Header_Values h "Vary")) in
    if existsb (fun n => bool_decide (TrimSpace n = "*")) names then None
    else Some (map CanonicalHeaderKey (filter (fun n => n ≠ "") (map TrimSpace names))).
Proof. apply vary_names_spec. Qed.

(** ** Keys *)

(** Requests that agree on what the key is made of have the same key. *)
Lemma KeyFromRequest_ext EscapedPath r r' vary vary' :
  Method r = Method r' -> EscapedPath (ReqURL r) = EscapedPath (ReqURL r') ->
  URL_RawQuery (ReqURL r) = URL_RawQuery (ReqURL r') ->
  vary ≡ₚ vary' ->
  (forall h, h ∈ vary -> Header_Get (ReqHeader r) h = Header_Get (ReqHeader r') h) ->
  KeyFromRequest EscapedPath r vary = KeyFromRequest EscapedPath r' vary'.
Proof.
  intros Hm Hp Hq Hv Hh. unfold KeyFromRequest, baseKey. rewrite Hm, Hp, Hq, (SortStrings_perm _ _ Hv).
  rewrite (Permutation_length Hv). case_bool_decide; [done|]. f_equal. f_equal. apply list_fmap_ext. intros i h Hi.
  apply list_elem_of_lookup_2 in Hi. rewrite SortStrings_permutation, <- Hv in Hi.
  unfold vary_part. by rewrite Hh.
Qed.

(** The cache key of a request depends on its method, target and Vary'd headers
    only, and not on the order in which the origin lists them. Requests that
    agree on these get the same key, also when the Vary list is permuted. *)
Theorem KeyFromRequest_stable EscapedPath r r' vary vary' :
  Method r = Method r' -> EscapedPath (ReqURL r) = EscapedPath (ReqURL r') ->
  URL_RawQuery (ReqURL r) = URL_RawQuery (ReqURL r') ->
  vary ≡ₚ vary' ->
  (forall h, h ∈ vary -> Header_Get (ReqHeader r) h = Header_Get (ReqHeader r') h) ->
  KeyFromRequest EscapedPath r vary = KeyFromRequest EscapedPath r' vary'.
Proof. apply KeyFromRequest_ext. Qed.

Definition demo_get (q : string) (h : Header) : Request :=
  mkRequest "GET" (mkURL "" "" "/x" q) "" "h" "1.2.3.4:5" h 1 false 0.

Lemma KeyFromRequest_stable_witness :
  KeyFromRequest URL_Path (demo_get "" {[ "Accept" := ["a"]; "Cookie" := ["1"] ]}) ["Accept"; "Origin"]
  = KeyFromRequest URL_Path (demo_get "" {[ "Accept" := ["a"] ]}) ["Origin"; "Accept"].
Proof.
  apply KeyFromRequest_stable; try reflexivity.
  - apply perm_swap.
  - intros h Hh. apply elem_of_cons in Hh as [->|Hh]; [reflexivity|].
    apply elem_of_cons in Hh as [->|Hh]; [reflexivity|]. apply elem_of_nil in Hh. destruct Hh.
Defined.

(** Base keys and Vary keys share one name space. The base key of a request
    whose raw query contains "|Accept-Encoding=gzip" is the Vary key of the
    plain request's gzip variant, so one can overwrite the other's entry. *)
Theorem cache_key_collision :
  KeyFromRequest URL_Path (demo_get "a|Accept-Encoding=gzip" ∅) [] =
  KeyFromRequest URL_Path (demo_get "a" {[ "Accept-Encoding" := ["gzip"] ]}) ["Accept-Encoding"].
Proof. vm_compute. reflexivity. Qed.
