(* ===== verification/CacheStore.v ===== *)
(** * The response-cache store

    The Redis half of [internal/cache/cache.go]: entries, the tag index, purges,
    and the reachability the store reports. Redis is a parameter: [CacheRedis]
    lists the commands, each of which steps a world and may fail; [encode] and
    [decode] are the JSON codec. *)
From S2P Require Import Prelude GoStrings GoNet RedisClient CacheControl.
From Stdlib Require Import Ascii.

Local Open Scope Z_scope.

Definition keyPrefix : string := "eq:cache:".
Definition tagPrefix : string := "eq:tags:".

Record Entry := mkEntry {
  StatusCode : Z;
  Headers : Header;
  Body : string;
  Vary : list string;
  Tags : list string;
  CreatedAt : Z
}.

(** The store with what its hooks have reported: the [OnHealthy] calls in order,
    and how often [OnRedisError], [OnStore] and [OnPurge] fired. *)
Record Store := mkStore {
  s_maxBodySize : Z;
  s_healthy : bool;
  s_gauge : list bool;
  s_errors : nat;
  s_stores : nat;
  s_purges : nat
}.

Definition defaultMaxBodySize : Z := 2 ^ 20.
Definition NewStore (maxBodySize : option Z) : Store :=
  mkStore (default defaultMaxBodySize maxBodySize) true [] 0 0 0.

(** ** Health *)

(** The locked section of [setHealthy]; the lock-free check before it has no
    effect of its own. *)
Definition setHealthy (s : Store) (healthy : bool) : Store :=
  if bool_decide (s_healthy s = healthy) then s
  else mkStore (s_maxBodySize s) healthy (s_gauge s ++ [healthy]) (s_errors s) (s_stores s) (s_purges s).

Definition ReportHealth (s : Store) : Store :=
  mkStore (s_maxBodySize s) (s_healthy s) (s_gauge s ++ [s_healthy s]) (s_errors s) (s_stores s) (s_purges s).

Definition count_error (s : Store) : Store :=
  mkStore (s_maxBodySize s) (s_healthy s) (s_gauge s) (S (s_errors s)) (s_stores s) (s_purges s).

Definition noteRedis (s : Store) (err : option error) : Store :=
  match err with
  | None => setHealthy s true
  | Some e =>
      if IsNilErr err then setHealthy s true
      else if IsCanceledErr err then s
      else
        let s := count_error s in
        if IsConnectivityErr err then setHealthy s false else s
  end.

(** ** Commands *)

Class CacheRedis (W : Type) := {
  cr_get : W -> string -> W * result string;
  cr_set : W -> string -> string -> Z -> W * option error;
  cr_sadd : W -> string -> string -> W * option error;
  cr_pttl : W -> string -> Z;
  cr_pexpire : W -> string -> Z -> W * option error;
  cr_smembers : W -> string -> W * result (list string);
  cr_del : W -> list string -> W * result Z
}.

Section store.
Context {W : Type} `{CacheRedis W}.
Variable encode : Entry -> string.
Variable decode : string -> option Entry.

(** [growOnlyExpireLua]: set the lifetime if there is none, else only raise it. *)
Definition growOnlyExpireLua (w : W) (key : string) (ms : Z) : W * option error :=
  let cur := cr_pttl w key in
  if (cur <? 0) || (cur <? ms) then cr_pexpire w key ms else (w, None).

Definition Store_Get (s : Store) (w : W) (key : string) : Store * W * option Entry :=
  let '(w', r) := cr_get w (keyPrefix +:+ key) in
  let s := noteRedis s (err_of r) in
  match r with
  | Err _ => (s, w', None)
  | Ok data => (s, w', decode data)
  end.

(** The loop over the entry's tags: index the key, bound the set's lifetime. *)
Fixpoint index_tags (s : Store) (w : W) (key : string) (ms : Z) (tags : list string) : Store * W :=
  match tags with
  | [] => (s, w)
  | tag :: rest =>
      let '(w1, tagErr) := cr_sadd w (tagPrefix +:+ tag) key in
      let s1 := noteRedis s tagErr in
      match tagErr with
      | Some _ => index_tags s1 w1 key ms rest
      | None =>
          let '(w2, expErr) := growOnlyExpireLua w1 (tagPrefix +:+ tag) ms in
          index_tags (noteRedis s1 expErr) w2 key ms rest
      end
  end.

Definition Store_write (s : Store) (w : W) (key : string) (e : Entry) (ttl : Z) : Store * W * bool :=
  if ttl <=? 0 then (s, w, false) else
  let '(w1, err) := cr_set w (keyPrefix +:+ key) (encode e) ttl in
  let s1 := noteRedis s err in
  match err with
  | Some _ => (s1, w1, false)
  | None => let '(s2, w2) := index_tags s1 w1 key (ttl / Millisecond) (Tags e) in (s2, w2, true)
  end.

Definition Store_Set (s : Store) (w : W) (key : string) (e : Entry) (ttl : Z) : Store * W :=
  let '(s1, w1, ok) := Store_write s w key e ttl in
  if ok then (mkStore (s_maxBodySize s1) (s_healthy s1) (s_gauge s1) (s_errors s1) (S (s_stores s1)) (s_purges s1), w1)
  else (s1, w1).

Definition setIndex (s : Store) (w : W) (key : string) (e : Entry) (ttl : Z) : Store * W :=
  let '(s1, w1, _) := Store_write s w key e ttl in (s1, w1).

Definition purged (s : Store) (n : nat) : Store :=
  mkStore (s_maxBodySize s) (s_healthy s) (s_gauge s) (s_errors s) (s_stores s) (n + s_purges s).

Definition Store_Delete (s : Store) (w : W) (key : string) : Store * W * bool :=
  let '(w', r) := cr_del w [keyPrefix +:+ key] in
  let s := noteRedis s (err_of r) in
  match r with
  | Err _ => (s, w', false)
  | Ok n => if n =? 0 then (s, w', false) else (purged s 1, w', true)
  end.

(** The tag set itself is deleted last, its outcome unrecorded. A failed DEL
    counts zero entries. *)
Definition DeleteByTag (s : Store) (w : W) (tag : string) : Store * W * Z :=
  let '(w1, r) := cr_smembers w (tagPrefix +:+ tag) in
  let s1 := noteRedis s (err_of r) in
  match r with
  | Err _ => (s1, w1, 0)
  | Ok members =>
      if bool_decide (length members = 0%nat) then (s1, w1, 0)
      else
        let '(w2, d) := cr_del w1 (map (fun m => keyPrefix +:+ m) members) in
        let s2 := noteRedis s1 (err_of d) in
        let n := match d with Ok n => n | Err _ => 0 end in
        let '(w3, _) := cr_del w2 [tagPrefix +:+ tag] in
        (purged s2 (Z.to_nat n), w3, n)
  end.

(** ** The reported gauge *)

Inductive store_op :=
| OGet (key : string)
| OSet (key : string) (e : Entry) (ttl : Z)
| OIndex (key : string) (e : Entry) (ttl : Z)
| ODelete (key : string)
| ODeleteByTag (tag : string).

Definition store_apply (sw : Store * W) (o : store_op) : Store * W :=
  let '(s, w) := sw in
  match o with
  | OGet k => (Store_Get s w k).1
  | OSet k e ttl => Store_Set s w k e ttl
  | OIndex k e ttl => setIndex s w k e ttl
  | ODelete k => (Store_Delete s w k).1
  | ODeleteByTag t => (DeleteByTag s w t).1
  end.

(** The last value reported is the current one, and consecutive reports after
    the first alternate. *)
Fixpoint alternating (l : list bool) : Prop :=
  match l with a :: (b :: _) as t => a = negb b /\ alternating t | _ => True end.
Definition gauge_ok (s : Store) : Prop := last (s_gauge s) = Some (s_healthy s) /\ alternating (s_gauge s).

Lemma alternating_snoc l a b : alternating (l ++ [a]) -> a = negb b -> alternating ((l ++ [a]) ++ [b]).
Proof.
  induction l as [|x [|y l] IH]; simpl; [naive_solver|naive_solver|].
  intros [? ?] ?. split; [done|]. by apply IH.
Qed.

Lemma setHealthy_ok s b : gauge_ok s -> gauge_ok (setHealthy s b).
Proof.
  intros [Hl Ha]. unfold setHealthy. case_bool_decide as E; [done|]. split; simpl; [by rewrite last_snoc|].
  apply last_Some in Hl as [l Hl]. rewrite Hl in *. apply alternating_snoc; [done|]. by destruct (s_healthy s), b.
Qed.

Lemma noteRedis_ok s e : gauge_ok s -> gauge_ok (noteRedis s e).
Proof.
  intros H1. unfold noteRedis. destruct e as [e|]; [|by apply setHealthy_ok].
  destruct (IsNilErr _); [by apply setHealthy_ok|]. destruct (IsCanceledErr _); [done|].
  destruct (IsConnectivityErr _); [by apply setHealthy_ok|done].
Qed.

Lemma index_tags_ok tags : forall s w key ms, gauge_ok s -> gauge_ok (index_tags s w key ms tags).1.
Proof.
  induction tags as [|t tags IH]; intros s w key ms Hs; simpl; [done|].
  destruct (cr_sadd _ _ _) as [w1 [e|]]; [by apply IH, noteRedis_ok|].
  destruct (growOnlyExpireLua _ _ _) as [w2 e]. by apply IH, noteRedis_ok, noteRedis_ok.
Qed.

Lemma Store_write_ok s w key e ttl : gauge_ok s -> gauge_ok (Store_write s w key e ttl).1.1.
Proof.
  intros Hs. unfold Store_write. destruct (ttl <=? 0); [done|].
  destruct (cr_set _ _ _ _) as [w1 [err|]]; [by apply noteRedis_ok|].
  pose proof (index_tags_ok (Tags e) (noteRedis s None) w1 key (ttl / Millisecond) (noteRedis_ok _ _ Hs)) as Hi.
  by destruct (index_tags _ _ _ _ _).
Qed.

Lemma store_apply_ok sw o : gauge_ok sw.1 -> gauge_ok (store_apply sw o).1.
Proof.
  destruct sw as [s w]. intros Hs. simpl in Hs. destruct o as [k|k e ttl|k e ttl|k|t]; simpl.
  - unfold Store_Get. destruct (cr_get _ _) as [w' [d|err]]; by apply noteRedis_ok.
  - unfold Store_Set. pose proof (Store_write_ok s w k e ttl Hs) as Hw.
    destruct (Store_write _ _ _ _ _) as [[s1 w1] []]; by apply Hw.
  - unfold setIndex. pose proof (Store_write_ok s w k e ttl Hs) as Hw.
    by destruct (Store_write _ _ _ _ _) as [[s1 w1] ok].
  - unfold Store_Delete. pose proof (fun e => noteRedis_ok s e Hs) as Hn.
    destruct (cr_del _ _) as [w' [n|err]]; [destruct (n =? 0)|]; by apply Hn.
  - unfold DeleteByTag. pose proof (fun e => noteRedis_ok s e Hs) as Hn.
    destruct (cr_smembers _ _) as [w1 [ms|err]]; [|by apply Hn]. case_bool_decide; [by apply Hn|].
    destruct (cr_del w1 _) as [w2 d]. destruct (cr_del w2 _) as [w3 r].
    apply (noteRedis_ok _ (err_of d) (Hn (err_of (Ok ms)))).
Qed.
End store.

(** The health gauge of the response cache never lies. After the store has been
    installed ([ReportHealth]), over any sequence of reads, writes, tag updates
    and purges against any Redis behaviour, the last value reported through
    [OnHealthy] is the store's current state and every report after the first is
    a change. *)
Theorem gauge_lockstep {W} `{CacheRedis W} encode decode ops (s : Store) (w : W) :
  s_gauge s = [] ->
  let s' := (fold_left (store_apply encode decode) ops (ReportHealth s, w)).1 in
  last (s_gauge s') = Some (s_healthy s') /\ alternating (s_gauge s').
Proof.
  intros Hg. assert (forall sw, gauge_ok sw.1 -> gauge_ok (fold_left (store_apply encode decode) ops sw).1) as Hf.
  { induction ops as [|o ops IH]; intros sw Hs; [done|]. simpl. apply IH. by apply store_apply_ok. }
  apply Hf. unfold ReportHealth. split; simpl; rewrite Hg; done.
Qed.

(** A Redis that is down for the first two commands. *)
#[export] Instance flaky_redis : CacheRedis nat := {|
  cr_get := fun n _ => (S n, if (n <? 2)%nat then Err (errorf "dial tcp: connection refused") else Err (mkError "redis: nil" false false true false false false));
  cr_set := fun n _ _ _ => (S n, None);
  cr_sadd := fun n _ _ => (S n, None);
  cr_pttl := fun _ _ => -1;
  cr_pexpire := fun n _ _ => (S n, None);
  cr_smembers := fun n _ => (S n, Ok []);
  cr_del := fun n _ => (S n, Ok 0)
|}.

Lemma gauge_lockstep_witness :
  let s' := (fold_left (store_apply (fun _ => "") (fun _ => None)) [OGet "a"; OGet "b"; OGet "c"]
              (ReportHealth (NewStore None), 0%nat)).1 in
  s_gauge s' = [true; false; true] /\ last (s_gauge s') = Some (s_healthy s') /\ alternating (s_gauge s').
Proof.
  intros s'. split; [reflexivity|].
  apply (gauge_lockstep (fun _ => "") (fun _ => None) [OGet "a"; OGet "b"; OGet "c"] (NewStore None) 0%nat eq_refl).
Defined.

(** Only a connectivity failure marks the store unreachable; a missing key or a
    client that went away does not even count as an error. *)
Lemma noteRedis_unhealthy s e :
  s_healthy s = true -> s_healthy (noteRedis s (Some e)) = false ->
  IsConnectivityErr (Some e) = true /\ err_canceled e = false /\ err_redis_nil e = false.
Proof.
  unfold noteRedis, setHealthy. intros Hs. simpl IsNilErr. simpl IsCanceledErr.
  destruct (err_redis_nil e); [case_bool_decide; simpl; congruence|].
  destruct (err_canceled e) eqn:Ec; [congruence|].
  destruct (IsConnectivityErr (Some e)); [done|]. simpl. congruence.
Qed.
