(* ===== verification/CacheWriter.v ===== *)
(** * Caching a response while it is relayed, and serving it again

    [internal/cache/writer.go] (the response writer that inspects and buffers an
    upstream response) and [serveCached] / [proxyWithCache] of
    [internal/proxy/proxy.go]. The upstream handler is any sequence of header
    changes, [WriteHeader] and [Write] calls; how many bytes the client's
    connection accepts of each write is part of the action. *)
From S2P Require Import Prelude GoStrings GoNet CacheControl CacheStore.
From Stdlib Require Import Ascii.

Local Open Scope Z_scope.

(** What reaches the client: a status line with the headers of that moment, or
    body bytes. *)
Inductive sent := SHead (code : Z) (h : Header) | SBody (b : string).

Record ResponseWriter := mkRW { rw_header : Header; rw_sent : list sent }.

Definition rw_WriteHeader (w : ResponseWriter) (code : Z) : ResponseWriter :=
  mkRW (rw_header w) (rw_sent w ++ [SHead code (rw_header w)]).
Definition rw_Write (w : ResponseWriter) (b : string) : ResponseWriter :=
  mkRW (rw_header w) (rw_sent w ++ [SBody b]).
Definition rw_set (w : ResponseWriter) (h : Header) : ResponseWriter := mkRW h (rw_sent w).

Record CachingResponseWriter := mkCW {
  cw_w : ResponseWriter;
  cw_statusCode : Z;
  cw_buf : option string;
  cw_cacheable : bool;
  cw_ttl : Z;
  cw_vary : list string;
  cw_tags : list string;
  cw_overflow : bool;
  cw_headerSent : bool;
  cw_complete : bool
}.

Definition NewCachingResponseWriter (w : ResponseWriter) : CachingResponseWriter :=
  mkCW w 200 None false 0 [] [] false false false.

Section writer.
Variable req : Request.
Variable maxBodySize : Z.
Variable EscapedPath : URL -> string.

Definition cw_WriteHeader (cw : CachingResponseWriter) (code : Z) : CachingResponseWriter :=
  if (100 <=? code) && (code <? 200) then
    mkCW (rw_WriteHeader (cw_w cw) code) (cw_statusCode cw) (cw_buf cw) (cw_cacheable cw) (cw_ttl cw)
      (cw_vary cw) (cw_tags cw) (cw_overflow cw) (cw_headerSent cw) (cw_complete cw)
  else if cw_headerSent cw then cw
  else
    let h := rw_header (cw_w cw) in
    let w' := rw_WriteHeader (rw_set (cw_w cw) (Header_Set h "X-Cache" "MISS")) code in
    let miss := mkCW w' code (cw_buf cw) (cw_cacheable cw) (cw_ttl cw) (cw_vary cw) (cw_tags cw)
                  (cw_overflow cw) true (cw_complete cw) in
    match IsCacheable (Some req) code h with
    | None => miss
    | Some ttl =>
        match ParseVary h with
        | None => miss
        | Some vary =>
            mkCW w' code (Some "") true ttl vary (ParseSurrogateKey h) (cw_overflow cw) true (cw_complete cw)
        end
    end.

(** [Write(b)] of which the underlying writer accepts the first [n] bytes. *)
Definition cw_Write (cw : CachingResponseWriter) (b : string) (n : nat) : CachingResponseWriter :=
  let cw := if cw_headerSent cw then cw else cw_WriteHeader cw 200 in
  let got := String.substring 0 n b in
  let w' := rw_Write (cw_w cw) got in
  let keep := mkCW w' (cw_statusCode cw) (cw_buf cw) (cw_cacheable cw) (cw_ttl cw) (cw_vary cw) (cw_tags cw)
                (cw_overflow cw) (cw_headerSent cw) (cw_complete cw) in
  if cw_cacheable cw && negb (cw_overflow cw) then
    match cw_buf cw with
    | Some buf =>
        let buf := buf +:+ got in
        if maxBodySize <? len buf
        then mkCW w' (cw_statusCode cw) None (cw_cacheable cw) (cw_ttl cw) (cw_vary cw) (cw_tags cw)
               true (cw_headerSent cw) (cw_complete cw)
        else mkCW w' (cw_statusCode cw) (Some buf) (cw_cacheable cw) (cw_ttl cw) (cw_vary cw) (cw_tags cw)
               (cw_overflow cw) (cw_headerSent cw) (cw_complete cw)
    | None => keep
    end
  else keep.

Definition MarkComplete (cw : CachingResponseWriter) : CachingResponseWriter :=
  mkCW (cw_w cw) (cw_statusCode cw) (cw_buf cw) (cw_cacheable cw) (cw_ttl cw) (cw_vary cw) (cw_tags cw)
    (cw_overflow cw) (cw_headerSent cw) true.

(** What [Finish] does: the lookup outcome it records and the writes it issues
    to the store, the Vary pointer (an index entry) before the response. *)
Inductive lookup_outcome := LNone | LUncacheable | LMiss.
Inductive store_write := WIndex (key : string) (e : Entry) (ttl : Z) | WSet (key : string) (e : Entry) (ttl : Z).

Definition Finish (cw : CachingResponseWriter) (cacheKey : string) (now : Z)
    : lookup_outcome * bool * list store_write :=
  if negb (cw_headerSent cw) then (LNone, false, [])
  else if negb (cw_cacheable cw) then (LUncacheable, false, [])
  else if negb (cw_complete cw) then (LMiss, false, [])
  else
    match cw_buf cw with
    | Some buf =>
        if cw_overflow cw then (LMiss, true, [])
        else if responseHasSetCookie (rw_header (cw_w cw)) then (LMiss, false, [])
        else
          let '(storeKey, pointer) :=
            if bool_decide (0 < length (cw_vary cw))%nat then
              let k := KeyFromRequest EscapedPath req (cw_vary cw) in
              (k, if bool_decide (k = cacheKey) then []
                  else [WIndex cacheKey (mkEntry (cw_statusCode cw) ∅ "" (cw_vary cw) [] now) (cw_ttl cw)])
            else (cacheKey, []) in
          let headers := Header_Del (Header_Del (rw_header (cw_w cw)) "Surrogate-Key") "Cache-Tag" in
          let entry := mkEntry (cw_statusCode cw) headers buf (cw_vary cw) (cw_tags cw) now in
          (LMiss, false, pointer ++ [WSet storeKey entry (cw_ttl cw)])
    | None => (LMiss, cw_overflow cw, [])
    end.

(** ** The upstream handler *)

Inductive action :=
| AHeader (f : Header -> Header)        (* any change of the header map *)
| AWriteHeader (code : Z)
| AWrite (b : string) (n : nat).

Definition act (cw : CachingResponseWriter) (a : action) : CachingResponseWriter :=
  match a with
  | AHeader f => mkCW (rw_set (cw_w cw) (f (rw_header (cw_w cw)))) (cw_statusCode cw) (cw_buf cw) (cw_cacheable cw)
                   (cw_ttl cw) (cw_vary cw) (cw_tags cw) (cw_overflow cw) (cw_headerSent cw) (cw_complete cw)
  | AWriteHeader code => cw_WriteHeader cw code
  | AWrite b n => cw_Write cw b n
  end.

(** [proxyWithCache]: relay the upstream response; [aborted] is the panic of a
    copy that failed part-way, which skips [MarkComplete] but not [Finish]. *)
Definition proxyWithCache (w : ResponseWriter) (upstream : list action) (aborted : bool) (now : Z)
    : CachingResponseWriter * (lookup_outcome * bool * list store_write) :=
  let cacheKey := KeyFromRequest EscapedPath req [] in
  let cw := fold_left act upstream (NewCachingResponseWriter w) in
  let cw := if aborted then cw else MarkComplete cw in
  (cw, Finish cw cacheKey now).

(** The body bytes the client accepted, in order. *)
Fixpoint body_sent (l : list sent) : string :=
  match l with [] => "" | SBody b :: l' => b +:+ body_sent l' | SHead _ _ :: l' => body_sent l' end.

Lemma body_sent_app a b : body_sent (a ++ b) = body_sent a +:+ body_sent b.
Proof. induction a as [|[c h|x] a IH]; simpl; [done|done|]. by rewrite IH, app_assoc_s. Qed.

Record cw_ok (w0 : ResponseWriter) (cw : CachingResponseWriter) : Prop := {
  co_sent : exists l, rw_sent (cw_w cw) = rw_sent w0 ++ l /\
    (cw_headerSent cw = false -> body_sent l = "") /\
    (cw_cacheable cw = true -> cw_overflow cw = false -> cw_buf cw = Some (body_sent l) /\ len (body_sent l) <= Z.max 0 maxBodySize);
  co_unsent : cw_headerSent cw = false -> cw_cacheable cw = false;
  co_decided : cw_cacheable cw = true -> exists h,
    IsCacheable (Some req) (cw_statusCode cw) h = Some (cw_ttl cw) /\ ParseVary h = Some (cw_vary cw) /\
    cw_tags cw = ParseSurrogateKey h;
  co_overflow : cw_overflow cw = true -> cw_headerSent cw = true
}.

Lemma new_ok w0 : cw_ok w0 (NewCachingResponseWriter w0).
Proof. split; simpl; try done. exists []. by rewrite app_nil_r. Qed.

Lemma WriteHeader_ok w0 cw code : cw_ok w0 cw -> cw_ok w0 (cw_WriteHeader cw code).
Proof.
  intros [(l & Hl & Hu & Hb) Hun Hd Ho]. unfold cw_WriteHeader.
  assert (forall h, body_sent (l ++ [SHead code h]) = body_sent l) as Hbs.
  { intros h. rewrite body_sent_app. simpl. apply app_s_nil. }
  destruct (_ && _).
  { split; simpl; try done. exists (l ++ [SHead code (rw_header (cw_w cw))]).
    rewrite Hl, app_assoc, Hbs. done. }
  destruct (cw_headerSent cw) eqn:Es; [split; rewrite ?Es; eauto|].
  specialize (Hun eq_refl). specialize (Hu eq_refl).
  set (h := rw_header (cw_w cw)). set (h1 := Header_Set h "X-Cache" "MISS").
  assert (exists l', (rw_sent (cw_w cw) ++ [SHead code h1]) = rw_sent w0 ++ l' /\ body_sent l' = "") as (l' & Hl' & Hb').
  { exists (l ++ [SHead code h1]). by rewrite Hl, app_assoc, Hbs. }
  destruct (IsCacheable (Some req) code h) as [ttl|] eqn:Ec;
    [destruct (ParseVary h) as [vary|] eqn:Ev|].
  - split; simpl; [|done|by intros _; exists h|done].
    exists l'. split; [done|]. split; [done|]. intros _ _. rewrite Hb'. split; [done|]. unfold len. simpl. lia.
  - split; simpl; [|done|by rewrite Hun|done]. exists l'. by rewrite Hun.
  - split; simpl; [|done|by rewrite Hun|done]. exists l'. by rewrite Hun.
Qed.

Lemma act_ok w0 cw a : cw_ok w0 cw -> cw_ok w0 (act cw a).
Proof.
  intros H. destruct a as [f|code|b n]; simpl.
  - destruct H as [Hs Hun Hd Ho]. by split.
  - by apply WriteHeader_ok.
  - unfold cw_Write.
    assert (exists cw1, (if cw_headerSent cw then cw else cw_WriteHeader cw 200) = cw1 /\
              cw_ok w0 cw1 /\ cw_headerSent cw1 = true) as (cw1 & -> & [(l & Hl & Hu & Hb) Hun Hd Ho] & Hs1).
    { destruct (cw_headerSent cw) eqn:Es; [by exists cw|]. eexists. split; [done|].
      split; [by apply WriteHeader_ok|]. unfold cw_WriteHeader. simpl. rewrite Es.
      by repeat case_match. }
    set (got := String.substring 0 n b).
    assert (rw_sent (cw_w cw1) ++ [SBody got] = rw_sent w0 ++ (l ++ [SBody got]) /\
            body_sent (l ++ [SBody got]) = body_sent l +:+ got) as [Hl1 Hb1].
    { rewrite Hl, app_assoc, body_sent_app. simpl. by rewrite app_s_nil. }
    destruct (cw_cacheable cw1 && negb (cw_overflow cw1)) eqn:E.
    + apply andb_true_iff in E as [E1 E2]. apply negb_true_iff in E2.
      destruct (Hb E1 E2) as [Hbuf Hlen]. rewrite Hbuf.
      destruct (maxBodySize <? _) eqn:Em; bools.
      * split; simpl; [|by rewrite Hs1|done|done]. exists (l ++ [SBody got]). by rewrite Hs1.
      * split; simpl; [|by rewrite Hs1|done|by rewrite E2].
        exists (l ++ [SBody got]). split; [done|]. split; [by rewrite Hs1|].
        intros _ _. rewrite Hb1. split; [done|]. pose proof (len_nonneg (body_sent l +:+ got)). lia.
    + assert (cw_ok w0 (mkCW (rw_Write (cw_w cw1) got) (cw_statusCode cw1) (cw_buf cw1) (cw_cacheable cw1)
        (cw_ttl cw1) (cw_vary cw1) (cw_tags cw1) (cw_overflow cw1) (cw_headerSent cw1) (cw_complete cw1))) as Hok.
      { split; simpl; [|done|done|done]. exists (l ++ [SBody got]). split; [done|]. split; [by rewrite Hs1|].
        intros E1 E2. by rewrite E1, E2 in E. }
      done.
Qed.

Lemma run_ok w0 upstream cw : cw_ok w0 cw -> cw_ok w0 (fold_left act upstream cw).
Proof. revert cw. induction upstream as [|a l IH]; intros cw H; [done|]. simpl. by apply IH, act_ok. Qed.

Lemma complete_false upstream : forall cw, cw_complete cw = false -> cw_complete (fold_left act upstream cw) = false.
Proof.
  assert (forall cw code, cw_complete (cw_WriteHeader cw code) = cw_complete cw) as Hh.
  { intros cw code. unfold cw_WriteHeader. by repeat case_match. }
  induction upstream as [|a l IH]; intros cw H; [done|]. simpl. apply IH.
  destruct a as [f|code|b n]; simpl; [done|by rewrite Hh|]. unfold cw_Write.
  destruct (cw_headerSent cw); repeat case_match; simpl; by rewrite ?Hh.
Qed.
End writer.

(** ** What gets stored *)

Lemma is_set_cookie_subset (h h' : Header) :
  (forall k v, h' !! k = Some v -> h !! k = Some v) ->
  responseHasSetCookie h = false -> responseHasSetCookie h' = false.
Proof. rewrite !responseHasSetCookie_spec. eauto. Qed.

Lemma Header_Del_subset (h : Header) n k v : Header_Del h n !! k = Some v -> h !! k = Some v.
Proof. unfold Header_Del. by intros [_ H]%lookup_delete_Some. Qed.

Lemma Finish_stores req maxBody EscapedPath cw cacheKey now o sk writes key e ttl w0 :
  cw_ok req maxBody w0 cw -> rw_sent w0 = [] ->
  Finish req EscapedPath cw cacheKey now = (o, sk, writes) -> WSet key e ttl ∈ writes ->
  cw_complete cw = true /\ Body e = body_sent (rw_sent (cw_w cw)) /\ len (Body e) <= Z.max 0 maxBody /\
  (exists h, IsCacheable (Some req) (StatusCode e) h = Some ttl /\ ParseVary h = Some (Vary e)) /\
  responseHasSetCookie (Headers e) = false /\
  key = (if bool_decide (0 < length (Vary e))%nat then KeyFromRequest EscapedPath req (Vary e) else cacheKey) /\
  (if bool_decide (0 < length (Vary e))%nat && negb (bool_decide (key = cacheKey))
   then exists p, writes = [WIndex cacheKey p ttl; WSet key e ttl] /\ Vary p = Vary e
   else writes = [WSet key e ttl]).
Proof.
  intros [(l & Hl & Hu & Hb) Hun Hd Ho] Hw0. unfold Finish.
  destruct (cw_headerSent cw); simpl; [|intros [= <- <- <-] []%elem_of_nil].
  destruct (cw_cacheable cw) eqn:Ec; simpl; [|intros [= <- <- <-] []%elem_of_nil].
  destruct (cw_complete cw) eqn:Ek; simpl; [|intros [= <- <- <-] []%elem_of_nil].
  destruct (cw_buf cw) as [buf|] eqn:Ebuf; [|intros [= <- <- <-] []%elem_of_nil].
  destruct (cw_overflow cw) eqn:Eo; [intros [= <- <- <-] []%elem_of_nil|].
  destruct (responseHasSetCookie _) eqn:Esc; [intros [= <- <- <-] []%elem_of_nil|].
  destruct (Hb eq_refl eq_refl) as [[= ->] Hlen]. destruct (Hd eq_refl) as (h & Hc & Hv & _).
  assert (body_sent (rw_sent (cw_w cw)) = body_sent l) as Hbody by (by rewrite Hl, Hw0).
  assert (responseHasSetCookie (Header_Del (Header_Del (rw_header (cw_w cw)) "Surrogate-Key") "Cache-Tag") = false) as Hsc.
  { eapply is_set_cookie_subset; [|exact Esc]. intros k v Hk. by do 2 apply Header_Del_subset in Hk. }
  case_bool_decide as Hvary.
  - intros [= <- <- <-]. rewrite elem_of_app, list_elem_of_singleton. intros [Hin|[= -> -> ->]].
    { case_bool_decide; [by apply elem_of_nil in Hin|]. by apply list_elem_of_singleton in Hin. }
    cbn [Body Vary StatusCode Headers]. rewrite bool_decide_eq_true_2 by done. cbn [andb].
    repeat split; try done; [by exists h|]. case_bool_decide; simpl; [done|]. eexists. split; [reflexivity|done].
  - intros [= <- <- <-]. intros Hin. apply list_elem_of_singleton in Hin as [= -> -> ->].
    cbn [Body Vary StatusCode Headers]. rewrite bool_decide_eq_false_2 by done. cbn [andb].
    repeat split; try done. by exists h.
Qed.


(** A cacheable response written in two chunks. *)
Definition demo_upstream : list action :=
  [AHeader (fun h => Header_Set (Header_Set h "Cache-Control" "max-age=60") "Vary" "Accept");
   AWriteHeader 103; AWriteHeader 200; AWrite "hello " 6; AWrite "world" 5].

Fixpoint stored (l : list store_write) : option (string * Entry * Z) :=
  match l with [] => None | WSet k e t :: _ => Some (k, e, t) | _ :: l' => stored l' end.
Lemma stored_in l k e t : stored l = Some (k, e, t) -> WSet k e t ∈ l.
Proof.
  induction l as [|[k' e' t'|k' e' t'] l IH]; simpl; [done| |]; intros H; [right; auto|].
  injection H as -> -> ->. left.
Qed.


(** ** Serving from the cache *)

Section serve.
Variable EscapedPath : URL -> string.
Variable get : string -> option Entry.       (* Store.Get *)

(** The Age a hit reports: the upstream age plus the residence time, each
    clamped, the sum capped at 2^31. *)
Definition hit_age (e : Entry) (now : Z) : Z :=
  let maxAge := 2 ^ 31 in
  let upstreamAge :=
    match Atoi (TrimSpace (Header_Get (Headers e) "Age")) with
    | Some a => if 0 <? a then Z.min a maxAge else 0
    | None => 0
    end in
  let resident := Z.quot (now - CreatedAt e) Second in
  let resident := if resident <? 0 then 0 else resident in
  Z.min (upstreamAge + resident) maxAge.

Definition add_headers (h add : Header) : Header :=
  map_fold (fun k vals h => fold_left (fun h v => Header_Add h k v) vals h) h add.

(** [None] is a miss: nothing was written. *)
Definition serveCached (w : ResponseWriter) (r : Request) (now : Z) : option ResponseWriter :=
  let cacheKey := KeyFromRequest EscapedPath r [] in
  entry ← get cacheKey;
  entry ← (if bool_decide (0 < length (Vary entry))%nat then
             let varyKey := KeyFromRequest EscapedPath r (Vary entry) in
             if bool_decide (varyKey = cacheKey) then Some entry else get varyKey
           else Some entry);
  let h := add_headers (rw_header w) (Headers entry) in
  let h := Header_Set h "Age" (Itoa (hit_age entry now)) in
  let h := Header_Set h "X-Cache" "HIT" in
  Some (rw_Write (rw_WriteHeader (rw_set w h) (StatusCode entry)) (Body entry)).
End serve.

(** The writes of [Finish] applied to a store. *)
Fixpoint apply_writes (m : gmap string Entry) (l : list store_write) : gmap string Entry :=
  match l with
  | [] => m
  | WIndex k e _ :: l' => apply_writes (<[k := e]> m) l'
  | WSet k e _ :: l' => apply_writes (<[k := e]> m) l'
  end.

Lemma KeyFromRequest_vary_longer EscapedPath r vary :
  vary ≠ [] -> KeyFromRequest EscapedPath r vary ≠ KeyFromRequest EscapedPath r [].
Proof.
  intros Hv E%(f_equal String.length). unfold KeyFromRequest in E. simpl in E.
  rewrite bool_decide_eq_false_2 in E by (by destruct vary). rewrite length_app_s in E.
  assert (SortStrings vary ≠ []) as Hs.
  { intros Hs. apply Hv. pose proof (SortStrings_permutation vary) as Hp. rewrite Hs in Hp.
    by apply Permutation_nil_l in Hp. }
  destruct (SortStrings vary) as [|h t]; [done|]. simpl in E. rewrite length_app_s in E. simpl in E. lia.
Qed.


Definition demo_other : Request := demo_get "" {[ "Cookie" := ["x"] ]}.

