(* ===== verification/WSLimiter.v ===== *)
(** * WebSocket connection limiter

    [internal/proxy/ws_limiter.go]: 64 shards of per-key connection counts, the
    shard chosen by the FNV-1a hash of the key. *)
From S2P Require Import Prelude GoStrings.
From Stdlib Require Import Ascii.

Local Open Scope Z_scope.

Definition wsShardCount : Z := 64.

(** [fnv.New32a]. *)
Fixpoint fnv32a (h : Z) (s : string) : Z :=
  match s with
  | EmptyString => h
  | String c s' => fnv32a ((Z.lxor h (byteZ c) * 16777619) mod 2 ^ 32) s'
  end.
Definition Sum32 (key : string) : Z := fnv32a 2166136261 key.

Record WSLimiter := mkWSLimiter { shards : list (gmap string Z); maxPerKey : Z }.

Definition NewWSLimiter (maxPerKey : Z) : WSLimiter := mkWSLimiter (replicate (Z.to_nat wsShardCount) ∅) maxPerKey.

Definition shard (key : string) : nat := Z.to_nat (Sum32 key mod wsShardCount).

Definition counts (l : WSLimiter) (i : nat) : gmap string Z := default ∅ (shards l !! i).
Definition count_in (m : gmap string Z) (key : string) : Z := default 0 (m !! key).
Definition set_shard (l : WSLimiter) (i : nat) (m : gmap string Z) : WSLimiter :=
  mkWSLimiter (<[i := m]> (shards l)) (maxPerKey l).

(** A nil limiter is [None]. *)
Definition Acquire (l : option WSLimiter) (key : string) : option WSLimiter * bool :=
  match l with
  | None => (l, true)
  | Some l' =>
      if maxPerKey l' <=? 0 then (l, true)
      else
        let m := counts l' (shard key) in
        if maxPerKey l' <=? count_in m key then (l, false)
        else (Some (set_shard l' (shard key) (<[key := count_in m key + 1]> m)), true)
  end.

Definition Release (l : option WSLimiter) (key : string) : option WSLimiter :=
  match l with
  | None => l
  | Some l' =>
      if maxPerKey l' <=? 0 then l
      else
        let m := counts l' (shard key) in
        let n := count_in m key in
        if n <=? 1 then Some (set_shard l' (shard key) (delete key m))
        else Some (set_shard l' (shard key) (<[key := n - 1]> m))
  end.

(** ** The abstract limiter: one counter per key *)

Definition open_conns (l : WSLimiter) (key : string) : Z := count_in (counts l (shard key)) key.

Definition ws_ok (l : WSLimiter) : Prop :=
  length (shards l) = Z.to_nat wsShardCount /\ forall key, 0 <= open_conns l key <= Z.max 0 (maxPerKey l).

Lemma shard_bound l key : length (shards l) = Z.to_nat wsShardCount -> (shard key < length (shards l))%nat.
Proof.
  intros ->. unfold shard. pose proof (Z.mod_pos_bound (Sum32 key) wsShardCount ltac:(unfold wsShardCount; lia)).
  unfold wsShardCount in *. lia.
Qed.

(** Updating one key of its shard updates that key's counter only. *)
Lemma open_conns_update l key m key' :
  length (shards l) = Z.to_nat wsShardCount ->
  (forall k, k ≠ key -> m !! k = counts l (shard key) !! k) ->
  open_conns (set_shard l (shard key) m) key' = if bool_decide (key' = key) then count_in m key else open_conns l key'.
Proof.
  intros Hl Hm. unfold open_conns, counts, set_shard. simpl. pose proof (shard_bound l key Hl) as Hb.
  case_bool_decide as E; [subst; by rewrite list_lookup_insert_eq|].
  destruct (decide (shard key = shard key')) as [Es|Es].
  - rewrite <- Es, list_lookup_insert_eq by done. simpl. unfold count_in. rewrite Hm by done. unfold counts. done.
  - by rewrite list_lookup_insert_ne.
Qed.

Lemma Acquire_spec l key :
  length (shards l) = Z.to_nat wsShardCount -> 0 < maxPerKey l ->
  exists l', Acquire (Some l) key = (Some l', bool_decide (open_conns l key < maxPerKey l)) /\
    length (shards l') = Z.to_nat wsShardCount /\ maxPerKey l' = maxPerKey l /\
    forall k, open_conns l' k = open_conns l k +
      (if bool_decide (k = key) && bool_decide (open_conns l key < maxPerKey l) then 1 else 0).
Proof.
  intros Hl Hm. unfold Acquire. rewrite (proj2 (Z.leb_gt _ _) Hm).
  change (count_in (counts l (shard key)) key) with (open_conns l key).
  destruct (maxPerKey l <=? open_conns l key) eqn:E; bools.
  - rewrite bool_decide_eq_false_2 by lia. exists l. repeat split; try done. intros k. rewrite andb_false_r. lia.
  - rewrite bool_decide_eq_true_2 by done. eexists. split; [done|]. simpl. rewrite length_insert.
    repeat split; try done. intros k. rewrite open_conns_update.
    + case_bool_decide; simpl; subst; [unfold count_in; by rewrite lookup_insert_eq|lia].
    + done.
    + intros k' Hk. by rewrite lookup_insert_ne.
Qed.

Lemma Release_spec l key :
  length (shards l) = Z.to_nat wsShardCount -> 0 < maxPerKey l -> 0 <= open_conns l key ->
  exists l', Release (Some l) key = Some l' /\
    length (shards l') = Z.to_nat wsShardCount /\ maxPerKey l' = maxPerKey l /\
    forall k, open_conns l' k = if bool_decide (k = key) then Z.max 0 (open_conns l key - 1) else open_conns l k.
Proof.
  intros Hl Hm H0. unfold Release. rewrite (proj2 (Z.leb_gt _ _) Hm).
  change (count_in (counts l (shard key)) key) with (open_conns l key).
  destruct (open_conns l key <=? 1) eqn:E; bools; eexists; (split; [done|]); simpl; rewrite length_insert;
    repeat split; try done; intros k; rewrite open_conns_update; try done.
  - case_bool_decide; [|done]. unfold count_in. rewrite lookup_delete_eq. simpl. lia.
  - intros k' Hk. by rewrite lookup_delete_ne.
  - case_bool_decide; [|done]. unfold count_in. rewrite lookup_insert_eq. simpl. lia.
  - intros k' Hk. by rewrite lookup_insert_ne.
Qed.

(** ** Runs *)

Inductive ws_op := Open (key : string) | Close (key : string).

Fixpoint occ (k : string) (l : list string) : Z :=
  match l with [] => 0 | x :: l' => (if bool_decide (x = k) then 1 else 0) + occ k l' end.
Fixpoint remove_one (k : string) (l : list string) : list string :=
  match l with [] => [] | x :: l' => if bool_decide (x = k) then l' else x :: remove_one k l' end.

(** A run keeps the limiter and the connections accepted and not yet closed; a
    connection is released once, when it closes. *)
Definition ws_step (s : option WSLimiter * list string) (o : ws_op) : option WSLimiter * list string :=
  let '(l, live) := s in
  match o with
  | Open k => let '(l', ok) := Acquire l k in (l', if ok then k :: live else live)
  | Close k => if 0 <? occ k live then (Release l k, remove_one k live) else (l, live)
  end.

Lemma occ_nonneg k l : 0 <= occ k l.
Proof. induction l as [|x l IH]; simpl; [lia|]. case_bool_decide; lia. Qed.
Lemma occ_remove k k' l : 0 < occ k l -> occ k' (remove_one k l) = occ k' l - (if bool_decide (k' = k) then 1 else 0).
Proof.
  induction l as [|x l IH]; simpl; [lia|]. intros H. destruct (bool_decide_reflect (x = k)) as [->|Hx].
  - repeat case_bool_decide; subst; try done; lia.
  - simpl. rewrite IH by lia. lia.
Qed.

(** The limiter counts exactly the live connections. *)
Definition ws_inv (m : Z) (s : option WSLimiter * list string) : Prop :=
  exists l, s.1 = Some l /\ length (shards l) = Z.to_nat wsShardCount /\ maxPerKey l = m /\
    forall k, open_conns l k = occ k s.2 /\ occ k s.2 <= m.

Lemma ws_step_inv m s o : 0 < m -> ws_inv m s -> ws_inv m (ws_step s o).
Proof.
  intros Hm (l & Hs & Hl & Hmax & Hc). destruct s as [ol live]. simpl in *. subst ol. destruct o as [key|key]; cbn [ws_step].
  - destruct (Acquire_spec l key Hl ltac:(lia)) as (l' & -> & Hl' & Hm' & Hk). exists l'. simpl.
    split; [done|]. split; [done|]. split; [lia|]. intros k. rewrite Hk. destruct (Hc k) as [Hc1 Hc2].
    destruct (Hc key) as [Hck _]. rewrite Hc1. destruct (bool_decide_reflect (k = key)) as [->|E1]; simpl.
    + destruct (bool_decide_reflect (open_conns l key < maxPerKey l)); simpl; [rewrite bool_decide_eq_true_2 by done; lia|lia].
    + destruct (bool_decide (open_conns l key < maxPerKey l)); simpl; [rewrite bool_decide_eq_false_2 by done|]; lia.
  - destruct (0 <? occ key live) eqn:E; bools; [|by exists l].
    destruct (Hc key) as [Hck _]. destruct (Release_spec l key Hl ltac:(lia) ltac:(lia)) as (l' & -> & Hl' & Hm' & Hk).
    exists l'. simpl. split; [done|]. split; [done|]. split; [lia|]. intros k. rewrite Hk, occ_remove by done.
    destruct (Hc k) as [Hc1 Hc2]. case_bool_decide; subst; lia.
Qed.

Lemma NewWSLimiter_inv m : 0 < m -> ws_inv m (Some (NewWSLimiter m), []).
Proof.
  intros Hm. exists (NewWSLimiter m). split; [done|]. split; [apply length_replicate|]. split; [done|].
  intros k. cbn [snd occ]. split; [|lia]. unfold open_conns, counts, NewWSLimiter. cbn [shards].
  assert (replicate (Z.to_nat wsShardCount) (∅ : gmap string Z) !! shard k = Some ∅) as ->.
  { apply lookup_replicate. split; [done|]. pose proof (shard_bound (NewWSLimiter m) k (length_replicate _ _)) as Hb.
    unfold NewWSLimiter in Hb. cbn [shards] in Hb. by rewrite length_replicate in Hb. }
  done.
Qed.

(** The WebSocket limiter counts connections exactly. Over any sequence of
    connects and disconnects of any keys, the sharded counters equal the number
    of live connections of each key, so no key ever has more than the
    configured maximum, and a key below it is admitted. *)
Theorem ws_limiter_exact m ops k :
  0 < m ->
  let '(l, live) := fold_left ws_step ops (Some (NewWSLimiter m), []) in
  occ k live <= m /\ (Acquire l k).2 = bool_decide (occ k live < m).
Proof.
  intros Hm.
  assert (forall s, ws_inv m s -> ws_inv m (fold_left ws_step ops s)) as Hrun.
  { induction ops as [|o ops IH]; intros s Hs; [done|]. simpl. by apply IH, ws_step_inv. }
  specialize (Hrun _ (NewWSLimiter_inv m Hm)). destruct (fold_left ws_step ops _) as [l live].
  destruct Hrun as (l' & Hl & Hlen & Hmax & Hc). simpl in Hl. subst l. destruct (Hc k) as [Hc1 Hc2]. cbn [snd] in *.
  split; [done|]. destruct (Acquire_spec l' k Hlen ltac:(lia)) as (l2 & -> & _). simpl. by rewrite Hc1, Hmax.
Qed.

Lemma ws_limiter_exact_witness :
  let '(l, live) := fold_left ws_step [Open "a"; Open "a"; Open "a"; Open "b"; Close "a"; Open "a"]
      (Some (NewWSLimiter 2), []) in
  occ "a" live <= 2 /\ (Acquire l "a").2 = bool_decide (occ "a" live < 2).
Proof.
  apply (ws_limiter_exact 2 [Open "a"; Open "a"; Open "a"; Open "b"; Close "a"; Open "a"] "a"). lia.
Defined.
