(* ===== verification/UrlPolicy.v ===== *)
(** * Backend URL policy and safe dialing

    [internal/proxy/url_validator.go] and the [SafeDialer] of
    [internal/proxy/proxy.go]: which dynamic backend URLs are accepted and
    which addresses are dialed. DNS is a parameter: [LookupIP] may answer
    differently at validation and at dial time. *)
From S2P Require Import Prelude GoStrings GoNet.
From Stdlib Require Import Ascii.

Local Open Scope Z_scope.

Record BackendURLPolicy := mkBackendURLPolicy {
  AllowedSchemes : list string;
  DenyPrivateNetworks : bool;
  AllowedHosts : list string
}.

Definition private_cidrs : list string :=
  ["10.0.0.0/8"; "172.16.0.0/12"; "192.168.0.0/16"; "127.0.0.0/8"; "169.254.0.0/16";
   "::1/128"; "fc00::/7"; "fe80::/10"].

Definition privateNetworks : list IPNet := omap ParseCIDR private_cidrs.

Definition IsPrivateIP (ip : IP) : bool := existsb (fun n => IPNet_Contains n ip) privateNetworks.

Section policy.
Variable LookupIP : string -> result (list IP).

Definition checkNotPrivate (host : string) : option error :=
  match ParseIP host with
  | Some ip => if IsPrivateIP ip then Some (errorf "IP is in a private/reserved range") else None
  | None =>
      match LookupIP host with
      | Err e => Some (wrapf "cannot resolve host" e)
      | Ok ips => if existsb IsPrivateIP ips then Some (errorf "host resolves to private IP") else None
      end
  end.

(** [None] is a nil error: the URL is accepted. *)
Definition ValidateBackendURL (u : URL) (policy : BackendURLPolicy) : option error :=
  let schemes := if bool_decide (length (AllowedSchemes policy) = 0%nat) then ["http"; "https"]
                 else AllowedSchemes policy in
  if negb (existsb (EqualFold (URL_Scheme u)) schemes) then Some (errorf "scheme is not allowed")
  else
    let host := Hostname u in
    if bool_decide (host = "") then Some (errorf "empty host")
    else if bool_decide (0 < length (AllowedHosts policy))%nat then
      if existsb (EqualFold host) (AllowedHosts policy) then None
      else Some (errorf "host is not in the allowed list")
    else if DenyPrivateNetworks policy then checkNotPrivate host
    else None.

(** What a dial does: hand an address to the inner dialer, or refuse. *)
Inductive dial := DialHost (addr : string) | DialIP (ip : IP) (port : string) | Blocked.

Fixpoint first_public (ips : list IP) : option IP :=
  match ips with
  | [] => None
  | ip :: rest => if IsPrivateIP ip then first_public rest else Some ip
  end.

Definition SafeDialer_DialContext (Enabled : bool) (addr : string) : dial :=
  if negb Enabled then DialHost addr
  else match SplitHostPort addr with
       | None => DialHost addr
       | Some (host, port) =>
           match ParseIP host with
           | Some ip => if IsPrivateIP ip then Blocked else DialHost addr
           | None =>
               match LookupIP host with
               | Err _ => Blocked
               | Ok ips => match first_public ips with Some ip => DialIP ip port | None => Blocked end
               end
           end
       end.
End policy.

(** ** Which addresses are private *)

(** The eight ranges as bytes: an IPv4 address by its first two bytes, an IPv6
    address by its first byte or as the loopback address. *)
Definition private_spec (ip : IP) : bool :=
  match default ip (To4 ip) with
  | [a; b; _; _] =>
      (a =? 10) || ((a =? 172) && (16 <=? b) && (b <=? 31)) || ((a =? 192) && (b =? 168)) || (a =? 127)
      || ((a =? 169) && (b =? 254))
  | a :: b :: rest =>
      bool_decide (a :: b :: rest = replicate 15 0 ++ [1])
      || ((252 <=? a) && (a <=? 253))
      || ((a =? 254) && (128 <=? b) && (b <=? 191))
  | _ => false
  end.

Definition is_byte (z : Z) : bool := (0 <=? z) && (z <=? 255).
Definition bytes256 : list Z := map Z.of_nat (seq 0 256).

Lemma bytes256_complete z : is_byte z = true -> z ∈ bytes256.
Proof.
  unfold is_byte, bytes256. intros H. bools. apply list_elem_of_fmap. exists (Z.to_nat z).
  split; [lia|]. apply elem_of_seq. lia.
Qed.

Lemma bytes2 (P : Z -> Z -> bool) :
  forallb (fun a => forallb (P a) bytes256) bytes256 = true ->
  forall a b, is_byte a = true -> is_byte b = true -> P a b = true.
Proof.
  intros H a b Ha%bytes256_complete Hb%bytes256_complete.
  rewrite forallb_forall in H. specialize (H a (proj1 (list_elem_of_In _ _) Ha)).
  rewrite forallb_forall in H. apply (H b). by apply list_elem_of_In.
Qed.

(** Membership of a 4-byte address in a network with a mask of at most 16 bits. *)
Lemma Contains_v4 n1 n2 m1 m2 a b c d :
  IPNet_Contains (mkIPNet [n1; n2; 0; 0] [m1; m2; 0; 0]) [a; b; c; d]
  = (Z.land n1 m1 =? Z.land a m1) && (Z.land n2 m2 =? Z.land b m2).
Proof.
  unfold IPNet_Contains.
  change (networkNumberAndMask (mkIPNet [n1; n2; 0; 0] [m1; m2; 0; 0])) with ([n1; n2; 0; 0], [m1; m2; 0; 0]).
  change (default [a; b; c; d] (To4 [a; b; c; d])) with [a; b; c; d].
  cbn [length]. rewrite (bool_decide_eq_true_2 (4%nat = 4%nat)) by done. cbn [andb].
  unfold and_bytes. cbn [zip_with]. rewrite !Z.land_0_r. apply eq_true_iff_eq.
  rewrite bool_decide_eq_true, andb_true_iff, !Z.eqb_eq. split; [by intros [= -> ->]|by intros [-> ->]].
Qed.

(** An IPv6 network never contains a 4-byte address. *)
Lemma Contains_v6_v4 n ip : length (fst (networkNumberAndMask n)) = 16%nat -> length ip = 4%nat -> IPNet_Contains n ip = false.
Proof.
  unfold IPNet_Contains. destruct (networkNumberAndMask n) as [nn m]. simpl. intros Hn Hl.
  unfold To4. rewrite (bool_decide_eq_true_2 (length ip = 4%nat)) by done. simpl.
  rewrite bool_decide_eq_false_2; [done|]. lia.
Qed.

Definition v4_networks : list IPNet :=
  [mkIPNet [10; 0; 0; 0] [255; 0; 0; 0]; mkIPNet [172; 16; 0; 0] [255; 240; 0; 0];
   mkIPNet [192; 168; 0; 0] [255; 255; 0; 0]; mkIPNet [127; 0; 0; 0] [255; 0; 0; 0];
   mkIPNet [169; 254; 0; 0] [255; 255; 0; 0]].
Definition v6_networks : list IPNet :=
  [mkIPNet (replicate 15 0 ++ [1]) (replicate 16 255);
   mkIPNet (252 :: replicate 15 0) (254 :: replicate 15 0);
   mkIPNet (254 :: 128 :: replicate 14 0) (255 :: 192 :: replicate 14 0)].

Lemma privateNetworks_eq : privateNetworks = v4_networks ++ v6_networks.
Proof. vm_compute. reflexivity. Qed.

(** The five IPv4 ranges, decided by enumeration of the first two bytes. *)
Lemma v4_ranges a b :
  is_byte a = true -> is_byte b = true ->
  existsb (fun '(n1, n2, m1, m2) => (Z.land n1 m1 =? Z.land a m1) && (Z.land n2 m2 =? Z.land b m2))
    [(10, 0, 255, 0); (172, 16, 255, 240); (192, 168, 255, 255); (127, 0, 255, 0); (169, 254, 255, 255)]
  = private_spec [a; b; 0; 0].
Proof.
  intros Ha Hb. apply eqb_prop. revert a b Ha Hb.
  apply (bytes2 (fun a b => Bool.eqb (existsb (fun '(n1, n2, m1, m2) =>
    (Z.land n1 m1 =? Z.land a m1) && (Z.land n2 m2 =? Z.land b m2)) _) (private_spec [a; b; 0; 0]))).
  vm_compute. reflexivity.
Qed.

(** A 4-byte address is private exactly in the IPv4 ranges. *)
Lemma IsPrivateIP_v4 a b c d :
  is_byte a = true -> is_byte b = true -> IsPrivateIP [a; b; c; d] = private_spec [a; b; c; d].
Proof.
  intros Ha Hb. unfold IsPrivateIP. rewrite privateNetworks_eq, existsb_app.
  assert (existsb (fun n => IPNet_Contains n [a; b; c; d]) v6_networks = false) as ->.
  { cbn [existsb v6_networks]. by rewrite !Contains_v6_v4. }
  rewrite orb_false_r. cbn [existsb v4_networks]. rewrite !Contains_v4.
  change (private_spec [a; b; c; d]) with (private_spec [a; b; 0; 0]). by rewrite <- v4_ranges.
Qed.

(** ** Acceptance and dialing *)

Definition allowed_schemes (policy : BackendURLPolicy) : list string :=
  match AllowedSchemes policy with [] => ["http"; "https"] | l => l end.

(** Every address the host stands for at validation time is public. *)
Definition resolves_public (LookupIP : string -> result (list IP)) (host : string) : Prop :=
  match ParseIP host with
  | Some ip => IsPrivateIP ip = false
  | None => exists ips, LookupIP host = Ok ips /\ Forall (fun ip => IsPrivateIP ip = false) ips
  end.

Lemma existsb_private_false ips :
  existsb IsPrivateIP ips = false <-> Forall (fun ip => IsPrivateIP ip = false) ips.
Proof.
  induction ips as [|ip ips IH]; cbn [existsb]; [split; auto|].
  rewrite orb_false_iff, IH, Forall_cons. done.
Qed.

Lemma checkNotPrivate_ok L host : checkNotPrivate L host = None <-> resolves_public L host.
Proof.
  unfold checkNotPrivate, resolves_public. destruct (ParseIP host) as [ip|].
  { destruct (IsPrivateIP ip); split; done. }
  destruct (L host) as [ips|e].
  - destruct (existsb IsPrivateIP ips) eqn:He.
    + split; [done|]. intros (ips' & [= <-] & Hf). apply existsb_private_false in Hf. congruence.
    + apply existsb_private_false in He. split; [|done]. intros _. by exists ips.
  - split; [done|]. by intros (? & ? & _).
Qed.

Lemma existsb_fold s l : existsb (EqualFold s) l = true <-> Exists (fun h => EqualFold s h = true) l.
Proof.
  rewrite existsb_exists, List.Exists_exists. done.
Qed.

(** [ValidateBackendURL] accepts a dynamic backend URL exactly when its
    scheme is allowed (http and https by default), its host is not empty, and
    either the host is on a non-empty allowlist, or there is no allowlist and
    (when private networks are denied) the host is a public address literal
    or a name that resolves to public addresses only. *)
Theorem ValidateBackendURL_exact L u policy :
  ValidateBackendURL L u policy = None <->
  Exists (fun s => EqualFold (URL_Scheme u) s = true) (allowed_schemes policy)
  /\ Hostname u <> ""
  /\ (AllowedHosts policy <> [] /\ Exists (fun h => EqualFold (Hostname u) h = true) (AllowedHosts policy)
      \/ AllowedHosts policy = [] /\ (DenyPrivateNetworks policy = true -> resolves_public L (Hostname u))).
Proof.
  unfold ValidateBackendURL.
  replace (if bool_decide (length (AllowedSchemes policy) = 0%nat) then ["http"; "https"] else AllowedSchemes policy)
    with (allowed_schemes policy) by (unfold allowed_schemes; by destruct (AllowedSchemes policy)).
  rewrite <- existsb_fold. destruct (existsb _ (allowed_schemes policy)); cbn [negb].
  2: { split; [done|]. by intros (? & _). }
  destruct (bool_decide_reflect (Hostname u = "")) as [He|He].
  { split; [done|]. by intros (_ & ? & _). }
  rewrite <- existsb_fold, <- checkNotPrivate_ok.
  destruct (AllowedHosts policy) as [|h hs]; cbn [length].
  - rewrite bool_decide_eq_false_2 by lia. destruct (DenyPrivateNetworks policy); naive_solver.
  - rewrite bool_decide_eq_true_2 by lia. destruct (existsb _ (h :: hs)); naive_solver.
Qed.

Lemma first_public_spec ips :
  match first_public ips with
  | Some ip => exists l1 l2, ips = l1 ++ ip :: l2 /\ IsPrivateIP ip = false /\ Forall (fun i => IsPrivateIP i = true) l1
  | None => Forall (fun i => IsPrivateIP i = true) ips
  end.
Proof.
  induction ips as [|ip ips IH]; cbn [first_public]; [constructor|].
  destruct (IsPrivateIP ip) eqn:Hp.
  - destruct (first_public ips) as [i|].
    + destruct IH as (l1 & l2 & -> & H1 & H2). exists (ip :: l1), l2. split_and!; [done..|by constructor].
    + by constructor.
  - exists [], ips. split_and!; [done..|constructor].
Qed.

(** Rebinding protection. Whatever DNS answers at dial time, an enabled
    [SafeDialer] hands the inner dialer only a resolved address that is public
    (the first such one, after private ones only), an address literal that is
    public, or an address without a port that it cannot split; every other
    dial is refused. In particular a pinned 4-byte address is outside the
    IPv4 private ranges. *)
Theorem SafeDialer_no_private L addr host port :
  SplitHostPort addr = Some (host, port) ->
  match SafeDialer_DialContext L true addr with
  | DialHost a => a = addr /\ exists ip, ParseIP host = Some ip /\ IsPrivateIP ip = false
  | DialIP ip p => p = port /\ ParseIP host = None
      /\ (exists l1 l2, L host = Ok (l1 ++ ip :: l2) /\ Forall (fun i => IsPrivateIP i = true) l1)
      /\ IsPrivateIP ip = false
      /\ (forall a b c d, ip = [a; b; c; d] -> Forall (fun z => is_byte z = true) ip -> private_spec ip = false)
  | Blocked => match ParseIP host with
               | Some ip => IsPrivateIP ip = true
               | None => forall ips, L host = Ok ips -> Forall (fun i => IsPrivateIP i = true) ips
               end
  end.
Proof.
  intros Hs. unfold SafeDialer_DialContext. cbn [negb]. rewrite Hs.
  destruct (ParseIP host) as [ip|] eqn:Hp.
  { destruct (IsPrivateIP ip) eqn:Hi; [done|]. split; [done|]. by exists ip. }
  destruct (L host) as [ips|e] eqn:HL; [|done].
  pose proof (first_public_spec ips) as Hf. destruct (first_public ips) as [ip|].
  - destruct Hf as (l1 & l2 & -> & Hi & Hl). split_and!; try done; [by exists l1, l2|].
    intros a b c d -> Hb. inversion_clear Hb as [|? ? Ha Hb']. inversion_clear Hb' as [|? ? Hb _].
    by rewrite <- IsPrivateIP_v4.
  - by intros ? [= <-].
Qed.

Definition rebinding_resolver (host : string) : result (list IP) := Ok [[169; 254; 169; 254]; [93; 184; 216; 34]].

Lemma SafeDialer_no_private_witness :
  SafeDialer_DialContext rebinding_resolver true "evil.example:80" = DialIP [93; 184; 216; 34] "80"
  /\ IsPrivateIP [93; 184; 216; 34] = false.
Proof.
  split; [vm_compute; reflexivity|].
  pose proof (SafeDialer_no_private rebinding_resolver "evil.example:80" "evil.example" "80" ltac:(vm_compute; reflexivity)) as H.
  vm_compute (SafeDialer_DialContext _ _ _) in H. apply H.
Defined.

(** The unspecified addresses 0.0.0.0 and :: are in none of the blocked
    ranges, so a literal unspecified address is dialed. *)
Theorem unspecified_not_private :
  IsPrivateIP [0; 0; 0; 0] = false /\ IsPrivateIP (replicate 16 0) = false
  /\ forall L, SafeDialer_DialContext L true "0.0.0.0:80" = DialHost "0.0.0.0:80"
            /\ SafeDialer_DialContext L true "[::]:80" = DialHost "[::]:80".
Proof. split_and!; [vm_compute; reflexivity..|]. intros L. split; vm_compute; reflexivity. Qed.
