(* ===== verification/MTLS.v ===== *)
(** * Client certificate identity

    [internal/mtls/identity.go]: the [X-EdgeQuota-*] headers of a request are
    removed and set again from the TLS connection state. SHA-256 is the only
    part of the certificate machinery the headers depend on and is a
    parameter of the section. *)
From S2P Require Import Prelude GoStrings.
From Stdlib Require Import Ascii.

Local Open Scope Z_scope.

Definition HeaderMTLS : string := "X-EdgeQuota-MTLS".
Definition HeaderClientFingerprint : string := "X-EdgeQuota-Client-Fingerprint-SHA256".
Definition HeaderClientSerial : string := "X-EdgeQuota-Client-Serial".
Definition HeaderClientSubject : string := "X-EdgeQuota-Client-Subject".

Definition IdentityHeaders : list string :=
  [HeaderMTLS; HeaderClientFingerprint; HeaderClientSerial; HeaderClientSubject].

(** What the code reads of an [x509.Certificate]. *)
Record Certificate := mkCertificate {
  Raw : list Z;              (* DER bytes *)
  SerialNumber : Z;
  Subject_String : string    (* Subject.String() *)
}.

(** [tls.ConnectionState]: [PeerCertificates] may be present without any
    verified chain. *)
Record ConnectionState := mkConnectionState {
  PeerCertificates : list Certificate;
  VerifiedChains : list (list Certificate)
}.

Record Identity := mkIdentity { Fingerprint : string; Serial : string; Subject : string }.

(** [hex.EncodeToString]. *)
Definition hex_digit (d : Z) : ascii :=
  default "0"%char (String.get (Z.to_nat d) "0123456789abcdef").
Fixpoint hex_EncodeToString (bs : list Z) : string :=
  match bs with
  | [] => ""
  | b :: bs => String (hex_digit (b / 16)) (String (hex_digit (b mod 16)) (hex_EncodeToString bs))
  end.

Section identity.
Variable Sum256 : list Z -> list Z.

Definition ExtractIdentity (leaf : Certificate) : Identity :=
  mkIdentity (hex_EncodeToString (Sum256 (Raw leaf))) (Itoa (SerialNumber leaf)) (Subject_String leaf).

Definition SanitizeHeaders (h : Header) : Header := foldl Header_Del h IdentityHeaders.

(** [None] is the run-time panic of [VerifiedChains[0][0]] on an empty chain. *)
Definition InjectHeaders (tls : option ConnectionState) (h : Header) : option Header :=
  let h := SanitizeHeaders h in
  match tls with
  | None => Some (Header_Set h HeaderMTLS "false")
  | Some st =>
      match VerifiedChains st with
      | [] => Some (Header_Set h HeaderMTLS "false")
      | [] :: _ => None
      | (leaf :: _) :: _ =>
          let id := ExtractIdentity leaf in
          let h := Header_Set h HeaderMTLS "true" in
          let h := Header_Set h HeaderClientFingerprint (Fingerprint id) in
          let h := Header_Set h HeaderClientSerial (Serial id) in
          Some (Header_Set h HeaderClientSubject (Subject id))
      end
  end.

(** The verified leaf certificate, if any. *)
Definition verified_leaf (tls : option ConnectionState) : option Certificate :=
  st ← tls; chain ← head (VerifiedChains st); head chain.

(** What each identity header must hold, from the TLS state alone. *)
Definition identity_header (tls : option ConnectionState) (k : string) : option (list string) :=
  match verified_leaf tls with
  | None => if bool_decide (k = CanonicalHeaderKey HeaderMTLS) then Some ["false"] else None
  | Some leaf =>
      let id := ExtractIdentity leaf in
      if bool_decide (k = CanonicalHeaderKey HeaderMTLS) then Some ["true"]
      else if bool_decide (k = CanonicalHeaderKey HeaderClientFingerprint) then Some [Fingerprint id]
      else if bool_decide (k = CanonicalHeaderKey HeaderClientSerial) then Some [Serial id]
      else if bool_decide (k = CanonicalHeaderKey HeaderClientSubject) then Some [Subject id]
      else None
  end.

Definition identity_keys : list string := map CanonicalHeaderKey IdentityHeaders.

Lemma foldl_Del_lookup names (h : Header) k :
  foldl Header_Del h names !! k = if bool_decide (k ∈ map CanonicalHeaderKey names) then None else h !! k.
Proof.
  revert h. induction names as [|n names IH]; intros h; cbn [foldl map].
  { by rewrite bool_decide_eq_false_2 by apply not_elem_of_nil. }
  rewrite IH. unfold Header_Del. rewrite lookup_delete.
  destruct (bool_decide_reflect (k ∈ map CanonicalHeaderKey names)) as [Hk|Hk].
  - rewrite bool_decide_eq_true_2; [done|]. by right.
  - case_decide as Hd; [rewrite bool_decide_eq_true_2; [done|rewrite Hd; by left]|].
    rewrite bool_decide_eq_false_2; [done|]. rewrite not_elem_of_cons. naive_solver.
Qed.

(** Four writes at distinct keys. *)
Lemma insert4_lookup (h : Header) (a b c d k : string) va vb vc vd :
  NoDup [a; b; c; d] ->
  <[d := vd]> (<[c := vc]> (<[b := vb]> (<[a := va]> h))) !! k
  = if bool_decide (k = a) then Some va else if bool_decide (k = b) then Some vb
    else if bool_decide (k = c) then Some vc else if bool_decide (k = d) then Some vd else h !! k.
Proof.
  rewrite !NoDup_cons, !not_elem_of_cons. intros. destruct_and!.
  rewrite !lookup_insert. repeat case_decide; repeat case_bool_decide; congruence.
Qed.

Lemma identity_keys_distinct : NoDup identity_keys.
Proof. apply (bool_decide_unpack _). vm_compute. exact I. Qed.

(** The verified chain is read in full or not at all: no lookup panics when
    every verified chain has a leaf, as the TLS stack builds them. *)
Definition chains_have_leaf (tls : option ConnectionState) : Prop :=
  match tls with None => True | Some st => Forall (fun c => c <> []) (VerifiedChains st) end.

Lemma InjectHeaders_lookup tls h :
  chains_have_leaf tls ->
  exists h', InjectHeaders tls h = Some h'
    /\ forall k, h' !! k = if bool_decide (k ∈ identity_keys) then identity_header tls k else h !! k.
Proof.
  intros Hc.
  assert (Hfalse : verified_leaf tls = None -> forall k,
    Header_Set (SanitizeHeaders h) HeaderMTLS "false" !! k
    = if bool_decide (k ∈ identity_keys) then identity_header tls k else h !! k).
  { intros Hl k. unfold identity_header. rewrite Hl. unfold Header_Set, SanitizeHeaders.
    rewrite lookup_insert, foldl_Del_lookup. fold identity_keys. case_decide as Hd.
    - rewrite (bool_decide_eq_true_2 (k ∈ _)) by (rewrite <- Hd; left). by rewrite bool_decide_eq_true_2.
    - by rewrite (bool_decide_eq_false_2 (k = _)) by congruence. }
  unfold InjectHeaders. destruct tls as [[peers chains]|]; [|eexists; split; [done|exact (Hfalse eq_refl)]].
  cbn [VerifiedChains chains_have_leaf] in *.
  destruct chains as [|[|leaf chain] chains]; [eexists; split; [done|exact (Hfalse eq_refl)]| |].
  { by apply Forall_cons in Hc as [? _]. }
  eexists; split; [done|]. intros k. unfold Header_Set. rewrite (insert4_lookup _ _ _ _ _ _ _ _ _ _ identity_keys_distinct).
  unfold SanitizeHeaders. rewrite foldl_Del_lookup. fold identity_keys.
  destruct (bool_decide_reflect (k ∈ identity_keys)) as [Hk|Hk]; [done|].
  unfold identity_keys in Hk. cbn [map IdentityHeaders] in Hk. rewrite !not_elem_of_cons in Hk.
  destruct Hk as (? & ? & ? & ? & _). by rewrite !bool_decide_eq_false_2.
Qed.
End identity.

(** The identity headers cannot be forged. After [InjectHeaders], each
    [X-EdgeQuota-*] identity header holds exactly what the TLS state says
    (["true"] and the leaf's fingerprint, serial and subject for a verified
    chain, only ["false"] otherwise), whatever the inbound request carried
    under any spelling of those names, and every other header is unchanged. *)
Theorem InjectHeaders_unspoofable Sum256 tls h1 h2 :
  chains_have_leaf tls ->
  exists h1' h2', InjectHeaders Sum256 tls h1 = Some h1' /\ InjectHeaders Sum256 tls h2 = Some h2'
    /\ (forall n, CanonicalHeaderKey n ∈ identity_keys ->
          Header_Values h1' n = Header_Values h2' n
          /\ h1' !! CanonicalHeaderKey n = identity_header Sum256 tls (CanonicalHeaderKey n))
    /\ (forall n, CanonicalHeaderKey n ∉ identity_keys -> Header_Values h1' n = Header_Values h1 n)
    /\ (Header_Get h1' HeaderMTLS = "true" <-> is_Some (verified_leaf tls)).
Proof.
  intros Hc.
  destruct (InjectHeaders_lookup Sum256 tls h1 Hc) as (h1' & E1 & L1).
  destruct (InjectHeaders_lookup Sum256 tls h2 Hc) as (h2' & E2 & L2).
  exists h1', h2'. split_and!; [done..| | |].
  - intros n Hn. unfold Header_Values. rewrite L1, L2, !bool_decide_eq_true_2 by done. done.
  - intros n Hn. unfold Header_Values. by rewrite L1, bool_decide_eq_false_2.
  - unfold Header_Get, Header_Values. rewrite L1, bool_decide_eq_true_2 by left.
    unfold identity_header. destruct (verified_leaf tls).
    + rewrite bool_decide_eq_true_2 by done. by split.
    + rewrite bool_decide_eq_true_2 by done. split; [done|]. by intros [? ?].
Qed.

Definition demo_cert : Certificate := mkCertificate [48; 130] 4096 "CN=client".
Definition forged : Header :=
  Header_Set (Header_Set ∅ "x-edgequota-mtls" "true") "x-edgequota-client-subject" "CN=admin".

Lemma InjectHeaders_unspoofable_witness :
  let tls := Some (mkConnectionState [demo_cert] [[demo_cert]]) in
  exists h1' h2', InjectHeaders (fun l => l) tls forged = Some h1' /\ InjectHeaders (fun l => l) tls ∅ = Some h2'
    /\ Header_Values h1' HeaderClientSubject = Header_Values h2' HeaderClientSubject
    /\ h1' !! "X-Edgequota-Client-Subject" = Some ["CN=client"].
Proof.
  intros tls.
  destruct (InjectHeaders_unspoofable (fun l => l) tls forged ∅) as (h1 & h2 & E1 & E2 & H & _).
  { constructor; [done|constructor]. }
  exists h1, h2. destruct (H HeaderClientSubject) as [Hv Hl].
  { apply (bool_decide_unpack _). vm_compute. exact I. }
  split_and!; [done..|]. etransitivity; [exact Hl|]. vm_compute. reflexivity.
Defined.

(** An unverified peer certificate does not authenticate. *)
Example unverified_peer :
  exists h, InjectHeaders (fun l => l) (Some (mkConnectionState [demo_cert] [])) forged = Some h
    /\ Header_Get h HeaderMTLS = "false" /\ Header_Get h HeaderClientSubject = "".
Proof. eexists. split_and!; [reflexivity|vm_compute; reflexivity..]. Qed.
