(* ===== verification/Events.v ===== *)
(** * Usage event emitter

    [internal/events/emitter.go]: a ring buffer of events that drops the oldest
    when full, drained in batches by one flush loop and posted to the receiver
    with bounded retries. The HTTP transport and the JSON encoder are
    parameters; time passes through [W], the world they act on. *)
From S2P Require Import Prelude GoStrings GoTime ConfigTypes.

Local Open Scope Z_scope.

Record UsageEvent := mkUsageEvent {
  ev_Key : string;
  ev_TenantKey : string;
  ev_Method : string;
  ev_Path : string;
  ev_Allowed : bool;
  ev_Remaining : Z;
  ev_Limit : Z;
  ev_Timestamp : string;
  ev_StatusCode : Z;
  ev_RequestID : string;
  ev_Reason : string
}.

(** The zero value [make([]UsageEvent, n)] fills the ring with. *)
Definition zero_event : UsageEvent := mkUsageEvent "" "" "" "" false 0 0 "" 0 "" "".

Record Emitter := mkEmitter {
  httpURL : string;
  httpHeaders : Header;
  batchSize : nat;
  flushInterval : Z;
  bufferSize : nat;
  maxRetries : nat;
  retryBackoff : Z;
  ring : list UsageEvent;
  ringHead : nat;
  ringTail : nat;
  ringLen : nat;
  lastDropWarn : option Z;      (* None: the zero time *)
  flushCh : bool;               (* the one-slot channel holds a signal *)
  done : bool;                  (* the channel is closed *)
  eventsDropped : nat;          (* metrics: IncEventsDropped *)
  eventsSendFailures : nat      (* metrics: IncEventsSendFailures *)
}.

Definition set_ring (e : Emitter) (r : list UsageEvent) (h t l : nat) : Emitter :=
  mkEmitter (httpURL e) (httpHeaders e) (batchSize e) (flushInterval e) (bufferSize e) (maxRetries e) (retryBackoff e)
    r h t l (lastDropWarn e) (flushCh e) (done e) (eventsDropped e) (eventsSendFailures e).
Definition note_drop (e : Emitter) (warn : option Z) : Emitter :=
  mkEmitter (httpURL e) (httpHeaders e) (batchSize e) (flushInterval e) (bufferSize e) (maxRetries e) (retryBackoff e)
    (ring e) (ringHead e) (ringTail e) (ringLen e) warn (flushCh e) (done e) (S (eventsDropped e)) (eventsSendFailures e).
Definition set_flushCh (e : Emitter) (b : bool) : Emitter :=
  mkEmitter (httpURL e) (httpHeaders e) (batchSize e) (flushInterval e) (bufferSize e) (maxRetries e) (retryBackoff e)
    (ring e) (ringHead e) (ringTail e) (ringLen e) (lastDropWarn e) b (done e) (eventsDropped e) (eventsSendFailures e).
Definition set_done (e : Emitter) : Emitter :=
  mkEmitter (httpURL e) (httpHeaders e) (batchSize e) (flushInterval e) (bufferSize e) (maxRetries e) (retryBackoff e)
    (ring e) (ringHead e) (ringTail e) (ringLen e) (lastDropWarn e) (flushCh e) true (eventsDropped e) (eventsSendFailures e).
Definition note_failure (e : Emitter) : Emitter :=
  mkEmitter (httpURL e) (httpHeaders e) (batchSize e) (flushInterval e) (bufferSize e) (maxRetries e) (retryBackoff e)
    (ring e) (ringHead e) (ringTail e) (ringLen e) (lastDropWarn e) (flushCh e) (done e) (eventsDropped e) (S (eventsSendFailures e)).

(** A duration option that is used only when it parses to a positive value. *)
Definition positive_duration (s : string) (def : Z) : Z :=
  if bool_decide (s = "") then def
  else match time_ParseDuration s with Some d => if 0 <? d then d else def | None => def end.

Definition positive_int (n def : Z) : nat := Z.to_nat (if n <=? 0 then def else n).

(** [None] is the nil emitter of a disabled configuration. *)
Definition NewEmitter (cfg : EventsConfig) : option Emitter :=
  if negb (ev_Enabled cfg) then None
  else
    let bufferSize := positive_int (ev_BufferSize cfg) 10000 in
    let headers := map_fold (fun k v h => Header_Set h k v) ∅ (eh_Headers (ev_HTTP cfg)) in
    Some (mkEmitter (eh_URL (ev_HTTP cfg)) headers (positive_int (ev_BatchSize cfg) 100)
      (positive_duration (ev_FlushInterval cfg) (5 * Second)) bufferSize (positive_int (ev_MaxRetries cfg) 3)
      (positive_duration (ev_RetryBackoff cfg) (100 * Millisecond))
      (replicate bufferSize zero_event) 0 0 0 None false false 0 0).

Definition Emit (now : Z) (ev : UsageEvent) (e : Emitter) : Emitter :=
  let r := <[ringTail e := ev]> (ring e) in
  let t := ((ringTail e + 1) mod bufferSize e)%nat in
  let e :=
    if bool_decide (ringLen e = bufferSize e) then
      let warn := match lastDropWarn e with
                  | Some last => if flushInterval e <=? now - last then Some now else Some last
                  | None => Some now
                  end in
      note_drop (set_ring e r ((ringHead e + 1) mod bufferSize e) t (ringLen e)) warn
    else set_ring e r (ringHead e) t (S (ringLen e)) in
  if bool_decide (batchSize e <= ringLen e)%nat then set_flushCh e true else e.

Definition drain (e : Emitter) : Emitter * list UsageEvent :=
  if bool_decide (ringLen e = 0%nat) then (e, [])
  else
    let n := if bool_decide (batchSize e < ringLen e)%nat then batchSize e else ringLen e in
    let batch := map (fun i => nth ((ringHead e + i) mod bufferSize e) (ring e) zero_event) (seq 0 n) in
    (set_ring e (ring e) ((ringHead e + n) mod bufferSize e) (ringTail e) (ringLen e - n), batch).

(** The wire form ([eventsv1http.UsageEvent]): optional fields are pointers. *)
Record WireEvent := mkWireEvent {
  we_Key : string;
  we_TenantKey : option string;
  we_Method : string;
  we_Path : string;
  we_Allowed : bool;
  we_Remaining : Z;
  we_Limit : Z;
  we_Timestamp : string;
  we_StatusCode : Z;
  we_RequestId : option string;
  we_Reason : option string
}.

Definition wrap32 (z : Z) : Z := (z + 2 ^ 31) mod 2 ^ 32 - 2 ^ 31.
Definition omitempty (s : string) : option string := if bool_decide (s = "") then None else Some s.

Definition usageEventToHTTP (ev : UsageEvent) : WireEvent :=
  mkWireEvent (ev_Key ev) (omitempty (ev_TenantKey ev)) (ev_Method ev) (ev_Path ev) (ev_Allowed ev)
    (ev_Remaining ev) (ev_Limit ev) (ev_Timestamp ev) (wrap32 (Z.min (ev_StatusCode ev) 599))
    (omitempty (ev_RequestID ev)) (omitempty (ev_Reason ev)).

Section transport.
Context {W : Type}.
Variable Marshal : list WireEvent -> result string.
(** [http.NewRequest] and [httpClient.Do]: the answer's status or an error. *)
Variable Post : W -> string -> Header -> string -> W * result Z.
Variable Sleep : W -> Z -> W.

Definition event_headers (e : Emitter) : Header :=
  map_fold (fun k vals h => foldl (fun h v => Header_Set h k v) h vals)
    (Header_Set ∅ "Content-Type" "application/json") (httpHeaders e).

Definition trySendHTTP (e : Emitter) (w : W) (body : string) : W * bool :=
  match Post w (httpURL e) (event_headers e) body with
  | (w, Err _) => (w, false)
  | (w, Ok status) => (w, negb (500 <=? status))
  end.

(** The retry loop with [left] attempts to go: the world and whether a send
    succeeded. No sleep follows the last attempt. *)
Fixpoint send_attempts (e : Emitter) (w : W) (body : string) (backoff : Z) (left : nat) : W * bool :=
  match left with
  | O => (w, false)
  | S left' =>
      let '(w, ok) := trySendHTTP e w body in
      if ok : bool then (w, true)
      else match left' with
           | O => (w, false)
           | S _ => send_attempts e (Sleep w backoff) body (wrap64 (backoff * 2)) left'
           end
  end.

Definition sendHTTP (e : Emitter) (w : W) (batch : list UsageEvent) : Emitter * W :=
  match Marshal (map usageEventToHTTP batch) with
  | Err _ => (e, w)
  | Ok body =>
      let '(w, ok) := send_attempts e w body (retryBackoff e) (maxRetries e) in
      (if ok : bool then e else note_failure e, w)
  end.

Definition send (e : Emitter) (w : W) (batch : list UsageEvent) : Emitter * W :=
  if bool_decide (httpURL e <> "") then sendHTTP e w batch else (e, w).

(** The [flush] loop; [None] when the fuel runs out. The batches handed to
    [send] are returned in order. *)
Fixpoint flush (fuel : nat) (e : Emitter) (w : W) : option (Emitter * W * list (list UsageEvent)) :=
  match fuel with
  | O => None
  | S fuel =>
      let '(e, batch) := drain e in
      match batch with
      | [] => Some (e, w, [])
      | _ =>
          let '(e, w) := send e w batch in
          r ← flush fuel e w;
          let '(e, w, batches) := r in Some (e, w, batch :: batches)
      end
  end.

(** [Close]: [None] is the panic of closing the channel twice. The loop has
    returned when the final drain runs. *)
Definition Close (e : Emitter) (w : W) : option (Emitter * W * list (list UsageEvent)) :=
  if done e then None else flush (S (ringLen e)) (set_done e) w.
End transport.

(** ** The ring as a bounded queue *)

(** The events the ring holds, oldest first. *)
Definition content (e : Emitter) : list UsageEvent :=
  map (fun i => nth ((ringHead e + i) mod bufferSize e) (ring e) zero_event) (seq 0 (ringLen e)).

Record ring_ok (e : Emitter) : Prop := {
  ring_size : length (ring e) = bufferSize e;
  ring_pos : (0 < bufferSize e)%nat;
  ring_batch : (0 < batchSize e)%nat;
  ring_len : (ringLen e <= bufferSize e)%nat;
  ring_head : (ringHead e < bufferSize e)%nat;
  ring_tail : ringTail e = ((ringHead e + ringLen e) mod bufferSize e)%nat
}.

Lemma content_length e : length (content e) = ringLen e.
Proof. unfold content. by rewrite length_map, length_seq. Qed.

Lemma map_seq_split {A} (f : nat -> A) a n m :
  map f (seq a (n + m)) = map f (seq a n) ++ map (fun i => f (n + i)%nat) (seq a m).
Proof.
  rewrite seq_app, map_app. f_equal. revert a. induction m as [|m IH]; intros a; [done|].
  cbn [seq map]. rewrite Nat.add_comm. f_equal. rewrite <- IH. by rewrite Nat.add_succ_l, (Nat.add_comm a n).
Qed.

Lemma map_seq_ext {A} (f g : nat -> A) a n :
  (forall i, (a <= i < a + n)%nat -> f i = g i) -> map f (seq a n) = map g (seq a n).
Proof. intros H. apply map_ext_in. intros i Hi%in_seq. by apply H. Qed.

Lemma mod_add_ne h i j n : (i < j)%nat -> (j < n)%nat -> ((h + i) mod n <> (h + j) mod n)%nat.
Proof.
  intros Hij Hj H.
  pose proof (Nat.div_mod_eq (h + i) n) as H1. pose proof (Nat.div_mod_eq (h + j) n) as H2. rewrite H in H1.
  assert (n * ((h + j) / n - (h + i) / n) = j - i)%nat by nia.
  destruct ((h + j) / n - (h + i) / n)%nat; nia.
Qed.

Lemma nth_insert_eq (l : list UsageEvent) k x d : (k < length l)%nat -> nth k (<[k := x]> l) d = x.
Proof. intros Hk. rewrite nth_lookup, list_lookup_insert_eq by done. done. Qed.
Lemma nth_insert_ne (l : list UsageEvent) k k' x d : k <> k' -> nth k' (<[k := x]> l) d = nth k' l d.
Proof. intros Hk. by rewrite !nth_lookup, list_lookup_insert_ne. Qed.

Lemma mod_succ_add h i n : (((h + 1) mod n + i) mod n = (h + S i) mod n)%nat.
Proof. rewrite Nat.Div0.add_mod_idemp_l. f_equal. lia. Qed.

(** The ring writes of [Emit] on a ring that is not full. *)
Lemma emit_room e ev :
  ring_ok e -> (ringLen e < bufferSize e)%nat ->
  content (set_ring e (<[ringTail e := ev]> (ring e)) (ringHead e)
    ((ringTail e + 1) mod bufferSize e) (S (ringLen e))) = content e ++ [ev].
Proof.
  intros [Hs Hp _ Hl Hh Ht] Hlt. unfold content. cbn [set_ring ringHead ringLen bufferSize ring].
  replace (S (ringLen e)) with (ringLen e + 1)%nat by lia. rewrite map_seq_split. f_equal.
  - apply map_seq_ext. intros i Hi. apply nth_insert_ne. rewrite Ht. symmetry. apply mod_add_ne; lia.
  - cbn [seq map]. rewrite Nat.add_0_r, <- Ht. f_equal. apply nth_insert_eq. rewrite Ht, Hs.
    apply Nat.mod_upper_bound. lia.
Qed.

(** ... and on a full one: the oldest event is overwritten. *)
Lemma emit_full e ev warn :
  ring_ok e -> ringLen e = bufferSize e ->
  content (note_drop (set_ring e (<[ringTail e := ev]> (ring e)) ((ringHead e + 1) mod bufferSize e)
    ((ringTail e + 1) mod bufferSize e) (ringLen e)) warn) = tail (content e) ++ [ev].
Proof.
  intros [Hs Hp _ Hl Hh Ht] Hfull. unfold content. cbn [note_drop set_ring ringHead ringLen bufferSize ring].
  rewrite Hfull in *. destruct (bufferSize e) as [|n] eqn:En; [lia|].
  assert (ringTail e = ringHead e) as Ht'.
  { rewrite Ht. replace (ringHead e + S n)%nat with (ringHead e + 1 * S n)%nat by lia.
    rewrite Nat.Div0.mod_add. by apply Nat.mod_small. }
  assert (forall i, (((ringHead e + 1) mod S n + i) mod S n = (ringHead e + S i) mod S n)%nat) as Hm
    by (intros; apply mod_succ_add).
  transitivity (map (fun i => nth ((ringHead e + S i) mod S n) (ring e) zero_event) (seq 0 n) ++ [ev]).
  - replace (seq 0 (S n)) with (seq 0 (n + 1)) by (f_equal; lia). rewrite map_seq_split. f_equal.
    + apply map_seq_ext. intros i Hi. rewrite Hm, Ht'. apply nth_insert_ne.
      rewrite <- (Nat.mod_small (ringHead e) (S n)) at 1 by done.
      rewrite <- (Nat.add_0_r (ringHead e)) at 1. apply mod_add_ne; lia.
    + cbn [seq map]. rewrite Nat.add_0_r, Hm. f_equal.
      replace (ringHead e + S n)%nat with (ringHead e + 1 * S n)%nat by lia.
      rewrite Nat.Div0.mod_add, Nat.mod_small, Ht' by done. apply nth_insert_eq. lia.
  - f_equal. cbn [seq map tail]. by rewrite <- seq_shift, map_map.
Qed.

Lemma content_set_flushCh e b : content (set_flushCh e b) = content e.
Proof. done. Qed.

(** [Emit] appends to the queue; a full queue loses its oldest event, which is
    counted. *)
Lemma Emit_spec now ev e :
  ring_ok e ->
  ring_ok (Emit now ev e) /\
  content (Emit now ev e)
    = (if bool_decide (ringLen e = bufferSize e) then tail (content e) else content e) ++ [ev] /\
  eventsDropped (Emit now ev e)
    = (if bool_decide (ringLen e = bufferSize e) then S (eventsDropped e) else eventsDropped e) /\
  batchSize (Emit now ev e) = batchSize e /\ bufferSize (Emit now ev e) = bufferSize e.
Proof.
  intros Hok. pose proof Hok as [Hs Hp Hb Hl Hh Ht]. unfold Emit.
  destruct (bool_decide_reflect (ringLen e = bufferSize e)) as [Hf|Hf].
  - pose proof (emit_full e ev) as Hc. case_match; rewrite ?content_set_flushCh;
      (split; [|split; [by apply Hc|done]]);
      (split; cbn; [by rewrite length_insert|done..| |]; [apply Nat.mod_upper_bound; lia|]);
      rewrite Ht, Hf, !Nat.Div0.add_mod_idemp_l; f_equal; lia.
  - pose proof (emit_room e ev Hok) as Hc. case_match; rewrite ?content_set_flushCh;
      (split; [|split; [apply Hc; lia|done]]);
      (split; cbn; [by rewrite length_insert|done..|lia|lia|]);
      rewrite Ht, !Nat.Div0.add_mod_idemp_l; f_equal; lia.
Qed.

(** [drain] removes a prefix of the queue: all of it, or one batch. *)
Lemma drain_spec e :
  ring_ok e ->
  let '(e', batch) := drain e in
  ring_ok e' /\ batch = take (batchSize e) (content e) /\ content e' = drop (batchSize e) (content e)
  /\ eventsDropped e' = eventsDropped e /\ batchSize e' = batchSize e.
Proof.
  intros Hok. pose proof Hok as [Hs Hp Hb Hl Hh Ht]. unfold drain.
  destruct (bool_decide_reflect (ringLen e = 0%nat)) as [H0|H0].
  { assert (content e = []) as -> by (apply length_zero_iff_nil; by rewrite content_length).
    by rewrite take_nil, drop_nil. }
  set (n := if bool_decide _ then batchSize e else ringLen e).
  assert (n <= ringLen e /\ 0 < n /\ take n (content e) = take (batchSize e) (content e)
    /\ drop n (content e) = drop (batchSize e) (content e))%nat as (Hn & Hn0 & <- & <-).
  { subst n. case_bool_decide; [split_and!; [lia..|done|done]|]. split_and!; [lia..| |].
    - by rewrite !take_ge by (rewrite content_length; lia).
    - by rewrite !drop_ge by (rewrite content_length; lia). }
  assert (content e = map (fun i => nth ((ringHead e + i) mod bufferSize e) (ring e) zero_event) (seq 0 n)
    ++ map (fun i => nth ((ringHead e + (n + i)) mod bufferSize e) (ring e) zero_event) (seq 0 (ringLen e - n))) as Hc.
  { unfold content. replace (ringLen e) with (n + (ringLen e - n))%nat at 1 by lia. apply map_seq_split. }
  split_and!; [|..|done|done].
  - split; cbn; [done..|lia|apply Nat.mod_upper_bound; lia|].
    rewrite Nat.Div0.add_mod_idemp_l, Ht. f_equal. lia.
  - rewrite Hc, take_app_length'; [done|]. by rewrite length_map, length_seq.
  - rewrite Hc, drop_app_length' by (by rewrite length_map, length_seq). unfold content.
    cbn [set_ring ringHead ringLen bufferSize ring]. apply map_seq_ext. intros i Hi.
    rewrite Nat.Div0.add_mod_idemp_l. do 2 f_equal. lia.
Qed.

Lemma NewEmitter_ok cfg e : NewEmitter cfg = Some e -> ring_ok e /\ content e = [] /\ eventsDropped e = 0%nat.
Proof.
  unfold NewEmitter. destruct (ev_Enabled cfg); [|done]. intros [= <-].
  assert (forall n def, 0 < def -> (0 < positive_int n def)%nat) as Hpos
    by (intros n def Hd; unfold positive_int; case_match; bools; lia).
  split; [|done]. split; cbn; [apply length_replicate|by apply Hpos|by apply Hpos|lia|by apply Hpos|].
  symmetry. apply Nat.mod_small. by apply Hpos.
Qed.

(** ** Every event is accounted for *)

(** Emitters run concurrently with the flush loop; each call takes the lock once. *)
Inductive ring_op := OEmit (now : Z) (ev : UsageEvent) | ODrain.

Fixpoint run_ring (ops : list ring_op) (e : Emitter) : Emitter * list (list UsageEvent) :=
  match ops with
  | [] => (e, [])
  | OEmit now ev :: ops => run_ring ops (Emit now ev e)
  | ODrain :: ops =>
      let '(e, batch) := drain e in
      let '(e, batches) := run_ring ops e in (e, batch :: batches)
  end.

Definition emitted (ops : list ring_op) : list UsageEvent :=
  omap (fun o => match o with OEmit _ ev => Some ev | ODrain => None end) ops.

Inductive fate := Sent | Lost.
#[global] Instance fate_eq_dec : EqDecision fate.
Proof. solve_decision. Defined.

(** The events with fate [f] in a log of the events that left the ring. *)
Definition with_fate (f : fate) (log : list (fate * UsageEvent)) : list UsageEvent :=
  map snd (filter (fun x => x.1 = f) log).

Lemma with_fate_app f l1 l2 : with_fate f (l1 ++ l2) = with_fate f l1 ++ with_fate f l2.
Proof. unfold with_fate. by rewrite filter_app, map_app. Qed.

Lemma with_fate_sent batch :
  with_fate Sent (map (pair Sent) batch) = batch /\ with_fate Lost (map (pair Sent) batch) = []
  /\ map snd (map (pair Sent) batch) = batch.
Proof.
  induction batch as [|ev batch (IH1 & IH2 & IH3)]; [done|]. unfold with_fate in *. cbn [map].
  rewrite !filter_cons. rewrite decide_True, decide_False by done. cbn. by rewrite IH1, IH2, IH3.
Qed.

Lemma run_ring_log ops e :
  ring_ok e ->
  let '(e', batches) := run_ring ops e in
  ring_ok e' /\ Forall (fun b => (length b <= batchSize e)%nat) batches /\
  exists log,
    map snd log ++ content e' = content e ++ emitted ops
    /\ with_fate Sent log = concat batches
    /\ eventsDropped e' = (eventsDropped e + length (with_fate Lost log))%nat.
Proof.
  revert e. induction ops as [|[now ev|] ops IH]; intros e Hok; cbn [run_ring].
  { split_and!; [done|constructor|]. exists []. cbn. rewrite app_nil_r, Nat.add_0_r. done. }
  - destruct (Emit_spec now ev e Hok) as (Hok' & Hc & Hd & Hb & _). specialize (IH _ Hok').
    destruct (run_ring ops _) as [e' batches]. destruct IH as (He' & Hl & log & H1 & H2 & H3).
    split_and!; [done|by rewrite Hb in Hl|]. rewrite Hc, Hd in *.
    destruct (bool_decide_reflect (ringLen e = bufferSize e)) as [Hf|Hf].
    + destruct (content e) as [|x xs] eqn:Ex.
      { destruct Hok as [? ? ? ? ?]. pose proof (content_length e) as Hlen. rewrite Ex in Hlen. cbn in Hlen. lia. }
      exists ((Lost, x) :: log). cbn [tail] in H1. cbn [map app snd]. rewrite H1, <- app_assoc. split_and!; [done|done|].
      rewrite H3. change (with_fate Lost ((Lost, x) :: log)) with (x :: with_fate Lost log). cbn [length]. lia.
    + exists log. rewrite H1, <- app_assoc. done.
  - pose proof (drain_spec e Hok) as Hd. destruct (drain e) as [e1 batch].
    destruct Hd as (Hok' & -> & Hc & Hd & Hb). specialize (IH _ Hok').
    destruct (run_ring ops e1) as [e' batches]. destruct IH as (He' & Hl & log & H1 & H2 & H3).
    rewrite Hb in Hl. split_and!; [done|constructor; [rewrite length_take; lia|done]|].
    destruct (with_fate_sent (take (batchSize e) (content e))) as (S1 & S2 & S3).
    exists (map (pair Sent) (take (batchSize e) (content e)) ++ log).
    rewrite map_app, S3, !with_fate_app, S1, S2, H2, <- app_assoc, H1, Hc, app_assoc, take_drop.
    by rewrite H3, Hd.
Qed.

(** No event is lost silently. For every interleaving of [Emit] and
    [drain] calls on a new emitter, the emitted events, in order, are those
    that left the ring followed by those still in it; the ones that left were
    handed to the sender, in the order of the batches, or were dropped as the
    oldest of a full buffer, and the drop metric counts exactly those. No batch
    exceeds the configured size and the buffer never exceeds its capacity. *)
Theorem events_accounted cfg e ops :
  NewEmitter cfg = Some e ->
  let '(e', batches) := run_ring ops e in
  (length (content e') <= bufferSize e')%nat /\ Forall (fun b => (length b <= batchSize e)%nat) batches /\
  exists log,
    emitted ops = map snd log ++ content e'
    /\ with_fate Sent log = concat batches
    /\ length (with_fate Lost log) = eventsDropped e'.
Proof.
  intros (Hok & Hc & Hd)%NewEmitter_ok. pose proof (run_ring_log ops e Hok) as H.
  destruct (run_ring ops e) as [e' batches]. destruct H as (Hok' & Hl & log & H1 & H2 & H3).
  split_and!; [rewrite content_length; apply Hok'|done|]. exists log. rewrite Hc in H1. by rewrite H1, H3, Hd.
Qed.

Definition demo_events (batch buffer : Z) : EventsConfig :=
  mkEventsConfig true (mkEventsHTTPConfig "http://events" ∅ "" "") (ev_GRPC (cfg_Events Defaults)) batch "" buffer 2 ""
    (ev_HeaderFilter (cfg_Events Defaults)).
Definition demo_event (key : string) : UsageEvent := mkUsageEvent key "" "GET" "/" true 1 2 "" 200 "" "".
Definition demo_ops : list ring_op :=
  [OEmit 0 (demo_event "a"); OEmit 1 (demo_event "b"); OEmit 2 (demo_event "c"); OEmit 3 (demo_event "d"); ODrain].

Lemma events_accounted_witness :
  exists e, NewEmitter (demo_events 2 3) = Some e
    /\ exists log, emitted demo_ops = map snd log ++ content (run_ring demo_ops e).1
    /\ with_fate Sent log = concat (run_ring demo_ops e).2
    /\ (run_ring demo_ops e).2 = [[demo_event "b"; demo_event "c"]]
    /\ eventsDropped (run_ring demo_ops e).1 = 1%nat.
Proof.
  eexists. split; [reflexivity|].
  match goal with |- context [run_ring demo_ops ?e] =>
    pose proof (events_accounted (demo_events 2 3) e demo_ops eq_refl) as H;
    destruct (run_ring demo_ops e) as [e' bs] eqn:Er end.
  destruct H as (_ & _ & log & H1 & H2 & H3). exists log.
  split_and!; [done..| |]; vm_compute in Er; injection Er as <- <-; done.
Defined.

(** ** Flushing *)

Section flushing.
Context {W : Type}.
Variable Marshal : list WireEvent -> result string.
Variable Post : W -> string -> Header -> string -> W * result Z.
Variable Sleep : W -> Z -> W.

Lemma send_keeps e w batch :
  let e' := (send Marshal Post Sleep e w batch).1 in
  (ring_ok e -> ring_ok e') /\ content e' = content e /\ batchSize e' = batchSize e /\ ringLen e' = ringLen e
  /\ maxRetries e' = maxRetries e.
Proof.
  unfold send, sendHTTP. case_bool_decide; [|done]. destruct (Marshal _); [|done].
  destruct (send_attempts _ _ _ _ _ _ _) as [w' []]; cbn; [done|]. split; [|done]. by intros [].
Qed.

(** [flush] with more fuel than events returns, sends everything it found in
    order, and leaves the ring empty. *)
Lemma flush_total fuel e w :
  ring_ok e -> (ringLen e < fuel)%nat ->
  exists e' w' batches, flush Marshal Post Sleep fuel e w = Some (e', w', batches)
    /\ content e' = [] /\ concat batches = content e
    /\ Forall (fun b => 0 < length b <= batchSize e)%nat batches.
Proof.
  revert e w. induction fuel as [|fuel IH]; intros e w Hok Hf; [lia|]. cbn [flush].
  pose proof (drain_spec e Hok) as Hd. destruct (drain e) as [e1 batch].
  destruct Hd as (Hok1 & Hbatch & Hc1 & _ & Hb1).
  pose proof (content_length e) as Hlen. pose proof (content_length e1) as Hlen1.
  pose proof (ring_batch e Hok) as Hpos.
  destruct batch as [|ev rest].
  { assert (content e = []) as He by (destruct (content e); [done|]; by destruct (batchSize e); [lia|]).
    exists e1, w, []. rewrite Hc1, He, drop_nil. by split_and!. }
  remember (ev :: rest) as batch eqn:Eb. pose proof (send_keeps e1 w batch) as Hk.
  destruct (send _ _ _ e1 w batch) as [e2 w2]. cbn [fst] in Hk. destruct Hk as (Hok2 & Hc2 & Hb2 & Hl2 & _).
  assert (0 < length batch <= batchSize e)%nat as Hbl.
  { split; [rewrite Eb; cbn; lia|]. rewrite Hbatch, length_take. lia. }
  destruct (IH e2 w2 (Hok2 Hok1)) as (e' & w' & batches & -> & He' & Hcc & Hall).
  { rewrite Hl2, <- Hlen1, Hc1, length_drop. rewrite Hbatch, length_take in Hbl. lia. }
  exists e', w', (batch :: batches). cbn. split_and!; [done..| |].
  - rewrite Hcc, Hc2, Hc1, Hbatch. apply take_drop.
  - constructor; [done|]. by rewrite Hb2, Hb1 in Hall.
Qed.

(** [count] counts the posts the world has seen. *)
Variable count : W -> nat.
Hypothesis Post_count : forall w url h body, count (Post w url h body).1 = S (count w).
Hypothesis Sleep_count : forall w d, count (Sleep w d) = count w.

(** A batch is posted until the receiver answers below 500, at least once and
    at most [left] times; a failure means every attempt was used. *)
Lemma send_attempts_count e w body backoff left :
  (0 < left)%nat ->
  let '(w', ok) := send_attempts Post Sleep e w body backoff left in
  (count w < count w' <= count w + left)%nat /\ (ok = false -> count w' = (count w + left)%nat).
Proof using Post_count Sleep_count.
  revert w backoff. induction left as [|left IH]; intros w backoff Hl; [lia|]. cbn [send_attempts].
  assert (count (trySendHTTP Post e w body).1 = S (count w)) as Hp.
  { unfold trySendHTTP. rewrite <- (Post_count w (httpURL e) (event_headers e) body). by destruct (Post _ _ _ _) as [? []]. }
  destruct (trySendHTTP Post e w body) as [w1 []]; cbn [fst] in Hp; [split; [lia|done]|].
  destruct left as [|left]; [split; lia|].
  specialize (IH (Sleep w1 backoff) (wrap64 (backoff * 2)) ltac:(lia)).
  destruct (send_attempts _ _ e _ body _ _) as [w2 ok]. rewrite Sleep_count in IH. split; [lia|].
  intros Hok. destruct IH as [_ IH]. rewrite IH by done. lia.
Qed.

Lemma send_count e w batch :
  (0 < maxRetries e)%nat ->
  (count w <= count (send Marshal Post Sleep e w batch).2 <= count w + maxRetries e)%nat.
Proof using Post_count Sleep_count.
  intros Hr. unfold send, sendHTTP. case_bool_decide; [|cbn; lia]. destruct (Marshal _) as [body|]; [|cbn; lia].
  pose proof (send_attempts_count e w body (retryBackoff e) _ Hr) as H0.
  destruct (send_attempts _ _ e w body _ _) as [w' ok]. cbn. lia.
Qed.

Lemma drain_maxRetries e : maxRetries (drain e).1 = maxRetries e.
Proof using Type. unfold drain. by case_bool_decide. Qed.

Lemma flush_count fuel e w e' w' batches :
  (0 < maxRetries e)%nat -> flush Marshal Post Sleep fuel e w = Some (e', w', batches) ->
  (count w' <= count w + maxRetries e * length batches)%nat.
Proof using Post_count Sleep_count.
  revert e w e' w' batches. induction fuel as [|fuel IH]; intros e w e' w' batches Hr; [done|]. cbn [flush].
  pose proof (drain_maxRetries e) as Hd. destruct (drain e) as [e1 batch]. cbn in Hd.
  destruct batch as [|ev rest]; [intros [= <- <- <-]; lia|].
  pose proof (send_keeps e1 w (ev :: rest)) as (_ & _ & _ & _ & Hm).
  pose proof (send_count e1 w (ev :: rest) ltac:(lia)) as Hs.
  destruct (send _ _ _ e1 w (ev :: rest)) as [e2 w2]. cbn [fst snd] in *.
  destruct (flush _ _ _ fuel e2 w2) as [[[e3 w3] bs]|] eqn:Ef; [|done]. cbn. intros [= <- <- <-].
  apply IH in Ef; [|lia]. rewrite Hm, Hd in *. cbn [length]. lia.
Qed.

(** Closing delivers what is buffered. [Close] on an open emitter
    terminates; the pending events are handed to the sender in order, in
    non-empty batches of at most the batch size, the ring is empty afterwards,
    and the receiver sees at most [maxRetries] posts per batch. *)
Theorem Close_delivers e w :
  ring_ok e -> (0 < maxRetries e)%nat -> done e = false ->
  exists e' w' batches, Close Marshal Post Sleep e w = Some (e', w', batches)
    /\ content e' = [] /\ concat batches = content e
    /\ Forall (fun b => 0 < length b <= batchSize e)%nat batches
    /\ (count w' <= count w + maxRetries e * length batches)%nat.
Proof using Post_count Sleep_count.
  intros Hok Hr Hd. unfold Close. rewrite Hd.
  assert (ring_ok (set_done e)) as Hok' by (by destruct Hok).
  destruct (flush_total (S (ringLen e)) (set_done e) w Hok' ltac:(cbn; lia)) as (e' & w' & bs & Hf & H1 & H2 & H3).
  pose proof (flush_count _ _ _ _ _ _ (Hr : (0 < maxRetries (set_done e))%nat) Hf). naive_solver.
Qed.
End flushing.

(** A receiver that answers 503 to every post, counting them. *)
Definition failing_post (w : nat) (url : string) (h : Header) (body : string) : nat * result Z := (S w, Ok 503).

Lemma Close_delivers_witness :
  exists e, NewEmitter (demo_events 2 3) = Some e
    /\ exists e' w' batches,
         Close (fun _ => Ok "{}") failing_post (fun w _ => w) (run_ring (take 3 demo_ops) e).1 0%nat = Some (e', w', batches)
         /\ content e' = [] /\ batches = [[demo_event "a"; demo_event "b"]; [demo_event "c"]]
         /\ (w' <= 4)%nat /\ eventsSendFailures e' = 2%nat.
Proof.
  eexists. split; [reflexivity|]. set (e := (run_ring _ _).1).
  destruct (Close_delivers (fun _ => Ok "{}") failing_post (fun w _ => w) (fun w => w)
    ltac:(reflexivity) ltac:(reflexivity) e 0%nat) as (e' & w' & bs & Hc & H1 & _ & _ & H4).
  { split; vm_compute; try reflexivity; lia. }
  { vm_compute. lia. }
  { vm_compute. reflexivity. }
  exists e', w', bs. split; [exact Hc|]. split; [exact H1|].
  vm_compute in Hc. injection Hc as <- <- <-. cbn in H4. split_and!; [vm_compute; reflexivity|lia|reflexivity].
Defined.
