(* ===== verification/EventLoop.v ===== *)
(** * The flush loop of the usage events

    [Emitter.flushLoop] of src/internal/events/emitter.go beside the requests
    that emit events and the call that closes the emitter. Emitting writes to the
    ring under its lock and signals the loop afterwards, so the signal may come
    late; the loop sleeps until a tick, a signal or the end. *)
From S2P Require Import Prelude GoStrings GoTime ConfigTypes Config Events.

Local Open Scope Z_scope.

(** The critical section of [Emit], without the signal. *)
Definition enqueue (now : Z) (ev : UsageEvent) (e : Emitter) : Emitter := set_flushCh (Emit now ev e) (flushCh e).
Definition shouldFlush (e : Emitter) : bool := bool_decide (batchSize e <= ringLen e)%nat.

Inductive lphase :=
| LWait                              (* in the select *)
| LDrain                             (* in flush: takes the next batch *)
| LSend (batch : list UsageEvent)
| LGone.                             (* the goroutine has returned *)

(** [Close]: not called, waiting for the loop, in its own flush, returned. *)
Inductive cstate := KOpen | KWait | KDrain | KSend (batch : list UsageEvent) | KClosed.

Section loop.
Context {W : Type}.
Variable Marshal : list WireEvent -> result string.
Variable Post : W -> string -> Header -> string -> W * result Z.
Variable Sleep : W -> Z -> W.

Abbreviation post := (send Marshal Post Sleep).

Record lstate := mkLState {
  ls_e : Emitter;
  ls_w : W;
  ls_phase : lphase;
  ls_signals : nat;                  (* emitters between their unlock and their signal *)
  ls_close : cstate;
  ls_handed : list UsageEvent        (* handed to send, in order *)
}.

Inductive levent :=
| LEmit (now : Z) (ev : UsageEvent)
| LSignal
| LTick
| LWake
| LDone
| LStep                              (* the next operation of flush *)
| LWorld (w : W)
| KClose
| KJoin                              (* wg.Wait returns *)
| KStep.

Definition lstep (x : levent) (s : lstate) : option lstate :=
  let 'mkLState e w ph sg k h := s in
  match x with
  | LEmit now ev =>
      let e := enqueue now ev e in Some (mkLState e w ph (if shouldFlush e then S sg else sg) k h)
  | LSignal => match sg with S sg => Some (mkLState (set_flushCh e true) w ph sg k h) | O => None end
  | LTick => match ph with LWait => Some (mkLState e w LDrain sg k h) | _ => None end
  | LWake =>
      match ph with
      | LWait => if flushCh e then Some (mkLState (set_flushCh e false) w LDrain sg k h) else None
      | _ => None
      end
  | LDone => match ph with LWait => if done e then Some (mkLState e w LGone sg k h) else None | _ => None end
  | LStep =>
      match ph with
      | LDrain =>
          let '(e, batch) := drain e in
          Some (mkLState e w (match batch with [] => LWait | _ => LSend batch end) sg k h)
      | LSend batch => let '(e, w) := post e w batch in Some (mkLState e w LDrain sg k (h ++ batch))
      | _ => None
      end
  | LWorld w => Some (mkLState e w ph sg k h)
  | KClose => match k with KOpen => Some (mkLState (set_done e) w ph sg KWait h) | _ => None end
  | KJoin => match k, ph with KWait, LGone => Some (mkLState e w ph sg KDrain h) | _, _ => None end
  | KStep =>
      match k with
      | KDrain =>
          let '(e, batch) := drain e in
          Some (mkLState e w ph sg (match batch with [] => KClosed | _ => KSend batch end) h)
      | KSend batch => let '(e, w) := post e w batch in Some (mkLState e w ph sg KDrain (h ++ batch))
      | _ => None
      end
  end.

Fixpoint lrun (es : list levent) (s : lstate) : option lstate :=
  match es with [] => Some s | x :: es => s1 ← lstep x s; lrun es s1 end.

Definition started (e : Emitter) (w : W) : lstate := mkLState e w LWait 0 KOpen [].
End loop.

Arguments ls_e {W} _.
Arguments ls_w {W} _.
Arguments ls_phase {W} _.
Arguments ls_signals {W} _.
Arguments ls_close {W} _.
Arguments ls_handed {W} _.
Arguments mkLState {W} _ _ _ _ _ _.

(** ** Delivery and wake-ups *)

Lemma enqueue_spec now ev e :
  ring_ok e ->
  let e' := enqueue now ev e in
  ring_ok e' /\ content e' = (if bool_decide (ringLen e = bufferSize e) then tail (content e) else content e) ++ [ev]
  /\ eventsDropped e' = (if bool_decide (ringLen e = bufferSize e) then S (eventsDropped e) else eventsDropped e)
  /\ batchSize e' = batchSize e /\ flushCh e' = flushCh e.
Proof.
  intros Hok. destruct (Emit_spec now ev e Hok) as (H1 & H2 & H3 & H4 & _). cbn. unfold enqueue.
  split_and!; [|done|done|done|done]. by destruct H1.
Qed.

Section delivery.
Context {W : Type}.
Variable Marshal : list WireEvent -> result string.
Variable Post : W -> string -> Header -> string -> W * result Z.
Variable Sleep : W -> Z -> W.
Implicit Types s : lstate (W := W).

Abbreviation stepL := (lstep Marshal Post Sleep).
Abbreviation runL := (lrun Marshal Post Sleep).

(** The batch that is being sent. *)
Definition in_flight s : list UsageEvent :=
  (match ls_phase s with LSend b => b | _ => [] end) ++ (match ls_close s with KSend b => b | _ => [] end).

(** Everything that is not lost, oldest first. *)
Definition kept s : list UsageEvent := ls_handed s ++ in_flight s ++ content (ls_e s).

Definition emitted_by (es : list (levent (W := W))) : list UsageEvent :=
  omap (fun x => match x with LEmit _ ev => Some ev | _ => None end) es.

Definition closing (k : cstate) : bool := match k with KDrain | KSend _ | KClosed => true | _ => false end.

Record loop_ok (emitted : list UsageEvent) s : Prop := mkLoopOk {
  lo_ring : ring_ok (ls_e s);
  lo_order : kept s `sublist_of` emitted;
  lo_count : length emitted = (length (kept s) + eventsDropped (ls_e s))%nat;
  lo_alone : closing (ls_close s) = true -> ls_phase s = LGone;
  lo_wake : ls_phase s = LWait -> shouldFlush (ls_e s) = true -> flushCh (ls_e s) = true \/ (0 < ls_signals s)%nat
}.

Lemma tail_sublist {A} (l : list A) : tail l `sublist_of` l.
Proof. destruct l; [done|]. by apply sublist_cons. Qed.

Lemma loop_ok_emit emitted s now ev s' :
  loop_ok emitted s -> stepL (LEmit now ev) s = Some s' -> loop_ok (emitted ++ [ev]) s'.
Proof.
  destruct s as [e w ph sg k h]. intros [Hr Ho Hn Ha Hw] [= <-]. cbn in *.
  destruct (enqueue_spec now ev e Hr) as (Hr' & Hc & Hd & Hb & Hf). unfold kept in *. cbn [ls_e ls_phase ls_close ls_handed] in *.
  unfold in_flight in *. cbn [ls_phase ls_close] in *. split; cbn [ls_e ls_phase ls_close ls_handed ls_signals]; [done| | |done|].
  - unfold kept, in_flight. cbn [ls_e ls_phase ls_close ls_handed]. rewrite Hc, !app_assoc.
    apply sublist_app; [|done]. etrans; [|exact Ho]. rewrite !app_assoc. apply sublist_app; [done|].
    case_bool_decide; [apply tail_sublist|done].
  - unfold kept, in_flight. cbn [ls_e ls_phase ls_close ls_handed]. rewrite Hc, Hd, !length_app in *. cbn.
    pose proof (content_length e) as Hl. pose proof (ring_pos e Hr). case_bool_decide; [|lia].
    destruct (content e); cbn in *; lia.
  - intros Hp Hs. rewrite Hs. right. lia.
Qed.

(** [drain] splits the queue; nothing is taken only from an empty one. *)
Lemma drain_split e :
  ring_ok e ->
  let '(e', batch) := drain e in
  ring_ok e' /\ content e = batch ++ content e' /\ eventsDropped e' = eventsDropped e /\ batchSize e' = batchSize e
  /\ (batch = [] -> shouldFlush e' = false).
Proof.
  intros Hr. pose proof (drain_spec e Hr) as Hd. destruct (drain e) as [e' b]. destruct Hd as (Hr' & -> & Hc & Hd & Hb).
  split_and!; [done|by rewrite Hc, take_drop|done|done|]. intros E. unfold shouldFlush. apply bool_decide_eq_false.
  pose proof (ring_batch e' Hr'). rewrite <- (content_length e'), Hc, length_drop.
  assert (length (take (batchSize e) (content e)) = 0%nat) as El by (by rewrite E). rewrite length_take in El. lia.
Qed.

Lemma send_same e w batch :
  let e' := (send Marshal Post Sleep e w batch).1 in
  (ring_ok e -> ring_ok e') /\ content e' = content e /\ eventsDropped e' = eventsDropped e.
Proof.
  destruct (send_keeps Marshal Post Sleep e w batch) as (H1 & H2 & _). split_and!; [done|done|].
  unfold send, sendHTTP. case_bool_decide; [|done]. destruct (Marshal _); [|done].
  by destruct (send_attempts _ _ _ _ _ _ _) as [w' []].
Qed.

(** The steps that leave queue and hand-over alone. *)
Lemma loop_ok_quiet emitted s s' :
  loop_ok emitted s -> ring_ok (ls_e s') -> content (ls_e s') = content (ls_e s) ->
  eventsDropped (ls_e s') = eventsDropped (ls_e s) -> ls_handed s' = ls_handed s -> in_flight s' = in_flight s ->
  (closing (ls_close s') = true -> ls_phase s' = LGone) ->
  (ls_phase s' = LWait -> shouldFlush (ls_e s') = true -> flushCh (ls_e s') = true \/ (0 < ls_signals s')%nat) ->
  loop_ok emitted s'.
Proof.
  intros [Hr Ho Hn Ha Hw] Hr' Hc Hd Hh Hf Ha' Hw'. unfold kept in *.
  split; [done|unfold kept; by rewrite Hc, Hh, Hf|unfold kept; by rewrite Hc, Hh, Hf, Hd|done|done].
Qed.

Lemma ring_ok_flushCh e b : ring_ok e -> ring_ok (set_flushCh e b).
Proof. by intros []. Qed.
Lemma ring_ok_done e : ring_ok e -> ring_ok (set_done e).
Proof. by intros []. Qed.
#[local] Hint Resolve ring_ok_flushCh ring_ok_done : core.

Lemma loop_ok_drain emitted e w ph sg k h :
  (ph = LDrain /\ closing k = false) \/ (ph = LGone /\ k = KDrain) ->
  loop_ok emitted (mkLState e w ph sg k h) ->
  let '(e', batch) := drain e in
  loop_ok emitted (match ph with
    | LDrain => mkLState e' w (match batch with [] => LWait | _ => LSend batch end) sg k h
    | _ => mkLState e' w ph sg (match batch with [] => KClosed | _ => KSend batch end) h end).
Proof.
  intros Hcase [Hr Ho Hn Ha Hw]. cbn in *. pose proof (drain_split e Hr) as Hd. destruct (drain e) as [e' batch].
  destruct Hd as (Hr' & Hc & Hdr & Hb & Hemp). unfold kept, in_flight in *. cbn [ls_e ls_phase ls_close ls_handed] in *.
  rewrite Hc in *. destruct Hcase as [[-> Hk]|[-> ->]].
  - assert ((match k with KSend b => b | _ => [] end) = []) as Ek by (by destruct k). rewrite Ek in *.
    assert (closing k = true -> False) as Hno by congruence.
    destruct batch as [|b bs]; split; unfold kept, in_flight; cbn [ls_e ls_phase ls_close ls_handed ls_signals];
      rewrite ?Ek, ?Hdr, ?app_nil_r; try done.
    intros _ Hs. by rewrite Hemp in Hs.
  - destruct batch as [|b bs]; split; unfold kept, in_flight; cbn [ls_e ls_phase ls_close ls_handed ls_signals]; rewrite ?Hdr; done.
Qed.

Lemma loop_ok_send emitted e w ph sg k h batch :
  (ph = LSend batch /\ closing k = false) \/ (ph = LGone /\ k = KSend batch) ->
  loop_ok emitted (mkLState e w ph sg k h) ->
  let '(e', w') := send Marshal Post Sleep e w batch in
  loop_ok emitted (match ph with
    | LSend _ => mkLState e' w' LDrain sg k (h ++ batch)
    | _ => mkLState e' w' ph sg KDrain (h ++ batch) end).
Proof.
  intros Hcase [Hr Ho Hn Ha Hw]. cbn in *. pose proof (send_same e w batch) as Hs. destruct (send _ _ _ e w batch) as [e' w'].
  destruct Hs as (Hr' & Hc & Hd). cbn [fst] in *. unfold kept, in_flight in *. cbn [ls_e ls_phase ls_close ls_handed] in *.
  destruct Hcase as [[-> Hk]|[-> ->]].
  - assert ((match k with KSend b => b | _ => [] end) = []) as Ek by (by destruct k). rewrite Ek in *.
    assert (closing k = true -> False) as Hno by congruence.
    split; unfold kept, in_flight; cbn [ls_e ls_phase ls_close ls_handed ls_signals]; rewrite ?Ek, ?Hc, ?Hd, ?app_nil_r in *;
      cbn [app]; rewrite <- ?app_assoc; auto; done.
  - split; unfold kept, in_flight; cbn [ls_e ls_phase ls_close ls_handed ls_signals]; rewrite ?Hc, ?Hd in *;
      cbn [app] in *; rewrite <- ?app_assoc; auto; done.
Qed.

Lemma loop_ok_step emitted s x s' :
  loop_ok emitted s -> stepL x s = Some s' -> loop_ok (emitted ++ emitted_by [x]) s'.
Proof.
  intros Hok Hs. destruct x as [now ev| | | | | |w'| | |]; cbn [emitted_by omap list_omap];
    [by eapply loop_ok_emit|rewrite app_nil_r..]; destruct s as [e w ph sg k h]; cbn [lstep] in Hs.
  - destruct sg as [|sg]; simplify_eq. eapply loop_ok_quiet; [exact Hok|cbn; try done..].
    + apply ring_ok_flushCh, (lo_ring _ _ Hok).
    + apply (lo_alone _ _ Hok).
    + by left.
  - destruct ph; simplify_eq. eapply loop_ok_quiet; [exact Hok|cbn; try done..]; [apply (lo_ring _ _ Hok)|].
    intros Hk. by pose proof (lo_alone _ _ Hok Hk).
  - destruct ph; try done. destruct (flushCh e); simplify_eq. eapply loop_ok_quiet; [exact Hok|cbn; try done..].
    + apply ring_ok_flushCh, (lo_ring _ _ Hok).
    + intros Hk. by pose proof (lo_alone _ _ Hok Hk).
  - destruct ph; try done. destruct (done e); simplify_eq. eapply loop_ok_quiet; [exact Hok|cbn; try done..].
    apply (lo_ring _ _ Hok).
  - assert (ph <> LGone -> closing k = false) as Hopen.
    { intros Hp. destruct (closing k) eqn:Ek; [|done]. by pose proof (lo_alone _ _ Hok Ek). }
    destruct ph as [| |batch|]; try done.
    + pose proof (loop_ok_drain emitted e w LDrain sg k h) as Hd. destruct (drain e). simplify_eq. apply Hd; [|done].
      left. split; [done|]. by apply Hopen.
    + pose proof (loop_ok_send emitted e w (LSend batch) sg k h batch) as Hd. destruct (send _ _ _ _ _ _). simplify_eq.
      apply Hd; [|done]. left. split; [done|]. by apply Hopen.
  - simplify_eq. eapply loop_ok_quiet; [exact Hok|cbn; try done..]; [apply (lo_ring _ _ Hok)|apply (lo_alone _ _ Hok)|apply (lo_wake _ _ Hok)].
  - destruct k; simplify_eq. eapply loop_ok_quiet; [exact Hok|cbn; try done..].
    + apply ring_ok_done, (lo_ring _ _ Hok).
    + apply (lo_wake _ _ Hok).
  - destruct k, ph; simplify_eq. eapply loop_ok_quiet; [exact Hok|cbn; try done..]; apply (lo_ring _ _ Hok).
  - destruct k as [| | |batch|]; try done.
    + pose proof (lo_alone _ _ Hok eq_refl) as Hp. cbn in Hp. subst ph.
      pose proof (loop_ok_drain emitted e w LGone sg KDrain h) as Hd. destruct (drain e). simplify_eq. apply Hd; [by right|done].
    + pose proof (lo_alone _ _ Hok eq_refl) as Hp. cbn in Hp. subst ph.
      pose proof (loop_ok_send emitted e w LGone sg (KSend batch) h batch) as Hd. destruct (send _ _ _ _ _ _). simplify_eq.
      apply Hd; [by right|done].
Qed.

Lemma loop_ok_run es emitted s s' : loop_ok emitted s -> runL es s = Some s' -> loop_ok (emitted ++ emitted_by es) s'.
Proof.
  revert emitted s. induction es as [|x es IH]; intros emitted s Hok Hr; cbn in Hr.
  - simplify_eq. by rewrite app_nil_r.
  - apply bind_Some in Hr as (s1 & Hs & Hr). pose proof (loop_ok_step _ _ _ _ Hok Hs) as Hok1.
    pose proof (IH _ _ Hok1 Hr) as Hf. rewrite <- app_assoc in Hf.
    replace (emitted_by [x] ++ emitted_by es) with (emitted_by (x :: es)) in Hf; [done|].
    unfold emitted_by. by rewrite <- omap_app.
Qed.

Lemma started_ok cfg e (w : W) : NewEmitter cfg = Some e -> loop_ok [] (started e w).
Proof.
  intros He. destruct (NewEmitter_ok cfg e He) as (Hr & Hc & Hd). split; cbn; [done|..].
  - unfold kept. cbn. by rewrite Hc.
  - unfold kept. cbn. by rewrite Hc, Hd.
  - done.
  - intros _ Hs. unfold shouldFlush in Hs. apply bool_decide_eq_true in Hs. pose proof (ring_batch e Hr).
    pose proof (content_length e) as Hl. rewrite Hc in Hl. cbn in Hl. lia.
Qed.

(** C34: Delivery. However requests, the flush loop and the closing of the emitter
    interleave, and whatever the receiver answers: the events handed to the
    sender, those being sent and those in the ring are, in this order, a
    subsequence of the events emitted, so none is handed over twice or out of
    order; and the missing ones are exactly those counted as dropped. *)
Theorem events_in_order cfg e w es s :
  NewEmitter cfg = Some e -> runL es (started e w) = Some s ->
  kept s `sublist_of` emitted_by es /\ length (emitted_by es) = (length (kept s) + eventsDropped (ls_e s))%nat.
Proof.
  intros He Hr. destruct (loop_ok_run es [] _ s (started_ok cfg e w He) Hr) as [_ Ho Hn _ _]. done.
Qed.

(** ** Flushing *)

(** The loop alone, from the start of a flush. *)
Lemma loop_flushes fuel e w sg k h e' w' batches :
  flush Marshal Post Sleep fuel e w = Some (e', w', batches) ->
  exists n, runL (replicate n LStep) (mkLState e w LDrain sg k h) = Some (mkLState e' w' LWait sg k (h ++ concat batches)).
Proof.
  revert e w h batches. induction fuel as [|fuel IH]; intros e w h batches Hf; [done|]. cbn [flush] in Hf.
  destruct (drain e) as [e1 batch] eqn:Ed. destruct batch as [|b bs].
  { simplify_eq. exists 1%nat. cbn. rewrite Ed. cbn. by rewrite app_nil_r. }
  destruct (send _ _ _ e1 w (b :: bs)) as [e2 w2] eqn:Es. apply bind_Some in Hf as ([[e3 w3] rest] & Hf & [= <- <- <-]).
  destruct (IH e2 w2 (h ++ b :: bs) rest Hf) as [n Hn]. exists (S (S n)). cbn [replicate lrun lstep]. rewrite Ed.
  cbn [mbind option_bind lrun lstep]. rewrite Es. cbn [mbind option_bind]. rewrite Hn. cbn [concat]. by rewrite <- app_assoc.
Qed.

(** No wake-up is lost. Whenever the loop sleeps although a full batch is in
    the ring, the signal for it is in the channel or an emitter is about to send
    it; and once the signal is there, the loop on its own takes it, hands every
    event of the ring to the sender in order and sleeps again with an empty
    ring. *)
Theorem full_batch_is_sent cfg e w es s :
  NewEmitter cfg = Some e -> runL es (started e w) = Some s ->
  ls_phase s = LWait -> shouldFlush (ls_e s) = true ->
  (flushCh (ls_e s) = true \/ (0 < ls_signals s)%nat)
  /\ (flushCh (ls_e s) = true ->
      exists n s', runL (LWake :: replicate n LStep) s = Some s' /\ ls_phase s' = LWait /\ content (ls_e s') = []
        /\ ls_handed s' = ls_handed s ++ content (ls_e s)).
Proof.
  intros He Hr Hp Hs. destruct (loop_ok_run es [] _ s (started_ok cfg e w He) Hr) as [Hring _ _ _ Hw]. split; [by apply Hw|].
  destruct s as [e1 w1 ph sg k h]. cbn in *. subst ph. intros Hf. rewrite Hf. cbn.
  destruct (flush_total Marshal Post Sleep (S (ringLen e1)) (set_flushCh e1 false) w1) as (e2 & w2 & bs & Hfl & Hc & Hcc & _).
  { by apply ring_ok_flushCh. }
  { cbn. lia. }
  destruct (loop_flushes _ _ _ sg k h _ _ _ Hfl) as [n Hn]. exists n, (mkLState e2 w2 LWait sg k (h ++ concat bs)). rewrite Hn.
  split_and!; [done|done|done|]. cbn. by rewrite Hcc.
Qed.
End delivery.

Module LoopDemo.
Definition Marshal (l : list WireEvent) : result string := Ok "batch".
Definition Sleep (w : nat) (d : Z) : nat := w.
Definition emitter : Emitter := default (mkEmitter "" ∅ 0 0 0 0 0 [] 0 0 0 None false false 0 0) (NewEmitter (demo_events 2 3)).
Definition run (es : list (levent (W := nat))) : option lstate := lrun Marshal failing_post Sleep es (started emitter 0%nat).
(** Four events for a ring of three, one of them while a batch is being sent. *)
Definition ops : list (levent (W := nat)) :=
  [LEmit 0 (demo_event "a"); LTick; LStep; LEmit 1 (demo_event "b"); LStep; LStep;
   LStep; LStep; LEmit 2 (demo_event "c"); LEmit 3 (demo_event "d"); LSignal].
Definition after : lstate := default (started emitter 0%nat) (run ops).

Example after_run : map ev_Key (ls_handed after) = ["a"; "b"] /\ map ev_Key (content (ls_e after)) = ["c"; "d"].
Proof. vm_compute. done. Qed.
End LoopDemo.

Lemma events_in_order_witness :
  kept LoopDemo.after `sublist_of` emitted_by LoopDemo.ops /\ length (kept LoopDemo.after) = 4%nat.
Proof.
  destruct (events_in_order LoopDemo.Marshal failing_post LoopDemo.Sleep (demo_events 2 3) LoopDemo.emitter 0%nat LoopDemo.ops
    LoopDemo.after) as [H1 H2].
  - reflexivity.
  - vm_compute. reflexivity.
  - split; [exact H1|]. vm_compute. reflexivity.
Defined.

Lemma full_batch_is_sent_witness :
  exists n s', lrun LoopDemo.Marshal failing_post LoopDemo.Sleep (LWake :: replicate n LStep) LoopDemo.after = Some s'
    /\ ls_phase s' = LWait /\ content (ls_e s') = []
    /\ ls_handed s' = ls_handed LoopDemo.after ++ content (ls_e LoopDemo.after).
Proof.
  destruct (full_batch_is_sent LoopDemo.Marshal failing_post LoopDemo.Sleep (demo_events 2 3) LoopDemo.emitter 0%nat LoopDemo.ops
    LoopDemo.after) as [_ H2].
  - reflexivity.
  - vm_compute. reflexivity.
  - vm_compute. reflexivity.
  - vm_compute. reflexivity.
  - apply H2. vm_compute. reflexivity.
Defined.
