(* ===== verification/Bucket.v ===== *)
(** * Bucket parameters

    The part of [internal/middleware/chain.go] that turns the rate-limit
    configuration into the numbers the token bucket runs with
    ([parseBucketParams], [parseRateLimitParams]), and what the derived key TTL
    means for the rate the bucket enforces. *)
From S2P Require Import Prelude GoStrings GoTime Float64 ConfigTypes Config TokenBucket InMemory.

Local Open Scope Q_scope.

Definition maxTTL : Z := (7 * 24 * 3600)%Z.

Record rateLimitParams := mkRateLimitParams {
  p_ratePerSecond : Q;
  p_burst : Z;
  p_ttl : Z;
  p_period : Z;
  p_failurePolicy : string;
  p_failureCode : Z
}.

Section params.
Context `{R : Rounding}.

(** [float64(average) * float64(time.Second) / float64(period)]. *)
Definition rate_per_second (average period : Z) : Q :=
  fdiv (fmul (float average) (float Second)) (float period).

(** [period, _ = time.ParseDuration(s)]; a zero, negative or invalid one is one second. *)
Definition period_of (periodStr : string) : Z :=
  let period := default 0%Z (time_ParseDuration periodStr) in
  if (period <=? 0)%Z then Second else period.

Definition parseBucketParams (average burst : Z) (periodStr minTTL : string) : Q * Z * Z * Z :=
  let period := period_of periodStr in
  let resolvedBurst := Z.max burst 1 in
  let ratePerSecond := if (0 <? average)%Z then rate_per_second average period else 0 in
  let periodSec := Qceiling (Seconds period) in
  let ttl := Z.max 2 (periodSec * 2) in
  let ttl := if fltb 0 ratePerSecond && fltb ratePerSecond 1
             then Z.min (ftrunc (fdiv 1 ratePerSecond) + 2) maxTTL else ttl in
  let ttl :=
    if bool_decide (minTTL <> "") then
      match time_ParseDuration minTTL with
      | Some d => if (0 <? d)%Z then Z.max ttl (Qceiling (Seconds d)) else ttl
      | None => ttl
      end
    else ttl in
  (ratePerSecond, resolvedBurst, ttl, period).

Definition parseRateLimitParams (cfg : RateLimitConfig) : rateLimitParams :=
  let fp := if bool_decide (rl_FailurePolicy cfg = "") then "passthrough" else rl_FailurePolicy cfg in
  let fc := if (rl_FailureCode cfg =? 0)%Z then 429%Z else rl_FailureCode cfg in
  let '(ratePerSecond, burst, ttl, period) :=
    parseBucketParams (rs_Average (rl_Static cfg)) (rs_Burst (rl_Static cfg)) (rs_Period (rl_Static cfg)) (rl_MinTTL cfg) in
  mkRateLimitParams ratePerSecond burst ttl period fp fc.
End params.

(** ** What the parameters guarantee *)

Section facts.
Context `{R : Rounding}.

Lemma period_of_pos s : (0 < period_of s)%Z.
Proof. unfold period_of. case_match; bools; [done|lia]. Qed.

Lemma float_nonneg z : (0 <= z)%Z -> 0 <= float z.
Proof. intros Hz. apply rnd_nonneg. change 0 with (inject_Z 0). by rewrite <- Zle_Qle. Qed.

Lemma float_pos z : (0 < z)%Z -> 0 < float z.
Proof.
  intros Hz. apply Qlt_le_trans with 1; [done|]. rewrite <- (rnd_Z 1 ltac:(lia)).
  apply rnd_mono. change 1 with (inject_Z 1). rewrite <- Zle_Qle. lia.
Qed.

Lemma rate_per_second_nonneg average period :
  (0 <= average)%Z -> (0 < period)%Z -> 0 <= rate_per_second average period.
Proof.
  intros Ha Hp. unfold rate_per_second. apply fdiv_nonneg; [|by apply float_pos].
  apply rnd_nonneg, Qmult_le_0_compat; by apply float_nonneg.
Qed.
End facts.

Lemma ftrunc_nonneg x : 0 <= x -> ftrunc x = Qfloor x /\ (0 <= Qfloor x)%Z.
Proof.
  intros Hx. unfold ftrunc. assert (fleb 0 x = true) as -> by (by apply fleb_le).
  split; [done|]. apply Qfloor_resp_le in Hx. done.
Qed.

(** The TTL before the [min_ttl] floor, and that the floor only raises it. *)
Definition base_ttl `{Rounding} (rate : Q) (period : Z) : Z :=
  if fltb 0 rate && fltb rate 1 then Z.min (ftrunc (fdiv 1 rate) + 2) maxTTL
  else Z.max 2 (Qceiling (Seconds period) * 2).

Lemma parseBucketParams_ttl `{R : Rounding} average burst periodStr minTTL rate b ttl period :
  parseBucketParams average burst periodStr minTTL = (rate, b, ttl, period) -> (base_ttl rate period <= ttl)%Z.
Proof.
  unfold parseBucketParams. intros Hp. injection Hp as Hr _ <- Hper. rewrite Hr, Hper. fold (base_ttl rate period).
  repeat case_match; lia.
Qed.

Lemma base_ttl_ge_2 `{R : Rounding} rate period : (2 <= base_ttl rate period)%Z.
Proof.
  unfold base_ttl. destruct (fltb 0 rate) eqn:H0, (fltb rate 1); cbn [andb]; try lia. fcompare.
  destruct (ftrunc_nonneg (fdiv 1 rate)) as [-> ?]; [by apply fdiv_nonneg|]. unfold maxTTL. lia.
Qed.

(** The derived parameters are usable. The burst is at least 1, the TTL at
    least 2 seconds, the period positive and the rate not negative; with exact
    arithmetic a positive average gives a positive rate, and a key lives long
    enough to earn at least one token unless the 7-day cap applies. *)
Theorem parseBucketParams_bounds `{R : Rounding} average burst periodStr minTTL rate b ttl period :
  parseBucketParams average burst periodStr minTTL = (rate, b, ttl, period) ->
  (1 <= b)%Z /\ (2 <= ttl)%Z /\ (0 < period)%Z /\ 0 <= rate
  /\ (R = exact_rounding -> (0 < average)%Z -> 0 < rate /\ (1 <= rate * inject_Z ttl \/ (maxTTL <= ttl)%Z)).
Proof.
  intros Hp. pose proof (parseBucketParams_ttl _ _ _ _ _ _ _ _ Hp) as Httl.
  pose proof (base_ttl_ge_2 rate period) as H2.
  unfold parseBucketParams in Hp. injection Hp as Hr Hb _ Hper.
  pose proof (period_of_pos periodStr) as Hpos. rewrite Hper in *. split_and!; [lia..| |].
  - rewrite <- Hr. case_match; bools; [apply rate_per_second_nonneg; lia|lra].
  - intros -> Ha. assert (0 < rate) as Hrate.
    { rewrite <- Hr. replace (0 <? average)%Z with true by (symmetry; by apply Z.ltb_lt).
      unfold rate_per_second. rewrite exact_fdiv, exact_fmul, !exact_float.
      apply Qlt_shift_div_l; [change 0 with (inject_Z 0); by rewrite <- Zlt_Qlt|]. rewrite Qmult_0_l.
      apply Qmult_lt_0_compat; [change 0 with (inject_Z 0); by rewrite <- Zlt_Qlt|done]. }
    split; [done|]. unfold base_ttl in Httl. destruct (fltb rate 1) eqn:H1; fcompare.
    + replace (fltb 0 rate) with true in Httl by (symmetry; by apply fltb_lt). cbn [andb] in Httl.
      destruct (ftrunc_nonneg (fdiv 1 rate)) as [Hf Hf0]; [by apply fdiv_nonneg|]. rewrite Hf in Httl.
      destruct (Z.le_ge_cases maxTTL (Qfloor (fdiv 1 rate) + 2)) as [Hc|Hc]; [right; lia|left].
      assert (1 / rate < inject_Z (Qfloor (fdiv 1 rate) + 1)) as Hfl.
      { rewrite <- exact_fdiv. apply Qlt_floor. }
      assert (inject_Z (Qfloor (fdiv 1 rate) + 1) <= inject_Z ttl) as Hle by (rewrite <- Zle_Qle; lia).
      assert (1 / rate * rate == 1) as Hinv by (field; lra).
      rewrite <- Hinv, (Qmult_comm _ rate). apply Qmult_le_l; [done|]. lra.
    + left. rewrite andb_false_r in Httl. assert (inject_Z 2 <= inject_Z ttl) as Hle by (rewrite <- Zle_Qle; lia).
      change (inject_Z 2) with 2 in Hle. nra.
Qed.

Lemma parseBucketParams_bounds_witness :
  parseBucketParams 5 10 "1h" "" = (1 # 720, 10, 722, Hour)%Z /\ 1 <= (1 # 720) * inject_Z 722.
Proof.
  assert (parseBucketParams 5 10 "1h" "" = (1 # 720, 10, 722, Hour)%Z) as Hp by (vm_compute; reflexivity).
  split; [exact Hp|].
  pose proof (parseBucketParams_bounds 5 10 "1h" "" (1 # 720) 10 722 Hour Hp) as (_ & _ & _ & _ & H).
  destruct (H eq_refl) as [_ [H1|H1]]; [reflexivity|exact H1|]. exfalso. unfold maxTTL in H1. lia.
Defined.

(** ** A TTL that does not cover the refill *)

(** [n] calls, [gap] microseconds apart. *)
Fixpoint spaced (n : nat) (t gap : Z) : list Z :=
  match n with O => [] | S n => t :: spaced n (t + gap)%Z gap end.

Section expiry.
Context {S : Type} `{RedisHashLaws S}.
Variables (key : string) (rate : Q) (burst ttl : Z).
Hypothesis rate_pos : 0 < rate.
Hypothesis burst_pos : (1 <= burst)%Z.

(** The key is gone at time [t]: expired, or never written. *)
Definition gone (s : S) (t : Z) : Prop := forall f, hget (purge t s) key f = None.

Lemma gone_admits s t :
  gone s t -> (0 <= t)%Z -> (ttl * 500000 < t)%Z ->
  let '(s', r) := run_script (R := exact_rounding) s key rate burst ttl t in
  allowed_reply r = true /\ deadline s' key = Some (t / 1000000 + ttl)%Z.
Proof.
  intros Hg Ht Htt. unfold run_script.
  pose proof (script_allowed (R := exact_rounding) (purge t s) key rate (float burst) (float ttl) (float t) rate_pos) as Ha.
  pose proof (script_deadline (R := exact_rounding) (purge t s) key rate (float burst) (float ttl) (float t) rate_pos) as Hd.
  destruct (rateLimitLua _ _ _ _ _ _) as [s' r]. cbn [fst snd] in *. rewrite Ha, Hd. clear Ha Hd. split.
  - apply fleb_le. unfold level. rewrite !Hg. cbn [default from_option].
    destruct (lua_min_spec (float burst) (fadd (float burst) (fmul rate (fsub (float t) (if fltb (float t) 0 then float t else 0)))))
      as (_ & _ & [-> | ->]).
    + rewrite exact_float. change 1 with (inject_Z 1). rewrite <- Zle_Qle. lia.
    + rewrite exact_fadd, exact_fmul, exact_fsub. destruct (fltb (float t) 0) eqn:E; fcompare; rewrite !exact_float in *.
      * change 0 with (inject_Z 0) in E. rewrite <- Zlt_Qlt in E. lia.
      * assert (1 <= inject_Z burst) by (change 1 with (inject_Z 1); rewrite <- Zle_Qle; lia).
        assert (0 <= inject_Z t) by (change 0 with (inject_Z 0); rewrite <- Zle_Qle; lia). nra.
  - unfold needs_expire. rewrite Hg. cbn [default from_option].
    assert (fltb (fmul (float ttl) 500000) (fsub (float t) 0) = true) as ->.
    { apply fltb_lt. rewrite exact_fmul, exact_fsub, !exact_float.
      assert (inject_Z (ttl * 500000) < inject_Z t) as Hlt by (by rewrite <- Zlt_Qlt).
      rewrite inject_Z_mult in Hlt. change (inject_Z 500000) with 500000 in Hlt. lra. }
    f_equal. rewrite (ftrunc_comp _ (inject_Z (t / 1000000 + ttl))); [apply ftrunc_Z|].
    rewrite exact_fadd, (exact_float ttl), inject_Z_plus. apply Qplus_comp; [|reflexivity].
    rewrite (Qfloor_comp _ (inject_Z t / inject_Z 1000000)) by (by rewrite exact_fdiv, exact_float).
    by rewrite Zdiv_Qdiv.
Qed.

(** Calls spaced by at least the TTL are all admitted, whatever the rate. *)
Lemma spaced_all_admitted n s t gap :
  gone s t -> (0 <= ttl)%Z -> (ttl * 500000 < t)%Z -> (ttl * 1000000 <= gap)%Z ->
  decisions (R := exact_rounding) key rate burst ttl s (spaced n t gap) = replicate n true.
Proof.
  revert s t. induction n as [|n IH]; intros s t Hg Hl Ht Hgap; [done|]. cbn [spaced decisions replicate].
  pose proof (gone_admits s t Hg ltac:(lia) Ht) as Hstep. destruct (run_script _ _ _ _ _ _) as [s' r].
  destruct Hstep as [-> Hd]. f_equal. apply IH; [|lia..].
  intros f. rewrite hget_purge, Hd. cbn [expired]. replace (_ <=? _)%Z with true; [done|].
  symmetry. apply Z.leb_le. pose proof (Z.mul_div_le t 1000000). lia.
Qed.
End expiry.

(** External rate limiting: [static.average] is 0 and [min_ttl] is not set. *)
Definition external_mode (cfg : RateLimitConfig) : Prop :=
  rs_Average (rl_Static cfg) = 0%Z /\ rs_Period (rl_Static cfg) = "1s" /\ rl_MinTTL cfg = "".

(** Limits from the external service are not enforced across the key's TTL.
    [tryRedisLimit] passes no TTL of its own, so the key lives as long as the
    static configuration says: 2 seconds in external mode. A caller limited to
    one request per hour that sends one request every 3 seconds is admitted
    every time, for any number [n] of requests. *)
Theorem external_limit_resets cfg key n t :
  external_mode cfg -> (1000000 < t)%Z ->
  let p := parseRateLimitParams (R := exact_rounding) cfg in
  p_ttl p = 2%Z /\
  decisions (R := exact_rounding) key (fdiv (rate_per_second 1 Hour) 1000000) 1 (p_ttl p) empty_store
    (spaced n t 3000000) = replicate n true.
Proof.
  intros (Ha & Hp & Hm) Ht p.
  assert (p_ttl p = 2%Z) as E.
  { unfold p, parseRateLimitParams. rewrite Ha, Hp, Hm. cbn [p_ttl]. vm_compute. reflexivity. }
  split; [done|]. rewrite E. apply spaced_all_admitted; [vm_compute; reflexivity|lia| |lia..].
  intros f. done.
Qed.

Lemma external_limit_resets_witness :
  decisions (R := exact_rounding) "t:acme" (fdiv (rate_per_second 1 Hour) 1000000) 1 2 empty_store
    (spaced 4 1000000000 3000000) = [true; true; true; true].
Proof.
  apply (external_limit_resets (mkRateLimitConfig (mkStaticRateLimitConfig 0 0 "1s" (rs_KeyStrategy (rl_Static (cfg_RateLimit Defaults))) "")
    "" 0 "" (rl_External (cfg_RateLimit Defaults)) "" 0 0) "t:acme" 4 1000000000); [done|lia].
Defined.

(** The TTL of docs/rate-limiting.md: [max(ceil(burst/rate), period) + period]. *)
Definition documented_ttl (rate : Q) (burst periodSec : Z) : Z :=
  (Z.max (Qceiling (inject_Z burst / rate)) periodSec + periodSec)%Z.

(** The static TTL ignores the burst. With 10 requests per second and burst
    1000 the key lives 2 seconds where the documented formula gives 101, and a
    caller that drains the bucket, waits 3 seconds and drains it again is
    admitted 2000 times; the bucket allows 1000 plus 30. *)
Theorem static_ttl_ignores_burst :
  let '(rate, burst, ttl, period) := parseBucketParams (R := exact_rounding) 10 1000 "1s" "" in
  ttl = 2%Z /\ documented_ttl rate burst 1 = 101%Z /\
  admitted (decisions (R := exact_rounding) "k" (fdiv rate 1000000) burst ttl empty_store
    (replicate 1000 1000000000 ++ replicate 1000 1003000000)%Z) = 2000%Z.
Proof. vm_compute. by split_and!. Qed.
