(* ===== verification/Chain.v ===== *)
(** * The middleware chain: one request

    The request path of [internal/middleware/chain.go]: request id and mTLS
    headers, preflight bypass, concurrency limit, authentication with its Redis
    cache, external limits, the Redis token bucket and the failure policies.

    A handler is a state transformer on [St]: the chain, the outside world, the
    header map of the request (shared by every copy [WithContext] makes), the
    body readers, and what has been written to the client. A request copy is a
    value of [HTTPRequest]; its body is a reference to a reader, so that reading
    through one copy is visible through the others. The services, Redis, DNS,
    JSON, hashing and randomness are the operations of [Env]. *)
From S2P Require Import Prelude GoStrings GoTime Float64 GoNet ConfigTypes Config RedisClient TokenBucket.
From S2P Require Import KeyStrategy InMemory Breaker Auth External UrlPolicy MTLS Events Bucket.
From Stdlib Require Import Ascii.

Local Open Scope Z_scope.

(** ** Request helpers *)

Definition requestIDHeader : string := "X-Request-Id".
Definition maxRequestIDLen : nat := 128.
Definition maxTenantKeyLen : nat := 256.

(** Letters, digits and [-_.:]. *)
Definition is_id_byte (c : ascii) : bool :=
  is_lower c || is_upper c || is_digit c || existsb (fun z => byteZ c =? z) [45; 95; 46; 58].

Definition validRequestID (s : string) : bool :=
  negb (bool_decide (s = "")) && bool_decide (String.length s <= maxRequestIDLen)%nat && all_in is_id_byte s.

Definition validTenantKey (s : string) : bool :=
  negb (bool_decide (s = "")) && bool_decide (String.length s <= maxTenantKeyLen)%nat && all_in is_id_byte s.

Definition injectionDenyHeaders : gset string :=
  list_to_set ["Host"; "Content-Length"; "Transfer-Encoding"; "Connection"; "Te"; "Upgrade";
    "Proxy-Authorization"; "Proxy-Connection"; "Keep-Alive"; "Trailer"; "X-Forwarded-For"; "X-Forwarded-Host";
    "X-Forwarded-Proto"; "X-Real-Ip"; "X-Request-Id"; "X-Edgequota-Mtls";
    "X-Edgequota-Client-Fingerprint-Sha256"; "X-Edgequota-Client-Serial"; "X-Edgequota-Client-Subject"].

Definition isCORSPreflight (r : Request) : bool :=
  bool_decide (Method r = "OPTIONS") && negb (bool_decide (Header_Get (ReqHeader r) "Origin" = ""))
  && negb (bool_decide (Header_Get (ReqHeader r) "Access-Control-Request-Method" = "")).

(** [proxy.IsSSE], [proxy.IsWebSocketUpgrade], [proxy.IsGRPC]. *)
Definition IsSSE (r : Request) : bool := Contains (Header_Get (ReqHeader r) "Accept") "text/event-stream".
Definition IsWebSocketUpgrade (r : Request) : bool :=
  EqualFold (Header_Get (ReqHeader r) "Upgrade") "websocket"
  && Contains (ToLower (Header_Get (ReqHeader r) "Connection")) "upgrade".
Definition IsGRPC (r : Request) : bool := HasPrefix (Header_Get (ReqHeader r) "Content-Type") "application/grpc".
Definition isStreamingRequest (r : Request) : bool := IsSSE r || IsWebSocketUpgrade r || IsGRPC r.
Definition streamingProtocol (r : Request) : string :=
  if IsSSE r then "sse" else if IsWebSocketUpgrade r then "websocket" else if IsGRPC r then "grpc" else "".

Definition extractTenantID (resolvedKey : string) : string :=
  if bool_decide (2 < String.length resolvedKey)%nat && HasPrefix resolvedKey "t:"
  then slice_from resolvedKey 2 else "".

(** ** The auth cache key *)

Definition authCacheKeyPrefix : string := "auth:cache:".
Definition authCacheTagPrefix : string := "auth:tag:".
Definition authCacheKeyEphemeral : gset string := list_to_set (map ToLower DefaultEphemeralHeaders).

(** The bytes that are hashed: method, path and the sorted stable headers. *)
Definition authKeyMaterial (req : CheckRequest) : string :=
  let keys := SortStrings (filter (fun k => ToLower k ∉ authCacheKeyEphemeral) (map fst (map_to_list (cr_Headers req)))) in
  cr_Method req +:+ "|" +:+ cr_Path req
  +:+ foldr (fun k s => "|" +:+ k +:+ "=" +:+ default "" (cr_Headers req !! k) +:+ s) "" keys.

(** ** State *)

Record staticParams := mkStaticParams {
  sp_ratePerSecond : Q;
  sp_burst : Z;
  sp_ttl : Z;
  sp_prefix : string;
  sp_failurePolicy : string;
  sp_failureCode : Z;
  sp_average : Z;
  sp_fallback : InMemoryLimiter
}.

Record fallbackParams := mkFallbackParams {
  fp_ratePerSecond : Q;
  fp_burst : Z;
  fp_ttl : Z;
  fp_average : Z;
  fp_limiter : InMemoryLimiter
}.

(** The configuration snapshot a request runs against. *)
Record settings := mkSettings {
  c_cfg : Config;
  c_staticRL : staticParams;
  c_externalFallback : option fallbackParams;
  c_keyStrategy : KeyStrategy;
  c_fallbackKeyStrategy : option KeyStrategy;
  c_extFilter : HeaderFilter;                  (* of the external client *)
  c_authCache : bool;                          (* authCacheRedis != nil *)
  c_globalBackstop : option InMemoryLimiter;
  c_maxConcurrent : option Z;                  (* concurrencySem *)
  c_urlPolicy : BackendURLPolicy;
  c_requestTimeout : Z;
  c_bypassPreflight : bool;
  c_allowedInjectionHeaders : gset string
}.

(** What requests change. *)
Record Chain := mkChain {
  c_set : settings;
  c_authClient : option AuthClient;
  c_externalRL : option ExternalClient;
  c_limiter : option Limiter;
  c_redisUnhealthy : bool;
  c_reconnecting : bool;
  c_fallbackState : im_state;
  c_backstopState : im_state;
  c_semUsed : Z;
  c_emitter : option Emitter
}.

Record HTTPRequest := mkHTTPRequest {
  hr : Request;                      (* its header map is the shared one *)
  hr_tls : option ConnectionState;
  hr_body : option nat;              (* a reader; None: nil or NoBody *)
  hr_key : option string;            (* ratelimit.KeyContextKey *)
  hr_backendURL : option URL;        (* proxy.WithBackendURL *)
  hr_backendProto : string;          (* proxy.WithBackendProtocol *)
  hr_timeout : option Z              (* context.WithTimeout *)
}.

(** What is written to the client, or that the request went to the backend. *)
Inductive reply :=
| JSONError (code : Z) (errType message : string) (retryAfter : Q) (requestID : string)
| Proxied (r : HTTPRequest) (header : Header) (body : option string).

Inductive metric :=
| IncAllowed | IncLimited | IncAuthDenied | IncAuthErrors | IncAuthCanceled | IncKeyExtractErrors
| IncRedisErrors | IncReadOnlyRetries | IncFallbackUsed | IncConcurrencyRejected | IncTenantKeyRejected
| IncPreflightBypassed | SetRedisUnhealthy.

(** Services and libraries outside the repository. *)
Class Env (W : Type) := {
  env_kv :: RedisKV W;
  env_script :: Scripting W;
  kv_sadd : W -> string -> string -> W;
  http_ParseTime : string -> option Z;
  auth_Do : W -> string -> Header -> CheckRequest -> W * result HTTPAnswer;
  auth_grpc : W -> CheckRequest -> W * result WireCheckResponse;
  auth_decode_wire : string -> option WireCheckResponse;
  auth_encode : CheckResponse -> string;
  auth_decode : string -> option CheckResponse;
  ext_Do : W -> string -> ExternalRequest -> W * result ServiceAnswer;
  ext_grpc : W -> ExternalRequest -> W * result ProtoLimits;
  ext_decode_wire : string -> option WireLimits;
  ext_encode : ExternalLimits -> string;
  ext_decode : string -> option ExternalLimits;
  LookupIP : string -> result (list IP);
  url_Parse : string -> result URL;
  Sum256 : list Z -> list Z;
  random_id : W -> W * string;              (* generateRequestID *)
  random_float : W -> W * Q;                (* cryptoRandFloat64, in [0,1) *)
  format_now : W -> string;                 (* time.Now().UTC().Format(RFC3339) *)
  duration_String : Z -> string;
  status_Text : Z -> string;
  next_ServeHTTP : W -> HTTPRequest -> Header -> W
}.

Record St (W : Type) := mkSt {
  st_chain : Chain;
  st_world : W;
  st_header : Header;                (* of the request *)
  st_readers : list string;          (* unread bytes of each body reader *)
  st_resp : Header;                  (* w.Header() *)
  st_out : list reply;
  st_metrics : list metric
}.
Arguments mkSt {W} _ _ _ _ _ _ _.
Arguments st_chain {W} _.
Arguments st_world {W} _.
Arguments st_header {W} _.
Arguments st_readers {W} _.
Arguments st_resp {W} _.
Arguments st_out {W} _.
Arguments st_metrics {W} _.

(** ** The handler monad *)

Definition M (W A : Type) : Type := St W -> St W * A.
#[global] Instance M_ret W : MRet (M W) := fun A a st => (st, a).
#[global] Instance M_bind W : MBind (M W) := fun A B f m st => let '(st, a) := m st in f a st.

Section handlers.
Context `{R : Rounding} {W : Type} `{Env W}.

Definition get : M W (St W) := fun st => (st, st).
Definition set_chain (f : Chain -> Chain) : M W unit := fun st =>
  (mkSt (f (st_chain st)) (st_world st) (st_header st) (st_readers st) (st_resp st) (st_out st) (st_metrics st), tt).
Definition in_world {A} (f : W -> W * A) : M W A := fun st =>
  let '(w, a) := f (st_world st) in
  (mkSt (st_chain st) w (st_header st) (st_readers st) (st_resp st) (st_out st) (st_metrics st), a).
Definition set_header (h : Header) : M W unit := fun st =>
  (mkSt (st_chain st) (st_world st) h (st_readers st) (st_resp st) (st_out st) (st_metrics st), tt).
Definition set_readers (rs : list string) : M W unit := fun st =>
  (mkSt (st_chain st) (st_world st) (st_header st) rs (st_resp st) (st_out st) (st_metrics st), tt).
Definition set_resp (f : Header -> Header) : M W unit := fun st =>
  (mkSt (st_chain st) (st_world st) (st_header st) (st_readers st) (f (st_resp st)) (st_out st) (st_metrics st), tt).
Definition put (r : reply) : M W unit := fun st =>
  (mkSt (st_chain st) (st_world st) (st_header st) (st_readers st) (st_resp st) (st_out st ++ [r]) (st_metrics st), tt).
Definition inc (m : metric) : M W unit := fun st =>
  (mkSt (st_chain st) (st_world st) (st_header st) (st_readers st) (st_resp st) (st_out st) (st_metrics st ++ [m]), tt).

(** The request a copy stands for: its fields with the shared header map. *)
Definition view (r : HTTPRequest) (st : St W) : Request := with_header (hr r) (st_header st).

Definition settings_of : M W settings := st ← get; mret (c_set (st_chain st)).

Definition set_auth (a : option AuthClient) (c : Chain) : Chain :=
  mkChain (c_set c) a (c_externalRL c) (c_limiter c) (c_redisUnhealthy c) (c_reconnecting c) (c_fallbackState c)
    (c_backstopState c) (c_semUsed c) (c_emitter c).
Definition set_ext (e : option ExternalClient) (c : Chain) : Chain :=
  mkChain (c_set c) (c_authClient c) e (c_limiter c) (c_redisUnhealthy c) (c_reconnecting c) (c_fallbackState c)
    (c_backstopState c) (c_semUsed c) (c_emitter c).
Definition lose_limiter (c : Chain) : Chain :=
  mkChain (c_set c) (c_authClient c) (c_externalRL c) None true (c_reconnecting c) (c_fallbackState c)
    (c_backstopState c) (c_semUsed c) (c_emitter c).
Definition set_reconnecting (c : Chain) : Chain :=
  mkChain (c_set c) (c_authClient c) (c_externalRL c) (c_limiter c) (c_redisUnhealthy c) true (c_fallbackState c)
    (c_backstopState c) (c_semUsed c) (c_emitter c).
Definition set_fallbackState (s : im_state) (c : Chain) : Chain :=
  mkChain (c_set c) (c_authClient c) (c_externalRL c) (c_limiter c) (c_redisUnhealthy c) (c_reconnecting c) s
    (c_backstopState c) (c_semUsed c) (c_emitter c).
Definition set_backstopState (s : im_state) (c : Chain) : Chain :=
  mkChain (c_set c) (c_authClient c) (c_externalRL c) (c_limiter c) (c_redisUnhealthy c) (c_reconnecting c) (c_fallbackState c)
    s (c_semUsed c) (c_emitter c).
Definition set_semUsed (n : Z) (c : Chain) : Chain :=
  mkChain (c_set c) (c_authClient c) (c_externalRL c) (c_limiter c) (c_redisUnhealthy c) (c_reconnecting c) (c_fallbackState c)
    (c_backstopState c) n (c_emitter c).
Definition set_emitter (e : option Emitter) (c : Chain) : Chain :=
  mkChain (c_set c) (c_authClient c) (c_externalRL c) (c_limiter c) (c_redisUnhealthy c) (c_reconnecting c) (c_fallbackState c)
    (c_backstopState c) (c_semUsed c) e.

(** ** Responses *)

Definition writeJSONError (code : Z) (errType message : string) (retryAfter : Q) : M W unit :=
  st ← get;
  let reqID := Header_Get (st_resp st) requestIDHeader in
  set_resp (fun h => Header_Set h "Content-Type" "application/json");;
  put (JSONError code errType message retryAfter reqID).

(** [( *c.next.Load()).ServeHTTP(w, r)]. *)
Definition serve_next (r : HTTPRequest) : M W unit :=
  st ← get;
  let body := i ← hr_body r; st_readers st !! i in
  in_world (fun w => (next_ServeHTTP w r (st_header st), tt));;
  put (Proxied r (st_header st) body).

Definition setRateLimitHeaders (res : Result) : M W unit :=
  let resetSeconds := Qceiling (Seconds (ResetAfter res)) in
  set_resp (fun h =>
    let h := Header_Set h "X-RateLimit-Limit" (Itoa (Limit res)) in
    let h := Header_Set h "X-RateLimit-Remaining" (Itoa (Remaining res)) in
    Header_Set h "X-RateLimit-Reset" (Itoa resetSeconds)).

(** The jittered retry time: nanoseconds and whole seconds. *)
Definition jittered_retry (retryAfter : Z) (x : Q) : Z * Z :=
  let jitterFactor := fadd (rnd (9 # 10)) (fmul x (rnd (2 # 10))) in
  let retryDuration := ftrunc (fmul (float retryAfter) jitterFactor) in
  let retrySeconds := Qceiling (Seconds retryDuration) in
  (retryDuration, if retrySeconds <? 1 then 1 else retrySeconds).

Definition serveRateLimited (res : Result) : M W unit :=
  x ← in_world random_float;
  let '(retryDuration, retrySeconds) := jittered_retry (RetryAfter res) x in
  set_resp (fun h =>
    let h := Header_Set h "Retry-After" (Itoa retrySeconds) in
    Header_Set h "X-Retry-In" (duration_String retryDuration));;
  writeJSONError 429 "rate_limited" "Too Many Requests" (inject_Z retrySeconds).

(** ** Request preparation *)

Definition ensureRequestID : M W string :=
  st ← get;
  let reqID := Header_Get (st_header st) requestIDHeader in
  if validRequestID reqID then mret reqID
  else
    id ← in_world random_id;
    set_header (Header_Set (st_header st) requestIDHeader id);;
    mret id.

(** The write deadline and the status writer only affect transport and logs.
    [None]: the panic of [mtls.InjectHeaders] on an empty verified chain. *)
Definition prepareRequest (r : HTTPRequest) : M W (option string) :=
  reqID ← ensureRequestID;
  set_resp (fun h => Header_Set h requestIDHeader reqID);;
  st ← get;
  match InjectHeaders Sum256 (hr_tls r) (st_header st) with
  | Some h => set_header h;; mret (Some reqID)
  | None => mret None
  end.

Definition handlePreflightBypass (r : HTTPRequest) : M W bool :=
  st ← get;
  if negb (c_bypassPreflight (c_set (st_chain st))) || negb (isCORSPreflight (view r st)) then mret false
  else
    inc IncAllowed;; inc IncPreflightBypassed;; serve_next r;; mret true.

Definition acquireConcurrency : M W bool :=
  st ← get;
  match c_maxConcurrent (c_set (st_chain st)) with
  | None => mret true
  | Some max =>
      if c_semUsed (st_chain st) + 1 <=? max
      then set_chain (set_semUsed (c_semUsed (st_chain st) + 1));; mret true
      else inc IncConcurrencyRejected;; writeJSONError 503 "overloaded" "server at capacity" 0;; mret false
  end.

Definition releaseConcurrency : M W unit :=
  st ← get;
  match c_maxConcurrent (c_set (st_chain st)) with
  | None => mret tt
  | Some _ => set_chain (set_semUsed (c_semUsed (st_chain st) - 1))
  end.

(** ** Authentication *)

Definition bytes_of (s : string) : list Z := map byteZ (String.list_ascii_of_string s).

Definition authCacheKey (req : CheckRequest) : string :=
  authCacheKeyPrefix +:+ hex_EncodeToString (Sum256 (bytes_of (authKeyMaterial req))).

(** A Redis error reads as a miss. *)
Definition getAuthFromCache (key : string) : M W (option CheckResponse) :=
  st ← get;
  if negb (c_authCache (c_set (st_chain st))) then mret None
  else mret (kv_get (st_world st) key ≫= auth_decode).

Definition setAuthInCache (key : string) (resp : CheckResponse) (ttl : Z) : M W unit :=
  s ← settings_of;
  if negb (c_authCache s) || (ttl <=? 0) then mret tt
  else
    in_world (fun w =>
      let w := kv_set w key (auth_encode resp) ttl in
      (foldl (fun w tag => kv_sadd w (authCacheTagPrefix +:+ tag) key) w (ck_CacheTags resp), tt)).

(** The headers an allowed response may set: the loop over [resp.RequestHeaders]. *)
Definition inject_auth_headers (allowed : gset string) (h : Header) (hs : gmap string string) : Header :=
  map_fold (fun k v h =>
    let canonical := CanonicalHeaderKey k in
    if bool_decide (canonical ∈ injectionDenyHeaders) && negb (bool_decide (canonical ∈ allowed)) then h
    else Header_Set h k v) h hs.

Definition applyAuthResponse (resp : CheckResponse) : M W bool :=
  if negb (ck_Allowed resp) then
    inc IncAuthDenied;;
    set_resp (fun h => map_fold (fun k v h => Header_Set h k v) h (ck_ResponseHeaders resp));;
    let code := if ck_StatusCode resp =? 0 then 403 else ck_StatusCode resp in
    let denyMsg := if bool_decide (ck_DenyBody resp = "") then status_Text code else ck_DenyBody resp in
    writeJSONError code "auth_denied" denyMsg 0;; mret false
  else
    st ← get;
    set_header (inject_auth_headers (c_allowedInjectionHeaders (c_set (st_chain st))) (st_header st) (ck_RequestHeaders resp));;
    mret true.

(** The body as the auth service sees it. Reading advances the reader the
    request copies share; the copy passed here gets a new reader. *)
Definition buffer_body (ac : AuthClient) (r : HTTPRequest) : M W (HTTPRequest * string) :=
  match hr_body r with
  | Some i =>
      if propagateBody ac then
        st ← get;
        let data := default "" (st_readers st !! i) in
        let n := Z.to_nat (maxBodySize ac) in
        let bodyBytes := String.substring 0 n data in
        let rest := String.substring n (String.length data - n) data in
        let readers := <[i := rest]> (st_readers st) in
        set_readers (readers ++ [bodyBytes]);;
        mret (mkHTTPRequest (hr r) (hr_tls r) (Some (length readers)) (hr_key r) (hr_backendURL r) (hr_backendProto r)
                (hr_timeout r), bodyBytes)
      else mret (r, "")
  | None => mret (r, "")
  end.

(** The call of the auth service, with its circuit breaker. *)
Definition auth_Check (ac : AuthClient) (req : CheckRequest) : M W (result CheckResponse) :=
  st ← get;
  let '(ac', w, res) := Check kv_clock http_ParseTime auth_decode_wire auth_Do auth_grpc ac (st_world st) req in
  in_world (fun _ => (w, tt));;
  set_chain (set_auth (Some ac'));;
  mret res.

(** After a cache miss: ask the service, apply the failure policy or store and
    apply the answer. *)
Definition auth_uncached (ac : AuthClient) (authReq : CheckRequest) (cacheKey : string) : M W bool :=
  res ← auth_Check ac authReq;
  match res with
  | Err e =>
      inc (if IsCanceled (Some e) then IncAuthCanceled else IncAuthErrors);;
      s ← settings_of;
      if bool_decide (au_FailurePolicy (cfg_Auth (c_cfg s)) = "failopen") then mret true
      else writeJSONError 503 "auth_unavailable" "authentication service unavailable" 0;; mret false
  | Ok resp =>
      let ttl := ResolveCacheTTL resp in
      (if 0 <? ttl then setAuthInCache cacheKey resp ttl else mret tt);;
      applyAuthResponse resp
  end.

Definition checkAuth (r : HTTPRequest) (ac : AuthClient) : M W bool :=
  rb ← buffer_body ac r;
  let '(r, bodyBytes) := rb in
  st ← get;
  let authReq := BuildCheckRequest ac (view r st) bodyBytes in
  let cacheKey := authCacheKey authReq in
  hit ← getAuthFromCache cacheKey;
  match hit with
  | Some cached => applyAuthResponse cached
  | None => auth_uncached ac authReq cacheKey
  end.

(** [checkAuth] runs on a copy of the request ([r.WithContext]). *)
Definition runAuth (r : HTTPRequest) : M W bool :=
  st ← get;
  match c_authClient (st_chain st) with
  | None => mret true
  | Some ac => checkAuth r ac
  end.

(** ** External limits *)

Definition fail_closed_limits : ExternalLimits := mkExternalLimits (-1) 0 "" "" "" 0 "" "" "" None false.

(** The fallback branch both failure cases share: the fallback key and limits,
    or the static configuration when there is no fallback key. The fallback key
    strategy and the fallback limits are always stored together. *)
Definition fallback_limits (r : HTTPRequest) (key : string) : M W (option ExternalLimits * string) :=
  st ← get;
  let s := c_set (st_chain st) in
  if bool_decide (xr_FailurePolicy (rl_External (cfg_RateLimit (c_cfg s))) = "failclosed")
  then mret (Some fail_closed_limits, key)
  else match c_fallbackKeyStrategy s with
       | Some ks =>
           match Extract ks (view r st) with
           | Err _ => mret (None, key)
           | Ok fbKey =>
               match c_externalFallback s with
               | Some fb => mret (Some (mkExternalLimits (fp_average fb) (fp_burst fb) "" "" "" 0 "" "" "" None false), fbKey)
               | None => mret (None, key)
               end
           end
       | None => mret (None, key)
       end.

Definition ext_GetLimits (ec : ExternalClient) (req : ExternalRequest) : M W (result ExternalLimits) :=
  st ← get;
  let '(ec', w, res) :=
    GetLimits http_ParseTime ext_encode ext_decode ext_decode_wire ext_Do ext_grpc ec (st_world st) req in
  in_world (fun _ => (w, tt));;
  set_chain (set_ext (Some ec'));;
  mret res.

(** Queueing an event never blocks; a nil emitter drops it. *)
Definition emit (ev : W -> UsageEvent) : M W unit :=
  st ← get;
  match c_emitter (st_chain st) with
  | None => mret tt
  | Some em => set_chain (set_emitter (Some (Emit (kv_clock (st_world st)) (ev (st_world st)) em)))
  end.

Definition fetchExternalLimits (r : HTTPRequest) (key : string) : M W (option ExternalLimits * string) :=
  st ← get;
  match c_externalRL (st_chain st) with
  | None => mret (None, key)
  | Some ext =>
      let req := view r st in
      let headers := BuildFilteredHeaderMap (c_extFilter (c_set (st_chain st))) (ReqHeader req) in
      let headers := if bool_decide (Host req = "") then headers else <["Host" := Host req]> headers in
      res ← ext_GetLimits ext (mkExternalRequest headers (Method req) (URL_Path (ReqURL req)));
      match res with
      | Err _ => fallback_limits r key
      | Ok limits =>
          if bool_decide (xl_BackendURL limits = "") then fallback_limits r key
          else
            resolvedKey ←
              (if bool_decide (xl_TenantKey limits = "") then mret key
               else if validTenantKey (xl_TenantKey limits) then mret ("t:" +:+ xl_TenantKey limits)
               else
                 inc IncTenantKeyRejected;;
                 emit (fun w => mkUsageEvent key "" (Method req) (URL_Path (ReqURL req)) true 0 0 (format_now w) 0
                                  (Header_Get (ReqHeader req) requestIDHeader) "tenant_key_rejected");;
                 mret key);
            if 0 <? xl_Average limits then mret (Some limits, resolvedKey) else mret (None, resolvedKey)
      end
  end.

Definition with_timeout (r : HTTPRequest) (t : option Z) : HTTPRequest :=
  mkHTTPRequest (hr r) (hr_tls r) (hr_body r) (hr_key r) (hr_backendURL r) (hr_backendProto r) t.
Definition with_backend (r : HTTPRequest) (u : option URL) : HTTPRequest :=
  mkHTTPRequest (hr r) (hr_tls r) (hr_body r) (hr_key r) u (hr_backendProto r) (hr_timeout r).
Definition with_proto (r : HTTPRequest) (p : string) : HTTPRequest :=
  mkHTTPRequest (hr r) (hr_tls r) (hr_body r) (hr_key r) (hr_backendURL r) p (hr_timeout r).
Definition with_key (r : HTTPRequest) (k : string) : HTTPRequest :=
  mkHTTPRequest (hr r) (hr_tls r) (hr_body r) (Some k) (hr_backendURL r) (hr_backendProto r) (hr_timeout r).

Definition applyRequestTimeout (s : settings) (req : Request) (r : HTTPRequest) (ext : option ExternalLimits) : HTTPRequest :=
  if isStreamingRequest req then r
  else
    let timeout := c_requestTimeout s in
    let timeout :=
      match ext with
      | Some l =>
          if bool_decide (xl_RequestTimeout l = "") then timeout
          else match time_ParseDuration (xl_RequestTimeout l) with Some d => if 0 <? d then d else timeout | None => timeout end
      | None => timeout
      end in
    if 0 <? timeout then with_timeout r (Some timeout) else r.

Definition injectBackendURL (s : settings) (r : HTTPRequest) (ext : option ExternalLimits) : HTTPRequest :=
  match ext with
  | None => r
  | Some l =>
      if bool_decide (xl_BackendURL l = "") then r
      else match url_Parse (xl_BackendURL l) with
           | Err _ => r
           | Ok u => match ValidateBackendURL LookupIP u (c_urlPolicy s) with
                     | Some _ => r
                     | None => with_backend r (Some u)
                     end
           end
  end.

Definition injectBackendProtocol (r : HTTPRequest) (ext : option ExternalLimits) : HTTPRequest :=
  match ext with
  | None => r
  | Some l => if existsb (String.eqb (xl_BackendProtocol l)) ["h1"; "h2"; "h3"] then with_proto r (xl_BackendProtocol l) else r
  end.

Definition externalLimitsFailClosed (ext : option ExternalLimits) : M W bool :=
  match ext with
  | Some l =>
      if 0 <=? xl_Average l then mret false
      else
        s ← settings_of;
        let code := sp_failureCode (c_staticRL s) in
        let code := if code =? 0 then 503 else code in
        writeJSONError code "rate_limited" "service unavailable (external RL fail-closed)" 0;; mret true
  | None => mret false
  end.

(** ** Rate limiting *)

Definition usage_event (req : Request) (key tenantID : string) (res : Result) (status : Z) (w : W) : UsageEvent :=
  mkUsageEvent key tenantID (Method req) (URL_Path (ReqURL req)) (Allowed res) (Remaining res) (Limit res) (format_now w)
    status (Header_Get (ReqHeader req) requestIDHeader) "".

Definition serveResult (r : HTTPRequest) (resolvedKey : string) (res : Result) : M W unit :=
  setRateLimitHeaders res;;
  st ← get;
  let ev status := usage_event (view r st) resolvedKey (extractTenantID resolvedKey) res status in
  if negb (Allowed res) then inc IncLimited;; emit (ev 429);; serveRateLimited res
  else inc IncAllowed;; emit (ev 200);; serve_next r.

(** [startRecoveryIfNeeded] while the chain is open: at most one recovery runs. *)
Definition startRecoveryIfNeeded : M W unit := set_chain set_reconnecting.

Definition handleLimiterError (e : error) : M W unit :=
  inc IncRedisErrors;;
  (if IsReadOnlyErr (Some e) then inc IncReadOnlyRetries else mret tt);;
  if IsConnectivityErr (Some e) then
    st ← get;
    set_chain lose_limiter;;
    (if c_redisUnhealthy (st_chain st) then mret tt else inc SetRedisUnhealthy);;
    startRecoveryIfNeeded
  else mret tt.

(** The limiter call: the external limits override rate and burst, not the TTL. *)
Definition limiter_call (lim : Limiter) (key : string) (ext : option ExternalLimits) (w : W) : W * result Result :=
  let now := kv_clock w / 1000 in
  let static := Limiter_Allow lim w key now in
  match ext with
  | Some l =>
      if 0 <? xl_Average l
      then AllowWithOverrides lim w key (rate_per_second (xl_Average l) (period_of (xl_Period l))) (Z.max (xl_Burst l) 1) 0 now
      else static
  | None => static
  end.

(** [true] when the request has been answered. *)
Definition tryRedisLimit (r : HTTPRequest) (key : string) (ext : option ExternalLimits) : M W bool :=
  st ← get;
  match c_limiter (st_chain st) with
  | None => mret false
  | Some lim =>
      res ← in_world (limiter_call lim key ext);
      match res with
      | Ok result => serveResult r key result;; mret true
      | Err e => handleLimiterError e;; mret false
      end
  end.

Definition resolveFailurePolicy (s : settings) (ext : option ExternalLimits) : string * Z :=
  let fp := sp_failurePolicy (c_staticRL s) in
  let fc := sp_failureCode (c_staticRL s) in
  match ext with
  | None => (fp, fc)
  | Some l =>
      (if negb (bool_decide (xl_FailurePolicy l = "")) && FailurePolicy_Valid (xl_FailurePolicy l) then xl_FailurePolicy l else fp,
       if 0 <? xl_FailureCode l then xl_FailureCode l else fc)
  end.

Definition handleRedisFailurePolicy (r : HTTPRequest) (key : string) (ext : option ExternalLimits) : M W unit :=
  st ← get;
  let c := st_chain st in
  let s := c_set c in
  let snap := c_staticRL s in
  let now := kv_clock (st_world st) in
  let limited := serveRateLimited (mkResult false Second 0 (sp_burst snap) 0) in
  let '(fp, fc) := resolveFailurePolicy s ext in
  if bool_decide (fp = "passthrough") then
    match c_globalBackstop s with
    | Some l =>
        let '(bs, ok) := InMemory_Allow l (c_backstopState c) "__global__" now in
        set_chain (set_backstopState bs);;
        if ok : bool then inc IncAllowed;; serve_next r else inc IncLimited;; limited
    | None => inc IncAllowed;; serve_next r
    end
  else if bool_decide (fp = "failclosed") then
    inc IncLimited;; writeJSONError fc "service_unavailable" (status_Text fc) 0
  else if bool_decide (fp = "inmemoryfallback") then
    inc IncFallbackUsed;;
    let '(fs, ok) := InMemory_Allow (sp_fallback snap) (c_fallbackState c) key now in
    set_chain (set_fallbackState fs);;
    if ok : bool then inc IncAllowed;; serve_next r else inc IncLimited;; limited
  else mret tt.

(** ** The handler *)

(** After authentication: limits, key, bucket, policy. *)
Definition rate_limit (r : HTTPRequest) : M W unit :=
  st ← get;
  let c := st_chain st in
  if bool_decide (sp_average (c_staticRL (c_set c)) = 0) && negb (bool_decide (is_Some (c_externalRL c)))
  then inc IncAllowed;; serve_next r
  else
    let key := if bool_decide (is_Some (c_externalRL c)) then Ok "" else Extract (c_keyStrategy (c_set c)) (view r st) in
    match key with
    | Err _ =>
        inc IncKeyExtractErrors;;
        writeJSONError 500 "key_extraction_failed" "could not extract rate-limit key" 0
    | Ok key =>
        let r := with_key r key in
        lk ← fetchExternalLimits r key;
        let '(ext, resolvedKey) := lk in
        let r := applyRequestTimeout (c_set c) (view r st) r ext in
        let r := injectBackendURL (c_set c) r ext in
        let r := injectBackendProtocol r ext in
        closed ← externalLimitsFailClosed ext;
        if closed : bool then mret tt
        else
          handled ← tryRedisLimit r resolvedKey ext;
          if handled : bool then mret tt else handleRedisFailurePolicy r resolvedKey ext
    end.

Definition ServeHTTP (r : HTTPRequest) : M W unit :=
  id ← prepareRequest r;
  match id with
  | None => mret tt
  | Some _ =>
      bypassed ← handlePreflightBypass r;
      if bypassed : bool then mret tt
      else
        acquired ← acquireConcurrency;
        if negb acquired then mret tt
        else
          allowed ← runAuth r;
          (if allowed : bool then rate_limit r else mret tt);;
          releaseConcurrency
  end.
End handlers.

(** ** The Retry-After header *)

Lemma exact_Seconds d : Seconds (R := exact_rounding) d == inject_Z d / inject_Z Second.
Proof.
  unfold Seconds. rewrite exact_fadd, exact_fdiv, !exact_float.
  rewrite (Z.quot_rem' d Second) at 3. rewrite inject_Z_plus, inject_Z_mult. field. discriminate.
Qed.

(** Whole seconds, rounded up. *)
Lemma ceil_seconds dur :
  let secs := Qceiling (Seconds (R := exact_rounding) dur) in dur <= secs * Second < dur + Second.
Proof.
  intros secs. pose proof (Qle_ceiling (Seconds (R := exact_rounding) dur)) as Hs1.
  pose proof (Qceiling_lt (Seconds (R := exact_rounding) dur)) as Hs2. fold secs in Hs1, Hs2.
  rewrite exact_Seconds in Hs1, Hs2. unfold Z.sub in Hs2. rewrite inject_Z_plus in Hs2.
  assert (inject_Z dur / inject_Z Second * inject_Z Second == inject_Z dur)%Q as E by (field; discriminate).
  change (inject_Z (- (1))) with (- (1))%Q in Hs2. rewrite Zle_Qle, Zlt_Qlt, inject_Z_plus, inject_Z_mult.
  assert (0 < inject_Z Second)%Q by reflexivity. split; nra.
Qed.

(** Truncating [d * f] for a factor [f] between 0.9 and 1.1. *)
Lemma jitter_trunc d f :
  0 <= d -> ((9 # 10) <= f)%Q -> (f <= 11 # 10)%Q ->
  let dur := ftrunc (fmul (R := exact_rounding) (float d) f) in 9 * d - 10 < 10 * dur /\ 10 * dur <= 11 * d.
Proof.
  intros Hd Hf0 Hf1 dur. assert (0 <= inject_Z d)%Q as Hd' by (change 0%Q with (inject_Z 0); by rewrite <- Zle_Qle).
  assert (fmul (R := exact_rounding) (float d) f == inject_Z d * f)%Q as Hm by (by rewrite exact_fmul, exact_float).
  destruct (ftrunc_nonneg (fmul (R := exact_rounding) (float d) f)) as [Edur _]; [rewrite Hm; nra|]. fold dur in Edur.
  pose proof (Qfloor_le (fmul (R := exact_rounding) (float d) f)) as Hlo.
  pose proof (Qlt_floor (fmul (R := exact_rounding) (float d) f)) as Hhi.
  rewrite <- Edur, Hm in Hlo, Hhi. rewrite inject_Z_plus in Hhi. change (inject_Z 1) with 1%Q in Hhi.
  assert ((9 # 10) * inject_Z d <= inject_Z d * f <= (11 # 10) * inject_Z d)%Q as [] by nra.
  split; [rewrite Zlt_Qlt|rewrite Zle_Qle]; unfold Z.sub; rewrite ?inject_Z_plus, !inject_Z_mult;
    change (inject_Z 9) with 9%Q; change (inject_Z 10) with 10%Q; change (inject_Z 11) with 11%Q;
    change (inject_Z (- (10))) with (- (10))%Q; lra.
Qed.

(** The jittered retry time. For a retry time [d] (nanoseconds) and a random
    number in [0,1), the advertised whole seconds are at least 1, never more
    than a nanosecond short of 90% of [d], and less than one second above 110%
    of [d] (or exactly 1): a client that waits as told is early by at most 10%. *)
Theorem jittered_retry_bounds d x :
  0 <= d -> (0 <= x)%Q -> (x < 1)%Q ->
  let '(dur, secs) := jittered_retry (R := exact_rounding) d x in
  1 <= secs /\ 9 * d - 10 < 10 * dur /\ 10 * dur <= 11 * d /\ dur <= secs * Second
  /\ (secs = 1 \/ secs * Second < dur + Second).
Proof.
  intros Hd Hx0 Hx1. unfold jittered_retry. set (f := fadd _ _).
  assert (f == (9 # 10) + x * (2 # 10))%Q as Hf by (subst f; rewrite exact_fadd, exact_fmul; cbn [rnd exact_rounding]; rewrite !Qred_correct; reflexivity).
  destruct (jitter_trunc d f Hd) as [H1 H2]; [rewrite Hf; lra|rewrite Hf; lra|].
  pose proof (ceil_seconds (ftrunc (fmul (float d) f))) as [H3 H4].
  destruct (_ <? 1) eqn:E; bools; [|split_and!; [lia..|by right]].
  split_and!; [lia..| |by left]. unfold Second, Millisecond, Microsecond in *. lia.
Qed.

Lemma jittered_retry_bounds_witness :
  jittered_retry (R := exact_rounding) (10 * Second) (1 # 2) = (10 * Second, 10)
  /\ 9 * (10 * Second) - 10 < 10 * (10 * Second).
Proof.
  assert (jittered_retry (R := exact_rounding) (10 * Second) (1 # 2) = (10 * Second, 10)) as E by (vm_compute; reflexivity).
  split; [exact E|]. pose proof (jittered_retry_bounds (10 * Second) (1 # 2)) as H. rewrite E in H.
  apply H; vm_compute; [discriminate|discriminate|reflexivity].
Defined.
