(* ===== verification/ChainProps.v ===== *)
(** * What the middleware chain guarantees

    The decision of [ServeHTTP] against a specification of when a request may
    reach the backend, and the properties of authentication, header injection,
    body propagation and the failure policies. *)
From S2P Require Import Prelude GoStrings GoTime Float64 GoNet ConfigTypes Config RedisClient TokenBucket.
From S2P Require Import KeyStrategy InMemory Breaker Auth External UrlPolicy MTLS Events Bucket Chain.

Local Open Scope Z_scope.

(** Compute with the handler monad. *)
Ltac run_handler :=
  unfold settings_of; unfold mbind, mret, M_bind, M_ret, get, set_chain, in_world, set_header, set_readers, set_resp, put, inc;
  cbn [st_chain st_world st_header st_readers st_resp st_out st_metrics fst snd].

Section decision.
Context `{R : Rounding} {W : Type} `{Env W}.
Implicit Types (st : St W) (r : HTTPRequest).

(** The replies [l] a handler appends. *)
Definition appends {A} (m : M W A) st (l : list reply) : Prop := st_out (m st).1 = st_out st ++ l.

Definition is_proxied (x : reply) : bool := match x with Proxied _ _ _ => true | _ => false end.

Lemma serveRateLimited_out res st :
  exists ra id, st_out (serveRateLimited res st).1 = st_out st ++ [JSONError 429 "rate_limited" "Too Many Requests" ra id]
    /\ st_chain (serveRateLimited res st).1 = st_chain st.
Proof.
  unfold serveRateLimited, writeJSONError. run_handler. destruct (random_float _) as [w x]. cbn.
  destruct (jittered_retry (RetryAfter res) x). eexists _, _. by split.
Qed.

Lemma emit_keeps ev st :
  st_out (emit ev st).1 = st_out st /\ c_set (st_chain (emit ev st).1) = c_set (st_chain st)
  /\ st_world (emit ev st).1 = st_world st /\ st_readers (emit ev st).1 = st_readers st
  /\ st_header (emit ev st).1 = st_header st.
Proof. unfold emit. run_handler. by destruct (c_emitter (st_chain st)). Qed.

(** ** The authentication decision *)

(** The check request of [r], with the propagated part of the body. *)
Definition auth_request (ac : AuthClient) st r : CheckRequest :=
  let body := match hr_body r with
              | Some i => if propagateBody ac then String.substring 0 (Z.to_nat (maxBodySize ac)) (default "" (st_readers st !! i)) else ""
              | None => ""
              end in
  BuildCheckRequest ac (view r st) body.

(** Specification: a cached decision stands; else the service's answer does;
    an error admits exactly under the fail-open policy. *)
Definition auth_admits st r : bool :=
  match c_authClient (st_chain st) with
  | None => true
  | Some ac =>
      let req := auth_request ac st r in
      let cached := if c_authCache (c_set (st_chain st)) then kv_get (st_world st) (authCacheKey req) ≫= auth_decode else None in
      match cached with
      | Some resp => ck_Allowed resp
      | None =>
          match (Check kv_clock http_ParseTime auth_decode_wire auth_Do auth_grpc ac (st_world st) req).2 with
          | Ok resp => ck_Allowed resp
          | Err _ => bool_decide (au_FailurePolicy (cfg_Auth (c_cfg (c_set (st_chain st)))) = "failopen")
          end
      end
  end.

Lemma applyAuthResponse_spec resp st :
  let '(st', ok) := applyAuthResponse resp st in
  ok = ck_Allowed resp /\ st_chain st' = st_chain st
  /\ exists l, st_out st' = st_out st ++ l
       /\ (if ck_Allowed resp then l = [] else exists code msg id, l = [JSONError code "auth_denied" msg 0 id]).
Proof.
  unfold applyAuthResponse. destruct (ck_Allowed resp); cbn [negb]; run_handler.
  - split_and!; [done..|]. exists []. by rewrite app_nil_r.
  - unfold writeJSONError. run_handler. split_and!; [done..|]. eexists. split; [done|]. eauto.
Qed.

Lemma setAuthInCache_keeps key resp ttl st :
  st_out (setAuthInCache key resp ttl st).1 = st_out st /\ st_chain (setAuthInCache key resp ttl st).1 = st_chain st.
Proof. unfold setAuthInCache. run_handler. by destruct (negb _ || _). Qed.

Lemma buffer_body_spec ac r st :
  let '(st', (r', body)) := buffer_body ac r st in
  st_out st' = st_out st /\ st_chain st' = st_chain st /\ st_world st' = st_world st /\ st_header st' = st_header st
  /\ BuildCheckRequest ac (view r' st') body = auth_request ac st r.
Proof.
  unfold buffer_body, auth_request. destruct (hr_body r) as [i|]; [|by run_handler].
  destruct (propagateBody ac); by run_handler.
Qed.

Lemma auth_Check_spec ac req st :
  let '(st', res) := auth_Check ac req st in
  res = (Check kv_clock http_ParseTime auth_decode_wire auth_Do auth_grpc ac (st_world st) req).2
  /\ st_out st' = st_out st /\ c_set (st_chain st') = c_set (st_chain st) /\ st_header st' = st_header st.
Proof. unfold auth_Check. run_handler. by destruct (Check _ _ _ _ _ _ _ _) as [[ac' w] res]. Qed.

(** A handler that ends the authentication stage: it returns [ok], keeps the
    settings, and answers the client exactly when [ok] is false. *)
Definition auth_stage (m : M W bool) st (ok : bool) : Prop :=
  (m st).2 = ok /\ c_set (st_chain (m st).1) = c_set (st_chain st)
  /\ exists l, st_out (m st).1 = st_out st ++ l
       /\ (if ok then l = [] else exists code t msg id, l = [JSONError code t msg 0 id]).

Lemma applyAuthResponse_stage resp st : auth_stage (applyAuthResponse resp) st (ck_Allowed resp).
Proof.
  unfold auth_stage. pose proof (applyAuthResponse_spec resp st) as Ha.
  destruct (applyAuthResponse resp st) as [st' ok]. destruct Ha as (-> & Hc & l & Hl & Hif). cbn [fst snd].
  rewrite Hc. split_and!; [done..|]. exists l. split; [done|]. destruct (ck_Allowed resp); naive_solver.
Qed.

Lemma auth_uncached_stage ac req key st :
  auth_stage (auth_uncached ac req key) st
    match (Check kv_clock http_ParseTime auth_decode_wire auth_Do auth_grpc ac (st_world st) req).2 with
    | Ok resp => ck_Allowed resp
    | Err _ => bool_decide (au_FailurePolicy (cfg_Auth (c_cfg (c_set (st_chain st)))) = "failopen")
    end.
Proof.
  unfold auth_stage, auth_uncached. pose proof (auth_Check_spec ac req st) as Hk. run_handler.
  destruct (auth_Check ac req st) as [st1 res]. destruct Hk as (<- & Ho & Hc & _).
  destruct res as [resp|e].
  - set (m := if 0 <? ResolveCacheTTL resp then _ else _).
    assert (st_out (m st1).1 = st_out st1 /\ st_chain (m st1).1 = st_chain st1) as [Ho1 Hc1].
    { subst m. destruct (0 <? _); [apply setAuthInCache_keeps|done]. }
    destruct (m st1) as [st2 []]. cbn [fst] in Ho1, Hc1.
    pose proof (applyAuthResponse_stage resp st2) as (Ha & Hca & Hout). by rewrite Hca, Hc1, Ha, <- Ho, <- Ho1.
  - cbn. rewrite Hc. destruct (bool_decide _); cbn; rewrite Ho.
    + split_and!; [done..|]. exists []. by rewrite app_nil_r.
    + split_and!; [done..|]. eexists. split; [done|]. eauto.
Qed.

(** [runAuth] decides as specified and answers exactly the rejected requests. *)
Lemma runAuth_stage r st : auth_stage (runAuth r) st (auth_admits st r).
Proof.
  unfold auth_stage, runAuth, auth_admits. run_handler. destruct (c_authClient (st_chain st)) as [ac|].
  2: { split_and!; [done..|]. exists []. by rewrite app_nil_r. }
  unfold checkAuth. run_handler. pose proof (buffer_body_spec ac r st) as Hb.
  destruct (buffer_body ac r st) as [st1 [r1 body]]. destruct Hb as (Ho & Hc & Hw & Hh & Hreq). cbn [fst snd].
  rewrite Hreq. unfold getAuthFromCache. run_handler. rewrite Hc.
  set (req := auth_request ac st r). rewrite <- Ho, <- Hc, <- Hw.
  destruct (c_authCache (c_set (st_chain st1))); cbn [negb]; [|apply auth_uncached_stage].
  destruct (option_bind string CheckResponse auth_decode (kv_get (st_world st1) (authCacheKey req))) as [cached|];
    [apply applyAuthResponse_stage|apply auth_uncached_stage].
Qed.

(** ** The rate-limit decision *)

(** What the failure policy decides when Redis has not. *)
Definition policy_admits (c : Chain) (key : string) (ext : option ExternalLimits) (now : Z) : bool :=
  let fp := (resolveFailurePolicy (c_set c) ext).1 in
  if bool_decide (fp = "passthrough") then
    match c_globalBackstop (c_set c) with
    | Some l => (InMemory_Allow l (c_backstopState c) "__global__" now).2
    | None => true
    end
  else if bool_decide (fp = "inmemoryfallback")
       then (InMemory_Allow (sp_fallback (c_staticRL (c_set c))) (c_fallbackState c) key now).2
       else false.

(** Specification of the stage after authentication: nothing is limited, or the
    bucket of the resolved key admits, or Redis could not tell and the failure
    policy admits. No key, or a fail-closed external service, admits nothing. *)
Definition limit_admits st r : bool :=
  let c := st_chain st in
  if bool_decide (sp_average (c_staticRL (c_set c)) = 0) && negb (bool_decide (is_Some (c_externalRL c))) then true
  else
    match (if bool_decide (is_Some (c_externalRL c)) then Ok "" else Extract (c_keyStrategy (c_set c)) (view r st)) with
    | Err _ => false
    | Ok key =>
        let '(st1, (ext, resolvedKey)) := fetchExternalLimits (with_key r key) key st in
        if negb (0 <=? default 0 (xl_Average <$> ext)) then false
        else match c_limiter (st_chain st1) with
             | None => policy_admits (st_chain st1) resolvedKey ext (kv_clock (st_world st1))
             | Some lim =>
                 let '(w, res) := limiter_call lim resolvedKey ext (st_world st1) in
                 match res with
                 | Ok x => Allowed x
                 | Err _ => policy_admits (st_chain st1) resolvedKey ext (kv_clock w)
                 end
             end
    end.

(** A handler that answers the client once, by the backend exactly when [ok]. *)
Definition answers (m : M W unit) st (ok : bool) : Prop :=
  c_set (st_chain (m st).1) = c_set (st_chain st)
  /\ exists x, st_out (m st).1 = st_out st ++ [x] /\ is_proxied x = ok.

Lemma answers_json code t msg ra st : answers (writeJSONError code t msg ra) st false.
Proof. unfold answers, writeJSONError. run_handler. eauto. Qed.

Lemma answers_limited res st : answers (serveRateLimited res) st false.
Proof.
  unfold answers. destruct (serveRateLimited_out res st) as (ra & id & -> & ->). eauto.
Qed.

Lemma answers_next r st : answers (serve_next r) st true.
Proof. unfold answers, serve_next. run_handler. eauto. Qed.

(** Steps before the answer that neither answer nor change the settings. *)
Lemma answers_after {A} (m : M W A) (k : A -> M W unit) st ok :
  st_out (m st).1 = st_out st -> c_set (st_chain (m st).1) = c_set (st_chain st) ->
  answers (k (m st).2) (m st).1 ok -> answers (m ≫= k) st ok.
Proof.
  unfold answers. run_handler. destruct (m st) as [st1 a]. cbn [fst snd]. intros -> ->. done.
Qed.

Lemma answers_ret {A} (a : A) (k : A -> M W unit) st ok : answers (k a) st ok -> answers (mret a ≫= k) st ok.
Proof. done. Qed.

Lemma serveResult_answers r key res st : answers (serveResult r key res) st (Allowed res).
Proof.
  unfold serveResult, setRateLimitHeaders. apply answers_after; [done..|]. apply answers_after; [done..|].
  destruct (Allowed res); cbn [negb]; (apply answers_after; [done..|]).
  - apply answers_after; [apply emit_keeps..|]. apply answers_next.
  - apply answers_after; [apply emit_keeps..|]. apply answers_limited.
Qed.

(** The policy in force is one of the three: the static one is, and an override
    is only taken when it is. *)
Lemma resolveFailurePolicy_valid s ext :
  FailurePolicy_Valid (sp_failurePolicy (c_staticRL s)) = true ->
  FailurePolicy_Valid (resolveFailurePolicy s ext).1 = true.
Proof.
  intros Hv. unfold resolveFailurePolicy. destruct ext as [l|]; [|done]. cbn [fst].
  destruct (negb _); cbn [andb]; [|done]. by destruct (FailurePolicy_Valid (xl_FailurePolicy l)) eqn:E.
Qed.

Lemma policy_answers r key ext st :
  FailurePolicy_Valid (sp_failurePolicy (c_staticRL (c_set (st_chain st)))) = true ->
  answers (handleRedisFailurePolicy r key ext) st (policy_admits (st_chain st) key ext (kv_clock (st_world st))).
Proof.
  intros Hv%(resolveFailurePolicy_valid _ ext). unfold handleRedisFailurePolicy, policy_admits.
  apply answers_after; [done..|]. cbn [get fst snd].
  destruct (resolveFailurePolicy (c_set (st_chain st)) ext) as [fp fc]. cbn [fst] in *.
  destruct (bool_decide_reflect (fp = "passthrough")) as [|H1].
  { destruct (c_globalBackstop _) as [l|].
    - destruct (InMemory_Allow l _ _ _) as [bs []]; cbn [snd].
      + do 2 (apply answers_after; [done..|]). apply answers_next.
      + do 2 (apply answers_after; [done..|]). apply answers_limited.
    - apply answers_after; [done..|]. apply answers_next. }
  destruct (bool_decide_reflect (fp = "failclosed")) as [->|H2].
  { rewrite bool_decide_eq_false_2 by done. apply answers_after; [done..|]. apply answers_json. }
  destruct (bool_decide_reflect (fp = "inmemoryfallback")) as [|H3].
  { apply answers_after; [done..|]. destruct (InMemory_Allow _ _ _ _) as [fs []]; cbn [snd].
    - do 2 (apply answers_after; [done..|]). apply answers_next.
    - do 2 (apply answers_after; [done..|]). apply answers_limited. }
  exfalso. apply bool_decide_eq_true in Hv. rewrite !elem_of_cons, elem_of_nil in Hv. naive_solver.
Qed.

Lemma fallback_limits_keeps r key st : (fallback_limits r key st).1 = st.
Proof. unfold fallback_limits. run_handler. by repeat case_match. Qed.

Lemma ext_GetLimits_keeps ec req st :
  st_out (ext_GetLimits ec req st).1 = st_out st /\ c_set (st_chain (ext_GetLimits ec req st).1) = c_set (st_chain st).
Proof. unfold ext_GetLimits. run_handler. by destruct (GetLimits _ _ _ _ _ _ _ _ _) as [[? ?] ?]. Qed.

Lemma fetchExternalLimits_keeps r key st :
  st_out (fetchExternalLimits r key st).1 = st_out st
  /\ c_set (st_chain (fetchExternalLimits r key st).1) = c_set (st_chain st).
Proof.
  unfold fetchExternalLimits. run_handler. destruct (c_externalRL (st_chain st)) as [ext|]; [|done].
  match goal with |- context [ext_GetLimits ext ?q st] => pose proof (ext_GetLimits_keeps ext q st) as [Ho Hc];
    destruct (ext_GetLimits ext q st) as [st1 res] end. cbn [fst] in Ho, Hc. rewrite <- Ho, <- Hc.
  destruct res as [limits|e]; [|by rewrite fallback_limits_keeps].
  destruct (bool_decide (xl_BackendURL limits = "")); [by rewrite fallback_limits_keeps|].
  destruct (bool_decide (xl_TenantKey limits = "")); [by destruct (0 <? _)|].
  destruct (validTenantKey _); [by destruct (0 <? _)|].
  match goal with |- context [emit ?ev ?st2] => pose proof (emit_keeps ev st2) as (Ho2 & Hc2 & _); destruct (emit ev st2) as [st3 []] end.
  cbn [fst] in Ho2, Hc2. by destruct (0 <? _).
Qed.

Lemma handleLimiterError_keeps e st :
  let st' := (handleLimiterError e st).1 in
  st_out st' = st_out st /\ st_world st' = st_world st /\ c_set (st_chain st') = c_set (st_chain st)
  /\ c_fallbackState (st_chain st') = c_fallbackState (st_chain st)
  /\ c_backstopState (st_chain st') = c_backstopState (st_chain st).
Proof.
  unfold handleLimiterError, startRecoveryIfNeeded. run_handler.
  destruct (IsReadOnlyErr _), (IsConnectivityErr _); cbn [st_chain st_world st_out st_metrics st_header st_readers st_resp fst];
    destruct (c_redisUnhealthy (st_chain st)); by split_and!.
Qed.

Lemma policy_admits_ext c c' key ext now :
  c_set c' = c_set c -> c_fallbackState c' = c_fallbackState c -> c_backstopState c' = c_backstopState c ->
  policy_admits c' key ext now = policy_admits c key ext now.
Proof. unfold policy_admits. by intros -> -> ->. Qed.

Lemma tryRedisLimit_spec r key ext st :
  let '(st', handled) := tryRedisLimit r key ext st in
  c_set (st_chain st') = c_set (st_chain st) /\
  match c_limiter (st_chain st) with
  | None => st' = st /\ handled = false
  | Some lim =>
      let '(w, res) := limiter_call lim key ext (st_world st) in
      match res with
      | Ok x => handled = true /\ exists y, st_out st' = st_out st ++ [y] /\ is_proxied y = Allowed x
      | Err _ => handled = false /\ st_out st' = st_out st /\ st_world st' = w
          /\ c_fallbackState (st_chain st') = c_fallbackState (st_chain st)
          /\ c_backstopState (st_chain st') = c_backstopState (st_chain st)
      end
  end.
Proof.
  unfold tryRedisLimit. run_handler. destruct (c_limiter (st_chain st)) as [lim|]; [|done].
  destruct (limiter_call lim key ext (st_world st)) as [w [x|e]]; set (st1 := mkSt _ _ _ _ _ _ _).
  - pose proof (serveResult_answers r key x st1) as (Hc & y & Hy & Hp).
    destruct (serveResult r key x st1) as [st2 []]. cbn [fst] in *. split; [done|]. split; [done|]. by exists y.
  - pose proof (handleLimiterError_keeps e st1) as Hk.
    destruct (handleLimiterError e st1) as [st2 []]. cbn [fst] in Hk. destruct Hk as (Ho & Hw & Hc & Hf & Hb). done.
Qed.

(** The bucket and then the policy. *)
Lemma limiter_answers r key ext st :
  FailurePolicy_Valid (sp_failurePolicy (c_staticRL (c_set (st_chain st)))) = true ->
  answers (handled ← tryRedisLimit r key ext; if handled : bool then mret tt else handleRedisFailurePolicy r key ext) st
    match c_limiter (st_chain st) with
    | None => policy_admits (st_chain st) key ext (kv_clock (st_world st))
    | Some lim =>
        let '(w, res) := limiter_call lim key ext (st_world st) in
        match res with Ok x => Allowed x | Err _ => policy_admits (st_chain st) key ext (kv_clock w) end
    end.
Proof.
  intros Hv. pose proof (tryRedisLimit_spec r key ext st) as Ht. unfold answers. run_handler.
  destruct (tryRedisLimit r key ext st) as [st1 handled]. destruct Ht as [Hc Ht].
  destruct (c_limiter (st_chain st)) as [lim|]; [|destruct Ht as [-> ->]; by apply policy_answers].
  destruct (limiter_call lim key ext (st_world st)) as [w [x|e]]; [destruct Ht as [-> ?]; done|].
  destruct Ht as (-> & Ho & Hw & Hf & Hb). cbn [fst].
  assert (FailurePolicy_Valid (sp_failurePolicy (c_staticRL (c_set (st_chain st1)))) = true) as Hv1 by (by rewrite Hc).
  pose proof (policy_answers r key ext st1 Hv1) as (Hc2 & y & Hy & Hp). rewrite Hc2, Hc. split; [done|].
  exists y. rewrite Hy, Ho, Hp, Hw. split; [done|]. by apply policy_admits_ext.
Qed.

Lemma rate_limit_answers r st :
  FailurePolicy_Valid (sp_failurePolicy (c_staticRL (c_set (st_chain st)))) = true ->
  answers (rate_limit r) st (limit_admits st r).
Proof.
  intros Hv. unfold rate_limit, limit_admits. apply answers_after; [done..|]. cbn [get fst snd].
  destruct (bool_decide (sp_average _ = 0) && _).
  { apply answers_after; [done..|]. apply answers_next. }
  destruct (if bool_decide (is_Some (c_externalRL (st_chain st))) then _ else _) as [key|e].
  2: { apply answers_after; [done..|]. apply answers_json. }
  pose proof (fetchExternalLimits_keeps (with_key r key) key st) as [Ho Hc].
  apply answers_after; [done..|].
  destruct (fetchExternalLimits (with_key r key) key st) as [st1 [ext resolvedKey]]. cbn [fst snd] in *.
  unfold externalLimitsFailClosed. destruct ext as [l|]; [|apply answers_ret, limiter_answers; by rewrite Hc].
  change (default 0 (xl_Average <$> Some l)) with (xl_Average l).
  destruct (0 <=? xl_Average l); cbn [negb]; [apply answers_ret, limiter_answers; by rewrite Hc|].
  unfold answers, writeJSONError. run_handler. eauto.
Qed.

(** ** The concurrency slot *)

Definition keeps_sem {A} (m : M W A) : Prop := forall st, c_semUsed (st_chain (m st).1) = c_semUsed (st_chain st).

Lemma keeps_sem_bind {A B} (m : M W A) (k : A -> M W B) :
  keeps_sem m -> (forall a, keeps_sem (k a)) -> keeps_sem (m ≫= k).
Proof.
  unfold keeps_sem. intros Hm Hk st. unfold mbind, M_bind. specialize (Hm st). destruct (m st) as [st1 a].
  cbn [fst] in Hm. by rewrite Hk.
Qed.
Lemma keeps_sem_ret {A} (a : A) : keeps_sem (mret a).
Proof. done. Qed.
Lemma keeps_sem_get : keeps_sem get.
Proof. done. Qed.
Lemma keeps_sem_chain f : (forall c, c_semUsed (f c) = c_semUsed c) -> keeps_sem (set_chain f).
Proof. intros Hf st. apply Hf. Qed.
Lemma keeps_sem_world {A} (f : W -> W * A) : keeps_sem (in_world f).
Proof. intros st. unfold in_world. by destruct (f (st_world st)). Qed.
Lemma keeps_sem_header h : keeps_sem (set_header h).
Proof. done. Qed.
Lemma keeps_sem_readers h : keeps_sem (set_readers h).
Proof. done. Qed.
Lemma keeps_sem_resp f : keeps_sem (set_resp f).
Proof. done. Qed.
Lemma keeps_sem_put x : keeps_sem (put x).
Proof. done. Qed.
Lemma keeps_sem_inc x : keeps_sem (inc x).
Proof. done. Qed.
End decision.

Create HintDb sem.
#[export] Hint Resolve keeps_sem_ret keeps_sem_get keeps_sem_world keeps_sem_header keeps_sem_readers keeps_sem_resp
  keeps_sem_put keeps_sem_inc : sem.

(** Follow the structure of a handler that does not touch the semaphore. *)
Ltac solve_sem :=
  repeat first
    [ progress intros
    | apply keeps_sem_bind
    | apply keeps_sem_chain; reflexivity
    | solve [eauto with sem]
    | case_match ].

Section serve.
Context `{R : Rounding} {W : Type} `{Env W}.
Implicit Types (st : St W) (r : HTTPRequest).

Lemma writeJSONError_sem code t msg ra : keeps_sem (W := W) (writeJSONError code t msg ra).
Proof. unfold writeJSONError. solve_sem. Qed.
#[local] Hint Resolve writeJSONError_sem : sem.
Lemma serve_next_sem r : keeps_sem (serve_next r).
Proof. unfold serve_next. solve_sem. Qed.
Lemma serveRateLimited_sem res : keeps_sem (W := W) (serveRateLimited res).
Proof. unfold serveRateLimited. solve_sem. Qed.
Lemma emit_sem ev : keeps_sem (W := W) (emit ev).
Proof. unfold emit. solve_sem. Qed.
#[local] Hint Resolve serve_next_sem serveRateLimited_sem emit_sem : sem.
Lemma runAuth_sem r : keeps_sem (runAuth r).
Proof.
  unfold runAuth, checkAuth, buffer_body, getAuthFromCache, auth_uncached, auth_Check, setAuthInCache, applyAuthResponse,
    settings_of. solve_sem.
Qed.
Lemma rate_limit_sem r : keeps_sem (rate_limit r).
Proof.
  unfold rate_limit, fetchExternalLimits, fallback_limits, ext_GetLimits, externalLimitsFailClosed, tryRedisLimit,
    serveResult, setRateLimitHeaders, handleLimiterError, startRecoveryIfNeeded, handleRedisFailurePolicy, settings_of.
  solve_sem.
Qed.

Lemma prepareRequest_spec r st :
  chains_have_leaf (hr_tls r) ->
  let '(st', id) := prepareRequest r st in
  is_Some id /\ st_out st' = st_out st /\ st_chain st' = st_chain st /\ st_readers st' = st_readers st.
Proof.
  intros Hl. unfold prepareRequest, ensureRequestID. run_handler.
  destruct (validRequestID _); cbn.
  - destruct (InjectHeaders_lookup Sum256 (hr_tls r) (st_header st) Hl) as (h & -> & _). cbn. eauto.
  - destruct (random_id (st_world st)) as [w id]. cbn.
    destruct (InjectHeaders_lookup Sum256 (hr_tls r) (Header_Set (st_header st) requestIDHeader id) Hl) as (h & -> & _).
    cbn. eauto.
Qed.

(** When a request may reach the backend: a preflight that is to be bypassed, or
    a request that finds a free slot, is authenticated and is within its limit. *)
Definition admits st r : bool :=
  let st1 := (prepareRequest r st).1 in
  let st2 := (acquireConcurrency st1).1 in
  c_bypassPreflight (c_set (st_chain st)) && isCORSPreflight (view r st1)
  || (match c_maxConcurrent (c_set (st_chain st)) with
      | Some max => c_semUsed (st_chain st) + 1 <=? max
      | None => true
      end
      && auth_admits st2 r && limit_admits (runAuth r st2).1 r).

Lemma release_keeps st :
  st_out (releaseConcurrency st).1 = st_out st /\ c_set (st_chain (releaseConcurrency st).1) = c_set (st_chain st)
  /\ c_semUsed (st_chain (releaseConcurrency st).1)
     = match c_maxConcurrent (c_set (st_chain st)) with Some _ => c_semUsed (st_chain st) - 1 | None => c_semUsed (st_chain st) end.
Proof. unfold releaseConcurrency. run_handler. by destruct (c_maxConcurrent _). Qed.

(** The guarded part: authentication, then limiting. *)
Lemma guarded_answers r st :
  FailurePolicy_Valid (sp_failurePolicy (c_staticRL (c_set (st_chain st)))) = true ->
  answers (allowed ← runAuth r; (if allowed : bool then rate_limit r else mret tt);; releaseConcurrency) st
    (auth_admits st r && limit_admits (runAuth r st).1 r).
Proof.
  intros Hv. pose proof (runAuth_stage r st) as (Ha & Hc & l & Hl & Hif).
  unfold answers. run_handler. destruct (runAuth r st) as [st1 ok]. cbn [fst snd] in *. rewrite Ha.
  destruct (auth_admits st r); cbn [andb].
  - rewrite Hif, app_nil_r in Hl. rewrite <- Hc in Hv. pose proof (rate_limit_answers r st1 Hv) as (Hc2 & x & Hx & Hp).
    destruct (rate_limit r st1) as [st2 []]. cbn [fst] in *. pose proof (release_keeps st2) as (Ho & Hs & _).
    rewrite Hs, Ho, Hc2, Hc, Hx, Hl. eauto.
  - destruct Hif as (code & t & msg & id & ->). pose proof (release_keeps st1) as (Ho & Hs & _).
    rewrite Hs, Ho, Hc, Hl. eauto.
Qed.

Lemma guarded_sem r st :
  FailurePolicy_Valid (sp_failurePolicy (c_staticRL (c_set (st_chain st)))) = true ->
  c_semUsed (st_chain ((allowed ← runAuth r; (if allowed : bool then rate_limit r else mret tt);; releaseConcurrency) st).1)
  = match c_maxConcurrent (c_set (st_chain st)) with
    | Some _ => c_semUsed (st_chain st) - 1
    | None => c_semUsed (st_chain st)
    end.
Proof.
  intros Hv. pose proof (runAuth_sem r st) as Ha. pose proof (runAuth_stage r st) as (_ & Hc & _).
  run_handler. destruct (runAuth r st) as [st1 ok]. cbn [fst snd] in *.
  change (fun st0 => (st0, ())) with (mret () : M W unit).
  assert (c_semUsed (st_chain ((if ok : bool then rate_limit r else mret tt) st1).1) = c_semUsed (st_chain st1)
    /\ c_set (st_chain ((if ok : bool then rate_limit r else mret tt) st1).1) = c_set (st_chain st1)) as [Hr Hs].
  { destruct ok; [|done]. split; [apply rate_limit_sem|]. apply rate_limit_answers. by rewrite Hc. }
  destruct ((if ok then rate_limit r else mret tt) st1) as [st2 []]. cbn [fst] in *.
  pose proof (release_keeps st2) as (_ & _ & ->). by rewrite Hr, Ha, Hs, Hc.
Qed.

Lemma bind_run {A B} (m : M W A) (k : A -> M W B) st st1 a : m st = (st1, a) -> (m ≫= k) st = k a st1.
Proof. intros E. unfold mbind, M_bind. by rewrite E. Qed.

Lemma preflight_cases r st :
  if c_bypassPreflight (c_set (st_chain st)) && isCORSPreflight (view r st)
  then exists st' x, handlePreflightBypass r st = (st', true) /\ st_out st' = st_out st ++ [x] /\ is_proxied x = true
         /\ st_chain st' = st_chain st
  else handlePreflightBypass r st = (st, false).
Proof.
  unfold handlePreflightBypass, serve_next. run_handler.
  destruct (c_bypassPreflight _), (isCORSPreflight _); cbn; try done. eauto 10.
Qed.

Lemma acquire_cases st :
  let free := match c_maxConcurrent (c_set (st_chain st)) with
              | Some max => c_semUsed (st_chain st) + 1 <=? max | None => true end in
  let '(st', ok) := acquireConcurrency st in
  ok = free /\ c_set (st_chain st') = c_set (st_chain st)
  /\ (if free then st_out st' = st_out st else exists x, st_out st' = st_out st ++ [x] /\ is_proxied x = false)
  /\ c_semUsed (st_chain st')
     = match c_maxConcurrent (c_set (st_chain st)) with
       | Some _ => if free then c_semUsed (st_chain st) + 1 else c_semUsed (st_chain st)
       | None => c_semUsed (st_chain st)
       end.
Proof.
  unfold acquireConcurrency. run_handler. destruct (c_maxConcurrent _) as [max|]; [|done].
  destruct (_ <=? max); [done|]. unfold writeJSONError. run_handler. split_and!; [done..| |done]. eauto.
Qed.

(** C1: The decision of the chain. For every request and every state of the
    services, [ServeHTTP] answers exactly once: the request goes to the backend
    if and only if it is a bypassed preflight, or finds a concurrency slot, is
    admitted by authentication (cached decision, service decision, or fail-open
    on an error) and by the limit (token bucket, or the failure policy when
    Redis cannot answer); every other request gets one JSON error. The slot is
    free again afterwards. *)
Theorem ServeHTTP_decision r st :
  chains_have_leaf (hr_tls r) ->
  FailurePolicy_Valid (sp_failurePolicy (c_staticRL (c_set (st_chain st)))) = true ->
  (exists x, st_out (ServeHTTP r st).1 = st_out st ++ [x] /\ is_proxied x = admits st r)
  /\ c_semUsed (st_chain (ServeHTTP r st).1) = c_semUsed (st_chain st).
Proof.
  intros Hl Hv. unfold ServeHTTP, admits. pose proof (prepareRequest_spec r st Hl) as Hp.
  destruct (prepareRequest r st) as [st1 id] eqn:E1. destruct Hp as ([i ->] & Ho & Hc & _).
  rewrite (bind_run _ _ _ _ _ E1). cbn [fst]. rewrite <- Hc, <- Ho. rewrite <- Hc in Hv.
  pose proof (preflight_cases r st1) as Hpre.
  destruct (c_bypassPreflight _ && isCORSPreflight _); cbn [orb].
  { destruct Hpre as (st2 & x & E2 & Hx & Hpx & Hc2). rewrite (bind_run _ _ _ _ _ E2). cbn. rewrite Hx, Hc2. eauto. }
  rewrite (bind_run _ _ _ _ _ Hpre). pose proof (acquire_cases st1) as Hacq.
  destruct (acquireConcurrency st1) as [st2 ok] eqn:E2. rewrite (bind_run _ _ _ _ _ E2).
  destruct Hacq as (-> & Hs & Hout & Hsem). cbn [fst]. rewrite <- Hs in Hv.
  set (free := match c_maxConcurrent _ with Some _ => _ | None => true end) in *.
  destruct free eqn:Ef; cbn [negb andb].
  - pose proof (guarded_answers r st2 Hv) as (_ & x & Hx & Hpx). pose proof (guarded_sem r st2 Hv) as Hg.
    rewrite Hs in Hg. rewrite Hx, Hout, Hg, Hsem. split; [eauto|]. destruct (c_maxConcurrent _); lia.
  - destruct Hout as (x & Hx & Hpx). cbn. rewrite Hx. split; [eauto|]. rewrite Hsem. by destruct (c_maxConcurrent _).
Qed.
End serve.

(** ** The body that reaches the backend *)

Section body.
Context `{R : Rounding} {W : Type} `{Env W}.
Implicit Types (st : St W) (r : HTTPRequest).

(** A proxied request reads its body from the reader [B] refers to. *)
Definition forwarded (B : option nat) (readers : list string) (x : reply) : Prop :=
  match x with Proxied r _ body => hr_body r = B /\ body = (i ← B; readers !! i) | _ => True end.

(** A handler that leaves the readers alone and forwards the body of [B]. *)
Definition forwards (B : option nat) {A} (m : M W A) : Prop :=
  forall st, st_readers (m st).1 = st_readers st
    /\ exists l, st_out (m st).1 = st_out st ++ l /\ Forall (forwarded B (st_readers st)) l.

Lemma forwards_bind B {A C} (m : M W A) (k : A -> M W C) :
  forwards B m -> (forall a, forwards B (k a)) -> forwards B (m ≫= k).
Proof.
  intros Hm Hk st. unfold mbind, M_bind. specialize (Hm st). destruct (m st) as [st1 a]. cbn [fst] in Hm.
  destruct Hm as (Hr1 & l1 & Ho1 & Hf1). destruct (Hk a st1) as (Hr2 & l2 & Ho2 & Hf2).
  rewrite Hr2. split; [done|]. exists (l1 ++ l2). rewrite Ho2, Ho1, <- app_assoc. split; [done|].
  apply Forall_app. by rewrite Hr1 in Hf2.
Qed.

Lemma forwards_quiet B {A} (m : M W A) :
  (forall st, st_readers (m st).1 = st_readers st /\ st_out (m st).1 = st_out st) -> forwards B m.
Proof. intros Hm st. destruct (Hm st) as [-> ->]. split; [done|]. exists []. by rewrite app_nil_r. Qed.

Lemma forwards_ret B {A} (a : A) : forwards B (mret a).
Proof. by apply forwards_quiet. Qed.
Lemma forwards_get B : forwards B get.
Proof. by apply forwards_quiet. Qed.
Lemma forwards_chain B f : forwards B (set_chain f).
Proof. by apply forwards_quiet. Qed.
Lemma forwards_world B {A} (f : W -> W * A) : forwards B (in_world f).
Proof. apply forwards_quiet. intros st. unfold in_world. by destruct (f (st_world st)). Qed.
Lemma forwards_header B h : forwards B (set_header h).
Proof. by apply forwards_quiet. Qed.
Lemma forwards_resp B f : forwards B (set_resp f).
Proof. by apply forwards_quiet. Qed.
Lemma forwards_inc B x : forwards B (inc x).
Proof. by apply forwards_quiet. Qed.
Lemma forwards_json B code t msg ra : forwards B (writeJSONError code t msg ra).
Proof. intros st. split; [done|]. eexists. split; [done|]. by repeat constructor. Qed.
Lemma forwards_next r : forwards (hr_body r) (serve_next r).
Proof. intros st. split; [done|]. eexists. split; [done|]. by repeat constructor. Qed.
End body.

Create HintDb fwd.
#[export] Hint Resolve forwards_ret forwards_get forwards_chain forwards_world forwards_header forwards_resp forwards_inc
  forwards_json : fwd.

Ltac solve_fwd :=
  repeat first [ progress intros | solve [eauto with fwd] | apply forwards_bind | case_match ].

Section lost.
Context `{R : Rounding} {W : Type} `{Env W}.
Implicit Types (st : St W) (r : HTTPRequest).

Lemma forwards_next' B r : hr_body r = B -> forwards B (serve_next (W := W) r).
Proof. intros <-. apply forwards_next. Qed.

Lemma inject_body s req r ext :
  hr_body (injectBackendProtocol (injectBackendURL (W := W) s (applyRequestTimeout s req r ext) ext) ext) = hr_body r.
Proof.
  unfold injectBackendProtocol, injectBackendURL, applyRequestTimeout. by repeat case_match.
Qed.

Lemma forwards_emit B ev : forwards B (emit (W := W) ev).
Proof. unfold emit. solve_fwd. Qed.
Lemma forwards_limited B res : forwards B (serveRateLimited (W := W) res).
Proof. unfold serveRateLimited. solve_fwd. Qed.
#[local] Hint Resolve forwards_emit forwards_limited forwards_next' : fwd.

Lemma forwards_try B r key ext : hr_body r = B -> forwards B (tryRedisLimit (W := W) r key ext).
Proof.
  intros HB. unfold tryRedisLimit, serveResult, setRateLimitHeaders, handleLimiterError, startRecoveryIfNeeded. solve_fwd.
Qed.
Lemma forwards_policy B r key ext : hr_body r = B -> forwards B (handleRedisFailurePolicy (W := W) r key ext).
Proof. intros HB. unfold handleRedisFailurePolicy. solve_fwd. Qed.
Lemma forwards_fetch B r key : forwards B (fetchExternalLimits (W := W) r key).
Proof. unfold fetchExternalLimits, fallback_limits, ext_GetLimits. solve_fwd. Qed.
#[local] Hint Resolve forwards_try forwards_policy forwards_fetch : fwd.

Lemma rate_limit_forwards r : forwards (hr_body r) (rate_limit (W := W) r).
Proof.
  unfold rate_limit, externalLimitsFailClosed, settings_of.
  assert (forall s req key ext, hr_body (injectBackendProtocol (injectBackendURL (W := W) s
    (applyRequestTimeout s req (with_key r key) ext) ext) ext) = hr_body r) as Hb by (intros; by rewrite inject_body).
  solve_fwd.
Qed.

Lemma substring_0 n s : String.substring n 0 s = "".
Proof. revert n. induction s as [|c s IH]; intros [|n]; cbn; done. Qed.

(** What authentication does to the body readers: the shared reader is advanced
    past the propagated bytes. *)
Lemma buffer_body_readers ac r st i data :
  propagateBody ac = true -> hr_body r = Some i -> st_readers st !! i = Some data ->
  st_readers (buffer_body ac r st).1 !! i
  = Some (String.substring (Z.to_nat (maxBodySize ac)) (String.length data - Z.to_nat (maxBodySize ac)) data).
Proof.
  intros Hp Hb Hd. unfold buffer_body. rewrite Hb, Hp. run_handler. rewrite Hd. cbn [default from_option].
  assert (i < length (st_readers st))%nat as Hi by (by eapply lookup_lt_Some).
  rewrite lookup_app_l by (by rewrite length_insert). by rewrite list_lookup_insert_eq.
Qed.

Lemma forwards_apply B resp : forwards B (applyAuthResponse (W := W) resp).
Proof. unfold applyAuthResponse. solve_fwd. Qed.
#[local] Hint Resolve forwards_apply : fwd.
Lemma forwards_uncached B ac req key : forwards B (auth_uncached (W := W) ac req key).
Proof. unfold auth_uncached, auth_Check, setAuthInCache, settings_of. solve_fwd. Qed.
Lemma forwards_acquire B : forwards (W := W) B acquireConcurrency.
Proof. unfold acquireConcurrency. solve_fwd. Qed.
Lemma forwards_release B : forwards (W := W) B releaseConcurrency.
Proof. unfold releaseConcurrency. solve_fwd. Qed.
#[local] Hint Resolve forwards_uncached forwards_release : fwd.

Lemma runAuth_readers r st ac :
  c_authClient (st_chain st) = Some ac -> st_readers (runAuth r st).1 = st_readers (buffer_body ac r st).1.
Proof.
  intros Ha. unfold runAuth. run_handler. rewrite Ha. unfold checkAuth. run_handler.
  destruct (buffer_body ac r st) as [st1 [r1 body]]. cbn [fst snd]. unfold getAuthFromCache. run_handler.
  destruct (negb _); [apply (forwards_uncached None)|].
  destruct (option_bind _ _ _ _); [apply (forwards_apply None)|apply (forwards_uncached None)].
Qed.

(** Replies of the guarded part, after a successful or failed authentication. *)
Lemma guarded_forwards r st ac rest i :
  c_authClient (st_chain st) = Some ac -> hr_body r = Some i ->
  st_readers (buffer_body ac r st).1 !! i = Some rest ->
  exists l, st_out ((allowed ← runAuth r; (if allowed : bool then rate_limit r else mret tt);; releaseConcurrency) st).1
              = st_out st ++ l
    /\ forall r' h b, Proxied r' h b ∈ l -> b = Some rest.
Proof.
  intros Ha Hb Hr. pose proof (runAuth_stage r st) as (Hok & _ & l1 & Hl1 & Hif).
  pose proof (runAuth_readers r st ac Ha) as Hrd. run_handler.
  destruct (runAuth r st) as [st1 ok]. cbn [fst snd] in *. change (fun st0 => (st0, ())) with (mret () : M W unit).
  assert (forwards (hr_body r) ((if ok : bool then rate_limit r else mret tt) ;; releaseConcurrency (W := W))) as Hf.
  { apply forwards_bind; [|intros; apply forwards_release]. destruct ok; [apply rate_limit_forwards|apply forwards_ret]. }
  destruct (Hf st1) as (_ & l2 & Ho & Hall). unfold mbind, M_bind in Ho. rewrite Ho, Hl1, <- app_assoc.
  eexists. split; [done|]. intros r' h b [Hin|Hin]%elem_of_app.
  - exfalso. destruct (auth_admits st r); [subst l1; by apply not_elem_of_nil in Hin|].
    destruct Hif as (? & ? & ? & ? & ->). by apply list_elem_of_singleton in Hin.
  - rewrite Forall_forall in Hall. specialize (Hall _ Hin). cbn in Hall. destruct Hall as [_ ->].
    rewrite Hb, Hrd. cbn. done.
Qed.

(** C40: A propagated body does not reach the backend. [checkAuth] runs on a copy
    of the request, so the buffered body it installs is lost with the copy while
    the shared reader has been consumed: whatever the limits and services, a
    request whose body fits the propagation limit reaches the backend with an
    empty body. *)
Theorem propagated_body_lost r st ac i data :
  chains_have_leaf (hr_tls r) -> c_bypassPreflight (c_set (st_chain st)) = false ->
  c_authClient (st_chain st) = Some ac -> propagateBody ac = true ->
  hr_body r = Some i -> st_readers st !! i = Some data ->
  (String.length data <= Z.to_nat (maxBodySize ac))%nat ->
  exists l, appends (ServeHTTP r) st l /\ forall r' h b, Proxied r' h b ∈ l -> b = Some "".
Proof.
  intros Hl Hpre Ha Hp Hb Hd Hfit. unfold appends, ServeHTTP. pose proof (prepareRequest_spec r st Hl) as Hs.
  destruct (prepareRequest r st) as [st1 id] eqn:E1. destruct Hs as ([x ->] & Ho & Hc & Hrd).
  rewrite (bind_run _ _ _ _ _ E1). rewrite <- Hc in Hpre, Ha. pose proof (preflight_cases r st1) as Hpf.
  rewrite Hpre in Hpf. cbn [andb] in Hpf. rewrite (bind_run _ _ _ _ _ Hpf).
  pose proof (forwards_acquire None st1) as (Hr2 & _). pose proof (acquire_cases st1) as Hacq.
  assert (c_authClient (st_chain (acquireConcurrency st1).1) = c_authClient (st_chain st1)) as Hac.
  { unfold acquireConcurrency. run_handler. destruct (c_maxConcurrent _) as [max|]; [|done]. by destruct (_ <=? max). }
  destruct (acquireConcurrency st1) as [st2 ok] eqn:E2. rewrite (bind_run _ _ _ _ _ E2).
  destruct Hacq as (-> & _ & Hout & _). cbn [fst] in *. rewrite <- Ho.
  destruct (match c_maxConcurrent _ with Some _ => _ | None => true end); cbn [negb].
  - rewrite <- Hac in Ha. rewrite <- Hrd, <- Hr2 in Hd.
    pose proof (buffer_body_readers ac r st2 i data Hp Hb Hd) as Hbr.
    destruct (guarded_forwards r st2 ac _ i Ha Hb Hbr) as (l & -> & Hall). rewrite Hout. exists l. split; [done|].
    intros r' h b Hin. rewrite (Hall r' h b Hin). replace (_ - _)%nat with 0%nat by lia. f_equal. apply substring_0.
  - destruct Hout as (y & Hy & Hpy). exists [y]. split; [done|]. intros r' h b Hin.
    apply list_elem_of_singleton in Hin. by subst y.
Qed.
End lost.

(** ** The identity headers that reach the backend *)

Section identity.
Context `{R : Rounding} {W : Type} `{Env W}.
Implicit Types (st : St W) (r : HTTPRequest).
Variables (s : settings) (tls : option ConnectionState).

(** The identity headers hold what the TLS state says. *)
Definition authentic (h : Header) : Prop := forall k, k ∈ identity_keys -> h !! k = identity_header Sum256 tls k.

Definition identity_inv st : Prop := c_set (st_chain st) = s /\ authentic (st_header st).

Definition honest {A} (m : M W A) : Prop :=
  forall st, identity_inv st ->
    identity_inv (m st).1
    /\ exists l, st_out (m st).1 = st_out st ++ l
         /\ Forall (fun x => match x with Proxied _ h _ => authentic h | _ => True end) l.

Lemma honest_bind {A B} (m : M W A) (k : A -> M W B) : honest m -> (forall a, honest (k a)) -> honest (m ≫= k).
Proof.
  intros Hm Hk st Hi. unfold mbind, M_bind. specialize (Hm st Hi). destruct (m st) as [st1 a]. cbn [fst] in Hm.
  destruct Hm as (Hi1 & l1 & Ho1 & Hf1). destruct (Hk a st1 Hi1) as (Hi2 & l2 & Ho2 & Hf2).
  split; [done|]. exists (l1 ++ l2). rewrite Ho2, Ho1, <- app_assoc. split; [done|]. by apply Forall_app.
Qed.

Lemma honest_quiet {A} (m : M W A) :
  (forall st, c_set (st_chain (m st).1) = c_set (st_chain st) /\ st_header (m st).1 = st_header st
     /\ st_out (m st).1 = st_out st) -> honest m.
Proof.
  intros Hm st [Hs Ha]. destruct (Hm st) as (H1 & H2 & ->). unfold identity_inv. rewrite H1, H2. split; [done|].
  exists []. by rewrite app_nil_r.
Qed.

Lemma honest_ret {A} (a : A) : honest (mret a).
Proof. by apply honest_quiet. Qed.
Lemma honest_get : honest get.
Proof. by apply honest_quiet. Qed.
Lemma honest_chain f : (forall c, c_set (f c) = c_set c) -> honest (set_chain f).
Proof. intros Hf. apply honest_quiet. intros st. split_and!; [apply Hf|done..]. Qed.
Lemma honest_world {A} (f : W -> W * A) : honest (in_world f).
Proof. apply honest_quiet. intros st. unfold in_world. by destruct (f (st_world st)). Qed.
Lemma honest_readers rs : honest (set_readers rs).
Proof. by apply honest_quiet. Qed.
Lemma honest_resp f : honest (set_resp f).
Proof. by apply honest_quiet. Qed.
Lemma honest_inc x : honest (inc x).
Proof. by apply honest_quiet. Qed.
Lemma honest_json code t msg ra : honest (writeJSONError code t msg ra).
Proof. intros st Hi. split; [done|]. eexists. split; [done|]. by repeat constructor. Qed.
Lemma honest_next r : honest (serve_next r).
Proof. intros st [Hs Ha]. split; [done|]. eexists. split; [done|]. by repeat constructor. Qed.

(** Injected headers never touch a denied name that is not explicitly allowed. *)
Lemma inject_denied allowed (h : Header) hs k :
  k ∈ injectionDenyHeaders -> k ∉ allowed -> inject_auth_headers allowed h hs !! k = h !! k.
Proof.
  intros Hk Ha. unfold inject_auth_headers.
  apply (map_fold_weak_ind (fun (h' : Header) _ => h' !! k = h !! k)); [done|]. intros n v m h' _ IH.
  destruct (bool_decide_reflect (CanonicalHeaderKey n ∈ injectionDenyHeaders)) as [Hd|Hd]; cbn [andb].
  - destruct (bool_decide_reflect (CanonicalHeaderKey n ∈ allowed)) as [Hn|Hn]; cbn [negb]; [|done].
    unfold Header_Set. rewrite lookup_insert_ne; [done|]. intros Heq. apply Ha. by rewrite <- Heq.
  - unfold Header_Set. rewrite lookup_insert_ne; [done|]. intros Heq. apply Hd. by rewrite Heq.
Qed.

Lemma identity_denied k : k ∈ identity_keys -> k ∈ injectionDenyHeaders.
Proof.
  intros Hk. assert (Forall (fun k => k ∈ injectionDenyHeaders) identity_keys) as Hall
    by (apply (bool_decide_unpack _); vm_compute; exact I).
  rewrite Forall_forall in Hall. by apply Hall.
Qed.

Hypothesis Hallowed : forall k, k ∈ identity_keys -> k ∉ c_allowedInjectionHeaders s.

Lemma honest_apply resp : honest (applyAuthResponse resp).
Proof using Hallowed.
  unfold applyAuthResponse. destruct (negb (ck_Allowed resp)).
  - repeat (apply honest_bind; [first [apply honest_inc|apply honest_resp|apply honest_json]|intros _]). apply honest_ret.
  - intros st [Hs Ha]. run_handler. split.
    + split; [done|]. intros k Hk. cbn [st_header fst]. rewrite Hs, inject_denied; [by apply Ha|by apply identity_denied|by apply Hallowed].
    + exists []. by rewrite app_nil_r.
Qed.
End identity.

Create HintDb honest.
#[export] Hint Resolve honest_ret honest_get honest_world honest_readers honest_resp honest_inc honest_json honest_next : honest.

Ltac solve_honest :=
  repeat first
    [ progress intros | solve [eauto with honest] | apply honest_chain; reflexivity | apply honest_bind | case_match ].

Section authentic.
Context `{R : Rounding} {W : Type} `{Env W}.
Implicit Types (st : St W) (r : HTTPRequest).
Variables (s : settings) (tls : option ConnectionState).
Hypothesis Hallowed : forall k, k ∈ identity_keys -> k ∉ c_allowedInjectionHeaders s.

Lemma honest_emit ev : honest (W := W) s tls (emit ev).
Proof. unfold emit. solve_honest. Qed.
Lemma honest_limited res : honest (W := W) s tls (serveRateLimited res).
Proof. unfold serveRateLimited. solve_honest. Qed.
#[local] Hint Resolve honest_emit honest_limited honest_apply : honest.

Lemma honest_auth r : honest s tls (runAuth r).
Proof using Hallowed.
  unfold runAuth, checkAuth, buffer_body, getAuthFromCache, auth_uncached, auth_Check, setAuthInCache, settings_of.
  solve_honest.
Qed.

Lemma honest_rate_limit r : honest s tls (rate_limit r).
Proof.
  unfold rate_limit, fetchExternalLimits, fallback_limits, ext_GetLimits, externalLimitsFailClosed, tryRedisLimit,
    serveResult, setRateLimitHeaders, handleLimiterError, startRecoveryIfNeeded, handleRedisFailurePolicy, settings_of.
  solve_honest.
Qed.
#[local] Hint Resolve honest_auth honest_rate_limit : honest.

Lemma prepareRequest_authentic r st :
  chains_have_leaf (hr_tls r) -> hr_tls r = tls -> c_set (st_chain st) = s -> identity_inv s tls (prepareRequest r st).1.
Proof.
  intros Hl <- Hs. unfold prepareRequest, ensureRequestID. run_handler.
  assert (forall h h', InjectHeaders Sum256 (hr_tls r) h = Some h' -> authentic (hr_tls r) h') as Hauth.
  { intros h h' E k Hk. destruct (InjectHeaders_lookup Sum256 (hr_tls r) h Hl) as (h2 & E2 & Hlk).
    rewrite E in E2. injection E2 as <-. by rewrite Hlk, bool_decide_eq_true_2. }
  destruct (validRequestID _); cbn.
  - destruct (InjectHeaders_lookup Sum256 (hr_tls r) (st_header st) Hl) as (h & E & _). rewrite E. split; [done|]. by eapply Hauth.
  - destruct (random_id (st_world st)) as [w id]. cbn.
    destruct (InjectHeaders_lookup Sum256 (hr_tls r) (Header_Set (st_header st) requestIDHeader id) Hl) as (h & E & _).
    rewrite E. split; [done|]. by eapply Hauth.
Qed.

(** C4: The backend sees the true client identity. In every request that
    [ServeHTTP] forwards, the mTLS identity headers hold exactly what the TLS
    state says: neither the client's own headers nor the headers an auth
    service injects (fresh or from the cache) can change them, as long as the
    operator has not allowed those names for injection. *)
Theorem backend_sees_true_identity r st :
  chains_have_leaf (hr_tls r) -> hr_tls r = tls -> c_set (st_chain st) = s ->
  exists l, appends (ServeHTTP r) st l /\ forall r' h b, Proxied r' h b ∈ l -> authentic tls h.
Proof using Hallowed.
  intros Hl Ht Hs. unfold appends, ServeHTTP. pose proof (prepareRequest_authentic r st Hl Ht Hs) as Hi.
  pose proof (prepareRequest_spec r st Hl) as Hp.
  destruct (prepareRequest r st) as [st1 id] eqn:E1. destruct Hp as ([x ->] & Ho & _ & _).
  rewrite (bind_run _ _ _ _ _ E1). cbn [fst] in Hi.
  assert (honest s tls (bypassed ← handlePreflightBypass r;
    if bypassed : bool then mret tt
    else acquired ← acquireConcurrency;
         if negb acquired then mret tt
         else allowed ← runAuth r; (if allowed : bool then rate_limit r else mret tt);; releaseConcurrency)) as Hh
    by (unfold handlePreflightBypass, acquireConcurrency, releaseConcurrency; solve_honest).
  destruct (Hh st1 Hi) as (_ & l & Hl2 & Hall). exists l. rewrite <- Ho. split; [exact Hl2|].
  intros r' h b Hin. rewrite Forall_forall in Hall. exact (Hall _ Hin).
Qed.
End authentic.

(** ** The auth cache key *)

(** Header names and values are joined without escaping: two different requests
    share one cached decision. *)
Lemma authCacheKey_collision `{Rounding} {W} `{Env W} :
  let r1 := mkCheckRequest "GET" "/" {[ "X-A" := "1|X-B=2" ]} "" "" in
  let r2 := mkCheckRequest "GET" "/" {[ "X-A" := "1"; "X-B" := "2" ]} "" "" in
  authCacheKey r1 = authCacheKey r2 /\ cr_Headers r1 <> cr_Headers r2.
Proof.
  intros r1 r2. split; [|intros E; by apply (f_equal (lookup "X-B")) in E]. unfold authCacheKey.
  assert (authKeyMaterial r1 = authKeyMaterial r2) as -> by (vm_compute; reflexivity). done.
Qed.

(** ** A concrete environment *)

Module Demo.

(** A clock, a key-value store and a hash store; the auth service allows a
    request that carries a token and tries to inject an identity header. *)
Record world := mkWorld { dw_clock : Z; dw_kv : gmap string string; dw_hash : hash_store }.

Definition eval (w : world) (key : string) (a : script_args) : world * result (list any) :=
  let '(s, r) := run_script (R := exact_rounding) (dw_hash w) key (arg_rate a) (arg_burst a) (arg_ttl a) (arg_now a) in
  (mkWorld (dw_clock w) (dw_kv w) s, Ok r).

Definition auth_answer (r : CheckRequest) : WireCheckResponse :=
  if bool_decide (cr_Headers r !! "Authorization" = Some "Bearer ok")
  then mkWireCheckResponse true 200 None None
         (Some {[ "X-Tenant" := "acme"; "x-edgequota-client-subject" := "CN=admin" ]}) None None None
  else mkWireCheckResponse false 401 None None None None None None.

#[global] Instance env : Env world := {|
  env_kv := {| kv_clock := dw_clock; kv_get := fun w k => dw_kv w !! k;
               kv_set := fun w k v _ => mkWorld (dw_clock w) (<[k := v]> (dw_kv w)) (dw_hash w) |};
  env_script := {| EvalSha := fun w _ key a => eval w key a; Eval := fun w _ key a => eval w key a |};
  kv_sadd := fun w _ _ => w;
  http_ParseTime := fun _ => None;
  auth_Do := fun w _ _ _ => (w, Err (errorf "no http"));
  auth_grpc := fun w r => (w, Ok (auth_answer r));
  auth_decode_wire := fun _ => None;
  auth_encode := fun _ => "";
  auth_decode := fun _ => None;
  ext_Do := fun w _ _ => (w, Err (errorf "no http"));
  ext_grpc := fun w _ => (w, Err (errorf "no grpc"));
  ext_decode_wire := fun _ => None;
  ext_encode := fun _ => "";
  ext_decode := fun _ => None;
  LookupIP := fun _ => Ok [];
  url_Parse := fun _ => Err (errorf "no url");
  Sum256 := fun l => l;
  random_id := fun w => (w, "0123");
  random_float := fun w => (w, 1 # 2);
  format_now := fun _ => "";
  duration_String := fun _ => "";
  status_Text := fun _ => "";
  next_ServeHTTP := fun w _ _ => w
|}.

Definition static : staticParams := mkStaticParams 1 1 2 "rl:edgequota:" "failclosed" 503 1 (NewInMemoryLimiter 1 1 2).
Definition conf : settings := mkSettings Defaults static None (KSGlobal (mkGlobalStrategy "global")) None (NewHeaderFilter no_filter) false None
  (Some 2) (mkBackendURLPolicy [] true []) 0 false ∅.
Definition auth_client : AuthClient :=
  mkAuthClient "" true (mkHeaderFilter None None) false true 65536 (5 * Second) (newCircuitBreaker 0 0).
Definition chain : Chain :=
  mkChain conf (Some auth_client) None (Some (NewLimiter "sha" "lua" 1 1 2 "rl:edgequota:")) false false
    im_init im_init 0 None.
Definition start (h : Header) : St world := mkSt chain (mkWorld (10 * Second) ∅ ∅) h ["hello"] ∅ [] [].
Definition request : HTTPRequest := mkHTTPRequest (demo_request ∅) None (Some 0%nat) None None "" None.
Definition token : Header := Header_Set (Header_Set ∅ "Authorization" "Bearer ok") "X-Edgequota-Mtls" "true".
End Demo.

(** Two requests with a token: the first is proxied, the second finds the bucket
    empty. *)
Lemma ServeHTTP_decision_witness :
  admits (Demo.start Demo.token) Demo.request = true
  /\ (exists x, st_out (ServeHTTP Demo.request (Demo.start Demo.token)).1 = [x] /\ is_proxied x = true)
  /\ (exists x, st_out (ServeHTTP Demo.request (Demo.start ∅)).1 = [x] /\ is_proxied x = false).
Proof.
  split; [vm_compute; reflexivity|].
  destruct (ServeHTTP_decision Demo.request (Demo.start Demo.token) I eq_refl) as [(x & Hx & Hp) _].
  destruct (ServeHTTP_decision Demo.request (Demo.start ∅) I eq_refl) as [(y & Hy & Hq) _].
  split.
  - exists x. split; [exact Hx|]. rewrite Hp. vm_compute. reflexivity.
  - exists y. split; [exact Hy|]. rewrite Hq. vm_compute. reflexivity.
Defined.

Lemma propagated_body_lost_witness :
  exists r h b, st_out (ServeHTTP Demo.request (Demo.start Demo.token)).1 = [Proxied r h b] /\ b = Some "".
Proof.
  destruct (propagated_body_lost Demo.request (Demo.start Demo.token) Demo.auth_client 0%nat "hello" I eq_refl eq_refl eq_refl
    eq_refl eq_refl) as (l & Hl & Hall).
  { change (maxBodySize Demo.auth_client) with 65536. cbn [String.length]. lia. }
  assert (map is_proxied (st_out (ServeHTTP Demo.request (Demo.start Demo.token)).1) = [true]) as Hm by (vm_compute; reflexivity).
  unfold appends in Hl. rewrite Hl in Hm |- *. cbn [app Demo.start st_out] in *.
  destruct l as [|[code t msg ra id|r h b] [|y l]]; try discriminate Hm.
  exists r, h, b. split; [reflexivity|]. apply (Hall r h b). left.
Defined.

Lemma backend_sees_true_identity_witness :
  exists r h b, st_out (ServeHTTP Demo.request (Demo.start Demo.token)).1 = [Proxied r h b]
    /\ h !! "X-Edgequota-Mtls" = Some ["false"] /\ h !! "X-Edgequota-Client-Subject" = None.
Proof.
  destruct (backend_sees_true_identity Demo.conf None ltac:(intros k _; apply not_elem_of_empty) Demo.request
    (Demo.start Demo.token) I eq_refl eq_refl) as (l & Hl & Hall).
  assert (map is_proxied (st_out (ServeHTTP Demo.request (Demo.start Demo.token)).1) = [true]) as Hm by (vm_compute; reflexivity).
  unfold appends in Hl. rewrite Hl in Hm |- *. cbn [app Demo.start st_out] in *.
  destruct l as [|[code t msg ra id|r h b] [|y l]]; try discriminate Hm.
  exists r, h, b. split; [reflexivity|]. pose proof (Hall r h b ltac:(left)) as Hk. split.
  - rewrite (Hk "X-Edgequota-Mtls"); [vm_compute; reflexivity|]. apply (bool_decide_unpack _). vm_compute. exact I.
  - rewrite (Hk "X-Edgequota-Client-Subject"); [vm_compute; reflexivity|]. apply (bool_decide_unpack _). vm_compute. exact I.
Defined.
