(* ===== verification/Observe.v ===== *)
(** * Counters, status recording and deadlines

    The counters of src/internal/observability/metrics.go that [/v1/stats] serves,
    the status writer and the write deadline of src/internal/middleware/chain.go.
    The theorems relate what is counted and logged to what the chain answered. *)
From S2P Require Import Prelude GoStrings GoTime Float64 GoNet ConfigTypes Config RedisClient TokenBucket.
From S2P Require Import KeyStrategy InMemory Breaker Auth External UrlPolicy MTLS Events Bucket Chain ChainProps.

Local Open Scope Z_scope.

(** ** Metrics *)

Definition poolRateLimit : string := "ratelimit".
Definition poolExternalRLCache : string := "external_rl_cache".
Definition poolResponseCache : string := "response_cache".

(** The mirror counters and the state of the observable gauges; the OpenTelemetry
    instruments beside them are modelled in [Telemetry]. *)
Record Metrics := mkMetrics {
  mx_allowed : Z;
  mx_limited : Z;
  mx_redisErrors : Z;
  mx_fallbackUsed : Z;
  mx_readOnlyRetries : Z;
  mx_keyExtractErrors : Z;
  mx_authErrors : Z;
  mx_authDenied : Z;
  mx_authCanceled : Z;
  mx_redisHealthy : gmap string Z
}.

Definition NewMetrics : Metrics :=
  mkMetrics 0 0 0 0 0 0 0 0 0 {[poolRateLimit := 1; poolExternalRLCache := 1; poolResponseCache := 1]}.

(** [atomic.AddInt64(p, 1)]. *)
Definition add1 (z : Z) : Z := wrap64 (z + 1).

(** Pools the map does not have are ignored. *)
Definition SetRedisHealthy (pool : string) (healthy : bool) (m : Metrics) : Metrics :=
  let 'mkMetrics a l re fu rr ke ae ad ac rh := m in
  mkMetrics a l re fu rr ke ae ad ac
    (match rh !! pool with Some _ => <[pool := if healthy then 1 else 0]> rh | None => rh end).

(** What each call of the chain does to the mirror counters. *)
Definition count_metric (x : metric) (m : Metrics) : Metrics :=
  let 'mkMetrics a l re fu rr ke ae ad ac rh := m in
  match x with
  | IncAllowed => mkMetrics (add1 a) l re fu rr ke ae ad ac rh
  | IncLimited => mkMetrics a (add1 l) re fu rr ke ae ad ac rh
  | IncRedisErrors => mkMetrics a l (add1 re) fu rr ke ae ad ac rh
  | IncFallbackUsed => mkMetrics a l re (add1 fu) rr ke ae ad ac rh
  | IncReadOnlyRetries => mkMetrics a l re fu (add1 rr) ke ae ad ac rh
  | IncKeyExtractErrors => mkMetrics a l re fu rr (add1 ke) ae ad ac rh
  | IncAuthErrors => mkMetrics a l re fu rr ke (add1 ae) ad ac rh
  | IncAuthDenied => mkMetrics a l re fu rr ke ae (add1 ad) ac rh
  | IncAuthCanceled => mkMetrics a l re fu rr ke ae ad (add1 ac) rh
  | SetRedisUnhealthy => SetRedisHealthy poolRateLimit false m
  | IncConcurrencyRejected | IncTenantKeyRejected | IncPreflightBypassed => m
  end.

Record MetricsSnapshot := mkSnapshot {
  sn_Allowed : Z; sn_Limited : Z; sn_RedisErrors : Z; sn_FallbackUsed : Z; sn_ReadOnlyRetries : Z;
  sn_KeyExtractErrors : Z; sn_AuthErrors : Z; sn_AuthDenied : Z; sn_AuthCanceled : Z
}.

Definition Snapshot (m : Metrics) : MetricsSnapshot :=
  mkSnapshot (mx_allowed m) (mx_limited m) (mx_redisErrors m) (mx_fallbackUsed m) (mx_readOnlyRetries m)
    (mx_keyExtractErrors m) (mx_authErrors m) (mx_authDenied m) (mx_authCanceled m).

Definition StatusFamily (code : Z) : string :=
  if (100 <=? code) && (code <? 200) then "1xx"
  else if (200 <=? code) && (code <? 300) then "2xx"
  else if (300 <=? code) && (code <? 400) then "3xx"
  else if (400 <=? code) && (code <? 500) then "4xx"
  else if (500 <=? code) && (code <? 600) then "5xx"
  else "unknown".

Definition protocolVersion (proto : string) : string := TrimPrefix proto "HTTP/".

Definition tlsMode (tls : option ConnectionState) : string :=
  match tls with
  | None => "plain"
  | Some s => if bool_decide (VerifiedChains s = []) then "tls" else "mtls"
  end.

(** ** The status writer *)

(** The response of net/http under it: informational headers sent, the final
    status once it is fixed, and the body bytes taken. *)
Record response := mkResponse { rs_informational : list Z; rs_status : option Z; rs_bytes : Z }.

(** [WriteHeader] of net/http: later calls are ignored, a code of the 1xx class
    other than 101 is sent at once and fixes nothing. *)
Definition rw_WriteHeader (code : Z) (w : response) : response :=
  match rs_status w with
  | Some _ => w
  | None =>
      if (100 <=? code) && (code <=? 199) && negb (code =? 101)
      then mkResponse (rs_informational w ++ [code]) None (rs_bytes w)
      else mkResponse (rs_informational w) (Some code) (rs_bytes w)
  end.

(** [Write] fixes the status 200; [n] bytes are taken. *)
Definition rw_Write (n : Z) (w : response) : response :=
  mkResponse (rs_informational w) (Some (default 200 (rs_status w))) (rs_bytes w + n).

(** A handler that returns without writing answers 200. *)
Definition final_status (w : response) : Z := default 200 (rs_status w).

Record statusWriter := mkStatusWriter { sw_w : response; sw_code : Z; sw_written : bool; sw_bytesWritten : Z }.

(** As [prepareRequest] takes it from the pool: every field is reset. *)
Definition fresh_statusWriter (w : response) : statusWriter := mkStatusWriter w 200 false 0.

Definition sw_WriteHeader (code : Z) (sw : statusWriter) : statusWriter :=
  mkStatusWriter (rw_WriteHeader code (sw_w sw)) (if sw_written sw then sw_code sw else code) true (sw_bytesWritten sw).

Definition sw_Write (n : Z) (sw : statusWriter) : statusWriter :=
  mkStatusWriter (rw_Write n (sw_w sw)) (if sw_written sw then sw_code sw else 200) true (wrap64 (sw_bytesWritten sw + n)).

Inductive sw_op := OpHeader (code : Z) | OpBody (n : Z).

Definition sw_step (sw : statusWriter) (o : sw_op) : statusWriter :=
  match o with OpHeader code => sw_WriteHeader code sw | OpBody n => sw_Write n sw end.

Definition sw_run (ops : list sw_op) : statusWriter :=
  foldl sw_step (fresh_statusWriter (mkResponse [] None 0)) ops.

(** The first header that went out. *)
Definition first_header (w : response) : Z :=
  match rs_informational w with i :: _ => i | [] => final_status w end.

Definition sw_ok (sw : statusWriter) : Prop :=
  sw_code sw = first_header (sw_w sw)
  /\ sw_bytesWritten sw = wrap64 (rs_bytes (sw_w sw))
  /\ sw_written sw = bool_decide (rs_informational (sw_w sw) <> [] \/ rs_status (sw_w sw) <> None).

Lemma sw_ok_header code sw : sw_ok sw -> sw_ok (sw_WriteHeader code sw).
Proof.
  destruct sw as [[inf st n] c wr b]. intros (Hc & Hb & Hw). cbn in Hc, Hb, Hw. subst.
  unfold sw_ok, sw_WriteHeader, rw_WriteHeader. cbn [sw_w sw_code sw_written sw_bytesWritten rs_informational rs_status rs_bytes].
  unfold first_header, final_status. destruct st as [s|]; cbn [rs_informational rs_status rs_bytes].
  - rewrite (bool_decide_eq_true_2 (inf <> [] \/ Some s <> None)) by (by right). by destruct inf.
  - destruct inf as [|i inf].
    + rewrite (bool_decide_eq_false_2 ([] <> [] \/ None <> None)) by (intros [?|?]; done).
      destruct (_ && _); cbn; split_and!; try done; symmetry; apply bool_decide_eq_true_2; first [by left|by right].
    + rewrite (bool_decide_eq_true_2 (i :: inf <> [] \/ None <> None)) by (by left).
      destruct (_ && _); cbn; split_and!; try done; symmetry; apply bool_decide_eq_true_2; by left.
Qed.

Lemma wrap64_add a b : wrap64 (wrap64 a + b) = wrap64 (a + b).
Proof.
  unfold wrap64. f_equal. replace ((a + 2 ^ 63) mod 2 ^ 64 - 2 ^ 63 + b + 2 ^ 63) with ((a + 2 ^ 63) mod 2 ^ 64 + b) by lia.
  rewrite Zplus_mod_idemp_l. f_equal. lia.
Qed.

Lemma sw_ok_write n sw : sw_ok sw -> sw_ok (sw_Write n sw).
Proof.
  destruct sw as [[inf st k] c wr b]. intros (Hc & Hb & Hw). cbn in Hc, Hb, Hw. subst.
  unfold sw_ok, sw_Write, rw_Write. cbn [sw_w sw_code sw_written sw_bytesWritten rs_informational rs_status rs_bytes].
  split_and!; [|by rewrite wrap64_add|symmetry; apply bool_decide_eq_true_2; by right].
  unfold first_header, final_status. cbn [rs_informational rs_status default].
  destruct (bool_decide_reflect (inf <> [] \/ st <> None)) as [Hd|Hd]; [by destruct inf|].
  destruct inf; [|by destruct Hd; left]. destruct st; [by destruct Hd; right|done].
Qed.

Lemma sw_run_ok ops : sw_ok (sw_run ops).
Proof.
  unfold sw_run. assert (sw_ok (fresh_statusWriter (mkResponse [] None 0))) as H0.
  { by split_and!. }
  revert H0. generalize (fresh_statusWriter (mkResponse [] None 0)). induction ops as [|[code|n] ops IH]; intros sw Hok; [done|..]; cbn.
  - apply IH. by apply sw_ok_header.
  - apply IH. by apply sw_ok_write.
Qed.

(** What the access log and the request counter record. Whatever sequence of
    [WriteHeader] and [Write] a handler performs, the recorded status is the
    first header that went to the client and the recorded size the bytes taken
    modulo 2^64. It is the final status of the response exactly when no
    informational header preceded it with another code: after a forwarded 103
    the request is logged and counted as 1xx whatever the backend answered. *)
Theorem recorded_status ops :
  sw_code (sw_run ops) = first_header (sw_w (sw_run ops))
  /\ sw_bytesWritten (sw_run ops) = wrap64 (rs_bytes (sw_w (sw_run ops)))
  /\ (sw_code (sw_run ops) = final_status (sw_w (sw_run ops))
      <-> forall i, head (rs_informational (sw_w (sw_run ops))) = Some i -> i = final_status (sw_w (sw_run ops))).
Proof.
  destruct (sw_run_ok ops) as (Hc & Hb & _). split_and!; [done..|]. rewrite Hc. unfold first_header.
  destruct (rs_informational _) as [|i l]; cbn; [naive_solver|]. split; [naive_solver|]. intros Hi. by apply Hi.
Qed.

Lemma early_hints_logged_as_status :
  sw_code (sw_run [OpHeader 103; OpHeader 500; OpBody 7]) = 103
  /\ final_status (sw_w (sw_run [OpHeader 103; OpHeader 500; OpBody 7])) = 500.
Proof. by split. Qed.

(** ** Deadlines *)

(** The call of [SetWriteDeadline]: none, cleared, or a time. *)
Inductive deadline_call := NoCall | Clear | Until (t : Z).

Definition applyWriteDeadline (wt now : Z) (r : Request) : deadline_call :=
  if wt <=? 0 then NoCall else if isStreamingRequest r then Clear else Until (wrap64 (now + wt)).

(** Streams are exempt from both the write deadline and the request timeout;
    other requests get the write deadline exactly when the timeout is positive. *)
Lemma streams_have_no_deadline wt now s req r ext :
  (isStreamingRequest req = true ->
     applyRequestTimeout s req r ext = r /\ forall t, applyWriteDeadline wt now req <> Until t)
  /\ (isStreamingRequest req = false -> 0 < wt -> applyWriteDeadline wt now req = Until (wrap64 (now + wt))).
Proof.
  unfold applyRequestTimeout, applyWriteDeadline. split; intros ->; [by destruct (wt <=? 0)|].
  intros Hw. by rewrite (proj2 (Z.leb_gt wt 0) Hw).
Qed.

(** ** Counters and answers *)

#[global] Instance metric_eq_dec : EqDecision metric.
Proof. solve_decision. Defined.

(** The counter an answer belongs to. Answers of an unavailable auth service and
    of an external service that fails closed have none of their own. *)
Definition error_counter (errType message : string) : option metric :=
  if bool_decide (errType = "service_unavailable") then Some IncLimited
  else if bool_decide (errType = "rate_limited") then
    (if bool_decide (message = "Too Many Requests") then Some IncLimited else None)
  else if bool_decide (errType = "auth_denied") then Some IncAuthDenied
  else if bool_decide (errType = "key_extraction_failed") then Some IncKeyExtractErrors
  else if bool_decide (errType = "overloaded") then Some IncConcurrencyRejected
  else None.

Definition counter_of (x : reply) : option metric :=
  match x with Proxied _ _ _ => Some IncAllowed | JSONError _ t m _ _ => error_counter t m end.

(** The counters that stand for an answer. *)
Definition is_outcome (x : metric) : bool :=
  match x with
  | IncAllowed | IncLimited | IncAuthDenied | IncKeyExtractErrors | IncConcurrencyRejected => true
  | _ => false
  end.

Definition occurrences (x : metric) (l : list metric) : Z := Z.of_nat (length (filter (eq x) l)).
Definition answered (x : metric) (l : list reply) : Z := occurrences x (omap counter_of l).

Lemma occurrences_app x l k : occurrences x (l ++ k) = occurrences x l + occurrences x k.
Proof. unfold occurrences. rewrite filter_app, length_app. lia. Qed.
Lemma occurrences_one x y : occurrences x [y] = if decide (x = y) then 1 else 0.
Proof. unfold occurrences. rewrite filter_cons. by destruct (decide (x = y)). Qed.
Lemma answered_app x l k : answered x (l ++ k) = answered x l + answered x k.
Proof. unfold answered. by rewrite omap_app, occurrences_app. Qed.
Lemma answered_one x y : answered x [y] = if decide (Some x = counter_of y) then 1 else 0.
Proof.
  unfold answered. cbn. destruct (counter_of y) as [z|]; [|by destruct (decide _)].
  rewrite occurrences_one. do 2 destruct (decide _); naive_solver.
Qed.

Section ledger.
Context `{R : Rounding} {W : Type} `{Env W}.
Implicit Types (st : St W) (r : HTTPRequest).

(** Counted and not yet answered. *)
Definition outstanding (x : metric) st : Z := occurrences x (st_metrics st) - answered x (st_out st).

(** A handler that answers for the counter [o], which has been incremented
    before it, and for every counter it increments itself. *)
Definition settles (o : option metric) {A} (m : M W A) : Prop :=
  forall st x, is_outcome x = true -> outstanding x (m st).1 = outstanding x st - (if decide (o = Some x) then 1 else 0).

Lemma settles_bind {A B} (m : M W A) (k : A -> M W B) o1 o2 o :
  (o1 = None /\ o2 = o \/ o1 = o /\ o2 = None) -> settles o1 m -> (forall a, settles o2 (k a)) -> settles o (m ≫= k).
Proof.
  intros Ho Hm Hk st x Hx. unfold mbind, M_bind. specialize (Hm st x Hx). destruct (m st) as [st1 a].
  rewrite (Hk a st1 x Hx). cbn [fst] in Hm. rewrite Hm. destruct Ho as [[-> ->]|[-> ->]]; destruct (decide (None = Some x)); done || lia.
Qed.
Lemma settles_then {A B} (m : M W A) (k : A -> M W B) o : settles None m -> (forall a, settles o (k a)) -> settles o (m ≫= k).
Proof. intros. apply (settles_bind m k None o o); auto. Qed.
Lemma settles_now {A B} (m : M W A) (k : A -> M W B) o : settles o m -> (forall a, settles None (k a)) -> settles o (m ≫= k).
Proof. intros. apply (settles_bind m k o None o); auto. Qed.

Lemma settles_quiet {A} (m : M W A) :
  (forall st, st_metrics (m st).1 = st_metrics st /\ st_out (m st).1 = st_out st) -> settles None m.
Proof. intros Hm st x Hx. unfold outstanding. destruct (Hm st) as [-> ->]. destruct (decide _); [done|lia]. Qed.

(** Counting an answer and then giving it. *)
Lemma settles_inc {A} y (k : unit -> M W A) : settles (Some y) (k tt) -> settles None (inc y ≫= k).
Proof.
  intros Hk st x Hx. unfold mbind, M_bind, inc. rewrite Hk by done. unfold outstanding. cbn [st_metrics st_out].
  rewrite occurrences_app, occurrences_one. do 3 destruct (decide _); simplify_eq; lia || congruence.
Qed.
Lemma settles_other y : is_outcome y = false -> settles None (inc (W := W) y).
Proof.
  intros Hy st x Hx. unfold outstanding, inc. cbn [fst st_metrics st_out]. rewrite occurrences_app, occurrences_one.
  destruct (decide (x = y)) as [->|]; [congruence|]. destruct (decide _); [done|lia].
Qed.
Lemma settles_put y : settles (counter_of y) (put (W := W) y).
Proof.
  intros st x Hx. unfold outstanding, put. cbn [fst st_metrics st_out]. rewrite answered_app, answered_one.
  do 2 destruct (decide _); naive_solver lia.
Qed.
Lemma settles_ret {A} (a : A) : settles None (mret a).
Proof. by apply settles_quiet. Qed.
Lemma settles_get : settles None (get (W := W)).
Proof. by apply settles_quiet. Qed.
Lemma settles_chain f : settles None (set_chain (W := W) f).
Proof. by apply settles_quiet. Qed.
Lemma settles_world {A} (f : W -> W * A) : settles None (in_world f).
Proof. apply settles_quiet. intros st. unfold in_world. by destruct (f (st_world st)). Qed.
Lemma settles_header h : settles None (set_header (W := W) h).
Proof. by apply settles_quiet. Qed.
Lemma settles_readers rs : settles None (set_readers (W := W) rs).
Proof. by apply settles_quiet. Qed.
Lemma settles_resp f : settles None (set_resp (W := W) f).
Proof. by apply settles_quiet. Qed.
Lemma settles_json code t msg ra : settles (error_counter t msg) (writeJSONError (W := W) code t msg ra).
Proof.
  unfold writeJSONError. apply settles_then; [apply settles_get|intros st]. apply settles_then; [apply settles_resp|intros _].
  apply (settles_put (JSONError code t msg ra _)).
Qed.
Lemma settles_next r : settles (Some IncAllowed) (serve_next (W := W) r).
Proof.
  unfold serve_next. apply settles_then; [apply settles_get|intros st]. apply settles_then; [apply settles_world|intros _].
  apply (settles_put (Proxied r _ _)).
Qed.
End ledger.

Lemma settles_json_as `{R : Rounding} {W : Type} `{Env W} o code t msg ra :
  error_counter t msg = o -> settles o (writeJSONError (W := W) code t msg ra).
Proof. intros <-. apply settles_json. Qed.

Create HintDb settle.
#[export] Hint Resolve settles_ret settles_get settles_chain settles_world settles_header settles_readers settles_resp
  settles_next settles_other settles_json_as : settle.

(** A counter that stands for an answer is owed by what follows it; the answer is
    given by the first step that writes one. *)
Ltac solve_settles :=
  repeat first
    [ progress intros
    | solve [eauto with settle]
    | match goal with
      | |- settles None (inc ?y ≫= _) => unify (is_outcome y) true; apply settles_inc
      | |- settles (Some _) (serve_next _ ≫= _) => apply settles_now
      | |- settles (Some _) (writeJSONError _ _ _ _ ≫= _) => apply settles_now
      | |- settles _ (_ ≫= _) => apply settles_then
      end
    | case_match ].

Section conservation.
Context `{R : Rounding} {W : Type} `{Env W}.
Implicit Types (st : St W) (r : HTTPRequest).

Lemma settles_emit ev : settles None (emit (W := W) ev).
Proof. unfold emit. solve_settles. Qed.
Lemma settles_limited res : settles (Some IncLimited) (serveRateLimited (W := W) res).
Proof. unfold serveRateLimited. solve_settles. Qed.
#[local] Hint Resolve settles_emit settles_limited : settle.

Lemma settles_prepare r : settles None (prepareRequest (W := W) r).
Proof. unfold prepareRequest, ensureRequestID. solve_settles. Qed.
Lemma settles_preflight r : settles None (handlePreflightBypass (W := W) r).
Proof.
  unfold handlePreflightBypass. apply settles_then; [apply settles_get|intros st]. case_match; [apply settles_ret|].
  apply settles_inc. solve_settles.
Qed.
Lemma settles_acquire : settles None (acquireConcurrency (W := W)).
Proof. unfold acquireConcurrency. solve_settles. Qed.
Lemma settles_release : settles None (releaseConcurrency (W := W)).
Proof. unfold releaseConcurrency. solve_settles. Qed.
Lemma settles_apply resp : settles None (applyAuthResponse (W := W) resp).
Proof. unfold applyAuthResponse. solve_settles. Qed.
#[local] Hint Resolve settles_prepare settles_preflight settles_acquire settles_release settles_apply : settle.
Lemma settles_auth r : settles None (runAuth (W := W) r).
Proof.
  unfold runAuth, checkAuth, buffer_body, getAuthFromCache, auth_uncached, auth_Check, setAuthInCache, settings_of. solve_settles.
Qed.
Lemma settles_fetch r key : settles None (fetchExternalLimits (W := W) r key).
Proof. unfold fetchExternalLimits, fallback_limits, ext_GetLimits. solve_settles. Qed.
Lemma settles_closed ext : settles None (externalLimitsFailClosed (W := W) ext).
Proof. unfold externalLimitsFailClosed, settings_of. solve_settles. Qed.
Lemma settles_try r key ext : settles None (tryRedisLimit (W := W) r key ext).
Proof. unfold tryRedisLimit, serveResult, setRateLimitHeaders, handleLimiterError, startRecoveryIfNeeded. solve_settles. Qed.
Lemma settles_policy r key ext : settles None (handleRedisFailurePolicy (W := W) r key ext).
Proof. unfold handleRedisFailurePolicy. solve_settles. Qed.
#[local] Hint Resolve settles_auth settles_fetch settles_closed settles_try settles_policy : settle.
Lemma settles_rate_limit r : settles None (rate_limit (W := W) r).
Proof. unfold rate_limit. solve_settles. Qed.
#[local] Hint Resolve settles_rate_limit : settle.
Lemma settles_ServeHTTP r : settles None (ServeHTTP (W := W) r).
Proof. unfold ServeHTTP. solve_settles. Qed.
End conservation.

(** ** The statistics endpoint *)

Lemma answered_allowed l : answered IncAllowed l = Z.of_nat (length (List.filter is_proxied l)).
Proof.
  induction l as [|x l IH]; [done|]. change (x :: l) with ([x] ++ l) at 1. rewrite answered_app, answered_one, IH.
  destruct x as [code t m ra id|r h b]; cbn [counter_of List.filter is_proxied].
  - destruct (decide _) as [E|]; [|done]. unfold error_counter in E. by repeat case_match.
  - cbn [length]. destruct (decide _); [lia|done].
Qed.

Definition count_all (l : list metric) (m : Metrics) : Metrics := foldl (fun m x => count_metric x m) m l.

Lemma count_all_counter (p : Metrics -> Z) x :
  (forall y m, p (count_metric y m) = if decide (x = y) then add1 (p m) else p m) ->
  forall l m, wrap64 (p (count_all l m)) = wrap64 (p m + occurrences x l).
Proof.
  intros Hp l. unfold count_all. induction l as [|y l IH]; intros m; cbn; [by rewrite Z.add_0_r|].
  rewrite IH, (Hp y m). change (y :: l) with ([y] ++ l). rewrite occurrences_app, occurrences_one.
  destruct (decide (x = y)); [|done]. unfold add1. rewrite wrap64_add. f_equal. lia.
Qed.

(** Every counter stays a machine integer. *)
Lemma count_all_range (p : Metrics -> Z) x :
  (forall y m, p (count_metric y m) = if decide (x = y) then add1 (p m) else p m) ->
  forall l m, in_int64 (p m) -> in_int64 (p (count_all l m)).
Proof.
  intros Hp l. unfold count_all. induction l as [|y l IH]; intros m Hm; cbn; [done|]. apply IH. rewrite Hp.
  destruct (decide (x = y)); [apply wrap64_range|done].
Qed.

Lemma count_all_exact (p : Metrics -> Z) x l :
  (forall y m, p (count_metric y m) = if decide (x = y) then add1 (p m) else p m) -> p NewMetrics = 0 ->
  p (count_all l NewMetrics) = wrap64 (occurrences x l).
Proof.
  intros Hp H0. rewrite <- (wrap64_id (p (count_all l NewMetrics))).
  - by rewrite (count_all_counter p x Hp), H0.
  - apply (count_all_range p x Hp). by rewrite H0.
Qed.

Section stats.
Context `{R : Rounding} {W : Type} `{Env W}.
Implicit Types (st : St W) (r : HTTPRequest).

(** A request arrives with its header, its body readers and an empty response. *)
Definition arrive (h : Header) (readers : list string) st : St W :=
  mkSt (st_chain st) (st_world st) h readers ∅ (st_out st) (st_metrics st).

(** Requests handled one after the other; between two of them anything but the
    record of answers and counters may change ([tick]: a reload, a recovery, the
    passing of time). *)
Definition serve_all (qs : list (HTTPRequest * Header * list string * (St W -> Chain * W))) st : St W :=
  foldl (fun st '(r, h, readers, tick) =>
    let st := arrive h readers st in
    let st := mkSt (tick st).1 (tick st).2 (st_header st) (st_readers st) (st_resp st) (st_out st) (st_metrics st) in
    (ServeHTTP r st).1) st qs.

Lemma serve_all_settles qs st x : is_outcome x = true -> outstanding x (serve_all qs st) = outstanding x st.
Proof.
  intros Hx. revert st. induction qs as [|[[[r h] rs] tick] qs IH]; intros st; [done|]. unfold serve_all in *. cbn [foldl].
  rewrite IH, (settles_ServeHTTP r _ x Hx). destruct (decide _); [done|]. unfold outstanding, arrive. cbn [st_metrics st_out]. lia.
Qed.

Lemma serve_all_counts qs chain world x :
  is_outcome x = true ->
  let st := serve_all qs (mkSt chain world ∅ [] ∅ [] []) in occurrences x (st_metrics st) = answered x (st_out st).
Proof.
  intros Hx st. pose proof (serve_all_settles qs (mkSt chain world ∅ [] ∅ [] []) x Hx) as Hs. fold st in Hs.
  unfold outstanding in Hs. cbn [st_metrics st_out] in Hs. change (occurrences x []) with 0 in Hs.
  change (answered x []) with 0 in Hs. lia.
Qed.

(** C26: The statistics are what happened. For every sequence of requests, and
    whatever happens to the chain and its services in between, the counters that
    [/v1/stats] shows equal, modulo 2^64, the number of requests that reached
    the backend (allowed), of rate-limit and fail-closed answers of the limiter
    (limited), of denials of the auth service and of failed key extractions. *)
Theorem stats_exact qs chain world :
  let st := serve_all qs (mkSt chain world ∅ [] ∅ [] []) in
  let sn := Snapshot (count_all (st_metrics st) NewMetrics) in
  sn_Allowed sn = wrap64 (Z.of_nat (length (List.filter is_proxied (st_out st))))
  /\ sn_Limited sn = wrap64 (answered IncLimited (st_out st))
  /\ sn_AuthDenied sn = wrap64 (answered IncAuthDenied (st_out st))
  /\ sn_KeyExtractErrors sn = wrap64 (answered IncKeyExtractErrors (st_out st)).
Proof.
  intros st sn. subst sn. cbn [Snapshot sn_Allowed sn_Limited sn_AuthDenied sn_KeyExtractErrors].
  split_and!.
  - rewrite (count_all_exact mx_allowed IncAllowed) by (done || by intros [] []).
    rewrite <- answered_allowed. f_equal. by apply serve_all_counts.
  - rewrite (count_all_exact mx_limited IncLimited) by (done || by intros [] []). f_equal. by apply serve_all_counts.
  - rewrite (count_all_exact mx_authDenied IncAuthDenied) by (done || by intros [] []). f_equal. by apply serve_all_counts.
  - rewrite (count_all_exact mx_keyExtractErrors IncKeyExtractErrors) by (done || by intros [] []). f_equal.
    by apply serve_all_counts.
Qed.
End stats.
