(* ===== verification/Telemetry.v ===== *)
(** * Exported metrics and telemetry set-up

    The OpenTelemetry side of src/internal/observability: every recording method
    of [Metrics] (metrics.go), the histogram views, the exporters and providers
    (tracing.go, metrics_provider.go), the logger (logging.go) and
    [Server.initTelemetry]. An instrument is modelled as documented: a counter
    keeps one sum per attribute set, a histogram records observations. *)
From S2P Require Import Prelude GoStrings GoTime Float64 GoNet ConfigTypes Config RedisClient TokenBucket.
From S2P Require Import KeyStrategy InMemory Breaker Auth External UrlPolicy MTLS Events Bucket Chain ChainProps Observe.

Local Open Scope Z_scope.

(** ** Instruments *)

Inductive instrument :=
| Requests | ActiveRequests | RatelimitDecisions | RatelimitFallbackUsed | RatelimitRemaining | ConcurrencyRejected
| KeyExtractErrors | TenantKeyRejected | AuthOutcomes | AuthDuration | ExtRLDuration | ExtRLCacheLookups
| ExtRLSemaphoreRejected | ExtRLSingleflightShared | BackendDuration | RespCacheLookups | RespCacheOperations
| RespCacheBodySize | RedisErrors | RedisHealthy | RedisReadonlyRetries | Connections | StreamingConnections
| StreamingActive | StreamingDuration | EventsDropped | EventsSendFailures | ReloadTimestamp | CORSPreflightBypassed.

#[global] Instance instrument_eq_dec : EqDecision instrument.
Proof. solve_decision. Defined.

Definition metric_name (i : instrument) : string :=
  match i with
  | Requests => "edgequota.requests"
  | ActiveRequests => "http.server.active_requests"
  | RatelimitDecisions => "edgequota.ratelimit.decisions"
  | RatelimitFallbackUsed => "edgequota.ratelimit.fallback_used"
  | RatelimitRemaining => "edgequota.ratelimit.remaining_tokens"
  | ConcurrencyRejected => "edgequota.concurrency.rejected"
  | KeyExtractErrors => "edgequota.key_extract.errors"
  | TenantKeyRejected => "edgequota.tenant_key.rejected"
  | AuthOutcomes => "edgequota.auth.outcomes"
  | AuthDuration => "edgequota.auth.duration"
  | ExtRLDuration => "edgequota.external_ratelimit.duration"
  | ExtRLCacheLookups => "edgequota.external_ratelimit.cache.lookups"
  | ExtRLSemaphoreRejected => "edgequota.external_ratelimit.semaphore_rejected"
  | ExtRLSingleflightShared => "edgequota.external_ratelimit.singleflight_shared"
  | BackendDuration => "edgequota.backend.duration"
  | RespCacheLookups => "edgequota.response_cache.lookups"
  | RespCacheOperations => "edgequota.response_cache.operations"
  | RespCacheBodySize => "edgequota.response_cache.body.size"
  | RedisErrors => "edgequota.redis.errors"
  | RedisHealthy => "edgequota.redis.healthy"
  | RedisReadonlyRetries => "edgequota.redis.readonly_retries"
  | Connections => "edgequota.connections"
  | StreamingConnections => "edgequota.streaming.connections"
  | StreamingActive => "edgequota.streaming.active_connections"
  | StreamingDuration => "edgequota.streaming.duration"
  | EventsDropped => "edgequota.events.dropped"
  | EventsSendFailures => "edgequota.events.send_failures"
  | ReloadTimestamp => "edgequota.reload.last_success.timestamp"
  | CORSPreflightBypassed => "edgequota.cors.preflight_bypassed"
  end.

Definition attrHTTPMethod : string := "http.request.method".
Definition attrStatusClass : string := "edgequota.status_class".
Definition attrNetProtocolName : string := "network.protocol.name".
Definition attrNetProtocolVersion : string := "network.protocol.version".
Definition attrTLSMode : string := "edgequota.tls.mode".
Definition attrRatelimitDecision : string := "edgequota.ratelimit.decision".
Definition attrRedisPool : string := "edgequota.redis.pool".
Definition attrAuthOutcome : string := "edgequota.auth.outcome".
Definition attrCacheResult : string := "edgequota.cache.result".
Definition attrCacheOperation : string := "edgequota.cache.operation".
Definition attrStreamProtocol : string := "edgequota.stream.protocol".
Definition attrReloadTarget : string := "edgequota.reload.target".

Abbreviation attributes := (list (string * string)).

(** ** The recording methods *)

(** A call of a method of [Metrics]. *)
Inductive recording :=
| MIncAllowed | MIncLimited | MIncRedisErrors (pool : string) | MIncFallbackUsed (pool : string) | MIncReadOnlyRetries
| MIncKeyExtractErrors | MIncAuthErrors | MIncAuthDenied | MIncAuthCanceled
| MIncTenantKeyRejected | MIncEventsDropped | MIncEventsSendFailures | MIncPreflightBypassed | MIncConcurrencyRejected
| MIncConnection (proto tlsMode : string) | MIncRequestsInFlight | MDecRequestsInFlight
| MIncStreamingConn (proto : string) | MDecStreamingActive (proto : string)
| MObserveStreamingDuration (proto : string) (seconds : Q)
| MRecordRequest (method : string) (code : Z) (proto : string)
| MObserveAuthDuration (seconds : Q) | MObserveExternalRLDuration (seconds : Q) | MObserveBackendDuration (seconds : Q)
| MObserveRemaining (remaining : Z)
| MIncRespCacheHit | MIncRespCacheMiss | MIncRespCacheUncacheable | MIncRespCacheStore | MIncRespCacheSkip | MIncRespCachePurge
| MObserveRespCacheBodySize (size : Q)
| MIncExtRLSemaphoreRejected | MIncExtRLSingleflightShared | MIncExtRLCacheHit | MIncExtRLCacheMiss | MIncExtRLCacheStaleHit
| MSetRedisHealthy (pool : string) (healthy : bool)
| MSetConfigReloadTimestamp (now : Z) | MSetTLSReloadTimestamp (now : Z) | MSetMTLSCAReloadTimestamp (now : Z).

(** The increment a call makes to a counter, [None] for calls of other kinds. Most
    calls touch one counter; opening a stream touches two. *)
Definition added (c : recording) : list (instrument * attributes * Z) :=
  match c with
  | MIncAllowed => [(RatelimitDecisions, [(attrRatelimitDecision, "allowed")], 1)]
  | MIncLimited => [(RatelimitDecisions, [(attrRatelimitDecision, "limited")], 1)]
  | MIncRedisErrors pool => [(RedisErrors, [(attrRedisPool, pool)], 1)]
  | MIncFallbackUsed pool => [(RatelimitFallbackUsed, [(attrRedisPool, pool)], 1)]
  | MIncReadOnlyRetries => [(RedisReadonlyRetries, [], 1)]
  | MIncKeyExtractErrors => [(KeyExtractErrors, [], 1)]
  | MIncAuthErrors => [(AuthOutcomes, [(attrAuthOutcome, "error")], 1)]
  | MIncAuthDenied => [(AuthOutcomes, [(attrAuthOutcome, "denied")], 1)]
  | MIncAuthCanceled => [(AuthOutcomes, [(attrAuthOutcome, "canceled")], 1)]
  | MIncTenantKeyRejected => [(TenantKeyRejected, [], 1)]
  | MIncEventsDropped => [(EventsDropped, [], 1)]
  | MIncEventsSendFailures => [(EventsSendFailures, [], 1)]
  | MIncPreflightBypassed => [(CORSPreflightBypassed, [], 1)]
  | MIncConcurrencyRejected => [(ConcurrencyRejected, [], 1)]
  | MIncConnection proto mode =>
      [(Connections, [(attrNetProtocolName, "http"); (attrNetProtocolVersion, protocolVersion proto); (attrTLSMode, mode)], 1)]
  | MIncRequestsInFlight => [(ActiveRequests, [], 1)]
  | MDecRequestsInFlight => [(ActiveRequests, [], -1)]
  | MIncStreamingConn proto =>
      [(StreamingConnections, [(attrStreamProtocol, proto)], 1); (StreamingActive, [(attrStreamProtocol, proto)], 1)]
  | MDecStreamingActive proto => [(StreamingActive, [(attrStreamProtocol, proto)], -1)]
  | MRecordRequest method code proto =>
      [(Requests, [(attrHTTPMethod, method); (attrStatusClass, StatusFamily code); (attrNetProtocolVersion, protocolVersion proto)], 1)]
  | MIncRespCacheHit => [(RespCacheLookups, [(attrCacheResult, "hit")], 1)]
  | MIncRespCacheMiss => [(RespCacheLookups, [(attrCacheResult, "miss")], 1)]
  | MIncRespCacheUncacheable => [(RespCacheLookups, [(attrCacheResult, "uncacheable")], 1)]
  | MIncRespCacheStore => [(RespCacheOperations, [(attrCacheOperation, "store")], 1)]
  | MIncRespCacheSkip => [(RespCacheOperations, [(attrCacheOperation, "skip")], 1)]
  | MIncRespCachePurge => [(RespCacheOperations, [(attrCacheOperation, "purge")], 1)]
  | MIncExtRLSemaphoreRejected => [(ExtRLSemaphoreRejected, [], 1)]
  | MIncExtRLSingleflightShared => [(ExtRLSingleflightShared, [], 1)]
  | MIncExtRLCacheHit => [(ExtRLCacheLookups, [(attrCacheResult, "hit")], 1)]
  | MIncExtRLCacheMiss => [(ExtRLCacheLookups, [(attrCacheResult, "miss")], 1)]
  | MIncExtRLCacheStaleHit => [(ExtRLCacheLookups, [(attrCacheResult, "stale")], 1)]
  | MObserveStreamingDuration _ _ | MObserveAuthDuration _ | MObserveExternalRLDuration _ | MObserveBackendDuration _
  | MObserveRemaining _ | MObserveRespCacheBodySize _
  | MSetRedisHealthy _ _ | MSetConfigReloadTimestamp _ | MSetTLSReloadTimestamp _ | MSetMTLSCAReloadTimestamp _ => []
  end.

(** The observation a call adds to a histogram. A body size is cut to an integer. *)
Definition observed (c : recording) : option (instrument * attributes * Q) :=
  match c with
  | MObserveStreamingDuration proto s => Some (StreamingDuration, [(attrStreamProtocol, proto)], s)
  | MObserveAuthDuration s => Some (AuthDuration, [], s)
  | MObserveExternalRLDuration s => Some (ExtRLDuration, [], s)
  | MObserveBackendDuration s => Some (BackendDuration, [], s)
  | MObserveRemaining n => Some (RatelimitRemaining, [], inject_Z n)
  | MObserveRespCacheBodySize s => Some (RespCacheBodySize, [], inject_Z (ftrunc s))
  | _ => None
  end.

(** The call of a mirror counter in [Observe], for the methods that have one. *)
Definition mirror (c : recording) : option metric :=
  match c with
  | MIncAllowed => Some IncAllowed
  | MIncLimited => Some IncLimited
  | MIncRedisErrors _ => Some IncRedisErrors
  | MIncFallbackUsed _ => Some IncFallbackUsed
  | MIncReadOnlyRetries => Some IncReadOnlyRetries
  | MIncKeyExtractErrors => Some IncKeyExtractErrors
  | MIncAuthErrors => Some IncAuthErrors
  | MIncAuthDenied => Some IncAuthDenied
  | MIncAuthCanceled => Some IncAuthCanceled
  | _ => None
  end.

(** ** Instruments on the provider *)

Abbreviation series := (string * attributes)%type.

(** The state of [Metrics] with the sums of the meter provider behind it. Until a
    provider is installed the instruments are no-ops; the mirror counters and the
    state of the observable gauges do not depend on it. *)
Record Instruments := mkInstruments {
  in_mirror : Metrics;
  in_provider : bool;
  in_sums : gmap series Z;
  in_observations : list (string * attributes * Q);
  in_configReloadTS : Z;
  in_tlsReloadTS : Z;
  in_mtlsCAReloadTS : Z
}.

Definition NewInstruments : Instruments := mkInstruments NewMetrics false ∅ [] 0 0 0.

(** [Add] on an [Int64Counter] or an [Int64UpDownCounter]. *)
Definition Add (sums : gmap series Z) (x : instrument * attributes * Z) : gmap series Z :=
  let '(i, a, n) := x in <[(metric_name i, a) := wrap64 (default 0 (sums !! (metric_name i, a)) + n)]> sums.

Definition mirrored (c : recording) (m : Metrics) : Metrics :=
  match c with
  | MSetRedisHealthy pool healthy => SetRedisHealthy pool healthy m
  | _ => match mirror c with Some x => count_metric x m | None => m end
  end.

Definition named (x : instrument * attributes * Q) : string * attributes * Q :=
  let '(i, a, v) := x in (metric_name i, a, v).

(** A call of a recording method. *)
Definition record (c : recording) (s : Instruments) : Instruments :=
  let m := mirrored c (in_mirror s) in
  let sums := if in_provider s then foldl Add (in_sums s) (added c) else in_sums s in
  let obs := if in_provider s then in_observations s ++ (named <$> option_list (observed c)) else in_observations s in
  let ts k old := match c, k with
                  | MSetConfigReloadTimestamp now, 0%nat | MSetTLSReloadTimestamp now, 1%nat
                  | MSetMTLSCAReloadTimestamp now, 2%nat => now
                  | _, _ => old
                  end in
  mkInstruments m (in_provider s) sums obs (ts 0%nat (in_configReloadTS s)) (ts 1%nat (in_tlsReloadTS s))
    (ts 2%nat (in_mtlsCAReloadTS s)).

Definition record_all (cs : list recording) (s : Instruments) : Instruments := foldl (fun s c => record c s) s cs.

(** [otel.SetMeterProvider]. *)
Definition SetMeterProvider (s : Instruments) : Instruments :=
  mkInstruments (in_mirror s) true (in_sums s) (in_observations s) (in_configReloadTS s) (in_tlsReloadTS s) (in_mtlsCAReloadTS s).

(** What the callbacks of the observable gauges report at a collection. *)
Definition registerRedisHealthyGauge (s : Instruments) : list (attributes * Z) :=
  (fun '(pool, v) => ([(attrRedisPool, pool)], v)) <$> map_to_list (mx_redisHealthy (in_mirror s)).

Definition registerReloadTimestampGauge `{Rounding} (s : Instruments) : list (attributes * Q) :=
  [([(attrReloadTarget, "config")], float (in_configReloadTS s));
   ([(attrReloadTarget, "tls")], float (in_tlsReloadTS s));
   ([(attrReloadTarget, "mtls_ca")], float (in_mtlsCAReloadTS s))].

(** ** Histogram views *)

Section views.
Context `{R : Rounding}.

Definition latencyShortBuckets : list Q :=
  rnd <$> [5 # 10000; 1 # 1000; 5 # 1000; 1 # 100; 25 # 1000; 5 # 100; 1 # 10; 25 # 100; 5 # 10; 1; 5]%Q.
Definition backendBuckets : list Q :=
  rnd <$> [1 # 1000; 5 # 1000; 1 # 100; 25 # 1000; 5 # 100; 1 # 10; 25 # 100; 5 # 10; 1; 5; 10; 30]%Q.
Definition streamingBuckets : list Q := rnd <$> [1; 5; 15; 30; 60; 120; 300; 600; 1800; 3600]%Q.
Definition remainingTokenBuckets : list Q := rnd <$> [0; 1; 5; 10; 25; 50; 100; 250; 500; 1000]%Q.
Definition bodySizeBuckets : list Q := rnd <$> [256; 1024; 4096; 16384; 65536; 262144; 1048576; 4194304]%Q.

Definition metricViews : list (string * list Q) :=
  [(metric_name AuthDuration, latencyShortBuckets);
   (metric_name ExtRLDuration, latencyShortBuckets);
   (metric_name BackendDuration, backendBuckets);
   (metric_name StreamingDuration, streamingBuckets);
   (metric_name RatelimitRemaining, remainingTokenBuckets);
   (metric_name RespCacheBodySize, bodySizeBuckets)].

(** The view of an instrument: its boundaries, [None] for the provider's own. *)
Definition view_of (name : string) : option (list Q) := (fun x => x.2.2) <$> list_find (fun v => v.1 = name) metricViews.
End views.

(** ** Exported series and mirror counters *)

Implicit Types (i : instrument) (sel : option attributes) (k : series).

(** A series of the instrument [i], of the attributes [sel] when given. *)
Definition selects (i : instrument) (sel : option attributes) (k : series) : bool :=
  bool_decide (k.1 = metric_name i) && match sel with None => true | Some a => bool_decide (k.2 = a) end.

Definition exported (i : instrument) (sel : option attributes) (sums : gmap series Z) : Z :=
  map_fold (fun k v acc => if selects i sel k then v + acc else acc) 0 sums.

Lemma exported_empty i sel : exported i sel ∅ = 0.
Proof. apply map_fold_empty. Qed.

Lemma exported_fresh i sel (k : series) (v : Z) (m : gmap series Z) :
  m !! k = None -> exported i sel (<[k := v]> m) = exported i sel m + (if selects i sel k then v else 0).
Proof.
  intros Hk. unfold exported. rewrite map_fold_insert_L; [destruct (selects i sel k); lia| |done].
  intros. repeat case_match; lia.
Qed.

Lemma exported_insert i sel (k : series) (v : Z) (m : gmap series Z) :
  exported i sel (<[k := v]> m) = exported i sel m + (if selects i sel k then v - default 0 (m !! k) else 0).
Proof.
  destruct (m !! k) as [u|] eqn:Hk; cbn [default].
  - pose proof (exported_fresh i sel k u (delete k m) (lookup_delete_eq m k)) as Hu.
    pose proof (exported_fresh i sel k v (delete k m) (lookup_delete_eq m k)) as Hv.
    rewrite insert_delete_id in Hu by done. rewrite insert_delete_eq in Hv. rewrite Hu, Hv. unfold id. destruct (selects i sel k); lia.
  - rewrite exported_fresh by done. by rewrite Z.sub_0_r.
Qed.

(** What a list of increments adds to a selection. *)
Definition increments (i : instrument) (sel : option attributes) (l : list (instrument * attributes * Z)) : Z :=
  foldr (fun '(j, a, n) acc => (if selects i sel (metric_name j, a) then n else 0) + acc) 0 l.

Lemma increments_app i sel l (l' : list (instrument * attributes * Z)) : increments i sel (l ++ l') = increments i sel l + increments i sel l'.
Proof. unfold increments. induction l as [|[[j a] n] l IH]; cbn [foldr app]; [done|]. rewrite IH. lia. Qed.

Lemma wrap64_cong a b c : wrap64 a = wrap64 b -> wrap64 (a + c) = wrap64 (b + c).
Proof. intros H. by rewrite <- (wrap64_add a), <- (wrap64_add b), H. Qed.

Lemma wrap64_twice z : wrap64 (wrap64 z) = wrap64 z.
Proof. apply wrap64_id, wrap64_range. Qed.

Lemma exported_Add i sel sums x :
  wrap64 (exported i sel (Add sums x)) = wrap64 (exported i sel sums + increments i sel [x]).
Proof.
  destruct x as [[j a] n]. cbn [Add increments foldr]. rewrite exported_insert.
  destruct (selects i sel (metric_name j, a)); [|by rewrite !Z.add_0_r].
  set (u := default 0 _). rewrite Z.add_0_r.
  replace (exported i sel sums + (wrap64 (u + n) - u)) with (wrap64 (u + n) + (exported i sel sums - u)) by lia.
  rewrite wrap64_add. f_equal. lia.
Qed.

Lemma exported_Adds i sel l sums :
  wrap64 (exported i sel (foldl Add sums l)) = wrap64 (exported i sel sums + increments i sel l).
Proof.
  revert sums. induction l as [|x l IH]; intros sums; cbn [foldl]; [by rewrite Z.add_0_r|].
  rewrite IH, (wrap64_cong _ _ _ (exported_Add i sel sums x)). change (x :: l) with ([x] ++ l).
  rewrite increments_app. f_equal. lia.
Qed.

Lemma record_all_cons c cs s : record_all (c :: cs) s = record_all cs (record c s).
Proof. done. Qed.
Lemma record_all_app cs ds s : record_all (cs ++ ds) s = record_all ds (record_all cs s).
Proof. unfold record_all. apply foldl_app. Qed.

Lemma record_provider cs s : in_provider (record_all cs s) = in_provider s.
Proof. revert s. induction cs as [|c cs IH]; intros s; [done|]. by rewrite record_all_cons, IH. Qed.

(** Before a provider is installed nothing is exported. *)
Lemma record_inert cs s :
  in_provider s = false ->
  in_sums (record_all cs s) = in_sums s /\ in_observations (record_all cs s) = in_observations s.
Proof.
  revert s. induction cs as [|c cs IH]; intros s Hs; [done|]. rewrite record_all_cons.
  destruct (IH (record c s)) as [-> ->]; [done|]. cbn [record in_sums in_observations]. by rewrite Hs.
Qed.

(** With one, every selection of series has the increments of the calls. *)
Lemma record_exported i sel cs s :
  in_provider s = true ->
  wrap64 (exported i sel (in_sums (record_all cs s))) = wrap64 (exported i sel (in_sums s) + increments i sel (cs ≫= added)).
Proof.
  revert s. induction cs as [|c cs IH]; intros s Hs; [cbn [record_all foldl mbind list_bind increments foldr]; by rewrite Z.add_0_r|].
  rewrite record_all_cons, IH by done. rewrite bind_cons, increments_app. cbn [record in_sums]. rewrite Hs, (wrap64_cong _ _ _ (exported_Adds i sel (added c) (in_sums s))). f_equal. lia.
Qed.

(** The counters of [/v1/stats] and the exported series that belong to each: one
    attribute set, or all pools. *)
Definition mirror_table : list (metric * (Metrics -> Z) * instrument * option attributes) :=
  [(IncAllowed, mx_allowed, RatelimitDecisions, Some [(attrRatelimitDecision, "allowed")]);
   (IncLimited, mx_limited, RatelimitDecisions, Some [(attrRatelimitDecision, "limited")]);
   (IncRedisErrors, mx_redisErrors, RedisErrors, None);
   (IncFallbackUsed, mx_fallbackUsed, RatelimitFallbackUsed, None);
   (IncReadOnlyRetries, mx_readOnlyRetries, RedisReadonlyRetries, None);
   (IncKeyExtractErrors, mx_keyExtractErrors, KeyExtractErrors, None);
   (IncAuthErrors, mx_authErrors, AuthOutcomes, Some [(attrAuthOutcome, "error")]);
   (IncAuthDenied, mx_authDenied, AuthOutcomes, Some [(attrAuthOutcome, "denied")]);
   (IncAuthCanceled, mx_authCanceled, AuthOutcomes, Some [(attrAuthOutcome, "canceled")])].

(** One method call moves a mirror counter and its series by the same amount. *)
Lemma mirror_step x p i sel c :
  (x, p, i, sel) ∈ mirror_table -> increments i sel (added c) = occurrences x (option_list (mirror c)).
Proof.
  unfold mirror_table. intros Hin. repeat (apply elem_of_cons in Hin as [Hin|Hin]); [..|by apply elem_of_nil in Hin];
    simplify_eq; destruct c; reflexivity.
Qed.

Lemma mirror_counts x p i sel c m :
  (x, p, i, sel) ∈ mirror_table ->
  wrap64 (p (mirrored c m)) = wrap64 (p m + occurrences x (option_list (mirror c))).
Proof.
  unfold mirror_table. intros Hin. repeat (apply elem_of_cons in Hin as [Hin|Hin]); [..|by apply elem_of_nil in Hin];
    simplify_eq; destruct m, c; cbn -[wrap64]; rewrite ?Z.add_0_r; try done; unfold add1, occurrences; cbn -[wrap64]; apply wrap64_twice.
Qed.

(** Calls of the method behind a mirror counter. *)
Definition calls (x : metric) (cs : list recording) : Z := occurrences x (omap mirror cs).

Lemma calls_cons x c cs : calls x (c :: cs) = occurrences x (option_list (mirror c)) + calls x cs.
Proof. unfold calls. cbn. destruct (mirror c); [|done]. rewrite <- occurrences_app. done. Qed.

Lemma increments_calls x p i sel cs : (x, p, i, sel) ∈ mirror_table -> increments i sel (cs ≫= added) = calls x cs.
Proof.
  intros Hin. induction cs as [|c cs IH]; [done|].
  by rewrite bind_cons, increments_app, (mirror_step x p i sel c Hin), calls_cons, IH.
Qed.

Lemma mirror_range x p i sel c m : (x, p, i, sel) ∈ mirror_table -> in_int64 (p m) -> in_int64 (p (mirrored c m)).
Proof.
  unfold mirror_table. intros Hin. repeat (apply elem_of_cons in Hin as [Hin|Hin]); [..|by apply elem_of_nil in Hin];
    simplify_eq; destruct m, c; cbn -[in_int64 wrap64]; intros; first [done|apply wrap64_range].
Qed.

Lemma mirror_run x p i sel cs s :
  (x, p, i, sel) ∈ mirror_table -> in_int64 (p (in_mirror s)) ->
  p (in_mirror (record_all cs s)) = wrap64 (p (in_mirror s) + calls x cs).
Proof.
  intros Hin. revert s. induction cs as [|c cs IH]; intros s Hs.
  - unfold calls, occurrences. cbn. by rewrite Z.add_0_r, wrap64_id.
  - rewrite record_all_cons, IH by (by apply (mirror_range x p i sel)).
    rewrite (wrap64_cong _ _ _ (mirror_counts x p i sel c (in_mirror s) Hin)), calls_cons. f_equal. lia.
Qed.

Lemma provider_mirror s : in_mirror (SetMeterProvider s) = in_mirror s.
Proof. done. Qed.

(** C27: The nine counters of [/v1/stats] agree with the exported metrics. With
    any calls before the meter provider is installed and any after, each counter
    is, modulo 2^64, the calls of its method before plus the sum of the exported
    series that belong to it, and that sum is the calls after; without a provider
    nothing is exported and the counters count all the same. *)
Theorem stats_match_export pre post x p i sel :
  (x, p, i, sel) ∈ mirror_table ->
  let s := record_all post (SetMeterProvider (record_all pre NewInstruments)) in
  p (in_mirror s) = wrap64 (calls x pre + exported i sel (in_sums s))
  /\ wrap64 (exported i sel (in_sums s)) = wrap64 (calls x post)
  /\ in_sums (record_all pre NewInstruments) = ∅
  /\ p (in_mirror (record_all pre NewInstruments)) = wrap64 (calls x pre).
Proof.
  intros Hin s. destruct (record_inert pre NewInstruments eq_refl) as [Hsum _].
  assert (p (in_mirror NewInstruments) = 0) as H0.
  { clear -Hin. unfold mirror_table in Hin. repeat (apply elem_of_cons in Hin as [Hin|Hin]); [..|by apply elem_of_nil in Hin];
      by simplify_eq. }
  pose proof (mirror_run x p i sel pre NewInstruments Hin) as Hpre. rewrite H0 in Hpre. specialize (Hpre ltac:(by split)).
  pose proof (record_exported i sel post (SetMeterProvider (record_all pre NewInstruments)) eq_refl) as He.
  fold s in He. cbn [SetMeterProvider in_sums] in He. rewrite Hsum, exported_empty, Z.add_0_l, (increments_calls x p) in He by done.
  split_and!; [|exact He|done|exact Hpre].
  unfold s at 1. rewrite (mirror_run x p i sel) by (done || (rewrite provider_mirror, Hpre; apply wrap64_range)).
  rewrite provider_mirror, Hpre, wrap64_add, Z.add_0_l, (Z.add_comm _ (exported _ _ _)), (wrap64_cong _ _ _ He). f_equal. lia.
Qed.

Lemma stats_match_export_witness :
  let s := record_all [MIncRedisErrors "ratelimit"; MIncAllowed; MIncRedisErrors "response_cache"]
             (SetMeterProvider (record_all [MIncRedisErrors "ratelimit"] NewInstruments)) in
  mx_redisErrors (in_mirror s) = 3 /\ exported RedisErrors None (in_sums s) = 2.
Proof.
  intros s.
  destruct (stats_match_export [MIncRedisErrors "ratelimit"] [MIncRedisErrors "ratelimit"; MIncAllowed; MIncRedisErrors "response_cache"]
              IncRedisErrors mx_redisErrors RedisErrors None ltac:(unfold mirror_table; set_solver)) as (H & _).
  split; [exact H|reflexivity].
Defined.

(** ** Requests in flight *)

(** A request between the calls of [Chain.ServeHTTP] that touch the gauges:
    entered, served by the preflight bypass, or admitted. *)
Inductive phase :=
| Entered (r : Request) (proto : string)
| Bypassing (r : Request) (proto : string)
| Serving (r : Request) (proto : string).

Record traffic := mkTraffic {
  tf_ins : Instruments;
  tf_flight : gmap nat phase;
  tf_acquired : Z;     (* concurrencySem *)
  tf_aborted : Z       (* bypassed preflights whose handler panicked *)
}.

Inductive tevent :=
| TEnter (id : nat) (r : Request) (proto : string) (tls : option ConnectionState)
| TRoute (id : nat) (bypassPreflight : bool)
| TFinish (id : nat) (code : Z) (backend elapsed : Q) (panicked : bool)
| TOther (c : recording).

(** The calls the handlers make while a request is served are of other
    instruments than those of [ServeHTTP] itself. *)
Definition inner (c : recording) : bool :=
  match c with
  | MIncRequestsInFlight | MDecRequestsInFlight | MIncStreamingConn _ | MDecStreamingActive _
  | MRecordRequest _ _ _ | MIncConnection _ _ | MIncConcurrencyRejected => false
  | _ => true
  end.

Definition streaming_begin (r : Request) : list recording :=
  if bool_decide (streamingProtocol r = "") then [] else [MIncStreamingConn (streamingProtocol r)].
Definition streaming_end (r : Request) (elapsed : Q) : list recording :=
  if bool_decide (streamingProtocol r = "") then []
  else [MDecStreamingActive (streamingProtocol r); MObserveStreamingDuration (streamingProtocol r) elapsed].

Section traffic.
Variable max : option Z.

(** A panic runs the deferred calls of an admitted request, but the bypass has
    none of its own. *)
Definition tstep (g : traffic) (e : tevent) : option traffic :=
  match e with
  | TEnter id r proto tls =>
      match tf_flight g !! id with
      | Some _ => None
      | None => Some (mkTraffic (record_all [MIncRequestsInFlight; MIncConnection proto (tlsMode tls)] (tf_ins g))
                        (<[id := Entered r proto]> (tf_flight g)) (tf_acquired g) (tf_aborted g))
      end
  | TRoute id bypassPreflight =>
      match tf_flight g !! id with
      | Some (Entered r proto) =>
          if bypassPreflight && isCORSPreflight r then
            Some (mkTraffic (record_all [MIncAllowed; MIncPreflightBypassed] (tf_ins g))
                    (<[id := Bypassing r proto]> (tf_flight g)) (tf_acquired g) (tf_aborted g))
          else if match max with Some n => negb (tf_acquired g + 1 <=? n) | None => false end then
            Some (mkTraffic (record_all [MIncConcurrencyRejected; MDecRequestsInFlight] (tf_ins g))
                    (delete id (tf_flight g)) (tf_acquired g) (tf_aborted g))
          else
            Some (mkTraffic (record_all (streaming_begin r) (tf_ins g)) (<[id := Serving r proto]> (tf_flight g))
                    (match max with Some _ => tf_acquired g + 1 | None => tf_acquired g end) (tf_aborted g))
      | _ => None
      end
  | TFinish id code backend elapsed panicked =>
      match tf_flight g !! id with
      | Some (Bypassing r proto) =>
          let cs := if panicked then [] else [MObserveBackendDuration backend; MRecordRequest (Method r) code proto] in
          Some (mkTraffic (record_all (cs ++ [MDecRequestsInFlight]) (tf_ins g)) (delete id (tf_flight g)) (tf_acquired g)
                  (tf_aborted g + if panicked then 1 else 0))
      | Some (Serving r proto) =>
          Some (mkTraffic (record_all (MRecordRequest (Method r) code proto :: streaming_end r elapsed ++ [MDecRequestsInFlight]) (tf_ins g))
                  (delete id (tf_flight g)) (match max with Some _ => tf_acquired g - 1 | None => tf_acquired g end) (tf_aborted g))
      | _ => None
      end
  | TOther c => if inner c then Some (mkTraffic (record c (tf_ins g)) (tf_flight g) (tf_acquired g) (tf_aborted g)) else None
  end.

Definition trun (g : traffic) (es : list tevent) : option traffic := foldl (fun o e => o ≫= fun g => tstep g e) (Some g) es.
End traffic.

(** The state when the listeners start: the provider is in place and no request
    has come. *)
Definition tstart (pre : list recording) : traffic := mkTraffic (SetMeterProvider (record_all pre NewInstruments)) ∅ 0 0.

(** Requests in flight, weighted by their phase. *)
Definition tally (w : phase -> Z) (m : gmap nat phase) : Z := map_fold (fun _ x acc => w x + acc) 0 m.

Lemma tally_insert w id x (m : gmap nat phase) : m !! id = None -> tally w (<[id := x]> m) = tally w m + w x.
Proof. intros Hm. unfold tally. rewrite map_fold_insert_L; [lia|intros; lia|done]. Qed.
Lemma tally_delete w id x (m : gmap nat phase) : m !! id = Some x -> tally w (delete id m) = tally w m - w x.
Proof.
  intros Hm. pose proof (tally_insert w id x (delete id m) (lookup_delete_eq m id)) as H.
  rewrite insert_delete_id in H by done. lia.
Qed.
Lemma tally_update w id x y (m : gmap nat phase) : m !! id = Some x -> tally w (<[id := y]> m) = tally w m - w x + w y.
Proof.
  intros Hm. rewrite <- insert_delete_eq, tally_insert by apply lookup_delete_eq. by rewrite (tally_delete w id x).
Qed.
Lemma tally_size (m : gmap nat phase) : tally (fun _ => 1) m = Z.of_nat (size m).
Proof.
  induction m as [|id x m Hm IH] using map_ind; [done|]. rewrite tally_insert by done. rewrite map_size_insert_None by done. lia.
Qed.

Definition streams (proto : string) (x : phase) : Z :=
  match x with Serving r _ => if bool_decide (streamingProtocol r = proto) then 1 else 0 | _ => 0 end.
Definition is_serving (x : phase) : Z := match x with Serving _ _ => 1 | _ => 0 end.

(** A set of exported series that moves with the requests in flight and with the
    requests that ended. *)
Record account := mkAccount { ac_i : instrument; ac_sel : option attributes; ac_sign : Z }.

Definition balance (l : list account) (s : Instruments) : Z :=
  foldr (fun a acc => ac_sign a * exported (ac_i a) (ac_sel a) (in_sums s) + acc) 0 l.
Definition charged (l : list account) (cs : list recording) : Z :=
  foldr (fun a acc => ac_sign a * increments (ac_i a) (ac_sel a) (cs ≫= added) + acc) 0 l.

Lemma wrap64_eqm a b : wrap64 a = wrap64 b <-> (a mod 2 ^ 64 = b mod 2 ^ 64).
Proof.
  unfold wrap64. split; intros H.
  - assert ((a + 2 ^ 63) mod 2 ^ 64 = (b + 2 ^ 63) mod 2 ^ 64) as E by lia.
    replace a with (a + 2 ^ 63 - 2 ^ 63) by lia. replace b with (b + 2 ^ 63 - 2 ^ 63) by lia.
    rewrite (Zminus_mod (a + 2 ^ 63)), (Zminus_mod (b + 2 ^ 63)). by rewrite E.
  - rewrite (Zplus_mod a), (Zplus_mod b), H. done.
Qed.

Lemma wrap64_mul n a b : wrap64 a = wrap64 b -> wrap64 (n * a) = wrap64 (n * b).
Proof. rewrite !wrap64_eqm. intros H. by rewrite (Zmult_mod n a), (Zmult_mod n b), H. Qed.
Lemma wrap64_plus a b c d : wrap64 a = wrap64 b -> wrap64 c = wrap64 d -> wrap64 (a + c) = wrap64 (b + d).
Proof. rewrite !wrap64_eqm. intros H H'. by rewrite (Zplus_mod a c), (Zplus_mod b d), H, H'. Qed.

Lemma balance_run l cs s :
  in_provider s = true -> wrap64 (balance l (record_all cs s)) = wrap64 (balance l s + charged l cs).
Proof.
  intros Hs. induction l as [|[i sel n] l IH]; [done|]. cbn [balance charged foldr ac_i ac_sel ac_sign].
  fold (balance l s) (charged l cs) (balance l (record_all cs s)).
  replace (n * exported i sel (in_sums s) + balance l s + (n * increments i sel (cs ≫= added) + charged l cs))
    with (n * (exported i sel (in_sums s) + increments i sel (cs ≫= added)) + (balance l s + charged l cs)) by lia.
  apply wrap64_plus; [|done]. by apply wrap64_mul, record_exported.
Qed.

(** The accounts [l] follow the weight [w] of the requests in flight, and [a]
    times the aborted preflights. *)
Definition follows (l : list account) (w : phase -> Z) (a : Z) : Prop :=
  forall max g e g', tstep max g e = Some g' ->
    exists cs, tf_ins g' = record_all cs (tf_ins g)
      /\ charged l cs = tally w (tf_flight g') - tally w (tf_flight g) + a * (tf_aborted g' - tf_aborted g).

(** The calls of each step and what they do to the requests in flight. *)
Lemma follows_intro l w a :
  (forall r proto tls, charged l [MIncRequestsInFlight; MIncConnection proto (tlsMode tls)] = w (Entered r proto)) ->
  (forall r proto, charged l [MIncAllowed; MIncPreflightBypassed] = w (Bypassing r proto) - w (Entered r proto)) ->
  (forall r proto, charged l [MIncConcurrencyRejected; MDecRequestsInFlight] = - w (Entered r proto)) ->
  (forall r proto, charged l (streaming_begin r) = w (Serving r proto) - w (Entered r proto)) ->
  (forall r proto, charged l [MDecRequestsInFlight] = - w (Bypassing r proto) + a) ->
  (forall r proto code b, charged l [MObserveBackendDuration b; MRecordRequest (Method r) code proto; MDecRequestsInFlight] = - w (Bypassing r proto)) ->
  (forall r proto code el, charged l (MRecordRequest (Method r) code proto :: streaming_end r el ++ [MDecRequestsInFlight]) = - w (Serving r proto)) ->
  (forall c, inner c = true -> charged l [c] = 0) ->
  follows l w a.
Proof.
  intros H1 H2 H3 H4 H5 H6 H7 H8 max g e g' Hs. destruct e as [id r proto tls|id byp|id code b el pan|c]; cbn [tstep] in Hs.
  - destruct (tf_flight g !! id) eqn:Hid; [done|]. apply (inj Some) in Hs; subst g'. eexists; split; [cbn [tf_ins]; reflexivity|].
    cbn [tf_flight tf_aborted]. rewrite tally_insert, (H1 r) by done. lia.
  - destruct (tf_flight g !! id) as [[r proto|r proto|r proto]|] eqn:Hid; [|done..]. destruct (byp && isCORSPreflight r).
    { apply (inj Some) in Hs; subst g'. eexists; split; [cbn [tf_ins]; reflexivity|]. cbn [tf_flight tf_aborted].
      rewrite (tally_update w id (Entered r proto)), (H2 r proto) by done. lia. }
    destruct (match max with Some n => _ | None => false end); apply (inj Some) in Hs; subst g'; (eexists; split; [cbn [tf_ins]; reflexivity|]);
      cbn [tf_flight tf_aborted].
    + rewrite (tally_delete w id (Entered r proto)), (H3 r proto) by done. lia.
    + rewrite (tally_update w id (Entered r proto)), (H4 r proto) by done. lia.
  - destruct (tf_flight g !! id) as [[r proto|r proto|r proto]|] eqn:Hid; [done|..|done]; apply (inj Some) in Hs; subst g';
      (eexists; split; [cbn [tf_ins]; reflexivity|]); cbn [tf_flight tf_aborted].
    + rewrite (tally_delete w id (Bypassing r proto)) by done. destruct pan; cbn [app].
      * rewrite (H5 r proto). lia.
      * rewrite (H6 r proto). lia.
    + rewrite (tally_delete w id (Serving r proto)), (H7 r proto) by done. lia.
  - destruct (inner c) eqn:Hc; [|done]. apply (inj Some) in Hs; subst g'. exists [c]. split; [done|]. cbn [tf_flight tf_aborted].
    rewrite (H8 c Hc). lia.
Qed.

Lemma trun_stuck max es : foldl (fun o e => o ≫= fun g => tstep max g e) None es = None.
Proof. by induction es. Qed.

Lemma follows_run l w a max g es g' :
  follows l w a -> in_provider (tf_ins g) = true -> trun max g es = Some g' ->
  wrap64 (balance l (tf_ins g)) = wrap64 (tally w (tf_flight g) + a * tf_aborted g) ->
  wrap64 (balance l (tf_ins g')) = wrap64 (tally w (tf_flight g') + a * tf_aborted g').
Proof.
  intros Hf. unfold trun. revert g. induction es as [|e es IH]; intros g Hp Hr Hb; cbn in Hr; [by injection Hr as ->|].
  destruct (tstep max g e) as [g1|] eqn:Hs; [|by rewrite trun_stuck in Hr].
  destruct (Hf max g e g1 Hs) as (cs & Hi & Hc). apply (IH g1); [by rewrite Hi, record_provider|done|].
  rewrite Hi, balance_run by done. rewrite (wrap64_cong _ _ _ Hb), Hc. f_equal. lia.
Qed.

Lemma balance_start l pre : balance l (tf_ins (tstart pre)) = 0.
Proof.
  unfold tstart. cbn [tf_ins]. induction l as [|[i sel n] l IH]; [done|]. cbn [balance foldr ac_i ac_sel ac_sign].
  fold (balance l (SetMeterProvider (record_all pre NewInstruments))). rewrite IH. cbn [SetMeterProvider in_sums].
  destruct (record_inert pre NewInstruments eq_refl) as [-> _]. cbn [NewInstruments in_sums]. rewrite exported_empty. lia.
Qed.

Definition active_account : list account := [mkAccount ActiveRequests None 1].
Definition stream_account (proto : string) : list account := [mkAccount StreamingActive (Some [(attrStreamProtocol, proto)]) 1].
Definition flow_account : list account :=
  [mkAccount Connections None 1; mkAccount Requests None (-1); mkAccount ConcurrencyRejected None (-1)].

Lemma follows_active : follows active_account (fun _ => 1) 0.
Proof.
  apply follows_intro; try (intros; reflexivity).
  - intros r proto. unfold streaming_begin. by case_bool_decide.
  - intros r proto code el. unfold streaming_end. by case_bool_decide.
  - intros c. by destruct c.
Qed.

Lemma follows_flow : follows flow_account (fun _ => 1) 1.
Proof.
  apply follows_intro; try (intros; reflexivity).
  - intros r proto. unfold streaming_begin. by case_bool_decide.
  - intros r proto code el. unfold streaming_end. by case_bool_decide.
  - intros c. by destruct c.
Qed.

Lemma selects_stream x proto :
  selects StreamingActive (Some [(attrStreamProtocol, proto)]) (metric_name StreamingActive, [(attrStreamProtocol, x)]) = bool_decide (x = proto).
Proof.
  unfold selects. cbn [fst snd]. rewrite (bool_decide_eq_true_2 (metric_name StreamingActive = _)) by done. cbn [andb].
  apply bool_decide_ext. split; [by intros [=]|by intros ->].
Qed.

Lemma follows_stream proto : proto <> "" -> follows (stream_account proto) (streams proto) 0.
Proof.
  intros Hp. apply follows_intro; try (intros; reflexivity).
  - intros r pr. unfold streaming_begin, streams. case_bool_decide as E.
    + rewrite E, bool_decide_eq_false_2 by congruence. done.
    + cbn [charged stream_account foldr ac_sign ac_i ac_sel mbind list_bind added app increments]. rewrite selects_stream.
      destruct (bool_decide _); reflexivity.
  - intros r pr code el. unfold streaming_end, streams. case_bool_decide as E.
    + rewrite E, bool_decide_eq_false_2 by congruence. done.
    + cbn [charged stream_account foldr ac_sign ac_i ac_sel mbind list_bind added app increments]. rewrite selects_stream.
      destruct (bool_decide _); reflexivity.
  - intros c. by destruct c.
Qed.

Lemma tally_nonneg w m : (forall x, 0 <= w x) -> 0 <= tally w m.
Proof.
  intros Hw. induction m as [|id x m Hm IH] using map_ind; [done|]. rewrite tally_insert by done. specialize (Hw x). lia.
Qed.

(** The semaphore is held by exactly the admitted requests. *)
Definition sem_ok (max : option Z) (g : traffic) : Prop :=
  match max with
  | Some n => tf_acquired g = tally is_serving (tf_flight g) /\ (0 <= n -> tf_acquired g <= n)
  | None => tf_acquired g = 0
  end.

Lemma sem_step max g e g' : tstep max g e = Some g' -> sem_ok max g -> sem_ok max g'.
Proof.
  intros Hs. destruct e as [id r proto tls|id byp|id code b el pan|c]; cbn [tstep] in Hs.
  - destruct (tf_flight g !! id) eqn:Hid; [done|]. apply (inj Some) in Hs; subst g'. unfold sem_ok. cbn [tf_acquired tf_flight].
    rewrite tally_insert by done. cbn [is_serving]. by rewrite Z.add_0_r.
  - destruct (tf_flight g !! id) as [[r proto|r proto|r proto]|] eqn:Hid; [|done..]. destruct (byp && isCORSPreflight r).
    { apply (inj Some) in Hs; subst g'. unfold sem_ok. cbn [tf_acquired tf_flight].
      rewrite (tally_update is_serving id (Entered r proto)) by done. cbn [is_serving]. by rewrite Z.add_0_r, Z.sub_0_r. }
    destruct max as [n|]; cbn [negb] in Hs; [destruct (Z.leb_spec (tf_acquired g + 1) n) as [Hl|Hl]; cbn [negb] in Hs|];
      apply (inj Some) in Hs; subst g'; unfold sem_ok; cbn [tf_acquired tf_flight]; [| |done].
    + rewrite (tally_update is_serving id (Entered r proto)) by done. cbn [is_serving]. lia.
    + rewrite (tally_delete is_serving id (Entered r proto)) by done. cbn [is_serving]. by rewrite Z.sub_0_r.
  - destruct (tf_flight g !! id) as [[r proto|r proto|r proto]|] eqn:Hid; [done|..|done]; apply (inj Some) in Hs; subst g';
      unfold sem_ok; cbn [tf_acquired tf_flight]; destruct max as [n|]; try done.
    + rewrite (tally_delete is_serving id (Bypassing r proto)) by done. cbn [is_serving]. by rewrite Z.sub_0_r.
    + rewrite (tally_delete is_serving id (Serving r proto)) by done. cbn [is_serving]. lia.
  - destruct (inner c); [|done]. by apply (inj Some) in Hs; subst g'.
Qed.

Lemma sem_run max g es g' : trun max g es = Some g' -> sem_ok max g -> sem_ok max g'.
Proof.
  unfold trun. revert g. induction es as [|e es IH]; intros g Hr Hg; cbn in Hr; [by injection Hr as ->|].
  destruct (tstep max g e) as [g1|] eqn:Hs; [|by rewrite trun_stuck in Hr]. by apply (IH g1), (sem_step max g e).
Qed.

(** C25: The gauges mean what they say under any interleaving of requests. From
    start-up, after any sequence of requests that enter, are bypassed, rejected or
    admitted, end normally or panic, modulo 2^64: the active-request gauge is the
    number of requests in flight, every streaming gauge the number of admitted
    requests of its protocol in flight, and every request that entered is in
    flight, counted once as served or as rejected for concurrency, or was a
    bypassed preflight whose handler panicked. The semaphore is held by exactly
    the admitted requests and never by more than its size. *)
Theorem request_gauges_exact max pre es g :
  trun max (tstart pre) es = Some g ->
  let sums := in_sums (tf_ins g) in
  wrap64 (exported ActiveRequests None sums) = wrap64 (Z.of_nat (size (tf_flight g)))
  /\ (forall proto, proto <> "" ->
        wrap64 (exported StreamingActive (Some [(attrStreamProtocol, proto)]) sums) = wrap64 (tally (streams proto) (tf_flight g)))
  /\ wrap64 (exported Connections None sums - exported Requests None sums - exported ConcurrencyRejected None sums)
     = wrap64 (Z.of_nat (size (tf_flight g)) + tf_aborted g)
  /\ sem_ok max g.
Proof.
  intros Hr sums.
  assert (forall l w a, follows l w a -> wrap64 (balance l (tf_ins g)) = wrap64 (tally w (tf_flight g) + a * tf_aborted g)) as Hb.
  { intros l w a Hf. apply (follows_run l w a max (tstart pre) es g Hf eq_refl Hr). rewrite balance_start.
    cbn [tstart tf_flight tf_aborted]. by rewrite Z.mul_0_r. }
  split_and!.
  - pose proof (Hb _ _ _ follows_active) as H. cbn [balance active_account foldr ac_i ac_sel ac_sign] in H.
    rewrite tally_size in H. rewrite Z.mul_0_l, Z.add_0_r, Z.add_0_r, Z.mul_1_l in H. exact H.
  - intros proto Hp. pose proof (Hb _ _ _ (follows_stream proto Hp)) as H.
    cbn [balance stream_account foldr ac_i ac_sel ac_sign] in H. rewrite Z.mul_0_l, Z.add_0_r, Z.add_0_r, Z.mul_1_l in H. exact H.
  - pose proof (Hb _ _ _ follows_flow) as H. cbn [balance flow_account foldr ac_i ac_sel ac_sign] in H. rewrite tally_size in H.
    rewrite Z.mul_1_l in H. rewrite (Z.mul_1_l (tf_aborted g)) in H. rewrite <- H. f_equal. unfold sums. lia.
  - apply (sem_run max (tstart pre) es g Hr). unfold sem_ok. destruct max; [|done]. split; [done|]. cbn. lia.
Qed.

Module TrafficDemo.
Definition req (method : string) (h : Header) : Request :=
  mkRequest method (mkURL "" "" "/" "") "/" "api" "203.0.113.7:999" h 1 false 0.
Definition sse : Request := req "GET" (Header_Set ∅ "Accept" "text/event-stream").
Definition script : list tevent :=
  [TEnter 1 sse "HTTP/1.1" None; TRoute 1 true; TEnter 2 (req "GET" ∅) "HTTP/2.0" None; TRoute 2 true;
   TEnter 3 (req "POST" ∅) "HTTP/1.1" None; TRoute 3 true; TOther MIncAllowed; TFinish 2 200 (1 # 10) (1 # 5) true].
Definition final : traffic := default (tstart []) (trun (Some 2) (tstart []) script).
Lemma traffic_ran : trun (Some 2) (tstart []) script = Some final.
Proof.
  unfold final. assert (bool_decide (is_Some (trun (Some 2) (tstart []) script)) = true) as H by (vm_compute; reflexivity).
  apply bool_decide_eq_true_1 in H as [g ->]. done.
Qed.
End TrafficDemo.

Lemma request_gauges_exact_witness :
  exported ActiveRequests None (in_sums (tf_ins TrafficDemo.final)) = 1
  /\ exported StreamingActive (Some [(attrStreamProtocol, "sse")]) (in_sums (tf_ins TrafficDemo.final)) = 1
  /\ exported ConcurrencyRejected None (in_sums (tf_ins TrafficDemo.final)) = 1 /\ sem_ok (Some 2) TrafficDemo.final.
Proof.
  destruct (request_gauges_exact (Some 2) [] TrafficDemo.script TrafficDemo.final TrafficDemo.traffic_ran) as (_ & _ & _ & Hs).
  split_and!; [vm_compute; reflexivity..|exact Hs].
Defined.

(** ** Histograms have a view *)

(** Boundaries that split the line into non-empty buckets. *)
Fixpoint increasing (l : list Q) : bool :=
  match l with
  | x :: (y :: _) as l' => fltb x y && increasing l'
  | _ => true
  end.

(** The bucket of a value: the first boundary that is not below it. *)
Fixpoint bucket_of (bounds : list Q) (v : Q) : nat :=
  match bounds with b :: l => if fleb v b then 0%nat else S (bucket_of l v) | [] => 0%nat end.

Lemma bucket_of_bound bounds v n : bucket_of bounds v = n -> (n <= length bounds)%nat.
Proof. intros <-. induction bounds as [|b l IH]; cbn; [done|]. destruct (fleb v b); lia. Qed.

Lemma increasing_below bounds n b :
  increasing bounds = true -> bounds !! n = Some b -> forall j c, (j < n)%nat -> bounds !! j = Some c -> (c < b)%Q.
Proof.
  revert n. induction bounds as [|x l IH]; intros n Hi Hn k c Hk Hc; [done|].
  destruct n as [|n]; [lia|]. destruct l as [|y l]; [done|]. cbn in Hi. apply andb_true_iff in Hi as [Hxy Hi]. apply fltb_lt in Hxy.
  destruct k as [|k]; cbn in Hc.
  - injection Hc as <-. destruct n as [|n]; [by injection Hn as <-|].
    apply (Qlt_trans _ y); [done|]. apply (IH (S n) Hi Hn 0%nat y); [lia|done].
  - apply (IH n Hi Hn k c); [lia|done].
Qed.

(** A value lies in bucket [n] exactly when it is above every boundary before it
    and not above its own. *)
Lemma bucket_of_spec bounds v n b :
  increasing bounds = true -> bounds !! n = Some b ->
  (bucket_of bounds v = n <-> (v <= b)%Q /\ forall c, bounds !! pred n = Some c -> (n <> 0)%nat -> (c < v)%Q).
Proof.
  revert n. induction bounds as [|x l IH]; intros n Hi Hn; [done|]. cbn [bucket_of]. destruct (fleb v x) eqn:Hv; fcompare.
  - destruct n as [|n]; [injection Hn as <-; naive_solver|]. split; [done|]. intros [_ Hc].
    destruct (lookup_lt_is_Some_2 (x :: l) n) as [c Hl]; [apply lookup_lt_Some in Hn; lia|].
    specialize (Hc c Hl ltac:(done)). destruct n as [|n]; [injection Hl as <-; lra|].
    pose proof (increasing_below (x :: l) (S n) c Hi Hl 0%nat x ltac:(lia) eq_refl). lra.
  - destruct n as [|n].
    { injection Hn as <-. split; [done|]. intros [Hc _]. lra. }
    assert (increasing l = true) as Hil.
    { destruct l; [done|]. cbn in Hi. by apply andb_true_iff in Hi as [_ ?]. }
    rewrite (inj_iff S), (IH n Hil Hn). destruct n as [|n]; cbn; [|naive_solver].
    split; intros [H1 H2]; (split; [done|]); [by intros c [= <-]|done].
Qed.

(** Every histogram a method records has explicit, increasing boundaries under its
    own name, so no distribution falls back to the provider's. *)
Lemma histograms_have_views c i a v :
  observed c = Some (i, a, v) ->
  exists bounds, view_of (R := exact_rounding) (metric_name i) = Some bounds /\ increasing bounds = true /\ bounds <> [].
Proof. destruct c; cbn [observed]; intros [= <- <- <-]; eexists; (split; [reflexivity|]); by split. Qed.

(** No two instruments share a name. *)
Lemma metric_name_inj i j : metric_name i = metric_name j -> i = j.
Proof. by destruct i, j. Qed.

(** ** Exporters and providers *)

(** The options an OTLP exporter is created with. *)
Inductive exporter_options :=
| OTLPHTTP (endpointURL : string) (urlPath : option string) (insecure cumulative : bool)
| OTLPGRPC (endpoint : string) (insecure cumulative : bool).

Definition otlpTracesPath : string := "/v1/traces".
Definition otlpMetricsPath : string := "/v1/metrics".

Definition unknownValue : string := "unknown".

(** The environment and the host name of the process. *)
Definition instanceID (getenv : string -> string) (hostname : result string) : string :=
  let v := getenv "POD_NAME" in
  if bool_decide (v <> "") then v
  else match hostname with
       | Ok h => if bool_decide (h <> "") then h else unknownValue
       | Err _ => unknownValue
       end.

Definition service_name (cfg : TracingConfig) : string :=
  if bool_decide (tr_ServiceName cfg = "") then "edgequota" else tr_ServiceName cfg.

(** The providers and the propagator the process has installed, with what they
    were built from, and whether the shutdown functions do anything. *)
Record globals (E Res : Type) := mkGlobals {
  gl_propagator : list string;
  gl_tracer : option (E * Res * Q);
  gl_meter : option (E * Res);
  gl_instruments : Instruments
}.
Arguments mkGlobals {E Res}.
Arguments gl_propagator {E Res}.
Arguments gl_tracer {E Res}.
Arguments gl_meter {E Res}.
Arguments gl_instruments {E Res}.

Inductive shutdown_fn := NoopShutdown | TracerShutdown | MeterShutdown.

Section setup.
Context {E Res : Type}.
Variable url_Parse : string -> result URL.
Variables newTrace newMetric : exporter_options -> result E.   (* otlptrace*.New, otlpmetric*.New *)
Variable Merge : list (string * string) -> result Res.         (* resource.Merge(resource.Default(), _) *)
Variable getenv : string -> string.
Variable hostname : result string.

Definition endpointURLHasNoPath (endpoint : string) : bool :=
  match url_Parse endpoint with Ok u => bool_decide (URL_Path u = "") | Err _ => false end.

(** The two exporters differ in the signal path and in the pinned temporality. *)
Definition exporter_for (cfg : TracingConfig) (path : string) (cumulative : bool) : exporter_options :=
  if bool_decide (ResolvedProtocol cfg = "http")
  then OTLPHTTP (tr_Endpoint cfg) (if endpointURLHasNoPath (tr_Endpoint cfg) then Some path else None) (tr_Insecure cfg) cumulative
  else OTLPGRPC (tr_Endpoint cfg) (tr_Insecure cfg) cumulative.

Definition newExporter (cfg : TracingConfig) : result E :=
  match newTrace (exporter_for cfg otlpTracesPath false) with
  | Ok e => Ok e
  | Err e => Err (wrapf (if bool_decide (ResolvedProtocol cfg = "http") then "create otlp http exporter" else "create otlp grpc exporter") e)
  end.

Definition newMetricExporter (cfg : TracingConfig) : result E :=
  match newMetric (exporter_for cfg otlpMetricsPath true) with
  | Ok e => Ok e
  | Err e => Err (wrapf (if bool_decide (ResolvedProtocol cfg = "http") then "create otlp http metric exporter"
                         else "create otlp grpc metric exporter") e)
  end.

Definition newResource (serviceName version : string) : result Res :=
  match Merge [("service.name", serviceName); ("service.version", version); ("service.instance.id", instanceID getenv hostname)] with
  | Ok r => Ok r
  | Err e => Err (wrapf "create resource" e)
  end.

Definition InitTracing (cfg : TracingConfig) (version : string) (g : globals E Res) : globals E Res * result shutdown_fn :=
  let g := mkGlobals ["tracecontext"; "baggage"] (gl_tracer g) (gl_meter g) (gl_instruments g) in
  if negb (tr_Enabled cfg) then (g, Ok NoopShutdown)
  else match newExporter cfg with
       | Err e => (g, Err e)
       | Ok exporter =>
           match newResource (service_name cfg) version with
           | Err e => (g, Err e)
           | Ok res => (mkGlobals (gl_propagator g) (Some (exporter, res, tr_SampleRate cfg)) (gl_meter g) (gl_instruments g), Ok TracerShutdown)
           end
       end.

Definition InitMetrics (cfg : TracingConfig) (enabled : bool) (version : string) (g : globals E Res) : globals E Res * result shutdown_fn :=
  if negb enabled then (g, Ok NoopShutdown)
  else match newMetricExporter cfg with
       | Err e => (g, Err e)
       | Ok exporter =>
           match newResource (service_name cfg) version with
           | Err e => (g, Err e)
           | Ok res => (mkGlobals (gl_propagator g) (gl_tracer g) (Some (exporter, res)) (SetMeterProvider (gl_instruments g)), Ok MeterShutdown)
           end
       end.

(** [Server.initTelemetry]: the providers and the two shutdown functions kept for
    the end. A failure is logged and replaced by a function that does nothing. *)
Definition initTelemetry (cfg : Config) (version : string) (g : globals E Res) : globals E Res * shutdown_fn * shutdown_fn :=
  let '(g, tracing) := InitTracing (cfg_Tracing cfg) version g in
  let tracingShutdown := match tracing with Ok f => f | Err _ => NoopShutdown end in
  let '(g, metrics) := InitMetrics (cfg_Tracing cfg) (me_Enabled (cfg_Metrics cfg)) version g in
  let metricsShutdown := match metrics with Ok f => f | Err _ => NoopShutdown end in
  (g, tracingShutdown, metricsShutdown).

(** The process before [Run]: no provider. *)
Definition unset (ins : Instruments) : globals E Res := mkGlobals [] None None ins.

Definition of_result {A} (r : result A) : option A := match r with Ok a => Some a | Err _ => None end.

(** C39: Telemetry never keeps the proxy from starting and each signal is set up
    on its own. Whatever the collector, the resource and the environment answer,
    [initTelemetry] returns; the W3C propagator is installed even when tracing is
    off; a tracer provider is installed exactly when tracing is enabled and its
    exporter and resource could be built, a meter provider exactly when metrics
    are, neither depending on the other; both carry the same resource; the stored
    shutdown function is that of the provider exactly when there is one; and the
    instruments export from then on exactly when there is a meter provider. *)
Theorem telemetry_setup cfg version ins :
  in_provider ins = false ->
  let '(g, ts, ms) := initTelemetry cfg version (unset ins) in
  let t := cfg_Tracing cfg in
  let res := of_result (newResource (service_name t) version) in
  gl_propagator g = ["tracecontext"; "baggage"]
  /\ gl_tracer g = (if tr_Enabled t then e ← of_result (newExporter t); r ← res; Some (e, r, tr_SampleRate t) else None)
  /\ gl_meter g = (if me_Enabled (cfg_Metrics cfg) then e ← of_result (newMetricExporter t); r ← res; Some (e, r) else None)
  /\ (ts = TracerShutdown <-> is_Some (gl_tracer g)) /\ ts <> MeterShutdown
  /\ (ms = MeterShutdown <-> is_Some (gl_meter g)) /\ ms <> TracerShutdown
  /\ (forall e r q e' r', gl_tracer g = Some (e, r, q) -> gl_meter g = Some (e', r') -> r = r')
  /\ gl_instruments g = match gl_meter g with Some _ => SetMeterProvider ins | None => ins end
  /\ in_provider (gl_instruments g) = bool_decide (is_Some (gl_meter g)).
Proof.
  intros Hins. unfold initTelemetry, InitTracing, InitMetrics, unset.
  destruct (tr_Enabled (cfg_Tracing cfg)), (me_Enabled (cfg_Metrics cfg)); cbn [negb];
    destruct (newExporter (cfg_Tracing cfg)), (newMetricExporter (cfg_Tracing cfg)), (newResource (service_name (cfg_Tracing cfg)) version);
    cbn; split_and!; try done; try naive_solver.
Qed.

(** An endpoint URL without a path is shared by the two signals, each under its
    own path; one with a path is used as it stands for both. *)
Lemma shared_endpoint cfg :
  ResolvedProtocol cfg = "http" ->
  let options path := OTLPHTTP (tr_Endpoint cfg) (if endpointURLHasNoPath (tr_Endpoint cfg) then Some path else None) (tr_Insecure cfg) in
  exporter_for cfg otlpTracesPath false = options "/v1/traces" false
  /\ exporter_for cfg otlpMetricsPath true = options "/v1/metrics" true.
Proof. intros Hp. unfold exporter_for. by rewrite bool_decide_eq_true_2 by done. Qed.
End setup.

Module SetupDemo.
Definition cfg : Config :=
  mkConfig (cfg_Server Defaults) (cfg_Admin Defaults) (cfg_Backend Defaults) (cfg_Auth Defaults) (cfg_RateLimit Defaults)
    (cfg_Redis Defaults) (cfg_CacheRedis Defaults) (cfg_Cache Defaults) (cfg_ResponseCacheRedis Defaults) (cfg_Events Defaults)
    (cfg_Logging Defaults) (mkTracingConfig true "grpc" "collector:4317" true "" (1 # 10) "") (mkMetricsConfig true).
Definition init : globals exporter_options (list (string * string)) * shutdown_fn * shutdown_fn :=
  initTelemetry (fun _ => Err (errorf "no url")) (fun _ => Err (errorf "no collector")) (fun o => Ok o) (fun l => Ok l)
    (fun _ => "pod-1") (Err (errorf "no name")) cfg "1.2.3" (unset NewInstruments).
End SetupDemo.

(** The trace exporter fails; metrics are exported all the same. *)
Lemma telemetry_setup_witness :
  gl_tracer SetupDemo.init.1.1 = None /\ SetupDemo.init.1.2 = NoopShutdown
  /\ gl_meter SetupDemo.init.1.1
     = Some (OTLPGRPC "collector:4317" true true,
             [("service.name", "edgequota"); ("service.version", "1.2.3"); ("service.instance.id", "pod-1")]).
Proof.
  pose proof (telemetry_setup (E := exporter_options) (Res := list (string * string)) (fun _ => Err (errorf "no url"))
    (fun _ => Err (errorf "no collector")) (fun o => Ok o) (fun l => Ok l) (fun _ => "pod-1") (Err (errorf "no name"))
    SetupDemo.cfg "1.2.3" NewInstruments eq_refl) as H.
  fold SetupDemo.init in H. destruct SetupDemo.init as [[g ts] ms] eqn:E. cbn [fst snd].
  destruct H as (_ & Ht & Hm & Hs & Hs' & _). cbn in Ht, Hm. split_and!; [done| |done].
  rewrite Ht in Hs. destruct ts; [done|destruct (proj1 Hs eq_refl); done|done].
Defined.

(** ** The logger *)

Inductive slog_level := LevelDebug | LevelInfo | LevelWarn | LevelError.
Definition level_value (l : slog_level) : Z :=
  match l with LevelDebug => -4 | LevelInfo => 0 | LevelWarn => 4 | LevelError => 8 end.

Record Logger := mkLogger { lg_level : slog_level; lg_json : bool }.

Definition NewLogger (level format : string) : Logger :=
  let lvl := if bool_decide (level = "debug") then LevelDebug
             else if one_of ["info"; ""] level then LevelInfo
             else if bool_decide (level = "warn") then LevelWarn
             else if bool_decide (level = "error") then LevelError
             else LevelInfo in
  mkLogger lvl (negb (bool_decide (format = "text"))).

(** [Handler.Enabled]. *)
Definition log_enabled (lg : Logger) (l : slog_level) : bool := level_value (lg_level lg) <=? level_value l.

(** Errors are always logged, whatever the configuration says; a validated level
    is the one in force. *)
Lemma logger_levels level format :
  log_enabled (NewLogger level format) LevelError = true
  /\ (LogLevel_Valid level = true ->
      lg_level (NewLogger level format)
      = default LevelInfo (list_to_map (M := gmap string slog_level)
          [("debug", LevelDebug); ("info", LevelInfo); ("warn", LevelWarn); ("error", LevelError)] !! level)).
Proof.
  split.
  - unfold NewLogger, log_enabled. by repeat case_match.
  - unfold LogLevel_Valid, one_of. intros Hv%bool_decide_eq_true_1.
    repeat (apply elem_of_cons in Hv as [->|Hv]; [reflexivity|]). by apply elem_of_nil in Hv.
Qed.
