(* ===== verification/AccessLog.v ===== *)
(** * The access log

    [emitAccessLog] of src/internal/middleware/chain.go: the record a request
    leaves behind. The theorem says what a record can and cannot contain. *)
From S2P Require Import Prelude GoStrings GoTime Float64 GoNet ConfigTypes Config KeyStrategy UrlPolicy MTLS Bucket Chain ChainProps Observe.

Local Open Scope Z_scope.

Record access_entry := mkAccess {
  al_method : string; al_host : string; al_path : string; al_status : Z; al_duration_ms : Z; al_bytes : Z;
  al_remote_addr : string; al_request_id : string; al_user_agent : string; al_proto : string;
  al_backend_url : string; al_backend_proto : string; al_rl_key : string; al_tenant_id : string
}.

(** [Duration.Milliseconds]: truncated towards zero. *)
Definition Milliseconds (d : Z) : Z := Z.quot d Millisecond.

Section log.
Variable URL_String : URL -> string.

(** [enabled]: [c.accessLog]; [cfg]: [c.cfg]. *)
Definition emitAccessLog (enabled : bool) (cfg : Config) (r : HTTPRequest) (proto : string) (sw : statusWriter)
    (originalHost reqID rlKey tenantID : string) (elapsed : Z) : option access_entry :=
  if negb enabled then None
  else
    let fromConfig := if xr_Enabled (rl_External (cfg_RateLimit cfg))
                      then rs_BackendURL (xr_Fallback (rl_External (cfg_RateLimit cfg)))
                      else rs_BackendURL (rl_Static (cfg_RateLimit cfg)) in
    let backendURL := match hr_backendURL r with Some u => URL_String u | None => fromConfig end in
    let backendProto := if bool_decide (hr_backendProto r = "") then ResolvedBackendProtocol (bc_Transport (cfg_Backend cfg)) else hr_backendProto r in
    let req := hr r in
    Some (mkAccess (Method req) originalHost (URL_Path (ReqURL req)) (sw_code sw) (Milliseconds elapsed) (sw_bytesWritten sw)
            (RemoteAddr req) reqID (Header_Get (ReqHeader req) "User-Agent") proto backendURL backendProto rlKey tenantID).

(** The parts of a request a log record is made of: neither the query, nor a
    header other than the user agent, nor the body. *)
Definition logged_part (r : HTTPRequest) :=
  (Method (hr r), URL_Path (ReqURL (hr r)), RemoteAddr (hr r), Header_Get (ReqHeader (hr r)) "User-Agent",
   hr_backendURL r, hr_backendProto r).

(** What the access log says. With the log switched on every request leaves one
    record, with the recorded status and size, the backend the external service
    chose if it chose one, and otherwise the configured one; the record depends on
    the query string, on credentials in headers and on the body in no way, since
    requests that agree on method, path, peer, user agent and backend leave the
    same record. *)
Theorem access_log_contents cfg r r' proto sw host id key tenant elapsed :
  (exists e, emitAccessLog true cfg r proto sw host id key tenant elapsed = Some e
     /\ al_status e = sw_code sw /\ al_bytes e = sw_bytesWritten sw
     /\ (forall u, hr_backendURL r = Some u -> al_backend_url e = URL_String u)
     /\ (hr_backendURL r = None -> al_backend_url e
         = (if xr_Enabled (rl_External (cfg_RateLimit cfg)) then rs_BackendURL (xr_Fallback (rl_External (cfg_RateLimit cfg)))
            else rs_BackendURL (rl_Static (cfg_RateLimit cfg)))))
  /\ (logged_part r = logged_part r' ->
      emitAccessLog true cfg r proto sw host id key tenant elapsed = emitAccessLog true cfg r' proto sw host id key tenant elapsed)
  /\ emitAccessLog false cfg r proto sw host id key tenant elapsed = None.
Proof.
  unfold emitAccessLog, logged_part. cbn [negb]. split_and!; [|by intros [= -> -> -> -> -> ->]|done].
  eexists; split; [reflexivity|]. cbn. split_and!; [done|done|by intros u ->|by intros ->].
Qed.
End log.
