(* ===== verification/Admin.v ===== *)
(** * Purging caches

    [internal/server/admin.go]: the purge endpoints of the admin interface, over
    the response cache of [CacheStore] and the auth cache of the chain
    ([DeleteAuthByTag], internal/middleware/chain.go). Redis is the class
    [CacheRedis]; what a purge relies on of it is [CacheRedisLaws]. *)
From S2P Require Import Prelude GoStrings GoNet RedisClient CacheControl CacheStore CacheWriter Chain.

Local Open Scope Z_scope.

(** GET, DEL and SMEMBERS as Redis documents them, when the commands succeed. *)
Class CacheRedisLaws (W : Type) `{CacheRedis W} := {
  cr_get_pure w k : (cr_get w k).1 = w;
  cr_del_get w ks n k : (cr_del w ks).2 = Ok n -> k ∈ ks -> is_ok (cr_get (cr_del w ks).1 k).2 = false;
  cr_del_get_gone w ks k : is_ok (cr_get w k).2 = false -> is_ok (cr_get (cr_del w ks).1 k).2 = false;
  cr_smembers_pure w k : (cr_smembers w k).1 = w;
  cr_del_smembers w ks k : k ∉ ks -> (cr_smembers (cr_del w ks).1 k).2 = (cr_smembers w k).2
}.

Inductive purge_response := Purge204 | Purge404.

Section handlers.
Context {W : Type} `{CacheRedis W}.
Variable EscapedPath : URL -> string.
Variable ParseRequestURI : string -> result URL.

(** The response cache ([None]: disabled), with its Redis. *)
Definition PurgeResponseCacheURL (store : option Store) (w : W) (method : option string) (url : string)
    : option Store * W * purge_response :=
  match store with
  | None => (None, w, Purge204)
  | Some s =>
      match KeyFromURL EscapedPath (default "GET" method) (ParseRequestURI url) with
      | Err _ => (Some s, w, Purge404)
      | Ok key => let '(s, w, deleted) := Store_Delete s w key in (Some s, w, if deleted : bool then Purge204 else Purge404)
      end
  end.

Fixpoint purge_tags (s : Store) (w : W) (tags : list string) : Store * W * Z :=
  match tags with
  | [] => (s, w, 0)
  | tag :: rest =>
      let '(s, w, n) := DeleteByTag s w tag in
      let '(s, w, m) := purge_tags s w rest in (s, w, n + m)
  end.

Definition PurgeResponseCacheTags (store : option Store) (w : W) (tags : list string) : option Store * W * purge_response :=
  match store with
  | None => (None, w, Purge204)
  | Some s => let '(s, w, _) := purge_tags s w tags in (Some s, w, Purge204)
  end.

(** [client]: whether the chain has an auth cache. *)
Definition DeleteAuthByTag (client : bool) (w : W) (tag : string) : W * Z :=
  if negb client then (w, 0)
  else
    let '(w1, r) := cr_smembers w (authCacheTagPrefix +:+ tag) in
    match r with
    | Err _ => (w1, 0)
    | Ok members =>
        if bool_decide (length members = 0%nat) then (w1, 0)
        else
          let '(w2, d) := cr_del w1 members in
          let '(w3, _) := cr_del w2 [authCacheTagPrefix +:+ tag] in
          (w3, match d with Ok n => n | Err _ => 0 end)
    end.

Fixpoint PurgeAuthCacheTags (client : bool) (w : W) (tags : list string) : W :=
  match tags with [] => w | tag :: rest => PurgeAuthCacheTags client (DeleteAuthByTag client w tag).1 rest end.
End handlers.

(** ** A purged response is not served *)

Section purging.
Context {W : Type} `{CacheRedisLaws W}.
Variable decode : string -> option Entry.
Variable EscapedPath : URL -> string.
Variable ParseRequestURI : string -> result URL.
Implicit Types (w : W) (s : Store).

(** Nothing is stored under the key. *)
Definition gone w (k : string) : Prop := is_ok (cr_get w k).2 = false.
Definition members w (k : string) : list string := match (cr_smembers w k).2 with Ok l => l | Err _ => [] end.
(** What the proxy reads. *)
Definition lookup_entry s w (key : string) : option Entry := (Store_Get decode s w key).2.

Lemma gone_lookup s w key : gone w (keyPrefix +:+ key) -> lookup_entry s w key = None.
Proof.
  unfold gone, lookup_entry, Store_Get. destruct (cr_get w _) as [w' [d|e]]; [done|]. done.
Qed.

(** Purging a URL. When the purge endpoint answers 204, a request with that
    method and target finds nothing in the response cache: it goes to the
    backend, whatever variants were stored. *)
Theorem purge_url_effective s w m url so w' r rw now s2 :
  PurgeResponseCacheURL EscapedPath ParseRequestURI (Some s) w m url = (so, w', Purge204) ->
  ParseRequestURI url = Ok (ReqURL r) -> default "GET" m = Method r ->
  serveCached EscapedPath (lookup_entry s2 w') rw r now = None.
Proof.
  unfold PurgeResponseCacheURL, KeyFromURL. intros Hp Hu Hm. rewrite Hu, Hm in Hp. cbn in Hp. unfold Store_Delete in Hp.
  destruct (cr_del w _) as [w1 [n|e]] eqn:Ed; [|done]. destruct (n =? 0); [done|]. injection Hp as <- <-.
  unfold serveCached, KeyFromRequest. cbn. rewrite (gone_lookup s2 w1); [done|].
  pose proof (cr_del_get w [keyPrefix +:+ baseKey EscapedPath (Method r) (ReqURL r)] n (keyPrefix +:+ baseKey EscapedPath (Method r) (ReqURL r))) as Hg.
  rewrite Ed in Hg. apply Hg; [done|]. by left.
Qed.

Lemma keyPrefix_tagPrefix a b : keyPrefix +:+ a <> tagPrefix +:+ b.
Proof. done. Qed.

Lemma tagPrefix_inj a b : tagPrefix +:+ a = tagPrefix +:+ b -> a = b.
Proof. intros E. by apply app_inj_l_s in E. Qed.

(** All DEL commands succeed. *)
Hypothesis del_ok : forall w ks, is_ok (cr_del w ks).2 = true.

Lemma del_gone w ks k : k ∈ ks -> gone (cr_del w ks).1 k.
Proof.
  intros Hk. pose proof (del_ok w ks) as Ho. destruct (cr_del w ks).2 as [n|] eqn:E; [|done]. by eapply cr_del_get.
Qed.

Lemma DeleteByTag_spec s w tag :
  let w' := (DeleteByTag s w tag).1.2 in
  (forall k, gone w k -> gone w' k)
  /\ (forall m, m ∈ members w (tagPrefix +:+ tag) -> gone w' (keyPrefix +:+ m))
  /\ (forall tag', tag' <> tag -> members w' (tagPrefix +:+ tag') = members w (tagPrefix +:+ tag')).
Proof.
  unfold DeleteByTag, members. pose proof (cr_smembers_pure w (tagPrefix +:+ tag)) as Hp.
  destruct (cr_smembers w (tagPrefix +:+ tag)) as [w1 [ms|e]]; cbn in *; subst w1; [|split_and!; [done|intros m []%not_elem_of_nil|done]].
  case_bool_decide as Hl.
  { destruct ms; [|done]. split_and!; [done|intros m []%not_elem_of_nil|done]. }
  set (ks := map (fun m => keyPrefix +:+ m) ms).
  destruct (cr_del w ks) as [w2 d] eqn:E2. destruct (cr_del w2 [tagPrefix +:+ tag]) as [w3 d'] eqn:E3. cbn.
  assert (w2 = (cr_del w ks).1) as -> by (by rewrite E2). assert (w3 = (cr_del (cr_del w ks).1 [tagPrefix +:+ tag]).1) as -> by (by rewrite E3).
  split_and!.
  - intros k Hk. by do 2 apply cr_del_get_gone.
  - intros m Hm. apply cr_del_get_gone, del_gone. apply list_elem_of_fmap. eauto.
  - intros tag' Hne. rewrite !cr_del_smembers; [done| |].
    + intros (m & Hm & _)%list_elem_of_fmap. by apply eq_sym, keyPrefix_tagPrefix in Hm.
    + intros Heq%list_elem_of_singleton. by apply tagPrefix_inj in Heq.
Qed.

Lemma purge_tags_gone tags : forall s w k, gone w k -> gone (purge_tags s w tags).1.2 k.
Proof.
  induction tags as [|t tags IH]; intros s w k Hk; [done|]. cbn. pose proof (DeleteByTag_spec s w t) as (Hg & _).
  destruct (DeleteByTag s w t) as [[s1 w1] n]. specialize (IH s1 w1 k (Hg k Hk)). by destruct (purge_tags s1 w1 tags) as [[s2 w2] z].
Qed.

(** Purging tags. After the endpoint has purged a list of surrogate keys, no
    entry that was filed under one of them can be read any more, in whatever
    order and however often the tags are named. *)
Theorem purge_tags_effective s w tags tag m so w' s2 :
  PurgeResponseCacheTags (Some s) w tags = (so, w', Purge204) ->
  tag ∈ tags -> m ∈ members w (tagPrefix +:+ tag) -> lookup_entry s2 w' m = None.
Proof.
  unfold PurgeResponseCacheTags. destruct (purge_tags s w tags) as [[s1 w1] n] eqn:E. intros [= <- <-] Ht Hm.
  apply gone_lookup. assert (w1 = (purge_tags s w tags).1.2) as -> by (by rewrite E). clear E. revert s w Hm Ht.
  induction tags as [|t tags IH]; intros s w Hm Ht; [by apply elem_of_nil in Ht|]. cbn.
  pose proof (DeleteByTag_spec s w t) as (_ & Hg & Hk). destruct (DeleteByTag s w t) as [[s3 w3] z]. cbn in *.
  assert (gone (purge_tags s3 w3 tags).1.2 (keyPrefix +:+ m)) as Hf.
  { destruct (decide (tag = t)) as [->|Hne]; [by apply purge_tags_gone, Hg|]. apply IH; [by rewrite Hk|].
    apply elem_of_cons in Ht as [|]; done. }
  by destruct (purge_tags s3 w3 tags) as [[s4 w4] z'].
Qed.

(** The auth cache: decisions filed under the tag are gone. *)
Lemma DeleteAuthByTag_spec w tag m :
  m ∈ members w (authCacheTagPrefix +:+ tag) -> gone (DeleteAuthByTag true w tag).1 m.
Proof.
  unfold DeleteAuthByTag, members. cbn. pose proof (cr_smembers_pure w (authCacheTagPrefix +:+ tag)) as Hp.
  destruct (cr_smembers w _) as [w1 [ms|e]]; cbn in *; subst w1; [|by intros ?%elem_of_nil]. intros Hm.
  case_bool_decide as Hl; [by destruct ms; [apply elem_of_nil in Hm|]|].
  destruct (cr_del w ms) as [w2 d] eqn:E2. destruct (cr_del w2 _) as [w3 d'] eqn:E3. cbn.
  assert (w2 = (cr_del w ms).1) as -> by (by rewrite E2). replace w3 with (cr_del (cr_del w ms).1 [authCacheTagPrefix +:+ tag]).1 by (by rewrite E3).
  by apply cr_del_get_gone, del_gone.
Qed.
End purging.

(** ** A Redis of two maps *)

Record map_redis := mkMapRedis { mr_vals : gmap string string; mr_sets : gmap string (list string) }.

Definition nil_err : error := mkError "redis: nil" false false true false false false.

#[export] Instance map_redis_ops : CacheRedis map_redis := {|
  cr_get := fun w k => (w, match mr_vals w !! k with Some v => Ok v | None => Err nil_err end);
  cr_set := fun w k v _ => (mkMapRedis (<[k := v]> (mr_vals w)) (mr_sets w), None);
  cr_sadd := fun w k m => (mkMapRedis (mr_vals w) (<[k := m :: default [] (mr_sets w !! k)]> (mr_sets w)), None);
  cr_pttl := fun _ _ => -1;
  cr_pexpire := fun w _ _ => (w, None);
  cr_smembers := fun w k => (w, Ok (default [] (mr_sets w !! k)));
  cr_del := fun w ks =>
    (mkMapRedis (foldr delete (mr_vals w) ks) (foldr delete (mr_sets w) ks),
     Ok (Z.of_nat (length (filter (fun k => is_Some (mr_vals w !! k) \/ is_Some (mr_sets w !! k)) ks))))
|}.

#[export] Instance map_redis_laws : CacheRedisLaws map_redis.
Proof.
  split; cbn.
  - done.
  - intros w ks n k _ Hk. by rewrite lookup_foldr_delete.
  - intros w ks k Hg. destruct (decide (k ∈ ks)); [by rewrite lookup_foldr_delete|]. by rewrite lookup_foldr_delete_not_elem_of.
  - done.
  - intros w ks k Hk. by rewrite lookup_foldr_delete_not_elem_of.
Qed.

Lemma map_redis_del (w : map_redis) ks : is_ok (cr_del w ks).2 = true.
Proof. done. Qed.

Module PurgeDemo.
Definition path (u : URL) : string := URL_Path u.
Definition parse (s : string) : result URL := Ok (mkURL "" "" s "").
Definition decode (d : string) : option Entry := Some (mkEntry 200 ∅ d [] [] 0).
Definition redis : map_redis :=
  mkMapRedis {[ keyPrefix +:+ "GET|/a" := "A"; keyPrefix +:+ "GET|/b" := "B" ]} {[ tagPrefix +:+ "t" := ["GET|/b"] ]}.
Definition request : Request := mkRequest "GET" (mkURL "" "" "/a" "") "/a" "h" "1.2.3.4:5" ∅ 1 false 0.
Definition store : Store := NewStore None.
Definition after_url : map_redis := (PurgeResponseCacheURL path parse (Some store) redis None "/a").1.2.
Definition after_tags : map_redis := (PurgeResponseCacheTags (Some store) redis ["u"; "t"; "t"]).1.2.
End PurgeDemo.

Lemma purge_url_effective_witness :
  lookup_entry PurgeDemo.decode PurgeDemo.store PurgeDemo.redis "GET|/a" <> None
  /\ serveCached PurgeDemo.path (lookup_entry PurgeDemo.decode PurgeDemo.store PurgeDemo.after_url) (mkRW ∅ []) PurgeDemo.request 0 = None.
Proof.
  split; [vm_compute; discriminate|].
  eapply (purge_url_effective PurgeDemo.decode PurgeDemo.path PurgeDemo.parse PurgeDemo.store PurgeDemo.redis None "/a");
    vm_compute; reflexivity.
Defined.

Lemma purge_tags_effective_witness :
  lookup_entry PurgeDemo.decode PurgeDemo.store PurgeDemo.redis "GET|/b" <> None
  /\ lookup_entry PurgeDemo.decode PurgeDemo.store PurgeDemo.after_tags "GET|/b" = None.
Proof.
  split; [vm_compute; discriminate|].
  eapply (purge_tags_effective PurgeDemo.decode map_redis_del PurgeDemo.store PurgeDemo.redis ["u"; "t"; "t"] "t" "GET|/b");
    [vm_compute; reflexivity|right; left|left].
Defined.
