(* ===== verification/Transport.v ===== *)
(** * Backend transports

    The transport layer of [internal/proxy/proxy.go]: the transports a proxy
    builds, how each of them reaches a backend, which one a request uses, and
    the reader that bounds request bodies. DNS and the TLS probe of a backend
    are arguments; an established connection is what was dialed and whether TLS
    was spoken on it. *)
From S2P Require Import Prelude GoStrings GoNet ConfigTypes Config UrlPolicy Chain.
From Stdlib Require Import Ascii.

Local Open Scope Z_scope.

(** ** Request bodies *)

(** [countingReader]; the inner reader is the bytes it has left. *)
Record countingReader := mkCountingReader {
  cr_rc : string;
  cr_read : Z;
  cr_limit : Z;
  cr_limited : bool
}.

(** [Read(p)] of which the inner reader delivers at most [n] bytes: the bytes, and
    whether the read fails with the size error. *)
Definition cr_Read (cr : countingReader) (n : nat) : countingReader * string * bool :=
  let got := String.substring 0 n (cr_rc cr) in
  let rest := String.substring n (String.length (cr_rc cr) - n) (cr_rc cr) in
  let read := cr_read cr + len got in
  if (0 <? cr_limit cr) && (cr_limit cr <? read)
  then (mkCountingReader rest read (cr_limit cr) true, got, true)
  else (mkCountingReader rest read (cr_limit cr) (cr_limited cr), got, false).

(** [streamingTransport.RoundTrip]: what happens to a request body. *)
Definition streaming_body (maxBytes : Z) (body : option string) : option countingReader :=
  b ← body; Some (mkCountingReader b 0 maxBytes false).
Definition streaming_length (body : option string) (contentLength : Z) : Z :=
  match body with Some _ => -1 | None => contentLength end.

(** ** Transports *)

Inductive transport := H1 | H2 | H3.
#[export] Instance transport_eq_dec : EqDecision transport.
Proof. solve_decision. Defined.

Record transportSet := mkTransportSet {
  ts_denyPrivate : bool;          (* SafeDialer.Enabled of h1 and h2 *)
  ts_cleartext : bool;            (* the h2 dialer never starts TLS *)
  ts_h3 : bool;                   (* h3 != nil *)
  ts_udpConn : bool;              (* quicT and udpConn != nil *)
  ts_responseTimeout : Z;
  ts_dialTimeout : Z;
  ts_idleConnTimeout : Z;
  ts_maxIdleConns : Z
}.

(** [d, _ := config.ParseDuration(s, def)] *)
Definition duration_or_zero (s : string) (def : Z) : Z := match ParseDuration s def with Ok d => d | Err _ => 0 end.

(** [udp_ok]: [net.ListenUDP] succeeds. *)
Definition buildTransports (targetScheme : string) (cfg : TransportConfig) (responseTimeout maxIdleConns idleConnTimeout : Z)
    (denyPrivateNetworks udp_ok : bool) : transportSet :=
  let backendIsCleartext := bool_decide (targetScheme = "http") || bool_decide (targetScheme = "ws") in
  let buffers := (0 <? tc_H3UDPReceiveBufferSize cfg) || (0 <? tc_H3UDPSendBufferSize cfg) in
  mkTransportSet denyPrivateNetworks backendIsCleartext (negb backendIsCleartext)
    (negb backendIsCleartext && buffers && udp_ok)
    responseTimeout (duration_or_zero (tc_DialTimeout cfg) (30 * Second)) idleConnTimeout maxIdleConns.

(** A connection attempt: refused, or an address with or without TLS. *)
Inductive connection := NoConn | Plain (d : dial) | OverTLS (d : dial) | OverQUIC (addr : string).

Section dialing.
Variable LookupIP : string -> result (list IP).

Definition over (tls : bool) (d : dial) : connection :=
  match d with Blocked => NoConn | _ => if tls then OverTLS d else Plain d end.

(** How a transport connects to [addr] for a request whose URL has scheme
    [scheme]: HTTP/1 starts TLS for https, HTTP/2 by the scheme the proxy was
    built for, HTTP/3 dials by itself. *)
Definition dial_backend (ts : transportSet) (t : transport) (scheme addr : string) : connection :=
  match t with
  | H1 => over (bool_decide (scheme = "https")) (SafeDialer_DialContext LookupIP (ts_denyPrivate ts) addr)
  | H2 => over (negb (ts_cleartext ts)) (SafeDialer_DialContext LookupIP (ts_denyPrivate ts) addr)
  | H3 => OverQUIC addr
  end.

(** [dialWebSocketBackend]. *)
Definition dialWebSocketBackend (denyPrivate : bool) (effective : URL) : connection :=
  over (bool_decide (URL_Scheme effective = "https")) (SafeDialer_DialContext LookupIP denyPrivate (URL_Host effective)).
End dialing.

(** ** Choosing a transport *)

Section probing.
(** The protocol a TLS handshake with the address negotiates; [None]: it fails. *)
Variable ALPN : string -> option string.

Definition probeBackendProtocol (scheme : string) (target : URL) : transport :=
  if bool_decide (scheme = "http") || bool_decide (scheme = "ws") then H1
  else
    let addr := if Contains (URL_Host target) ":" then URL_Host target else URL_Host target +:+ ":443" in
    match ALPN addr with
    | Some negotiated => if bool_decide (negotiated = "h2") then H2 else H1
    | None => H1
    end.

(** The default transport and the mode of [protocolAwareTransport]. *)
Definition resolveBackendTransportMode (cfg : TransportConfig) (scheme : string) (target : option URL) (h3 : bool)
    : transport * string :=
  let proto := ResolvedBackendProtocol cfg in
  if bool_decide (proto = "h1") then (H1, proto)
  else if bool_decide (proto = "h2") then (H2, proto)
  else if bool_decide (proto = "h3") then if h3 then (H3, proto) else (H1, "h1")
  else match target with
       | None => (H1, "auto")
       | Some u => (probeBackendProtocol scheme u, "auto")
       end.
End probing.

Record protocolAwareTransport := mkPAT { pt_default : transport; pt_h3 : bool; pt_mode : string }.

Definition roundTripForProtocol (t : protocolAwareTransport) (proto : string) : transport :=
  if bool_decide (proto = "h2") then H2
  else if bool_decide (proto = "h3") then if pt_h3 t then H3 else pt_default t
  else if bool_decide (proto = "h1") then H1
  else pt_default t.

(** The transport of a request with the given override. *)
Definition pat_RoundTrip (t : protocolAwareTransport) (req : Request) (override : string) : transport :=
  if IsGRPC req then H2
  else if negb (bool_decide (override = "")) then roundTripForProtocol t override
  else if bool_decide (pt_mode t = "auto") && (ProtoMajor req =? 2) then H2
  else pt_default t.

(** ** Body limit *)

(** Reads of given sizes until one fails: what was delivered by reads that
    succeeded, what the failing read delivered, and whether one failed. *)
Fixpoint read_all (cr : countingReader) (sizes : list nat) : countingReader * string * string * bool :=
  match sizes with
  | [] => (cr, "", "", false)
  | n :: rest =>
      let '(cr', got, failed) := cr_Read cr n in
      if failed : bool then (cr', "", got, true)
      else let '(cr'', ok, last, f) := read_all cr' rest in (cr'', got +:+ ok, last, f)
  end.

Lemma substring_all_length n s : (String.length (String.substring 0 n s) <= n)%nat.
Proof. revert n. induction s as [|c s IH]; intros [|n]; cbn; try lia. specialize (IH n). lia. Qed.

Lemma cr_Read_spec cr n cr' got failed :
  cr_Read cr n = (cr', got, failed) ->
  cr_read cr' = cr_read cr + len got /\ cr_limit cr' = cr_limit cr /\ len got <= Z.of_nat n
  /\ failed = ((0 <? cr_limit cr) && (cr_limit cr <? cr_read cr')).
Proof.
  unfold cr_Read. pose proof (substring_all_length n (cr_rc cr)). unfold len.
  destruct (_ && _) eqn:E; intros [= <- <- <-]; cbn; rewrite E; split_and!; (done || lia).
Qed.

(** The body limit holds while streaming. However a request body is read (any
    sequence of read sizes), the bytes delivered by successful reads never
    exceed the configured limit; the read that crosses it fails, delivers at
    most its own buffer, and every later read fails too. *)
Theorem body_limit_enforced body limit sizes cr ok last failed :
  0 < limit -> read_all (mkCountingReader body 0 limit false) sizes = (cr, ok, last, failed) ->
  len ok <= limit
  /\ (failed = false -> last = "" /\ cr_read cr = len ok)
  /\ (failed = true -> exists n, n ∈ sizes /\ len last <= Z.of_nat n /\ limit < len ok + len last
      /\ forall m, exists cr' got, cr_Read cr m = (cr', got, true)).
Proof.
  intros Hl. assert (forall sizes c, cr_limit c = limit -> 0 <= cr_read c <= limit -> forall cr ok last failed,
    read_all c sizes = (cr, ok, last, failed) ->
    cr_limit cr = limit /\ cr_read c + len ok <= limit /\ cr_read cr = cr_read c + len ok + len last
    /\ (failed = false -> last = "")
    /\ (failed = true -> exists n, n ∈ sizes /\ len last <= Z.of_nat n /\ limit < cr_read c + len ok + len last)) as Hgen.
  { clear -Hl. induction sizes as [|n sizes IH]; intros c Hc Hr cr ok last failed; cbn.
    - intros [= <- <- <- <-]. unfold len. cbn. split_and!; (done || lia).
    - destruct (cr_Read c n) as [[c1 got] f] eqn:E. apply cr_Read_spec in E as (E1 & E2 & E3 & E4).
      assert (0 <= len got) by apply len_nonneg. destruct f.
      + intros [= <- <- <- <-]. symmetry in E4. apply andb_true_iff in E4 as [_ E4]. apply Z.ltb_lt in E4. change (len "") with 0.
        split_and!; [congruence|lia|lia|done|]. intros _. exists n. split_and!; [left|done|lia].
      + destruct (read_all c1 sizes) as [[[c2 ok2] last2] f2] eqn:E5. intros [= <- <- <- <-].
        assert (0 <= cr_read c1 <= limit) as Hr1.
        { symmetry in E4. rewrite Hc in E4. apply andb_false_iff in E4 as [E4|E4]; [apply Z.ltb_ge in E4|apply Z.ltb_ge in E4]; lia. }
        destruct (IH c1 ltac:(congruence) Hr1 _ _ _ _ E5) as (H1 & H2 & H3 & H4 & H5). rewrite len_app.
        split_and!; [done|lia|lia|done|]. intros Hf. destruct (H5 Hf) as (m & Hm & ? & ?). exists m. split_and!; [by right|done|lia]. }
  intros Hr. destruct (Hgen sizes (mkCountingReader body 0 limit false) eq_refl ltac:(cbn; lia) _ _ _ _ Hr) as (H1 & H2 & H3 & H4 & H5). cbn in *.
  split_and!; [lia|intros Hf; specialize (H4 Hf); subst last; split; [done|]; unfold len in *; cbn in *; lia|].
  intros Hf. destruct (H5 Hf) as (n & Hn & Hn2 & Hn3). exists n. split_and!; [done|done|lia|]. intros m.
  destruct (cr_Read cr m) as [[cr' got] f] eqn:E. exists cr', got. apply cr_Read_spec in E as (E1 & E2 & _ & E4).
  assert (0 <= len got) by apply len_nonneg. assert (f = true) as ->; [|done]. rewrite E4.
  apply andb_true_iff. rewrite !Z.ltb_lt. lia.
Qed.

Lemma body_limit_enforced_witness :
  exists cr ok last, read_all (mkCountingReader "abcdefgh" 0 5 false) [3; 3; 3]%nat = (cr, ok, last, true)
    /\ ok = "abc" /\ last = "def" /\ len ok <= 5.
Proof.
  eexists _, _, _. split; [vm_compute; reflexivity|]. split; [reflexivity|]. split; [reflexivity|].
  eapply (body_limit_enforced "abcdefgh" 5 [3; 3; 3]%nat); [reflexivity|vm_compute; reflexivity].
Defined.

(** ** Where connections go *)

(** The inner dialer is given a public address. *)
Definition dials_public (d : dial) : Prop :=
  match d with
  | DialIP ip _ => IsPrivateIP ip = false
  | DialHost a => exists host port ip, SplitHostPort a = Some (host, port) /\ ParseIP host = Some ip /\ IsPrivateIP ip = false
  | Blocked => True
  end.
Definition connects_public (c : connection) : Prop :=
  match c with Plain d | OverTLS d => dials_public d | NoConn => True | OverQUIC _ => False end.

Lemma SafeDialer_public L addr hp : SplitHostPort addr = Some hp -> dials_public (SafeDialer_DialContext L true addr).
Proof.
  destruct hp as [host port]. intros Hs. unfold SafeDialer_DialContext. cbn [negb]. rewrite Hs. destruct (ParseIP host) as [ip|] eqn:Hp.
  { destruct (IsPrivateIP ip) eqn:Hi; [done|]. cbn. eauto 6. }
  destruct (L host) as [ips|]; [|done]. pose proof (first_public_spec ips) as Hf. destruct (first_public ips); [|done].
  cbn. naive_solver.
Qed.

Lemma over_public tls d : dials_public d -> connects_public (over tls d).
Proof. by destruct d, tls. Qed.



(** HTTP/3 dials by itself: the policy does not apply to it. *)
Lemma h3_dial_unguarded L ts : dial_backend L ts H3 "https" "127.0.0.1:443" = OverQUIC "127.0.0.1:443".
Proof. done. Qed.

(** ** The transport of a request *)

(** The transports of a proxy built for [target] (none: dynamic backends only). *)
Definition scheme_hint (target : option URL) : string := match target with Some u => URL_Scheme u | None => "http" end.
Definition build_pat (ALPN : string -> option string) (cfg : TransportConfig) (target : option URL) (ts : transportSet)
    : protocolAwareTransport :=
  let '(d, mode) := resolveBackendTransportMode ALPN cfg (scheme_hint target) target (ts_h3 ts) in
  mkPAT d (ts_h3 ts) mode.

Lemma resolve_mode_h3 ALPN cfg scheme target h3 :
  (resolveBackendTransportMode ALPN cfg scheme target h3).1 = H3 -> h3 = true.
Proof.
  unfold resolveBackendTransportMode, probeBackendProtocol. repeat case_match; cbn; congruence.
Qed.

(** The transport of a request. gRPC always uses HTTP/2; otherwise a valid
    per-request override decides, an unavailable HTTP/3 falling back to the
    default; otherwise HTTP/2 requests keep HTTP/2 in automatic mode, and
    everything else uses the default transport. A transport that was not built
    is never used. *)
Theorem transport_choice ALPN cfg target ts req override :
  let t := build_pat ALPN cfg target ts in
  let choice := pat_RoundTrip t req override in
  (choice = H3 -> ts_h3 ts = true)
  /\ (IsGRPC req = true -> choice = H2)
  /\ (IsGRPC req = false -> override = "h1" -> choice = H1)
  /\ (IsGRPC req = false -> override = "h2" -> choice = H2)
  /\ (IsGRPC req = false -> override = "h3" -> choice = if ts_h3 ts then H3 else pt_default t)
  /\ (IsGRPC req = false -> override = "" -> choice = if bool_decide (pt_mode t = "auto") && (ProtoMajor req =? 2) then H2 else pt_default t).
Proof.
  intros t choice. assert (pt_default t = H3 -> ts_h3 ts = true) as Hd.
  { subst t. unfold build_pat. pose proof (resolve_mode_h3 ALPN cfg (scheme_hint target) target (ts_h3 ts)) as H.
    by destruct (resolveBackendTransportMode _ _ _ _ _). }
  assert (pt_h3 t = ts_h3 ts) as Ht by (subst t; unfold build_pat; by destruct (resolveBackendTransportMode _ _ _ _ _)).
  subst choice. unfold pat_RoundTrip, roundTripForProtocol. rewrite Ht. clearbody t. destruct (IsGRPC req).
  - split_and!; done.
  - split_and!; try (by intros; subst); intros; subst; cbn; try done.
    destruct (bool_decide (override = "")) eqn:E0, (bool_decide (override = "h2")), (bool_decide (override = "h3")),
      (bool_decide (override = "h1")), (ts_h3 ts), (bool_decide (pt_mode t = "auto") && (ProtoMajor req =? 2)); cbn in *; auto; congruence.
Qed.

(** TLS to dynamic HTTP/2 backends is lost. The HTTP/2 dialer decides about TLS
    from the scheme of the default backend, not of the request: when the proxy
    was built for an http backend or for none, a gRPC request (or one with an
    HTTP/2 override) whose backend URL is https is sent in clear text. *)
Theorem h2_https_in_clear L ALPN cfg target tmo idle ict deny udp req override addr :
  scheme_hint target = "http" -> IsGRPC req = true \/ override = "h2" ->
  let ts := buildTransports (scheme_hint target) cfg tmo idle ict deny udp in
  exists c, dial_backend L ts (pat_RoundTrip (build_pat ALPN cfg target ts) req override) "https" addr = c
    /\ match c with OverTLS _ | OverQUIC _ => False | _ => True end.
Proof.
  intros Hh Hreq ts. eexists. split; [reflexivity|].
  assert (pat_RoundTrip (build_pat ALPN cfg target ts) req override = H2) as ->.
  { unfold pat_RoundTrip. destruct (IsGRPC req); [done|]. destruct Hreq as [|Hreq]; [done|]. by subst override. }
  subst ts. rewrite Hh. cbn. by destruct (SafeDialer_DialContext L deny addr).
Qed.

Lemma h2_https_in_clear_witness :
  let req := mkRequest "POST" (mkURL "" "" "/svc" "") "/svc" "api" "1.2.3.4:5"
    (Header_Set ∅ "Content-Type" "application/grpc") 2 true 0 in
  let ts := buildTransports "http" (bc_Transport (cfg_Backend Defaults)) 0 0 0 true false in
  exists c, dial_backend rebinding_resolver ts
      (pat_RoundTrip (build_pat (fun _ => None) (bc_Transport (cfg_Backend Defaults)) None ts) req "") "https" "evil.example:443" = c
    /\ c = Plain (DialIP [93; 184; 216; 34] "443") /\ match c with OverTLS _ | OverQUIC _ => False | _ => True end.
Proof.
  intros req ts.
  destruct (h2_https_in_clear rebinding_resolver (fun _ => None) (bc_Transport (cfg_Backend Defaults)) None 0 0 0 true false
    req "" "evil.example:443") as (c & Hc & Hm); [reflexivity|left; vm_compute; reflexivity|].
  exists c. split; [exact Hc|]. split; [rewrite <- Hc; vm_compute; reflexivity|exact Hm].
Defined.
