(* ===== verification/Proxy.v ===== *)
(** * The reverse proxy

    [internal/proxy/proxy.go]: construction, the rewriting of requests, the HTTP
    and WebSocket handlers and the drain protocol of [Close]. The part of
    [net/http/httputil.ReverseProxy] the proxy relies on (the outgoing request,
    the relayed response, the error handler) is modelled as that package
    documents it. Backends are the argument [exchange]; the trace propagator is
    [Inject]. The response cache is the one of [CacheWriter], the WebSocket
    limiter the one of [WSLimiter], dialing the one of [Transport]. *)
From S2P Require Import Prelude GoStrings GoNet ConfigTypes Config UrlPolicy WSLimiter CacheControl CacheStore CacheWriter Chain Transport.
From Stdlib Require Import Ascii.

Local Open Scope Z_scope.

(** ** Rewriting *)

Definition singleJoiningSlash (a b : string) : string :=
  let aslash := HasSuffix a "/" in
  let bslash := HasPrefix b "/" in
  if aslash && bslash then a +:+ slice_from b 1
  else if negb aslash && negb bslash then a +:+ "/" +:+ b
  else a +:+ b.

Definition setForwardingHeaders (req : Request) : Header :=
  let h := ReqHeader req in
  let h := if bool_decide (Header_Get h "X-Forwarded-Host" = "") then Header_Set h "X-Forwarded-Host" (Host req) else h in
  if bool_decide (Header_Get h "X-Forwarded-Proto" = "")
  then Header_Set h "X-Forwarded-Proto" (if ReqTLS req then "https" else "http") else h.

Definition setForwardedFor (remoteAddr : string) (h : Header) : Header :=
  match SplitHostPort remoteAddr with
  | None => h
  | Some (clientIP, _) =>
      let prior := Header_Get h "X-Forwarded-For" in
      Header_Set h "X-Forwarded-For" (if bool_decide (prior = "") then clientIP else prior +:+ ", " +:+ clientIP)
  end.

Definition with_url (r : Request) (u : URL) : Request :=
  mkRequest (Method r) u (RequestURI r) (Host r) (RemoteAddr r) (ReqHeader r) (ProtoMajor r) (ReqTLS r) (ContentLength r).
Definition with_host (r : Request) (h : string) : Request :=
  mkRequest (Method r) (ReqURL r) (RequestURI r) h (RemoteAddr r) (ReqHeader r) (ProtoMajor r) (ReqTLS r) (ContentLength r).

Section rewriting.
Variable Inject : Header -> Header.            (* the trace propagator *)

(** The backend of a request: its own or the default one. *)
Definition effective_backend (target : option URL) (r : HTTPRequest) : option URL :=
  match hr_backendURL r with Some u => Some u | None => target end.

Definition Director (target : option URL) (r : HTTPRequest) : Request :=
  let req := hr r in
  match effective_backend target r with
  | None => req
  | Some u =>
      let path := if negb (bool_decide (URL_Path u = "")) && negb (bool_decide (URL_Path u = "/"))
                  then singleJoiningSlash (URL_Path u) (URL_Path (ReqURL req)) else URL_Path (ReqURL req) in
      let req := with_url req (mkURL (URL_Scheme u) (URL_Host u) path (URL_RawQuery (ReqURL req))) in
      with_header req (Inject (setForwardingHeaders req))
  end.

(** ** [httputil.ReverseProxy] *)

Definition hopHeaders : list string :=
  ["Connection"; "Proxy-Connection"; "Keep-Alive"; "Proxy-Authenticate"; "Proxy-Authorization"; "Te"; "Trailer";
   "Transfer-Encoding"; "Upgrade"].

(** The comma-separated tokens of a header. *)
Definition header_tokens (h : Header) (k : string) : list string :=
  map TrimSpace (concat (map (Split ",") (Header_Values h k))).
Definition contains_token (h : Header) (k token : string) : bool := existsb (EqualFold token) (header_tokens h k).

Definition removeHopByHopHeaders (h : Header) : Header :=
  let h := foldl (fun h t => if bool_decide (t = "") then h else Header_Del h t) h (header_tokens h "Connection") in
  foldl Header_Del h hopHeaders.

Definition upgradeType (h : Header) : string :=
  if contains_token h "Connection" "Upgrade" then Header_Get h "Upgrade" else "".

(** [X-Forwarded-For] on the HTTP path: all prior values and the peer. *)
Definition append_forwarded_for (remoteAddr : string) (h : Header) : Header :=
  match SplitHostPort remoteAddr with
  | None => h
  | Some (clientIP, _) =>
      let prior := Header_Values h "X-Forwarded-For" in
      Header_Set h "X-Forwarded-For"
        (if bool_decide (prior = []) then clientIP else Join ", " prior +:+ ", " +:+ clientIP)
  end.

(** The request the transport gets. *)
Definition outgoing (target : option URL) (r : HTTPRequest) : Request :=
  let out := Director target r in
  let up := upgradeType (ReqHeader out) in
  let h := removeHopByHopHeaders (ReqHeader out) in
  let h := if contains_token (ReqHeader (hr r)) "Te" "trailers" then Header_Set h "Te" "trailers" else h in
  let h := if bool_decide (up = "") then h else Header_Set (Header_Set h "Connection" "Upgrade") "Upgrade" up in
  let h := append_forwarded_for (RemoteAddr (hr r)) h in
  let h := match h !! "User-Agent" with Some _ => h | None => Header_Set h "User-Agent" "" end in
  with_header out h.
End rewriting.

(** A backend's answer: status, headers, the body as it is copied (each piece with
    how much of it the client's connection accepts) and whether the copy is cut
    short. *)
Record backend_response := mkBackendResponse {
  br_status : Z;
  br_header : Header;
  br_body : list (string * nat);
  br_aborted : bool
}.

Definition ModifyResponse (h : Header) : Header := Header_Del (Header_Del h "Alt-Svc") "X-Request-Id".

(** What relaying a response does to the response writer. *)
Definition relay (resp : backend_response) : list action :=
  let h := ModifyResponse (removeHopByHopHeaders (br_header resp)) in
  AHeader (fun w => add_headers w h) :: AWriteHeader (br_status resp) :: map (fun p => AWrite p.1 p.2) (br_body resp).

Definition isClientDisconnect (e : error) : bool :=
  err_canceled e || Contains (err_msg e) "client disconnected" || Contains (err_msg e) "connection reset by peer"
  || Contains (err_msg e) "broken pipe".

(** [ErrorHandler]. *)
Definition error_actions (e : error) : list action := if isClientDisconnect e then [] else [AWriteHeader 502].

(** ** The proxy *)

Record Proxy := mkProxy {
  px_backendURL : option URL;
  px_ts : transportSet;
  px_pat : protocolAwareTransport;
  px_backendTLSInsecure : bool;
  px_denyPrivateNetworks : bool;
  px_wsDialTimeout : Z;
  px_wsLimiter : option WSLimiter;
  px_maxRequestBodySize : Z;
  px_maxWSTransferBytes : Z;
  px_wsIdleTimeout : Z;
  px_allowedWSOrigins : gset string
}.

Definition set_wsLimiter (l : option WSLimiter) (p : Proxy) : Proxy :=
  mkProxy (px_backendURL p) (px_ts p) (px_pat p) (px_backendTLSInsecure p) (px_denyPrivateNetworks p) (px_wsDialTimeout p) l
    (px_maxRequestBodySize p) (px_maxWSTransferBytes p) (px_wsIdleTimeout p) (px_allowedWSOrigins p).

(** The values the options of [New] set. *)
Record proxyOptions := mkProxyOptions {
  po_tlsInsecure : bool;
  po_wsLimiter : Z;
  po_maxRequestBodySize : Z;
  po_maxWSTransferBytes : Z;
  po_wsIdleTimeout : Z;
  po_denyPrivateNetworks : bool;
  po_allowedWSOrigins : list string
}.

(** [strings.ToLower(strings.TrimRight(o, "/"))] *)
Definition normalize_origin (o : string) : string := ToLower (trim_right (fun c => bool_decide (c = "/"%char)) o).

Section construction.
Variable url_Parse : string -> result URL.
Variable ALPN : string -> option string.

Definition New (backendURL : string) (timeout maxIdleConns idleConnTimeout : Z) (cfg : TransportConfig) (o : proxyOptions)
    (udp_ok : bool) : result Proxy :=
  target ← (if bool_decide (backendURL = "") then Ok None
            else match url_Parse backendURL with
                 | Ok u => Ok (Some u)
                 | Err e => Err (wrapf "invalid backend URL" e)
                 end);
  match ValidateBackendProtocol cfg with
  | Some e => Err e
  | None =>
      let ts := buildTransports (scheme_hint target) cfg timeout maxIdleConns idleConnTimeout (po_denyPrivateNetworks o) udp_ok in
      Ok (mkProxy target ts (build_pat ALPN cfg target ts) (po_tlsInsecure o) (po_denyPrivateNetworks o)
            (duration_or_zero (tc_WebSocketDialTimeout cfg) (10 * Second))
            (if 0 <? po_wsLimiter o then Some (NewWSLimiter (po_wsLimiter o)) else None)
            (po_maxRequestBodySize o) (po_maxWSTransferBytes o) (po_wsIdleTimeout o)
            (list_to_set (map normalize_origin (po_allowedWSOrigins o))))
  end.

(** [buildProxy] of internal/server/server.go. *)
Definition buildProxy (cfg : Config) (udp_ok : bool) : result Proxy :=
  let b := cfg_Backend cfg in
  let s := cfg_Server cfg in
  let ext := rl_External (cfg_RateLimit cfg) in
  let maxIdleConns := if bc_MaxIdleConns b <=? 0 then 100 else bc_MaxIdleConns b in
  let defaultBackendURL := if xr_Enabled ext then rs_BackendURL (xr_Fallback ext) else rs_BackendURL (rl_Static (cfg_RateLimit cfg)) in
  let positive (n : Z) := if 0 <? n then n else 0 in
  let o := mkProxyOptions (bc_TLSInsecureVerify b) (positive (sc_MaxWebSocketConnsPerKey s)) (positive (bc_MaxRequestBodySize b))
             (positive (sc_MaxWebSocketTransferBytes s))
             (positive (duration_or_zero (sc_WebSocketIdleTimeout s) (5 * Minute)))
             (DenyPrivateNetworksEnabled (bc_URLPolicy b) && xr_Enabled ext)
             (sc_AllowedWebSocketOrigins s) in
  match New defaultBackendURL (duration_or_zero (bc_Timeout b) (30 * Second)) maxIdleConns
          (duration_or_zero (bc_IdleConnTimeout b) (90 * Second)) (bc_Transport b) o udp_ok with
  | Ok p => Ok p
  | Err e => Err (wrapf "create proxy" e)
  end.
End construction.

(** ** HTTP requests *)

(** The plain response writer under an upstream handler. *)
Definition act_plain (w : ResponseWriter) (a : action) : ResponseWriter :=
  match a with
  | AHeader f => rw_set w (f (rw_header w))
  | AWriteHeader code => rw_WriteHeader w code
  | AWrite b n => rw_Write w (String.substring 0 n b)
  end.

(** [http.Error]. *)
Definition http_Error (w : ResponseWriter) (msg : string) (code : Z) : ResponseWriter :=
  let h := Header_Del (rw_header w) "Content-Length" in
  let h := Header_Set (Header_Set h "Content-Type" "text/plain; charset=utf-8") "X-Content-Type-Options" "nosniff" in
  let nl := String (ascii_of_nat 10) "" in
  rw_Write (rw_WriteHeader (rw_set w h) code) (msg +:+ nl).

Section http.
Variable Inject : Header -> Header.
Variable exchange : transport -> Request -> option countingReader -> result backend_response.
Variable EscapedPath : URL -> string.

(** The request body as the transport reads it; without a limit it is passed on
    as it is. *)
Definition transport_body (p : Proxy) (body : option string) : option countingReader :=
  streaming_body (px_maxRequestBodySize p) body.
Definition transport_request (p : Proxy) (body : option string) (req : Request) : Request :=
  if 0 <? px_maxRequestBodySize p then
    mkRequest (Method req) (ReqURL req) (RequestURI req) (Host req) (RemoteAddr req) (ReqHeader req) (ProtoMajor req) (ReqTLS req)
      (streaming_length body (ContentLength req))
  else req.

(** [p.httpProxy.ServeHTTP]: what the response writer sees, and whether the copy of
    the response was cut short (the panic with [http.ErrAbortHandler]). A request
    without backend fails in the transport. *)
Definition httpProxy_ServeHTTP (p : Proxy) (r : HTTPRequest) (body : option string) : list action * bool :=
  match effective_backend (px_backendURL p) r with
  | None => (error_actions (errorf "unsupported protocol scheme"), false)
  | Some _ =>
      let out := transport_request p body (outgoing Inject (px_backendURL p) r) in
      match exchange (pat_RoundTrip (px_pat p) out (hr_backendProto r)) out (transport_body p body) with
      | Err e => (error_actions e, false)
      | Ok resp => (relay resp, br_aborted resp)
      end
  end.

(** The response cache of the proxy: lookups and the body size it stores. *)
Record cache_store := mkCacheStore { cs_get : string -> option Entry; cs_maxBodySize : Z }.

Definition te_trailers (r : HTTPRequest) : HTTPRequest :=
  mkHTTPRequest (with_header (hr r) (Header_Set (ReqHeader (hr r)) "TE" "trailers")) (hr_tls r) (hr_body r) (hr_key r) (hr_backendURL r)
    (hr_backendProto r) (hr_timeout r).

(** [ServeHTTP] for a request that is not a WebSocket upgrade and has been
    admitted: the response writer and the writes to the cache. *)
Definition serve_admitted (p : Proxy) (store : option cache_store) (w : ResponseWriter) (r : HTTPRequest) (body : option string)
    (now : Z) : ResponseWriter * list store_write :=
  let plain := foldl act_plain w (httpProxy_ServeHTTP p r body).1 in
  if IsGRPC (hr r) then (foldl act_plain w (httpProxy_ServeHTTP p (te_trailers r) body).1, [])
  else match store with
       | None => (plain, [])
       | Some st =>
           if bool_decide (Method (hr r) = "GET") && negb (IsSSE (hr r)) then
             match serveCached EscapedPath (cs_get st) w (hr r) now with
             | Some w => (w, [])
             | None =>
                 let '(acts, aborted) := httpProxy_ServeHTTP p r body in
                 let '(cw, (_, _, writes)) := proxyWithCache (hr r) (cs_maxBodySize st) EscapedPath w acts aborted now in
                 (cw_w cw, writes)
             end
           else (plain, [])
       end.
End http.

(** ** WebSockets *)

(** What the network does during an upgrade: the dial, the write of the request,
    the hijack, and the pieces each side delivers. *)
Record ws_io := mkWSIO {
  io_connect : bool;
  io_write : bool;
  io_hijack : bool;
  io_client : list string;
  io_backend : list string
}.

Inductive ws_outcome :=
| WSError (code : Z) (msg : string)
| WSRelayed (upgrade : Request) (to_backend to_client : string).

(** [io.CopyBuffer] through an [io.LimitReader] of [left] bytes. *)
Fixpoint copy_limited (left : Z) (chunks : list string) : string :=
  match chunks with
  | [] => ""
  | c :: rest =>
      if left <=? 0 then ""
      else if left <? len c then String.substring 0 (Z.to_nat left) c
      else c +:+ copy_limited (left - len c) rest
  end.
Definition relay_direction (maxTransfer : Z) (chunks : list string) : string :=
  if 0 <? maxTransfer then copy_limited maxTransfer chunks else foldr (fun c s => c +:+ s) "" chunks.

Section websocket.
Variable Inject : Header -> Header.
Variable LookupIP : string -> result (list IP).

Definition origin_allowed (p : Proxy) (req : Request) : bool :=
  bool_decide (px_allowedWSOrigins p = ∅) || bool_decide (normalize_origin (Header_Get (ReqHeader req) "Origin") ∈ px_allowedWSOrigins p).

Definition ws_key (r : HTTPRequest) : string :=
  match hr_key r with Some k => if bool_decide (k = "") then "__unknown__" else k | None => "__unknown__" end.

(** The upgrade request written to the backend. *)
Definition ws_request (r : HTTPRequest) (u : URL) : Request :=
  let req := hr r in
  let h := Inject (setForwardedFor (RemoteAddr req) (setForwardingHeaders req)) in
  with_host (with_header (with_url req (mkURL (URL_Scheme u) (URL_Host u) (URL_Path (ReqURL req)) (URL_RawQuery (ReqURL req)))) h)
    (URL_Host u).

(** [handleWebSocket] after the connection slot has been taken. *)
Definition ws_serve (p : Proxy) (r : HTTPRequest) (io : ws_io) : ws_outcome :=
  match effective_backend (px_backendURL p) r with
  | None => WSError 502 "no backend configured"
  | Some u =>
      match dialWebSocketBackend LookupIP (px_denyPrivateNetworks p) u with
      | NoConn => WSError 502 "backend unreachable"
      | _ =>
          if negb (io_connect io) then WSError 502 "backend unreachable"
          else if negb (io_write io) then WSError 502 "backend write error"
          else if negb (io_hijack io) then WSError 500 "hijack not supported"
          else WSRelayed (ws_request r u) (relay_direction (px_maxWSTransferBytes p) (io_client io))
                 (relay_direction (px_maxWSTransferBytes p) (io_backend io))
      end
  end.

(** Taking the slot; an error answer ends the request. *)
Definition ws_enter (p : Proxy) (r : HTTPRequest) : Proxy * option ws_outcome :=
  if negb (origin_allowed p (hr r)) then (p, Some (WSError 403 "Forbidden"))
  else match px_wsLimiter p with
       | None => (p, None)
       | Some _ =>
           let '(l, ok) := Acquire (px_wsLimiter p) (ws_key r) in
           if ok : bool then (set_wsLimiter l p, None) else (p, Some (WSError 429 "too many WebSocket connections"))
       end.
Definition ws_leave (p : Proxy) (r : HTTPRequest) : Proxy :=
  match px_wsLimiter p with None => p | Some _ => set_wsLimiter (Release (px_wsLimiter p) (ws_key r)) p end.

Definition handleWebSocket (p : Proxy) (r : HTTPRequest) (io : ws_io) : Proxy * ws_outcome :=
  match ws_enter p r with
  | (p, Some out) => (p, out)
  | (p, None) => (ws_leave p r, ws_serve p r io)
  end.
End websocket.

(** The deadlines of a relayed session. [idleTimeoutReader.Read] of [n] bytes at
    time [t] moves the deadlines of both connections. *)
Record ws_deadlines := mkDeadlines { dl_client : Z; dl_backend : Z }.
Definition idle_Read (timeout t n : Z) (d : ws_deadlines) : ws_deadlines :=
  if (0 <? n) && (0 <? timeout) then mkDeadlines (t + timeout) (t + timeout) else d.

(** A session from its start: reads (from the client or the backend, at a time, of
    a size); [None] when a read comes after the deadline of its connection. *)
Fixpoint idle_run (timeout : Z) (d : ws_deadlines) (reads : list (bool * Z * Z)) : option ws_deadlines :=
  match reads with
  | [] => Some d
  | (from_client, t, n) :: rest =>
      if (if from_client : bool then dl_client d else dl_backend d) <=? t then None
      else idle_run timeout (idle_Read timeout t n d) rest
  end.

(** ** Draining *)

(** [inflight], [closing], the [Close] calls that wait, [closeOnce] and how often
    the transports have been released. *)
Record drain_state := mkDrain {
  dr_inflight : nat;
  dr_closing : bool;
  dr_waiting : nat;
  dr_closeOnce : bool;
  dr_releases : nat
}.

Inductive drain_event :=
| DAdmit                    (* ServeHTTP under the read lock *)
| DFinish                   (* deferred inflight.Done *)
| DClose                    (* Close sets [closing] under the write lock *)
| DDrained                  (* its Wait returns and it goes on to the release *)
| DDeadline.                (* its context ends first *)

(** [p.closeOnce.Do(...)] at the end of a [Close] call that has stopped waiting. *)
Definition release_once (waiting : nat) (s : drain_state) : drain_state :=
  if dr_closeOnce s then mkDrain (dr_inflight s) (dr_closing s) waiting true (dr_releases s)
  else mkDrain (dr_inflight s) (dr_closing s) waiting true (S (dr_releases s)).

(** [None]: not possible now. An admission while closing is answered with 503 and
    changes nothing. *)
Definition drain_step (e : drain_event) (s : drain_state) : option drain_state :=
  match e with
  | DAdmit =>
      if dr_closing s then Some s
      else Some (mkDrain (S (dr_inflight s)) (dr_closing s) (dr_waiting s) (dr_closeOnce s) (dr_releases s))
  | DFinish =>
      match dr_inflight s with
      | O => None
      | S n => Some (mkDrain n (dr_closing s) (dr_waiting s) (dr_closeOnce s) (dr_releases s))
      end
  | DClose => Some (mkDrain (dr_inflight s) true (S (dr_waiting s)) (dr_closeOnce s) (dr_releases s))
  | DDrained => match dr_waiting s, dr_inflight s with S w, O => Some (release_once w s) | _, _ => None end
  | DDeadline => match dr_waiting s with S w => Some (release_once w s) | O => None end
  end.

(** ** The handler *)

Inductive proxy_answer :=
| PWebSocket (o : ws_outcome)
| PServed (w : ResponseWriter) (writes : list store_write)
| PDraining (w : ResponseWriter).

Section serve.
Variable Inject : Header -> Header.
Variable exchange : transport -> Request -> option countingReader -> result backend_response.
Variable EscapedPath : URL -> string.
Variable LookupIP : string -> result (list IP).

(** [Proxy.ServeHTTP]. A WebSocket session is not counted as in flight; any other
    request is refused while the proxy is being swapped out, and is counted from
    its admission to the deferred [Done]. *)
Definition Proxy_ServeHTTP (p : Proxy) (d : drain_state) (store : option cache_store) (w : ResponseWriter) (r : HTTPRequest)
    (body : option string) (io : ws_io) (now : Z) : Proxy * option drain_state * proxy_answer :=
  if IsWebSocketUpgrade (hr r) then
    let '(p, out) := handleWebSocket Inject LookupIP p r io in (p, Some d, PWebSocket out)
  else if dr_closing d then (p, Some d, PDraining (http_Error w "proxy draining" 503))
  else
    let admitted := drain_step DAdmit d in
    let '(w, writes) := serve_admitted Inject exchange EscapedPath p store w r body now in
    (p, admitted ≫= drain_step DFinish, PServed w writes).

(** Whatever the request, the in-flight count is back where it was, and a request
    that is not an upgrade reaches the backend only while the proxy is not
    draining. *)
Lemma Proxy_ServeHTTP_balanced p d store w r body io now :
  let '(_, d', out) := Proxy_ServeHTTP p d store w r body io now in
  d' = Some d
  /\ match out with
     | PWebSocket _ => IsWebSocketUpgrade (hr r) = true
     | PServed _ _ => IsWebSocketUpgrade (hr r) = false /\ dr_closing d = false
     | PDraining _ => IsWebSocketUpgrade (hr r) = false /\ dr_closing d = true
     end.
Proof.
  unfold Proxy_ServeHTTP. destruct (IsWebSocketUpgrade (hr r)) eqn:Hw.
  - by destruct (handleWebSocket Inject LookupIP p r io).
  - destruct (dr_closing d) eqn:Hc; [done|]. destruct (serve_admitted _ _ _ _ _ _ _ _ _). cbn. rewrite Hc. cbn.
    split; [by destruct d; cbn in *; subst|done].
Qed.
End serve.
