(* ===== verification/ProxyProps.v ===== *)
(** * The reverse proxy: theorems

    What backends and clients can rely on: forwarding headers, relayed response
    headers, the response cache's place, WebSocket slots and limits, and the
    drain of a proxy that is swapped out. *)
From S2P Require Import Prelude GoStrings GoNet ConfigTypes Config UrlPolicy WSLimiter CacheControl CacheStore CacheWriter.
From S2P Require Import Chain Transport Proxy.
From Stdlib Require Import Ascii.

Local Open Scope Z_scope.

(** ** Paths *)

Lemma HasSuffix_slash a : HasSuffix a "/" = true -> exists a', a = a' +:+ "/".
Proof.
  induction a as [|c a IH]; cbn; [done|]. destruct (bool_decide_reflect (String c a = "/")) as [E|E]; cbn.
  - intros _. by exists "".
  - intros (a' & ->)%IH. by exists (String c a').
Qed.

Lemma TrimSuffix_slash a : TrimSuffix (a +:+ "/") "/" = a.
Proof.
  unfold TrimSuffix. assert (HasSuffix (a +:+ "/") "/" = true) as ->.
  { induction a as [|c a IH]; [done|]. rewrite app_cons_s. cbn. by rewrite IH, orb_true_r. }
  rewrite length_app_s. cbn. assert (String.length a + 1 - 1 = String.length a)%nat as -> by lia. apply substring_app.
Qed.

(** Joining a backend path and a request path puts exactly one of their slashes
    between them. *)
Lemma singleJoiningSlash_spec a b : singleJoiningSlash a b = TrimSuffix a "/" +:+ "/" +:+ TrimPrefix b "/".
Proof.
  unfold singleJoiningSlash. destruct b as [|c b].
  - destruct (HasSuffix a "/") eqn:Ea; cbn.
    + apply HasSuffix_slash in Ea as (a' & ->). by rewrite TrimSuffix_slash, app_s_nil.
    + unfold TrimSuffix. by rewrite Ea.
  - assert (HasPrefix (String c b) "/" = bool_decide (c = "/"%char)) as ->.
    { unfold HasPrefix. cbn [String.prefix]. destruct (ascii_dec _ c) as [<-|Hn].
      - rewrite bool_decide_eq_true_2 by done. by destruct b.
      - by rewrite bool_decide_eq_false_2 by congruence. }
    unfold TrimPrefix. cbn [CutPrefix]. destruct (bool_decide_reflect (c = "/"%char)) as [->|Hc].
    + rewrite bool_decide_eq_true_2 by done. cbn. destruct (HasSuffix a "/") eqn:Ea; cbn.
      * apply HasSuffix_slash in Ea as (a' & ->). rewrite TrimSuffix_slash. unfold slice_from, slice. cbn.
        rewrite Nat.sub_0_r, substring_full. by rewrite app_assoc_s.
      * unfold TrimSuffix. by rewrite Ea.
    + rewrite bool_decide_eq_false_2 by congruence. destruct (HasSuffix a "/") eqn:Ea; cbn.
      * apply HasSuffix_slash in Ea as (a' & ->). by rewrite TrimSuffix_slash, app_assoc_s.
      * unfold TrimSuffix. by rewrite Ea.
Qed.

(** ** Forwarding headers *)

Definition ends_with_peer (v clientIP : string) : Prop := exists pre, v = pre +:+ clientIP /\ (pre = "" \/ exists q, pre = q +:+ ", ").

Lemma peer_alone ip : ends_with_peer ip ip.
Proof. exists "". split; [done|by left]. Qed.
Lemma peer_last q ip : ends_with_peer (q +:+ ", " +:+ ip) ip.
Proof. exists (q +:+ ", "). split; [by rewrite app_assoc_s|]. right. eauto. Qed.

Section forwarding.
Variable Inject : Header -> Header.

(** The backend sees the real peer. Whatever [X-Forwarded-For] a client sends,
    the last entry of the header the backend receives is the address the
    connection came from, on the HTTP path and, as long as the trace propagator
    leaves the header alone, on the WebSocket path. *)
Theorem backend_sees_peer target r u clientIP port :
  SplitHostPort (RemoteAddr (hr r)) = Some (clientIP, port) ->
  (forall h, Header_Get (Inject h) "X-Forwarded-For" = Header_Get h "X-Forwarded-For") ->
  ends_with_peer (Header_Get (ReqHeader (outgoing Inject target r)) "X-Forwarded-For") clientIP
  /\ ends_with_peer (Header_Get (ReqHeader (ws_request Inject r u)) "X-Forwarded-For") clientIP.
Proof.
  intros Hs Hi. split.
  - unfold outgoing. set (h := if bool_decide (upgradeType _ = "") then _ else _). clearbody h.
    cbn [ReqHeader with_header]. unfold append_forwarded_for. rewrite Hs.
    set (v := if bool_decide (_ = []) then _ else _). assert (ends_with_peer v clientIP) as Hv.
    { subst v. case_bool_decide; [apply peer_alone|apply peer_last]. }
    clearbody v. destruct (_ !! "User-Agent").
    + by rewrite Header_Get_Set.
    + rewrite Header_Get_Set_ne by done. by rewrite Header_Get_Set.
  - unfold ws_request. cbn [ReqHeader with_host with_header]. rewrite Hi. unfold setForwardedFor. rewrite Hs, Header_Get_Set by done.
    case_bool_decide; [apply peer_alone|apply peer_last].
Qed.

(** With at most one non-empty line the two paths build the same header. *)
Lemma forwarded_for_agree addr h :
  Header_Values h "X-Forwarded-For" = [] \/ (exists v, Header_Values h "X-Forwarded-For" = [v] /\ v <> "") ->
  setForwardedFor addr h = append_forwarded_for addr h.
Proof.
  unfold setForwardedFor, append_forwarded_for, Header_Get. destruct (SplitHostPort addr) as [[ip port]|]; [|done].
  intros [->|(v & -> & Hv)]; [done|]. by rewrite bool_decide_eq_false_2, bool_decide_eq_false_2.
Qed.
End forwarding.

(** With two lines the WebSocket path drops the second one: a key strategy that
    counts hops from the right then reads what the client wrote. *)
Lemma ws_forwarded_for_drops_lines :
  let h := Header_Add (Header_Set ∅ "X-Forwarded-For" "6.6.6.6") "X-Forwarded-For" "203.0.113.9" in
  Header_Get (append_forwarded_for "10.0.0.1:80" h) "X-Forwarded-For" = "6.6.6.6, 203.0.113.9, 10.0.0.1"
  /\ Header_Get (setForwardedFor "10.0.0.1:80" h) "X-Forwarded-For" = "6.6.6.6, 10.0.0.1".
Proof. split; vm_compute; reflexivity. Qed.

(** A request that names a header in [Connection] makes the proxy remove it, the
    identity headers included. *)
Lemma connection_header_strips_identity :
  let h := Header_Set (Header_Set ∅ "X-Edgequota-Mtls" "true") "Connection" "X-EdgeQuota-MTLS" in
  Header_Get h "X-Edgequota-Mtls" = "true" /\ Header_Get (removeHopByHopHeaders h) "X-Edgequota-Mtls" = "".
Proof. split; vm_compute; reflexivity. Qed.

(** A backend URL with a path: joined on the HTTP path, ignored for WebSockets. *)
Lemma ws_ignores_backend_path :
  let r := mkHTTPRequest (mkRequest "GET" (mkURL "" "" "/chat" "") "/chat" "h" "1.2.3.4:5" ∅ 1 false 0) None None None
             (Some (mkURL "http" "b:80" "/v1" "")) "" None in
  URL_Path (ReqURL (Director (fun h => h) None r)) = "/v1/chat"
  /\ URL_Path (ReqURL (ws_request (fun h => h) r (mkURL "http" "b:80" "/v1" ""))) = "/chat".
Proof. split; vm_compute; reflexivity. Qed.

Lemma backend_sees_peer_witness :
  let req := mkRequest "GET" (mkURL "" "" "/" "") "/" "h" "203.0.113.9:4711" (Header_Set ∅ "X-Forwarded-For" "1.1.1.1") 1 false 0 in
  let r := mkHTTPRequest req None None None (Some (mkURL "http" "b:80" "" "")) "" None in
  Header_Get (ReqHeader (outgoing (fun h => h) None r)) "X-Forwarded-For" = "1.1.1.1, 203.0.113.9"
  /\ ends_with_peer (Header_Get (ReqHeader (outgoing (fun h => h) None r)) "X-Forwarded-For") "203.0.113.9".
Proof.
  intros req r. split; [vm_compute; reflexivity|].
  apply (backend_sees_peer (fun h => h) None r (mkURL "http" "b:80" "" "") "203.0.113.9" "4711"); [vm_compute; reflexivity|done].
Defined.

(** ** Responses *)

(** Header maps as [net/http] parses them: canonical names. *)
Definition canonical (h : Header) : Prop := forall k, is_Some (h !! k) -> CanonicalHeaderKey k = k.

Lemma add_values_other h k vs k' :
  CanonicalHeaderKey k <> CanonicalHeaderKey k' ->
  Header_Values (fold_left (fun h v => Header_Add h k v) vs h) k' = Header_Values h k'.
Proof.
  intros Hk. revert h. induction vs as [|v vs IH]; intros h; [done|]. cbn. rewrite IH. unfold Header_Values, Header_Add.
  by rewrite lookup_insert_ne.
Qed.

Lemma add_headers_other w h k :
  canonical h -> h !! CanonicalHeaderKey k = None -> Header_Values (add_headers w h) k = Header_Values w k.
Proof.
  unfold add_headers. revert h. apply (map_fold_weak_ind (fun r h =>
    canonical h -> h !! CanonicalHeaderKey k = None -> Header_Values r k = Header_Values w k)); [done|].
  intros k' vs h r Hk' IH Hc Hn.
  assert (k' <> CanonicalHeaderKey k) as Hne by (intros ->; by rewrite lookup_insert_eq in Hn).
  assert (CanonicalHeaderKey k' = k') as Ek by (apply Hc; rewrite lookup_insert_eq; eauto).
  rewrite add_values_other by congruence. apply IH.
  - intros j Hj. apply Hc. destruct (decide (j = k')) as [->|]; [by rewrite lookup_insert_eq|by rewrite lookup_insert_ne].
  - by rewrite lookup_insert_ne in Hn.
Qed.

Lemma foldl_delete_canonical l h : canonical h -> canonical (foldl Header_Del h l).
Proof.
  revert h. induction l as [|x l IH]; intros h Hc; [done|]. cbn. apply IH. intros k Hk. apply Hc. unfold Header_Del in Hk.
  destruct (decide (CanonicalHeaderKey x = k)) as [<-|]; [by rewrite lookup_delete_eq in Hk; destruct Hk|by rewrite lookup_delete_ne in Hk].
Qed.

Lemma removeHop_canonical h : canonical h -> canonical (removeHopByHopHeaders h).
Proof.
  intros Hc. unfold removeHopByHopHeaders. apply foldl_delete_canonical. revert Hc. generalize (header_tokens h "Connection").
  intros l. revert h. induction l as [|x l IH]; intros h Hc; [done|]. cbn. apply IH. case_bool_decide; [done|].
  apply (foldl_delete_canonical [x] h Hc).
Qed.

(** A backend cannot set the edge's own headers. For every backend response the
    values of [Alt-Svc] and [X-Request-Id] that the client receives are the ones
    the edge had set before, none of the backend's. *)
Theorem backend_cannot_set_edge_headers w resp k :
  canonical (br_header resp) -> k = "Alt-Svc" \/ k = "X-Request-Id" ->
  exists h, rw_sent (foldl act_plain w (relay resp)) = rw_sent w ++ SHead (br_status resp) h :: map (fun p => SBody (String.substring 0 p.2 p.1)) (br_body resp)
    /\ Header_Values h k = Header_Values (rw_header w) k.
Proof.
  intros Hc Hk. unfold relay. cbn [foldl act_plain rw_WriteHeader rw_set rw_header rw_sent].
  set (h := add_headers (rw_header w) _). exists h. split.
  - assert (forall l w0, rw_sent (foldl act_plain w0 (map (fun p => AWrite p.1 p.2) l))
      = rw_sent w0 ++ map (fun p => SBody (String.substring 0 p.2 p.1)) l) as Hb.
    { induction l as [|[b n] l IH]; intros w0; cbn; [by rewrite app_nil_r|]. rewrite IH. cbn. by rewrite <- (assoc_L (++)). }
    rewrite Hb. cbn. by rewrite <- (assoc_L (++)).
  - subst h. apply add_headers_other.
    + apply (foldl_delete_canonical ["Alt-Svc"; "X-Request-Id"]). by apply removeHop_canonical.
    + unfold ModifyResponse, Header_Del. destruct Hk as [-> | ->]; [|by rewrite lookup_delete_eq].
      rewrite lookup_delete_ne by done. by rewrite lookup_delete_eq.
Qed.

Lemma backend_cannot_set_edge_headers_witness :
  exists h, rw_sent (foldl act_plain (mkRW (Header_Set ∅ "X-Request-Id" "edge") [])
      (relay (mkBackendResponse 200 (Header_Set ∅ "X-Request-Id" "forged") [("ok", 2%nat)] false)))
      = [SHead 200 h; SBody "ok"]
    /\ Header_Values h "X-Request-Id" = ["edge"].
Proof.
  destruct (backend_cannot_set_edge_headers (mkRW (Header_Set ∅ "X-Request-Id" "edge") [])
    (mkBackendResponse 200 (Header_Set ∅ "X-Request-Id" "forged") [("ok", 2%nat)] false) "X-Request-Id") as (h & H1 & H2);
    [|right; reflexivity|exists h; split; [rewrite H1; reflexivity|rewrite H2; vm_compute; reflexivity]].
  intros k Hk. unfold Header_Set in Hk. cbn [br_header] in Hk.
  destruct (decide (CanonicalHeaderKey "X-Request-Id" = k)) as [<-|Hne]; [vm_compute; reflexivity|].
  rewrite lookup_insert_ne in Hk by exact Hne. destruct Hk as [x Hx]. discriminate Hx.
Defined.

(** ** The place of the response cache *)

(** What goes through the response cache. Only GET requests that are neither
    gRPC nor event streams consult or fill it; every other request is relayed
    as if there were no cache. A GET that hits is answered without contacting
    the backend, whatever the backend would do. *)
Theorem cache_scope Inject exchange EscapedPath p st w r body now :
  (IsGRPC (hr r) = true \/ IsSSE (hr r) = true \/ Method (hr r) <> "GET" ->
     serve_admitted Inject exchange EscapedPath p (Some st) w r body now
     = serve_admitted Inject exchange EscapedPath p None w r body now
     /\ (serve_admitted Inject exchange EscapedPath p (Some st) w r body now).2 = [])
  /\ (forall hit exchange', IsGRPC (hr r) = false -> IsSSE (hr r) = false -> Method (hr r) = "GET" ->
      serveCached EscapedPath (cs_get st) w (hr r) now = Some hit ->
      serve_admitted Inject exchange' EscapedPath p (Some st) w r body now = (hit, [])).
Proof.
  unfold serve_admitted. split.
  - intros H. destruct (IsGRPC (hr r)); [done|].
    assert (bool_decide (Method (hr r) = "GET") && negb (IsSSE (hr r)) = false) as ->; [|done].
    destruct H as [|[->|H]]; [done|by rewrite andb_false_r|by rewrite bool_decide_eq_false_2].
  - intros hit exchange' -> -> Hm Hs. rewrite Hm, Hs. done.
Qed.

Lemma cache_scope_witness :
  let req := mkRequest "POST" (mkURL "" "" "/" "") "/" "h" "203.0.113.9:4711" ∅ 1 false 0 in
  let r := mkHTTPRequest req None None None None "" None in
  let p := mkProxy None (mkTransportSet false true false false 0 0 0 0) (mkPAT H1 false "h1") false false 0 None 0 0 0 ∅ in
  (serve_admitted (fun h => h) (fun _ _ _ => Err (errorf "down")) URL_Path p (Some (mkCacheStore (fun _ => None) 10))
     (mkRW ∅ []) r None 0).2 = [].
Proof.
  intros req r p. apply (cache_scope (fun h => h) (fun _ _ _ => Err (errorf "down")) URL_Path p (mkCacheStore (fun _ => None) 10)
    (mkRW ∅ []) r None 0). right. right. discriminate.
Defined.

(** Same method, target and headers; host, peer, TLS, rate-limit key and backend
    may differ. *)
Definition same_target (r r' : HTTPRequest) : Prop :=
  Method (hr r) = Method (hr r') /\ ReqURL (hr r) = ReqURL (hr r') /\ ReqHeader (hr r) = ReqHeader (hr r').

(** The cache does not tell tenants apart. A response stored for one request
    is served to every other request with the same method, target and headers,
    whatever its host and whatever backend the external service has chosen for
    it: the answer of one tenant's backend reaches the clients of another. *)
Theorem cache_shared_across_backends Inject exchange EscapedPath p st w r r' body now hit :
  same_target r r' -> Method (hr r) = "GET" -> IsGRPC (hr r) = false -> IsSSE (hr r) = false ->
  serveCached EscapedPath (cs_get st) w (hr r) now = Some hit ->
  serve_admitted Inject exchange EscapedPath p (Some st) w r' body now = (hit, []).
Proof.
  intros (E1 & E2 & E3) Hm Hg Hs Hc. unfold serve_admitted.
  assert (IsGRPC (hr r') = false) as -> by (unfold IsGRPC in *; by rewrite <- E3).
  assert (IsSSE (hr r') = false) as -> by (unfold IsSSE in *; by rewrite <- E3).
  rewrite <- E1, Hm. cbn [bool_decide negb andb].
  assert (serveCached EscapedPath (cs_get st) w (hr r') now = Some hit) as ->; [|done].
  rewrite <- Hc. unfold serveCached, KeyFromRequest, vary_part. by rewrite E1, E2, E3.
Qed.

Module TenantDemo.
Definition request (host : string) (backend : URL) : HTTPRequest :=
  mkHTTPRequest (mkRequest "GET" (mkURL "" "" "/account" "") "/account" host "203.0.113.9:1" ∅ 1 false 0) None None (Some host)
    (Some backend) "" None.
Definition tenant_a : HTTPRequest := request "a.example" (mkURL "http" "backend-a:80" "" "").
Definition tenant_b : HTTPRequest := request "b.example" (mkURL "http" "backend-b:80" "" "").
Definition store : cache_store := mkCacheStore (fun k => if bool_decide (k = "GET|/account") then Some (mkEntry 200 ∅ "a's account" [] [] 0) else None) 100.
Definition proxy : Proxy := mkProxy None (mkTransportSet false true false false 0 0 0 0) (mkPAT H1 false "h1") false false 0 None 0 0 0 ∅.
Definition down (t : transport) (r : Request) (b : option countingReader) : result backend_response := Err (errorf "down").
Definition answer : ResponseWriter := default (mkRW ∅ []) (serveCached URL_Path (cs_get store) (mkRW ∅ []) (hr tenant_a) 0).
End TenantDemo.

Lemma cache_shared_across_backends_witness :
  (serve_admitted (fun h => h) TenantDemo.down URL_Path TenantDemo.proxy (Some TenantDemo.store) (mkRW ∅ []) TenantDemo.tenant_b None 0).1
  = TenantDemo.answer /\ last (rw_sent TenantDemo.answer) = Some (SBody "a's account").
Proof.
  split; [|vm_compute; reflexivity].
  rewrite (cache_shared_across_backends (fun h => h) TenantDemo.down URL_Path TenantDemo.proxy TenantDemo.store (mkRW ∅ [])
    TenantDemo.tenant_a TenantDemo.tenant_b None 0 TenantDemo.answer); [reflexivity|split; [reflexivity|split; reflexivity]|reflexivity..| ].
  vm_compute. reflexivity.
Defined.

(** ** WebSockets *)

(** The limiter of a proxy as [New] builds it, and after any number of slots. *)
Definition ws_limiter_ok (p : Proxy) : Prop :=
  forall l, px_wsLimiter p = Some l -> length (shards l) = Z.to_nat wsShardCount /\ 0 < maxPerKey l /\ forall k, 0 <= open_conns l k.
Definition open_slots (p : Proxy) (key : string) : Z := match px_wsLimiter p with Some l => open_conns l key | None => 0 end.

(** C35: A WebSocket request gives back its slot. On every path of the handler
    (origin refused, limit reached, no backend, dial, write or hijack failure,
    relay finished) each key has as many open slots afterwards as before; while
    the session is relayed its key has exactly one more. *)
Theorem ws_slot_returned Inject LookupIP p r io key :
  ws_limiter_ok p ->
  open_slots (handleWebSocket Inject LookupIP p r io).1 key = open_slots p key
  /\ (forall l, px_wsLimiter p = Some l -> (ws_enter p r).2 = None ->
      open_slots (ws_enter p r).1 key = open_slots p key + if bool_decide (key = ws_key r) then 1 else 0).
Proof.
  intros Hok. unfold handleWebSocket, ws_enter. destruct (negb _); [split; [done|discriminate]|].
  destruct (px_wsLimiter p) as [l|] eqn:El; [|split; [unfold ws_leave; by rewrite El|discriminate]].
  destruct (Hok l El) as (Hl & Hm & Hpos). destruct (Acquire_spec l (ws_key r) Hl Hm) as (l1 & -> & Hl1 & Hm1 & Hc1).
  destruct (bool_decide_reflect (open_conns l (ws_key r) < maxPerKey l)) as [Hlt|Hge]; [|split; [done|discriminate]].
  assert (forall k, open_conns l1 k = open_conns l k + if bool_decide (k = ws_key r) then 1 else 0) as Hc.
  { intros k. rewrite Hc1, andb_true_r. done. }
  split.
  - unfold ws_leave. cbn [px_wsLimiter set_wsLimiter fst].
    destruct (Release_spec l1 (ws_key r) Hl1 ltac:(congruence)) as (l2 & -> & _ & _ & Hc2).
    { rewrite Hc, bool_decide_eq_true_2 by done. specialize (Hpos (ws_key r)). lia. }
    unfold open_slots. cbn [px_wsLimiter set_wsLimiter]. rewrite El, Hc2. destruct (bool_decide_reflect (key = ws_key r)) as [->|Hne].
    + rewrite Hc, bool_decide_eq_true_2 by done. specialize (Hpos (ws_key r)). lia.
    + rewrite Hc, bool_decide_eq_false_2 by done. lia.
  - intros l' _ _. unfold open_slots. cbn [px_wsLimiter set_wsLimiter fst]. by rewrite El, Hc.
Qed.

Module WSDemo.
Definition proxy : Proxy :=
  mkProxy (Some (mkURL "http" "b:80" "" "")) (mkTransportSet false true false false 0 0 0 0) (mkPAT H1 false "h1") false false 0
    (Some (NewWSLimiter 1)) 0 4 0 ∅.
Definition request (addr : string) (key : option string) : HTTPRequest :=
  mkHTTPRequest (mkRequest "GET" (mkURL "" "" "/chat" "") "/chat" "h" addr ∅ 1 false 0) None None key None "" None.
Definition io : ws_io := mkWSIO true true true ["ab"; "cdef"] ["x"].
Definition dns (h : string) : result (list IP) := Err (errorf "no such host").
End WSDemo.

Lemma fresh_limiter_ok n k : open_conns (NewWSLimiter n) k = 0.
Proof.
  unfold open_conns, counts, NewWSLimiter. cbn [shards]. destruct (replicate _ _ !! _) as [m|] eqn:E; [|done].
  apply lookup_replicate in E as [-> _]. done.
Qed.

Lemma ws_slot_returned_witness :
  let res := handleWebSocket (fun h => h) WSDemo.dns WSDemo.proxy (WSDemo.request "1.2.3.4:5" (Some "k")) WSDemo.io in
  match res.2 with WSRelayed _ a b => a = "abcd" /\ b = "x" | _ => False end /\ open_slots res.1 "k" = 0.
Proof.
  intros res. split; [vm_compute; split; reflexivity|].
  destruct (ws_slot_returned (fun h => h) WSDemo.dns WSDemo.proxy (WSDemo.request "1.2.3.4:5" (Some "k")) WSDemo.io "k") as [H _].
  - intros l [= <-]. split; [reflexivity|]. split; [reflexivity|]. intros k. rewrite fresh_limiter_ok. reflexivity.
  - exact (eq_trans H (fresh_limiter_ok 1 "k")).
Defined.

(** In external mode the chain stores an empty key, so all clients share the slot
    key [__unknown__]: with one connection allowed per key, the second client is
    refused. *)
Lemma ws_external_clients_share_slots :
  let p := (ws_enter WSDemo.proxy (WSDemo.request "1.2.3.4:5" (Some ""))).1 in
  (ws_enter p (WSDemo.request "5.6.7.8:9" (Some ""))).2 = Some (WSError 429 "too many WebSocket connections").
Proof. vm_compute. reflexivity. Qed.

(** All bytes a peer sends, and the first [n] of them. *)
Definition stream (chunks : list string) : string := foldr (fun c s => c +:+ s) "" chunks.
Definition first_bytes (n : Z) (s : string) : string := String.substring 0 (Z.to_nat n) s.

(** The transfer limit of a relayed direction. Whatever pieces a peer sends, the
    relay forwards exactly the first [max] bytes of the stream (everything when
    no limit is set). *)
Theorem relay_forwards_prefix max chunks :
  relay_direction max chunks = (if 0 <? max then first_bytes max (stream chunks) else stream chunks).
Proof.
  unfold relay_direction, first_bytes, stream. destruct (Z.ltb_spec 0 max) as [Hm|]; [|done].
  assert (0 <= max) as Hm0 by lia. clear Hm. revert max Hm0. induction chunks as [|c chunks IH]; intros max Hm; cbn [copy_limited foldr].
  - by destruct (Z.to_nat max).
  - destruct (Z.leb_spec max 0) as [Hz|Hz].
    { assert (max = 0) as -> by lia. change (Z.to_nat 0) with 0%nat. by destruct (_ +:+ _). }
    unfold len. destruct (Z.ltb_spec max (Z.of_nat (String.length c))) as [Hl|Hl].
    + by rewrite substring_app_short by lia.
    + rewrite substring_app_long by lia. rewrite IH by lia. do 2 f_equal. lia.
Qed.

(** ** Idle sessions *)

(** Consecutive activity in either direction is less than [timeout] apart. *)
Fixpoint gaps_below (timeout last : Z) (reads : list (bool * Z * Z)) : Prop :=
  match reads with [] => True | (_, t, _) :: rest => t < last + timeout /\ gaps_below timeout t rest end.

(** Idle timeout of a relayed session. A session started at [t0] survives a
    sequence of reads exactly when no two consecutive ones, in either direction,
    are the timeout or more apart: traffic in one direction keeps both
    connections open, and both deadlines always are the last activity plus the
    timeout. *)
Theorem idle_timeout_exact timeout t0 reads :
  0 < timeout -> Forall (fun r => 0 < r.2) reads ->
  (idle_run timeout (mkDeadlines (t0 + timeout) (t0 + timeout)) reads <> None <-> gaps_below timeout t0 reads)
  /\ (forall d, idle_run timeout (mkDeadlines (t0 + timeout) (t0 + timeout)) reads = Some d ->
      dl_client d = dl_backend d /\ dl_client d = default t0 (last (map (fun r => r.1.2) reads)) + timeout).
Proof.
  intros Ht Hr. revert t0. induction Hr as [|[[b t] n] reads Hn _ IH]; intros t0; cbn in *.
  - split; [done|]. intros d [= <-]. done.
  - assert ((if b then t0 + timeout else t0 + timeout) = t0 + timeout) as -> by (by destruct b).
    destruct (Z.leb_spec (t0 + timeout) t) as [Hle|Hlt]; [split; [split; [done|lia]|done]|].
    unfold idle_Read. rewrite !(proj2 (Z.ltb_lt _ _)) by lia. cbn [andb]. destruct (IH t) as [IH1 IH2]. split; [rewrite IH1; tauto|].
    intros d Hd. destruct (IH2 d Hd) as [H1 H2]. split; [done|]. rewrite H2. cbn. by rewrite last_cons; destruct (last _).
Qed.

Lemma idle_timeout_exact_witness :
  idle_run 10 (mkDeadlines 10 10) [(true, 9, 1); (false, 18, 3); (true, 27, 1)] <> None
  /\ gaps_below 10 0 [(true, 9, 1); (false, 18, 3); (true, 27, 1)].
Proof.
  split; [vm_compute; discriminate|].
  apply (idle_timeout_exact 10 0 [(true, 9, 1); (false, 18, 3); (true, 27, 1)]); [reflexivity| |vm_compute; discriminate].
  repeat (apply Forall_cons; split; [reflexivity|]). apply Forall_nil. exact I.
Defined.

(** ** Draining *)

Fixpoint drain_run (es : list drain_event) (s : drain_state) : option drain_state :=
  match es with [] => Some s | e :: es => s' ← drain_step e s; drain_run es s' end.
Definition drain_init : drain_state := mkDrain 0 false 0 false 0.
Definition no_deadline (e : drain_event) : bool := match e with DDeadline => false | _ => true end.

(** Released exactly when [closeOnce] has fired, which only [Close] does. *)
Record drain_ok (s : drain_state) : Prop := mkDrainOk {
  dk_once : dr_releases s = if dr_closeOnce s then 1%nat else 0%nat;
  dk_closing : dr_closing s = false -> dr_waiting s = 0%nat /\ dr_closeOnce s = false
}.

Lemma drain_step_inv e s s' :
  drain_step e s = Some s' -> drain_ok s ->
  drain_ok s'
  /\ (dr_closing s = true -> dr_closing s' = true /\ (dr_inflight s' <= dr_inflight s)%nat)
  /\ (no_deadline e = true -> (dr_closeOnce s = true -> dr_inflight s = 0%nat) -> dr_closeOnce s' = true -> dr_inflight s' = 0%nat).
Proof.
  destruct s as [i cl w o rl]; destruct e; unfold drain_step, release_once; cbn; intros Hs [H1 H2]; cbn in H1, H2.
  - destruct cl; injection Hs as <-; (split; [done|]); cbn; split; [done|intros _ H; apply H|done|].
    destruct (H2 eq_refl) as [_ ->]. done.
  - destruct i; [done|]. injection Hs as <-. split; [done|]. cbn. split; [auto with lia|]. intros _ H Ho. specialize (H Ho). lia.
  - injection Hs as <-. split; [done|]. cbn. split; [done|]. intros _ H Ho. by apply H.
  - destruct w, i; try done. destruct cl; [|by destruct (H2 eq_refl)].
    destruct o; injection Hs as <-; (split; [by split; cbn; [rewrite H1|]|]); cbn; auto.
  - destruct w; try done. destruct cl; [|by destruct (H2 eq_refl)].
    destruct o; injection Hs as <-; (split; [by split; cbn; [rewrite H1|]|]); cbn; split; auto; discriminate.
Qed.

Lemma drain_run_inv es s0 s :
  drain_run es s0 = Some s -> drain_ok s0 ->
  drain_ok s
  /\ (dr_closing s0 = true -> dr_closing s = true /\ (dr_inflight s <= dr_inflight s0)%nat)
  /\ (forallb no_deadline es = true -> (dr_closeOnce s0 = true -> dr_inflight s0 = 0%nat) -> dr_closeOnce s = true -> dr_inflight s = 0%nat).
Proof.
  revert s0 s. induction es as [|e es IH]; intros s0 s Hr H; cbn in Hr.
  - injection Hr as <-. split_and!; naive_solver.
  - destruct (drain_step e s0) as [s1|] eqn:E; [|done]. apply drain_step_inv in E as (H1 & H2 & H3); [|done].
    destruct (IH s1 s Hr H1) as (H4 & H5 & H6). split; [done|]. split.
    + intros Hc. destruct (H2 Hc) as [Hc1 Hi1]. destruct (H5 Hc1). split; [done|lia].
    + cbn. intros [Hb1 Hb2]%andb_true_iff Hz. apply H6; [done|]. by apply H3.
Qed.

(** Draining a proxy. In every interleaving of requests and [Close] calls the
    transports are released at most once; from the moment [Close] has set
    [closing] no request is admitted any more; and unless the drain deadline
    passes, the transports are released only when no request is in flight and
    none is afterwards. *)
Theorem drain_safe es s :
  drain_run es drain_init = Some s ->
  (dr_releases s <= 1)%nat
  /\ (forall es' s', dr_closing s = true -> drain_run es' s = Some s' -> dr_closing s' = true /\ (dr_inflight s' <= dr_inflight s)%nat)
  /\ (forallb no_deadline es = true -> (dr_releases s > 0)%nat -> dr_inflight s = 0%nat).
Proof.
  intros Hr. destruct (drain_run_inv es drain_init s Hr) as (H1 & _ & H3); [by split|]. split_and!.
  - rewrite (dk_once s H1). destruct (dr_closeOnce s); lia.
  - intros es' s' Hc Hr'. destruct (drain_run_inv es' s s' Hr' H1) as (_ & H5 & _). by apply H5.
  - intros Hb Hp. apply H3; [done|done|]. rewrite (dk_once s H1) in Hp. destruct (dr_closeOnce s); [done|lia].
Qed.

Lemma drain_safe_witness :
  exists s, drain_run [DAdmit; DClose; DAdmit; DFinish; DDrained] drain_init = Some s /\ dr_releases s = 1%nat /\ dr_inflight s = 0%nat.
Proof.
  eexists. split; [vm_compute; reflexivity|]. split; [reflexivity|].
  apply (drain_safe [DAdmit; DClose; DAdmit; DFinish; DDrained]); [vm_compute; reflexivity|reflexivity|vm_compute; constructor].
Defined.
