(* ===== verification/Relay.v ===== *)
(** * The WebSocket relay

    [relayWebSocket] of src/internal/proxy/proxy.go: two goroutines copy bytes
    between the client and the backend connection, each until its source ends,
    its transfer limit is used up, an operation fails or a deadline passes, and
    then half-close the destination; the relay returns when both have. The
    operations of the goroutines interleave with each other, with what the peers
    do and with the passing of time. [Proxy.relay_direction] is one direction run
    on its own; the theorems connect the two. *)
From S2P Require Import Prelude GoStrings GoTime Float64 GoNet ConfigTypes Config RedisClient TokenBucket.
From S2P Require Import KeyStrategy InMemory Breaker Auth External CacheControl CacheStore CacheWriter WSLimiter UrlPolicy MTLS Events.
From S2P Require Import Bucket Chain ChainProps Transport Proxy ProxyProps.
From Stdlib Require Import Ascii.

Local Open Scope Z_scope.

Definition wsKeepAlivePeriod : Z := 30 * Second.

(** The keep-alive settings of a connection: [None] where the operating system's
    are left. [enableWSKeepAlive] reaches through a TLS connection ([NetConn]) to
    its socket; a connection without the methods is left as it is. *)
Inductive net_conn := Socket (keepalive : option Z) | TLSConn (inner : net_conn) | TLSNil | OtherConn.

Definition keep_alive (c : net_conn) : net_conn :=
  match c with Socket _ => Socket (Some wsKeepAlivePeriod) | c => c end.
Definition enableWSKeepAlive (c : net_conn) : net_conn :=
  match c with
  | TLSConn inner => TLSConn (keep_alive inner)
  | c => keep_alive c
  end.

(** The side a goroutine reads from; it writes to the other one. *)
Inductive side := Client | Backend.
Definition other (d : side) : side := match d with Client => Backend | Backend => Client end.
#[global] Instance side_eq_dec : EqDecision side.
Proof. solve_decision. Defined.

(** A connection as the relay sees it. *)
Record rconn := mkRConn {
  rc_in : list ascii;                (* arrived, not read yet *)
  rc_fin : bool;                     (* the peer has closed its side *)
  rc_reset : bool;                   (* the connection is broken *)
  rc_out : list ascii;               (* written to the peer *)
  rc_shut : bool;                    (* CloseWrite has been called *)
  rc_deadline : option Z             (* SetDeadline *)
}.

(** Where a goroutine stands: in [Read], in [Write] with the bytes it has read,
    after the copy (ended by the end of its source or by an error), returned. *)
Inductive dphase := DRead | DWrite (chunk : list ascii) | DShut (clean : bool) | DDone (clean : bool).

Record dir := mkDir { dr_phase : dphase; dr_left : option Z (* io.LimitReader *) }.

Record rstate := mkRState {
  rs_conn : side -> rconn;
  rs_dir : side -> dir;              (* the goroutine that reads from this side *)
  rs_now : Z;
  rs_last : Z;                       (* the last successful read, or the start *)
  rs_arrived : side -> list ascii    (* everything the peer has sent *)
}.

Definition upd {A} (d : side) (a : A) (f : side -> A) : side -> A := fun x => if decide (x = d) then a else f x.

Lemma upd_eq {A} d (a : A) f : upd d a f d = a.
Proof. unfold upd. by destruct (decide _). Qed.
Lemma upd_ne {A} d d' (a : A) f : d' <> d -> upd d a f d' = f d'.
Proof. unfold upd. by destruct (decide _). Qed.

(** The deadline has passed: every operation fails at once. *)
Definition expired (now : Z) (c : rconn) : bool := match rc_deadline c with Some t => t <=? now | None => false end.
Definition broken (now : Z) (c : rconn) : bool := rc_reset c || expired now c.

Section relay.
(** [p.maxWSTransferBytes] and [p.wsIdleTimeout]. *)
Variables (maxBytes timeout : Z).

Definition set_deadline (t : Z) (c : rconn) : rconn :=
  mkRConn (rc_in c) (rc_fin c) (rc_reset c) (rc_out c) (rc_shut c) (Some t).

(** The start of the relay: the initial deadlines. *)
Definition relay_start (client backend : rconn) (now : Z) : rstate :=
  let arm c := if 0 <? timeout then set_deadline (now + timeout) c else c in
  let conns d := match d with Client => arm client | Backend => arm backend end in
  mkRState conns (fun _ => mkDir DRead (if 0 <? maxBytes then Some maxBytes else None)) now now (fun d => rc_in (conns d)).

(** [idleTimeoutReader.Read] over [io.LimitReader] over the connection: it blocks,
    ends the copy, fails, or returns bytes; [rem] is what the limit leaves. *)
Inductive read_result := RBlocks | REOF | RFail | RGot (chunk rest : list ascii) (rem : option Z).

Definition ws_read (n : nat) (now : Z) (c : rconn) (rem : option Z) : read_result :=
  if bool_decide (rem = Some 0) then REOF
  else if broken now c then RFail
  else match rc_in c with
       | [] => if rc_fin c then REOF else RBlocks
       | _ =>
           let k := match rem with Some l => Nat.min (S n) (Z.to_nat l) | None => S n end in
           RGot (take k (rc_in c)) (drop k (rc_in c))
             (match rem with Some l => Some (l - Z.of_nat (length (take k (rc_in c)))) | None => None end)
       end.

Inductive revent :=
| RSend (d : side) (bytes : list ascii)   (* the peer of this side sends *)
| RFin (d : side)
| RReset (d : side)
| RClock (now : Z)
| RRead (d : side) (n : nat)              (* the goroutine reads at most n + 1 bytes *)
| RWrite (d : side) (k : nat)             (* it writes; k bytes if the write fails *)
| RShut (d : side).                       (* it half-closes the destination and returns *)

Definition set_phase (d : side) (p : dphase) (s : rstate) : rstate :=
  mkRState (rs_conn s) (upd d (mkDir p (dr_left (rs_dir s d))) (rs_dir s)) (rs_now s) (rs_last s) (rs_arrived s).

Definition rstep (e : revent) (s : rstate) : option rstate :=
  let conn d := rs_conn s d in
  match e with
  | RSend d b =>
      let c := conn d in
      if rc_fin c || rc_reset c then None
      else Some (mkRState (upd d (mkRConn (rc_in c ++ b) (rc_fin c) (rc_reset c) (rc_out c) (rc_shut c) (rc_deadline c)) (rs_conn s))
                   (rs_dir s) (rs_now s) (rs_last s) (upd d (rs_arrived s d ++ b) (rs_arrived s)))
  | RFin d =>
      let c := conn d in
      Some (mkRState (upd d (mkRConn (rc_in c) true (rc_reset c) (rc_out c) (rc_shut c) (rc_deadline c)) (rs_conn s))
              (rs_dir s) (rs_now s) (rs_last s) (rs_arrived s))
  | RReset d =>
      let c := conn d in
      Some (mkRState (upd d (mkRConn (rc_in c) (rc_fin c) true (rc_out c) (rc_shut c) (rc_deadline c)) (rs_conn s))
              (rs_dir s) (rs_now s) (rs_last s) (rs_arrived s))
  | RClock now => if rs_now s <=? now then Some (mkRState (rs_conn s) (rs_dir s) now (rs_last s) (rs_arrived s)) else None
  | RRead d n =>
      match dr_phase (rs_dir s d) with
      | DRead =>
          match ws_read n (rs_now s) (conn d) (dr_left (rs_dir s d)) with
          | RBlocks => None
          | REOF => Some (set_phase d (DShut true) s)
          | RFail => Some (set_phase d (DShut false) s)
          | RGot chunk rest rem =>
              let c := conn d in
              let conns := upd d (mkRConn rest (rc_fin c) (rc_reset c) (rc_out c) (rc_shut c) (rc_deadline c)) (rs_conn s) in
              let conns := if 0 <? timeout then fun x => set_deadline (rs_now s + timeout) (conns x) else conns in
              Some (mkRState conns (upd d (mkDir (DWrite chunk) rem) (rs_dir s)) (rs_now s) (rs_now s) (rs_arrived s))
          end
      | _ => None
      end
  | RWrite d k =>
      match dr_phase (rs_dir s d) with
      | DWrite chunk =>
          let c := conn (other d) in
          let failed := broken (rs_now s) c || rc_shut c in
          let bytes := if failed then take k chunk else chunk in
          let s1 := mkRState (upd (other d) (mkRConn (rc_in c) (rc_fin c) (rc_reset c) (rc_out c ++ bytes) (rc_shut c) (rc_deadline c)) (rs_conn s))
                      (rs_dir s) (rs_now s) (rs_last s) (rs_arrived s) in
          Some (set_phase d (if failed then DShut false else DRead) s1)
      | _ => None
      end
  | RShut d =>
      match dr_phase (rs_dir s d) with
      | DShut clean =>
          let c := conn (other d) in
          let s1 := mkRState (upd (other d) (mkRConn (rc_in c) (rc_fin c) (rc_reset c) (rc_out c) true (rc_deadline c)) (rs_conn s))
                      (rs_dir s) (rs_now s) (rs_last s) (rs_arrived s) in
          Some (set_phase d (DDone clean) s1)
      | _ => None
      end
  end.

Fixpoint rrun (es : list revent) (s : rstate) : option rstate :=
  match es with [] => Some s | e :: es => s1 ← rstep e s; rrun es s1 end.

Definition is_ddone (p : dphase) : bool := match p with DDone _ => true | _ => false end.

(** [wg.Wait()] returns. *)
Definition relay_returned (s : rstate) : bool :=
  is_ddone (dr_phase (rs_dir s Client)) && is_ddone (dr_phase (rs_dir s Backend)).
End relay.

(** ** What a direction delivers *)

Section invariant.
Variables (maxBytes timeout : Z).
Implicit Types (s : rstate) (d : side).

(** One direction: the bytes that arrived at its source, those not read yet,
    whether the source has ended, what was written to the destination and whether
    that is half-closed. *)
Definition dir_ok (arrived unread : list ascii) (fin : bool) (out : list ascii) (shut : bool) (D : dir) : Prop :=
  exists rd, arrived = rd ++ unread
    /\ dr_left D = (if 0 <? maxBytes then Some (maxBytes - Z.of_nat (length rd)) else None)
    /\ (0 < maxBytes -> Z.of_nat (length rd) <= maxBytes)
    /\ shut = is_ddone (dr_phase D)
    /\ match dr_phase D with
       | DRead => out = rd
       | DWrite chunk => rd = out ++ chunk
       | DShut true | DDone true => out = rd /\ (dr_left D = Some 0 \/ unread = [] /\ fin = true)
       | DShut false | DDone false => out `prefix_of` rd
       end.

Lemma dir_ok_send arrived unread out shut D b :
  dir_ok arrived unread false out shut D -> dir_ok (arrived ++ b) (unread ++ b) false out shut D.
Proof.
  intros (rd & -> & Hl & Hm & Hs & Hp). exists rd. split_and!; [by rewrite app_assoc|done..|].
  destruct (dr_phase D) as [| |[]|[]]; try done; destruct Hp as [? [?|[_ ?]]]; (split; [done|by left]).
Qed.

Lemma dir_ok_fin arrived unread fin out shut D : dir_ok arrived unread fin out shut D -> dir_ok arrived unread true out shut D.
Proof.
  intros (rd & ? & ? & ? & ? & Hp). exists rd. split_and!; [done..|].
  destruct (dr_phase D) as [| |[]|[]]; try done; destruct Hp as [? [?|[? _]]]; (split; [done|]); [by left|by right|by left|by right].
Qed.

Lemma dir_ok_got arrived c out D n now chunk rest rem :
  dir_ok arrived (rc_in c) (rc_fin c) out false D -> dr_phase D = DRead -> ws_read n now c (dr_left D) = RGot chunk rest rem ->
  dir_ok arrived rest (rc_fin c) out false (mkDir (DWrite chunk) rem).
Proof.
  intros (rd & Ha & Hl & Hm & _ & Hp) HD. rewrite HD in Hp. subst out. unfold ws_read. rewrite Hl.
  case_bool_decide as Hz; [done|]. destruct (broken now c); [done|]. destruct (rc_in c) as [|x l] eqn:Ei; [by destruct (rc_fin c)|].
  set (k := match _ with Some _ => _ | None => _ end). intros [= <- <- <-]. exists (rd ++ take k (x :: l)).
  assert (0 < maxBytes -> Z.of_nat k <= maxBytes - Z.of_nat (length rd)) as Hk.
  { intros Hpos. subst k. rewrite (proj2 (Z.ltb_lt _ _) Hpos). specialize (Hm Hpos). lia. }
  pose proof (length_take_le (x :: l) k) as Hlen. rewrite !length_app. split_and!; [by rewrite <- app_assoc, take_drop| | |done|done].
  - cbn [dr_left]. destruct (Z.ltb_spec 0 maxBytes); [|done]. f_equal. lia.
  - intros Hpos. specialize (Hk Hpos). rewrite length_take. lia.
Qed.

(** The copy ends: cleanly at the end of the source or of the limit. *)
Lemma dir_ok_end arrived unread fin out D clean :
  dir_ok arrived unread fin out false D -> dr_phase D = DRead ->
  (clean = true -> dr_left D = Some 0 \/ unread = [] /\ fin = true) ->
  dir_ok arrived unread fin out false (mkDir (DShut clean) (dr_left D)).
Proof.
  intros (rd & Ha & Hl & Hm & _ & Hp) HD Hc. rewrite HD in Hp. subst out. exists rd. split_and!; [done..|].
  cbn. destruct clean; [by split; [|apply Hc]|done].
Qed.

Lemma dir_ok_wrote arrived unread fin out D chunk :
  dir_ok arrived unread fin out false D -> dr_phase D = DWrite chunk ->
  dir_ok arrived unread fin (out ++ chunk) false (mkDir DRead (dr_left D)).
Proof. intros (rd & Ha & Hl & Hm & _ & Hp) HD. rewrite HD in Hp. by exists rd. Qed.

Lemma dir_ok_write_failed arrived unread fin out D chunk k :
  dir_ok arrived unread fin out false D -> dr_phase D = DWrite chunk ->
  dir_ok arrived unread fin (out ++ take k chunk) false (mkDir (DShut false) (dr_left D)).
Proof.
  intros (rd & Ha & Hl & Hm & _ & Hp) HD. rewrite HD in Hp. exists rd. split_and!; [done..|]. cbn. rewrite Hp.
  apply prefix_app, prefix_take.
Qed.

Lemma dir_ok_shut arrived unread fin out D clean :
  dir_ok arrived unread fin out false D -> dr_phase D = DShut clean ->
  dir_ok arrived unread fin out true (mkDir (DDone clean) (dr_left D)).
Proof. intros (rd & Ha & Hl & Hm & _ & Hp) HD. rewrite HD in Hp. by exists rd. Qed.

(** Whether a phase leaves the destination open. *)
Lemma dir_ok_open arrived unread fin out shut D :
  dir_ok arrived unread fin out shut D -> is_ddone (dr_phase D) = false -> shut = false.
Proof. by intros (rd & _ & _ & _ & -> & _). Qed.

Lemma ws_read_EOF n now c rem : ws_read n now c rem = REOF -> rem = Some 0 \/ rc_in c = [] /\ rc_fin c = true.
Proof.
  unfold ws_read. case_bool_decide; [by left|]. destruct (broken now c); [done|].
  destruct (rc_in c); [|done]. destruct (rc_fin c); [by right|done].
Qed.

Definition flow_ok s : Prop :=
  forall d, dir_ok (rs_arrived s d) (rc_in (rs_conn s d)) (rc_fin (rs_conn s d)) (rc_out (rs_conn s (other d)))
              (rc_shut (rs_conn s (other d))) (rs_dir s d).

Definition time_ok s : Prop :=
  rs_last s <= rs_now s /\ forall d, rc_deadline (rs_conn s d) = if 0 <? timeout then Some (rs_last s + timeout) else None.

(** Compare the sides: what belongs to the direction that moves, and the rest. *)
Ltac by_side d x :=
  destruct d, x; unfold upd, set_deadline; cbn [other] in *; repeat (destruct (decide _); try done); cbn [rc_in rc_fin rc_out rc_shut rc_deadline].

Lemma flow_step e s s' : rstep timeout e s = Some s' -> flow_ok s -> flow_ok s'.
Proof.
  intros Hs Hf. destruct e as [d b|d|d|now|d n|d k|d]; cbn [rstep] in Hs.
  - destruct (rc_fin (rs_conn s d)) eqn:Ef; [done|]. destruct (rc_reset _); cbn in Hs; [done|]. injection Hs as <-. intros x.
    pose proof (Hf x) as Hx. unfold flow_ok in *. cbn [rs_arrived rs_conn rs_dir]. by_side d x;
      first [exact Hx|rewrite Ef in *; by apply dir_ok_send].
  - injection Hs as <-. intros x. pose proof (Hf x) as Hx. cbn [rs_arrived rs_conn rs_dir].
    by_side d x; first [exact Hx|by eapply dir_ok_fin].
  - injection Hs as <-. intros x. pose proof (Hf x) as Hx. cbn [rs_arrived rs_conn rs_dir]. by_side d x; exact Hx.
  - destruct (_ <=? _); [|done]. injection Hs as <-. exact Hf.
  - destruct (dr_phase (rs_dir s d)) eqn:Ep; try done. pose proof (Hf d) as Hd.
    assert (rc_shut (rs_conn s (other d)) = false) as Hopen by (eapply dir_ok_open; [exact Hd|by rewrite Ep]). rewrite Hopen in Hd.
    destruct (ws_read _ _ _ _) as [| | |chunk rest rem] eqn:Er; try done; injection Hs as <-; intros x; pose proof (Hf x) as Hx;
      cbn [set_phase rs_arrived rs_conn rs_dir].
    + apply ws_read_EOF in Er. by_side d x; first [exact Hx|rewrite Hopen; by eapply dir_ok_end].
    + by_side d x; first [exact Hx|rewrite Hopen; by eapply dir_ok_end].
    + pose proof (dir_ok_got _ _ _ _ n (rs_now s) chunk rest rem Hd Ep Er) as Hg.
      destruct (0 <? timeout); by_side d x; first [exact Hx|rewrite Hopen; exact Hg].
  - destruct (dr_phase (rs_dir s d)) as [|chunk| |] eqn:Ep; try done. pose proof (Hf d) as Hd.
    assert (rc_shut (rs_conn s (other d)) = false) as Hopen by (eapply dir_ok_open; [exact Hd|by rewrite Ep]). rewrite Hopen in Hd.
    injection Hs as <-. intros x. pose proof (Hf x) as Hx. cbn [set_phase rs_arrived rs_conn rs_dir]. rewrite Hopen.
    destruct (broken _ _); cbn [orb]; by_side d x;
      first [exact Hx|by eapply dir_ok_write_failed|by eapply dir_ok_wrote].
  - destruct (dr_phase (rs_dir s d)) as [| |clean|] eqn:Ep; try done. pose proof (Hf d) as Hd.
    assert (rc_shut (rs_conn s (other d)) = false) as Hopen by (eapply dir_ok_open; [exact Hd|by rewrite Ep]). rewrite Hopen in Hd.
    injection Hs as <-. intros x. pose proof (Hf x) as Hx. cbn [set_phase rs_arrived rs_conn rs_dir].
    by_side d x; first [exact Hx|by eapply dir_ok_shut].
Qed.

Lemma time_step e s s' : rstep timeout e s = Some s' -> time_ok s -> time_ok s'.
Proof.
  intros Hs [Hle Hd]. unfold time_ok. destruct e as [d b|d|d|now|d n|d k|d]; cbn [rstep] in Hs.
  - destruct (_ || _); [done|]. injection Hs as <-. split; [done|]. intros x. specialize (Hd x). cbn [rs_conn rs_last]. by_side d x; exact Hd.
  - injection Hs as <-. split; [done|]. intros x. specialize (Hd x). cbn [rs_conn rs_last]. by_side d x; exact Hd.
  - injection Hs as <-. split; [done|]. intros x. specialize (Hd x). cbn [rs_conn rs_last]. by_side d x; exact Hd.
  - destruct (_ <=? _) eqn:E; [|done]. injection Hs as <-. cbn. bools. split; [lia|done].
  - destruct (dr_phase (rs_dir s d)); try done. destruct (ws_read _ _ _ _); try done; injection Hs as <-; cbn [set_phase rs_conn rs_last rs_now]; [done|done|].
    split; [lia|]. intros x. specialize (Hd x). destruct (0 <? timeout); [done|]. by_side d x; exact Hd.
  - destruct (dr_phase (rs_dir s d)); try done. injection Hs as <-. cbn [set_phase rs_conn rs_last rs_now]. split; [done|].
    intros x. specialize (Hd x). by_side d x; exact Hd.
  - destruct (dr_phase (rs_dir s d)); try done. injection Hs as <-. cbn [set_phase rs_conn rs_last rs_now]. split; [done|].
    intros x. specialize (Hd x). by_side d x; exact Hd.
Qed.

Lemma relay_run_ok es s s' : rrun timeout es s = Some s' -> flow_ok s /\ time_ok s -> flow_ok s' /\ time_ok s'.
Proof.
  revert s. induction es as [|e es IH]; intros s Hr Hok; cbn in Hr; [by simplify_eq|].
  apply bind_Some in Hr as (s1 & Hs & Hr). apply (IH s1 Hr). destruct Hok. split; [by eapply flow_step|by eapply time_step].
Qed.

(** A connection nothing has been written to and no deadline is set on. *)
Definition fresh (c : rconn) : Prop := rc_out c = [] /\ rc_shut c = false /\ rc_deadline c = None.

Lemma relay_start_ok client backend now :
  fresh client -> fresh backend -> let s := relay_start maxBytes timeout client backend now in flow_ok s /\ time_ok s.
Proof.
  intros (Ho1 & Hs1 & Hd1) (Ho2 & Hs2 & Hd2). unfold relay_start, flow_ok, time_ok.
  cbn [rs_conn rs_dir rs_arrived rs_now rs_last]. split.
  - intros d. exists []. destruct d, (0 <? timeout), (0 <? maxBytes) eqn:Em; cbn; rewrite ?Z.sub_0_r; bools; split_and!; try done; lia.
  - split; [lia|]. intros []; destruct (0 <? timeout); done.
Qed.

Lemma substring_take n (l : list ascii) :
  String.substring 0 n (String.string_of_list_ascii l) = String.string_of_list_ascii (take n l).
Proof. revert n. induction l as [|x l IH]; intros [|n]; cbn; [done..|]. by rewrite IH. Qed.

Lemma len_list (l : list ascii) : len (String.string_of_list_ascii l) = Z.of_nat (length l).
Proof. unfold len. f_equal. induction l as [|x l IH]; [done|]. cbn. by rewrite IH. Qed.

(** A direction that ended without an error has delivered what [relay_direction]
    says. *)
Lemma clean_delivery arrived unread fin out shut D :
  dir_ok arrived unread fin out shut D -> dr_phase D = DShut true \/ dr_phase D = DDone true ->
  String.string_of_list_ascii out = relay_direction maxBytes [String.string_of_list_ascii arrived].
Proof.
  intros (rd & -> & Hl & Hm & _ & Hp) HD.
  assert (out = rd /\ (dr_left D = Some 0 \/ unread = [] /\ fin = true)) as [-> Hend] by (by destruct HD as [E|E]; rewrite E in Hp).
  unfold relay_direction. cbn [copy_limited foldr]. rewrite len_list, length_app, Hl in *.
  destruct (Z.ltb_spec 0 maxBytes) as [Hpos|Hpos].
  - specialize (Hm Hpos). rewrite (proj2 (Z.leb_gt _ _)) by lia. destruct (Z.ltb_spec maxBytes (Z.of_nat (length rd + length unread))).
    + destruct Hend as [[= Hz]|[-> _]]; [|cbn in *; lia]. rewrite substring_take. f_equal. rewrite take_app_le by lia.
      symmetry. apply take_ge. lia.
    + assert (unread = []) as -> by (destruct Hend as [[= Hz]|[-> _]]; [|done]; destruct unread; [done|]; cbn in *; lia).
      by rewrite !app_nil_r, app_s_nil.
  - destruct Hend as [?|[-> _]]; [done|]. by rewrite app_nil_r, app_s_nil.
Qed.

(** C23: What the relay delivers. In every interleaving of the two copies with the
    peers, errors and time: each side receives a prefix of what the other one
    sent, never more than the transfer limit; its connection is half-closed
    exactly when the copy towards it has ended; and a copy that ended without an
    error has delivered the whole stream, or its first [maxBytes] bytes, as
    [relay_direction] says. *)
Theorem relay_delivers es client backend now s d :
  fresh client -> fresh backend -> rrun timeout es (relay_start maxBytes timeout client backend now) = Some s ->
  let out := rc_out (rs_conn s (other d)) in
  out `prefix_of` rs_arrived s d
  /\ (0 < maxBytes -> Z.of_nat (length out) <= maxBytes)
  /\ rc_shut (rs_conn s (other d)) = is_ddone (dr_phase (rs_dir s d))
  /\ (dr_phase (rs_dir s d) = DShut true \/ dr_phase (rs_dir s d) = DDone true ->
      String.string_of_list_ascii out = relay_direction maxBytes [String.string_of_list_ascii (rs_arrived s d)]).
Proof.
  intros Hc Hb Hr out. destruct (relay_run_ok es _ s Hr (relay_start_ok client backend now Hc Hb)) as [Hf _].
  pose proof (Hf d) as Hd. split_and!; [..|by apply (clean_delivery _ _ _ _ _ _ Hd)].
  - destruct Hd as (rd & -> & _ & _ & _ & Hp). apply (prefix_app_r _ rd). fold out in Hp.
    destruct (dr_phase _) as [|ch|[]|[]]; rewrite ?Hp; try done; try (by apply prefix_app_r); by destruct Hp as [-> _].
  - intros Hpos. destruct Hd as (rd & _ & _ & Hm & _ & Hp). specialize (Hm Hpos). fold out in Hp.
    assert (out `prefix_of` rd) as Hpre%prefix_length; [|lia].
    destruct (dr_phase _) as [|ch|[]|[]]; rewrite ?Hp; try done; try (by apply prefix_app_r); by destruct Hp as [-> _].
  - by destruct Hd as (rd & _ & _ & _ & ? & _).
Qed.

(** ** Ending *)

(** The events of the relay itself. *)
Definition own (e : revent) : bool := match e with RRead _ _ | RWrite _ _ | RShut _ => true | _ => false end.

Lemma rrun_cons e es s s1 : rstep timeout e s = Some s1 -> rrun timeout (e :: es) s = rrun timeout es s1.
Proof. intros Hs. cbn [rrun]. by rewrite Hs. Qed.

(** A direction whose connections are past their deadline ends within two
    operations, and leaves the other direction and the clock alone. *)
Lemma direction_ends s d :
  (forall x, expired (rs_now s) (rs_conn s x) = true) ->
  exists es s', forallb own es = true /\ (length es <= 2)%nat /\ rrun timeout es s = Some s'
    /\ is_ddone (dr_phase (rs_dir s' d)) = true /\ rs_dir s' (other d) = rs_dir s (other d)
    /\ rs_now s' = rs_now s /\ (forall x, rc_deadline (rs_conn s' x) = rc_deadline (rs_conn s x)).
Proof.
  intros He.
  assert (forall s0 clean, dr_phase (rs_dir s0 d) = DShut clean ->
    exists s', rstep timeout (RShut d) s0 = Some s' /\ is_ddone (dr_phase (rs_dir s' d)) = true
      /\ rs_dir s' (other d) = rs_dir s0 (other d) /\ rs_now s' = rs_now s0
      /\ forall x, rc_deadline (rs_conn s' x) = rc_deadline (rs_conn s0 x)) as Hshut.
  { intros s0 clean Ep. cbn [rstep]. rewrite Ep. eexists. split; [done|]. cbn [set_phase rs_dir rs_now rs_conn].
    rewrite upd_eq. split_and!; [done|by rewrite upd_ne by (by destruct d)|done|]. intros x. by_side d x; done. }
  destruct (dr_phase (rs_dir s d)) as [|chunk|clean|clean] eqn:Ep.
  - assert (exists clean, rstep timeout (RRead d 0) s = Some (set_phase d (DShut clean) s)) as [clean Hr].
    { cbn [rstep]. rewrite Ep. unfold ws_read, broken. rewrite He, orb_true_r. case_bool_decide; eauto. }
    destruct (Hshut (set_phase d (DShut clean) s) clean) as (s' & Hs & H1 & H2 & H3 & H4); [cbn; by rewrite upd_eq|].
    exists [RRead d 0; RShut d], s'. split_and!; [done|cbn; lia|by rewrite (rrun_cons _ _ _ _ Hr), (rrun_cons _ _ _ _ Hs)|done| |done|done].
    rewrite H2. cbn. by rewrite upd_ne by (by destruct d).
  - assert (exists s1, rstep timeout (RWrite d 0) s = Some s1 /\ dr_phase (rs_dir s1 d) = DShut false
      /\ rs_dir s1 (other d) = rs_dir s (other d) /\ rs_now s1 = rs_now s
      /\ forall x, rc_deadline (rs_conn s1 x) = rc_deadline (rs_conn s x)) as (s1 & Hw & Hp1 & Hd1 & Hn1 & Hx1).
    { cbn [rstep]. rewrite Ep. unfold broken. rewrite He, orb_true_r. cbn [orb]. eexists. split; [done|].
      cbn [set_phase rs_dir rs_now rs_conn]. rewrite upd_eq. split_and!; [done|by rewrite upd_ne by (by destruct d)|done|].
      intros x. by_side d x; done. }
    destruct (Hshut s1 false Hp1) as (s' & Hs & H1 & H2 & H3 & H4).
    exists [RWrite d 0; RShut d], s'. split_and!; [done|cbn; lia|by rewrite (rrun_cons _ _ _ _ Hw), (rrun_cons _ _ _ _ Hs)|done|congruence|congruence|].
    intros x. by rewrite H4, Hx1.
  - destruct (Hshut s clean Ep) as (s' & Hs & H1 & H2 & H3 & H4). exists [RShut d], s'.
    split_and!; [done|cbn; lia|by rewrite (rrun_cons _ _ _ _ Hs)|done..].
  - exists [], s. split_and!; [done|cbn; lia|done|by rewrite Ep|done..].
Qed.

Lemma rrun_app es1 es2 s s1 : rrun timeout es1 s = Some s1 -> rrun timeout (es1 ++ es2) s = rrun timeout es2 s1.
Proof.
  revert s. induction es1 as [|e es1 IH]; intros s Hr; cbn in *; [by simplify_eq|].
  apply bind_Some in Hr as (s0 & -> & Hr). cbn. by apply IH.
Qed.


(** Without an idle timeout a session lasts as long as one of its peers stays
    silent, also after the other direction has used up its transfer limit. *)
Definition silent d s : Prop :=
  dr_phase (rs_dir s d) = DRead /\ dr_left (rs_dir s d) <> Some 0
  /\ rc_in (rs_conn s d) = [] /\ rc_fin (rs_conn s d) = false /\ rc_reset (rs_conn s d) = false /\ rc_deadline (rs_conn s d) = None.

Definition peer_event d (e : revent) : bool :=
  match e with RSend x _ | RFin x | RReset x => bool_decide (x = d) | _ => false end.

Lemma silent_step d e s s' : timeout <= 0 -> peer_event d e = false -> rstep timeout e s = Some s' -> silent d s -> silent d s'.
Proof.
  intros Ht He Hs (Hp & Hl & Hi & Hf & Hr & Hd). unfold silent.
  destruct e as [x b|x|x|now|x n|x k|x]; cbn [rstep peer_event] in *; try (apply bool_decide_eq_false in He).
  - destruct (_ || _); [done|]. injection Hs as <-. cbn [rs_conn rs_dir]. by rewrite upd_ne.
  - injection Hs as <-. cbn [rs_conn rs_dir]. by rewrite upd_ne.
  - injection Hs as <-. cbn [rs_conn rs_dir]. by rewrite upd_ne.
  - destruct (_ <=? _); [|done]. by injection Hs as <-.
  - destruct (decide (x = d)) as [->|Hne].
    { rewrite Hp in Hs. unfold ws_read, broken, expired in Hs. rewrite bool_decide_eq_false_2 in Hs by done.
      by rewrite Hr, Hd, Hi, Hf in Hs. }
    rewrite (proj2 (Z.ltb_ge 0 timeout)) in Hs by done.
    destruct (dr_phase (rs_dir s x)); try done. destruct (ws_read _ _ _ _); try done; injection Hs as <-;
      cbn [set_phase rs_conn rs_dir]; by rewrite !upd_ne.
  - destruct (decide (x = d)) as [->|Hne]; [by rewrite Hp in Hs|]. assert (other x = d) as Hx by (by destruct x, d).
    destruct (dr_phase (rs_dir s x)); try done. injection Hs as <-. cbn [set_phase rs_conn rs_dir]. rewrite Hx, upd_eq, upd_ne by done.
    by cbn.
  - destruct (decide (x = d)) as [->|Hne]; [by rewrite Hp in Hs|]. assert (other x = d) as Hx by (by destruct x, d).
    destruct (dr_phase (rs_dir s x)); try done. injection Hs as <-. cbn [set_phase rs_conn rs_dir]. rewrite Hx, upd_eq, upd_ne by done.
    by cbn.
Qed.

Lemma silent_peer_keeps_session d es s s' :
  timeout <= 0 -> forallb (fun e => negb (peer_event d e)) es = true -> silent d s -> rrun timeout es s = Some s' ->
  relay_returned s' = false.
Proof.
  intros Ht. revert s. induction es as [|e es IH]; intros s Hes Hs Hr; cbn in Hes, Hr.
  - simplify_eq. destruct Hs as (Hp & _). unfold relay_returned. destruct d; rewrite Hp; cbn; [done|apply andb_false_r].
  - apply bind_Some in Hr as (s1 & Hst & Hr). apply andb_true_iff in Hes as [He Hes]. apply negb_true_iff in He.
    apply (IH s1); [done|by eapply silent_step|done].
Qed.
End invariant.

Module RelayDemo.
Definition bytes (s : string) : list ascii := String.list_ascii_of_string s.
Definition conn (s : string) : rconn := mkRConn (bytes s) false false [] false None.
Definition start : rstate := relay_start 4 10 (conn "hello") (conn "") 0.
(** The client sends five bytes and closes; the backend answers two and is idle. *)
Definition ops : list revent :=
  [RRead Client 1; RWrite Client 0; RSend Backend (bytes "ok"); RClock 3; RRead Backend 9; RRead Client 9; RWrite Client 0;
   RFin Client; RWrite Backend 0; RRead Client 9; RShut Client].
Definition after : rstate := default start (rrun 10 ops start).
Definition late : rstate := default start (rrun 10 (ops ++ [RClock 13]) start).
Lemma relay_ran (es : list revent) : (match rrun 10 es start with Some _ => true | None => false end) = true ->
  rrun 10 es start = Some (default start (rrun 10 es start)).
Proof. by destruct (rrun 10 es start). Qed.
Lemma after_ran : rrun 10 ops start = Some after.
Proof. apply relay_ran. vm_compute. reflexivity. Qed.
Lemma late_ran : rrun 10 (ops ++ [RClock 13]) start = Some late.
Proof. apply relay_ran. vm_compute. reflexivity. Qed.
Lemma conn_fresh s : fresh (conn s).
Proof. by split_and!. Qed.
End RelayDemo.

Lemma relay_delivers_witness :
  String.string_of_list_ascii (rc_out (rs_conn RelayDemo.after Backend)) = "hell"
  /\ (rc_out (rs_conn RelayDemo.after Client)) `prefix_of` rs_arrived RelayDemo.after Backend
  /\ rc_shut (rs_conn RelayDemo.after Backend) = true.
Proof.
  destruct (relay_delivers 4 10 RelayDemo.ops (RelayDemo.conn "hello") (RelayDemo.conn "") 0 RelayDemo.after Client
    (RelayDemo.conn_fresh _) (RelayDemo.conn_fresh _) RelayDemo.after_ran) as (_ & _ & H3 & H4).
  destruct (relay_delivers 4 10 RelayDemo.ops (RelayDemo.conn "hello") (RelayDemo.conn "") 0 RelayDemo.after Backend
    (RelayDemo.conn_fresh _) (RelayDemo.conn_fresh _) RelayDemo.after_ran) as (H1 & _).
  split; [|split; [exact H1|]].
  - cbn [other] in H4. rewrite H4 by (right; vm_compute; reflexivity). vm_compute. reflexivity.
  - cbn [other] in H3. rewrite H3. vm_compute. reflexivity.
Defined.

