(* ===== verification/Settings.v ===== *)
(** * The middleware chain: configuration snapshots

    What [NewChain] derives from a configuration and what [Reload]
    (internal/middleware/chain.go) replaces in a running chain: the atomic
    pointers and values every request reads. The clients a reload also rebuilds
    are the subject of [Lifecycle].

    The theorems compare a reloaded chain with a restarted one: exactly which
    settings follow the new file, which keep the value of the old one, and when
    a reload can fail. *)
From S2P Require Import Prelude GoStrings GoTime Float64 GoNet ConfigTypes Config KeyStrategy InMemory UrlPolicy Events Bucket Chain.

Local Open Scope Z_scope.

(** The fields of [Chain] that come from the configuration. *)
Record published := mkPublished {
  pb_cfg : Config;
  pb_staticRL : staticParams;
  pb_externalFallback : option fallbackParams;
  pb_keyStrategy : KeyStrategy;
  pb_fallbackKeyStrategy : option KeyStrategy;
  pb_urlPolicy : BackendURLPolicy;
  pb_requestTimeout : Z;
  pb_writeTimeout : Z;
  pb_bypassPreflight : bool;
  pb_accessLog : bool;
  pb_emitter : option Emitter;
  pb_globalBackstop : option InMemoryLimiter;
  pb_concurrencySem : option Z;
  pb_allowedInjectionHeaders : gset string
}.

Section snapshots.
Context `{R : Rounding}.

Definition key_prefix (cfg : Config) : string :=
  if bool_decide (rl_KeyPrefix (cfg_RateLimit cfg) = "") then "rl:edgequota:"
  else "rl:" +:+ rl_KeyPrefix (cfg_RateLimit cfg) +:+ ":".

(** [&staticParams{...}] *)
Definition new_staticParams (cfg : Config) : staticParams :=
  let p := parseRateLimitParams (cfg_RateLimit cfg) in
  mkStaticParams (p_ratePerSecond p) (p_burst p) (p_ttl p) (key_prefix cfg) (p_failurePolicy p) (p_failureCode p)
    (rs_Average (rl_Static (cfg_RateLimit cfg)))
    (NewInMemoryLimiter (p_ratePerSecond p) (p_burst p) (wrap64 (p_ttl p * Second))).

(** [&fallbackParams{...}] *)
Definition new_fallbackParams (cfg : Config) : fallbackParams :=
  let fb := xr_Fallback (rl_External (cfg_RateLimit cfg)) in
  let '(fbRPS, fbBurst, fbTTL, _) := parseBucketParams (rs_Average fb) (rs_Burst fb) (rs_Period fb) "" in
  mkFallbackParams fbRPS fbBurst fbTTL (rs_Average fb) (NewInMemoryLimiter fbRPS fbBurst (wrap64 (fbTTL * Second))).

Definition new_urlPolicy (cfg : Config) : BackendURLPolicy :=
  let u := bc_URLPolicy (cfg_Backend cfg) in
  mkBackendURLPolicy (up_AllowedSchemes u) (DenyPrivateNetworksEnabled u) (up_AllowedHosts u).

Definition static_key (cfg : Config) : KeyStrategyConfig := rs_KeyStrategy (rl_Static (cfg_RateLimit cfg)).
Definition fallback_key (cfg : Config) : KeyStrategyConfig := rs_KeyStrategy (xr_Fallback (rl_External (cfg_RateLimit cfg))).
Definition external_enabled (cfg : Config) : bool := xr_Enabled (rl_External (cfg_RateLimit cfg)).

(** [NewChain] up to the Redis and service clients. *)
Definition NewChain_settings (cfg : Config) : result published :=
  match NewKeyStrategy (static_key cfg) with
  | Err e => Err (wrapf "key strategy" e)
  | Ok ks =>
      fb ← (if external_enabled cfg then
              match NewKeyStrategy (fallback_key cfg) with
              | Err e => Err (wrapf "fallback key strategy" e)
              | Ok fbKS => Ok (Some (fbKS, new_fallbackParams cfg))
              end
            else Ok None);
      let rps := rl_GlobalPassthroughRPS (cfg_RateLimit cfg) in
      let maxReq := sc_MaxConcurrentRequests (cfg_Server cfg) in
      Ok (mkPublished cfg (new_staticParams cfg) (snd <$> fb) ks (fst <$> fb) (new_urlPolicy cfg)
            (default 0 (time_ParseDuration (sc_RequestTimeout (cfg_Server cfg)))) 0
            (sc_BypassPreflightAuth (cfg_Server cfg)) (AccessLogEnabled (cfg_Logging cfg)) (NewEmitter (cfg_Events cfg))
            (if fltb 0 rps then Some (NewInMemoryLimiter rps (Z.max (ftrunc rps) 1) Minute) else None)
            (if 0 <? maxReq then Some maxReq else None)
            (list_to_set (map CanonicalHeaderKey (au_AllowedInjectionHeaders (cfg_Auth cfg)))))
  end.

Definition SetWriteTimeout (d : Z) (p : published) : published :=
  mkPublished (pb_cfg p) (pb_staticRL p) (pb_externalFallback p) (pb_keyStrategy p) (pb_fallbackKeyStrategy p) (pb_urlPolicy p)
    (pb_requestTimeout p) d (pb_bypassPreflight p) (pb_accessLog p) (pb_emitter p) (pb_globalBackstop p) (pb_concurrencySem p)
    (pb_allowedInjectionHeaders p).

(** A started server: [buildMainServer] stores the write timeout (zero when it
    does not parse). *)
Definition start_settings (cfg : Config) : result published :=
  p ← NewChain_settings cfg;
  Ok (SetWriteTimeout
        (match ParseDuration (sc_WriteTimeout (cfg_Server cfg)) (30 * Second) with Ok d => d | Err _ => 0 end) p).

Definition store_keyStrategy (ks : KeyStrategy) (p : published) : published :=
  mkPublished (pb_cfg p) (pb_staticRL p) (pb_externalFallback p) ks (pb_fallbackKeyStrategy p) (pb_urlPolicy p)
    (pb_requestTimeout p) (pb_writeTimeout p) (pb_bypassPreflight p) (pb_accessLog p) (pb_emitter p) (pb_globalBackstop p)
    (pb_concurrencySem p) (pb_allowedInjectionHeaders p).

(** The stores of [Reload] after both key strategies could be built. *)
Definition reload_rest (cfg : Config) (fb : option (KeyStrategy * fallbackParams)) (p : published) : published :=
  mkPublished cfg (new_staticParams cfg)
    (match fb with Some (_, f) => Some f | None => pb_externalFallback p end)
    (pb_keyStrategy p)
    (match fb with Some (ks, _) => Some ks | None => pb_fallbackKeyStrategy p end)
    (new_urlPolicy cfg)
    (match time_ParseDuration (sc_RequestTimeout (cfg_Server cfg)) with Some d => d | None => pb_requestTimeout p end)
    (match ParseDuration (sc_WriteTimeout (cfg_Server cfg)) (30 * Second) with Ok d => d | Err _ => pb_writeTimeout p end)
    (sc_BypassPreflightAuth (cfg_Server cfg)) (AccessLogEnabled (cfg_Logging cfg)) (NewEmitter (cfg_Events cfg))
    (pb_globalBackstop p) (pb_concurrencySem p) (pb_allowedInjectionHeaders p).

(** [Reload] on the settings; the static key strategy is stored before the
    fallback key strategy is known to be valid. *)
Definition Reload_settings (cfg : Config) (p : published) : published * option error :=
  match NewKeyStrategy (static_key cfg) with
  | Err e => (p, Some (wrapf "reload key strategy" e))
  | Ok ks =>
      let p := store_keyStrategy ks p in
      if external_enabled cfg then
        match NewKeyStrategy (fallback_key cfg) with
        | Err e => (p, Some (wrapf "reload fallback key strategy" e))
        | Ok fbKS => (reload_rest cfg (Some (fbKS, new_fallbackParams cfg)) p, None)
        end
      else (reload_rest cfg None p, None)
  end.

(** The snapshot a request of [Chain] runs against: the published settings, the
    header filter of the external client and whether the auth cache is there. *)
Definition snapshot (p : published) (filter : HeaderFilter) (authCache : bool) : settings :=
  mkSettings (pb_cfg p) (pb_staticRL p) (pb_externalFallback p) (pb_keyStrategy p) (pb_fallbackKeyStrategy p) filter authCache
    (pb_globalBackstop p) (pb_concurrencySem p) (pb_urlPolicy p) (pb_requestTimeout p) (pb_bypassPreflight p)
    (pb_allowedInjectionHeaders p).
End snapshots.

(** ** Reload against restart *)

Section reload.
Context `{R : Rounding}.

(** A restarted chain with what a reload keeps of the running one [p]: the global
    backstop, the concurrency limit, the injection allow-list and, when the new
    configuration has no external service, the fallback of the old one. *)
Definition restarted_except (q p : published) : published :=
  let ext := external_enabled (pb_cfg q) in
  mkPublished (pb_cfg q) (pb_staticRL q)
    (if ext then pb_externalFallback q else pb_externalFallback p)
    (pb_keyStrategy q)
    (if ext then pb_fallbackKeyStrategy q else pb_fallbackKeyStrategy p)
    (pb_urlPolicy q) (pb_requestTimeout q) (pb_writeTimeout q) (pb_bypassPreflight q) (pb_accessLog q) (pb_emitter q)
    (pb_globalBackstop p) (pb_concurrencySem p) (pb_allowedInjectionHeaders p).

(** The configuration is one that [start_settings] accepts exactly when both key
    strategies can be built. *)
Lemma start_settings_Ok cfg :
  is_ok (start_settings cfg) = true <->
  is_ok (NewKeyStrategy (static_key cfg)) = true
  /\ (external_enabled cfg = true -> is_ok (NewKeyStrategy (fallback_key cfg)) = true).
Proof.
  unfold start_settings, NewChain_settings. destruct (NewKeyStrategy (static_key cfg)); [|by split; [|intros []]].
  destruct (external_enabled cfg); [|by split]. destruct (NewKeyStrategy (fallback_key cfg)); cbn; [by split|].
  split; [done|]. intros [_ H]. by apply H.
Qed.


(** A reload that fails leaves the settings alone, or replaces the static key
    strategy and nothing else. *)
Lemma Reload_settings_failure cfg p p' e :
  Reload_settings cfg p = (p', Some e) ->
  p' = p \/ (external_enabled cfg = true /\ exists ks, NewKeyStrategy (static_key cfg) = Ok ks /\ p' = store_keyStrategy ks p).
Proof.
  unfold Reload_settings. destruct (NewKeyStrategy (static_key cfg)) as [ks|]; [|intros [= <- _]; by left].
  destruct (external_enabled cfg); [|done]. destruct (NewKeyStrategy (fallback_key cfg)); [done|].
  intros [= <- _]. right. eauto.
Qed.

Definition proxies_parse (ks : KeyStrategyConfig) : Prop :=
  Forall (fun c => TrimSpace c = "" \/ is_Some (ParseCIDR (cidr_of (TrimSpace c)))) (ks_TrustedProxies ks).

Lemma proxies_nil ks : ks_TrustedProxies ks = [] -> proxies_parse ks.
Proof. unfold proxies_parse. intros ->. constructor. Qed.

(** Reloading a validated configuration cannot fail, provided its trusted
    proxy ranges parse (which validation does not check); the settings then are
    those of a restart in everything a reload replaces. *)
Theorem Reload_settings_validated (url_Parse : string -> result URL) (URL_String : URL -> string) file cfg p :
  Validate url_Parse URL_String file = Ok cfg ->
  proxies_parse (static_key cfg) -> proxies_parse (fallback_key cfg) ->
  exists q, start_settings cfg = Ok q /\ (Reload_settings cfg p).2 = None
    /\ pb_staticRL (Reload_settings cfg p).1 = pb_staticRL q /\ pb_keyStrategy (Reload_settings cfg p).1 = pb_keyStrategy q
    /\ pb_urlPolicy (Reload_settings cfg p).1 = pb_urlPolicy q /\ pb_writeTimeout (Reload_settings cfg p).1 = pb_writeTimeout q.
Proof.
  intros Hv%Validate_valid_config Hp1 Hp2. pose proof (NewKeyStrategy_ok _ (vc_key _ Hv) Hp1) as Hk. fold (static_key cfg) in Hk.
  assert (external_enabled cfg = true -> is_ok (NewKeyStrategy (fallback_key cfg)) = true) as Hf.
  { intros He. apply (vc_external _ Hv) in He as (_ & _ & Hkf & _). by apply NewKeyStrategy_ok. }
  assert (is_ok (ParseDuration (sc_WriteTimeout (cfg_Server cfg)) (30 * Second)) = true) as Hw.
  { pose proof (vc_durations _ Hv) as Hd. unfold validated_durations in Hd. rewrite !Forall_cons in Hd.
    destruct Hd as (_ & Hd & _). cbn in Hd. unfold ParseDuration. case_bool_decide; [done|].
    destruct Hd as [?|[d ->]]; [done|done]. }
  unfold start_settings, NewChain_settings, Reload_settings. destruct (NewKeyStrategy (static_key cfg)); [|done].
  destruct (ParseDuration _ _) eqn:Ew; [|done]. destruct (external_enabled cfg).
  - specialize (Hf eq_refl). destruct (NewKeyStrategy (fallback_key cfg)); [|done]. cbn. eexists. rewrite Ew. done.
  - cbn. eexists. rewrite Ew. done.
Qed.
End reload.

(** ** Concrete configurations *)

Module SettingsDemo.
Definition file (rps : Q) (maxReq : Z) : Config :=
  let rl := cfg_RateLimit sample_config in
  let s := cfg_Server sample_config in
  set_cfg_Server (mkServerConfig (sc_Address s) (sc_ReadTimeout s) (sc_WriteTimeout s) (sc_IdleTimeout s) (sc_DrainTimeout s)
      (sc_RequestTimeout s) (sc_TLS s) maxReq (sc_AllowedWebSocketOrigins s) (sc_MaxWebSocketConnsPerKey s)
      (sc_MaxWebSocketTransferBytes s) (sc_WebSocketIdleTimeout s) (sc_BypassPreflightAuth s))
    (set_cfg_RateLimit (mkRateLimitConfig (rl_Static rl) (rl_FailurePolicy rl) (rl_FailureCode rl) (rl_KeyPrefix rl)
      (rl_External rl) (rl_MinTTL rl) (rl_MaxRecoveryAttempts rl) rps) sample_config).

(** An external service whose fallback names a proxy range that is no CIDR. *)
Definition bad_fallback : Config :=
  set_cfg_RateLimit (set_rl_External (mkExternalRLConfig true "5s" "" "http://limits" no_grpc no_filter
    (mkStaticRateLimitConfig 1 1 "1s" (mkKeyStrategyConfig "clientip" "" false "" ["10.0.0.0/99"] 0) "http://app") 0 0 "" no_breaker)
    (set_rl_Static (set_rs_KeyStrategy (mkKeyStrategyConfig "global" "" false "" [] 0) (rl_Static (cfg_RateLimit sample_config)))
       (cfg_RateLimit sample_config))) sample_config.
Definition started (cfg : Config) : option published :=
  match start_settings (R := exact_rounding) cfg with Ok p => Some p | Err _ => None end.
Definition validated (c : Config) : Config :=
  match Validate sample_parse sample_string c with Ok c => c | Err _ => Defaults end.
End SettingsDemo.


Lemma Reload_settings_validated_witness :
  exists p q, SettingsDemo.started (SettingsDemo.file 10 5) = Some p
    /\ start_settings (R := exact_rounding) (SettingsDemo.validated (SettingsDemo.file 0 0)) = Ok q
    /\ pb_keyStrategy (Reload_settings (R := exact_rounding) (SettingsDemo.validated (SettingsDemo.file 0 0)) p).1 = pb_keyStrategy q.
Proof.
  eexists. edestruct (Reload_settings_validated (R := exact_rounding) sample_parse sample_string (SettingsDemo.file 0 0)
    (SettingsDemo.validated (SettingsDemo.file 0 0))) as (q & Hq & _ & _ & Hk & _);
    [vm_compute; reflexivity|apply proxies_nil; vm_compute; reflexivity..|].
  exists q. split; [vm_compute; reflexivity|]. split; [exact Hq|exact Hk].
Defined.

(** The limits of the new file are not in force: no concurrency limit and no
    backstop after the reload, five and one after a restart. *)
Lemma reload_keeps_old_limits p q :
  SettingsDemo.started (SettingsDemo.file 0 0) = Some p -> SettingsDemo.started (SettingsDemo.file 10 5) = Some q ->
  let p' := (Reload_settings (R := exact_rounding) (SettingsDemo.file 10 5) p).1 in
  (pb_concurrencySem p', pb_globalBackstop p') = (None, None)
  /\ pb_concurrencySem q = Some 5 /\ pb_globalBackstop q <> None.
Proof. intros Hp Hq. vm_compute in Hp, Hq. injection Hp as <-. injection Hq as <-. vm_compute. done. Qed.

(** A configuration that passes validation and fails to reload after its static
    key strategy is already in force. *)
Lemma partial_reload :
  let cfg := SettingsDemo.validated SettingsDemo.bad_fallback in
  exists p, Validate sample_parse sample_string SettingsDemo.bad_fallback = Ok cfg
    /\ SettingsDemo.started sample_config = Some p
    /\ (exists e, (Reload_settings (R := exact_rounding) cfg p).2 = Some e)
    /\ pb_keyStrategy p = KSClientIP (mkClientIPStrategy [] 0)
    /\ pb_keyStrategy (Reload_settings (R := exact_rounding) cfg p).1 = KSGlobal (mkGlobalStrategy "global")
    /\ pb_cfg (Reload_settings (R := exact_rounding) cfg p).1 = sample_config.
Proof.
  intros cfg. eexists. split; [vm_compute; reflexivity|]. split; [vm_compute; reflexivity|].
  split; [eexists; vm_compute; reflexivity|]. split_and!; vm_compute; reflexivity.
Qed.
