(* ===== verification/Lifecycle.v ===== *)
(** * The middleware chain: resources over its lifetime

    The part of [internal/middleware/chain.go] that creates, shares, swaps and
    closes what a chain owns: Redis clients, the auth and external clients, the
    in-memory limiters and the event emitter. It covers start-up ([NewChain],
    [initRedis], [initClients], [initResponseCache]), the cache client that is
    either a dedicated connection or an alias of the limiter's
    ([resolveCacheRedis], [releaseCacheRedis]), outages ([handleLimiterError]),
    the two recovery goroutines, hot reload, the proxy swap and shutdown.

    A resource is an identity. [lc_res] says which field of the chain owns which
    open resource; aliases are separate fields; closed resources are listed in
    order. Everything the environment decides (whether a connection can be made,
    which goroutine moves next) is part of an [event], and [step] is the
    transition, so that a run is a list of events. The code between two points
    where goroutines can interleave is one step. *)
From S2P Require Import Prelude GoStrings GoTime Float64 ConfigTypes Config KeyStrategy InMemory Events Bucket Chain Settings.

Local Open Scope Z_scope.

(** ** State *)

(** The fields of [Chain] that own something to close. *)
Inductive field :=
| FLimiter | FAuthClient | FExternalRL | FStaticFallback | FExternalFallback | FGlobalBackstop | FEmitter | FResponseCacheRedis.

#[export] Instance field_eq_dec : EqDecision field.
Proof. solve_decision. Defined.

Definition all_fields : list field :=
  [FLimiter; FAuthClient; FExternalRL; FStaticFallback; FExternalFallback; FGlobalBackstop; FEmitter; FResponseCacheRedis].
Definition field_index (f : field) : nat :=
  match f with
  | FLimiter => 0 | FAuthClient => 1 | FExternalRL => 2 | FStaticFallback => 3 | FExternalFallback => 4
  | FGlobalBackstop => 5 | FEmitter => 6 | FResponseCacheRedis => 7
  end%nat.

#[export] Instance field_countable : Countable field.
Proof.
  refine (inj_countable field_index (fun n => all_fields !! n) _). by intros [].
Defined.

(** The local variables of [recoveryLoop]. *)
Record recovery := mkRecovery {
  rv_client : nat;
  rv_lastCfg : RedisConfig;
  rv_backoff : Z;
  rv_attempt : Z;
  rv_maxAttempts : Z
}.

(** Where the recovery goroutine is: launched, before an iteration, in the timed
    wait, between a successful ping and the installation, or past the loop with
    [reconnecting] still set. *)
Inductive phase :=
| Starting
| Looping (r : recovery)
| Sleeping (r : recovery)
| Pinged (r : recovery)
| Ending.

(** The response cache's recovery goroutine; [RConnected]: connected, not yet
    installed. *)
Inductive resp_phase := RIdle | RWaiting | RConnected (x : nat).

Record Lifecycle := mkLife {
  lc_pub : published;
  lc_res : gmap field nat;
  lc_cacheRedis : option nat;
  lc_cacheRedisOwned : bool;
  lc_authCacheRedis : option nat;
  lc_extRedis : option nat;           (* redisClient of the external client *)
  lc_redisUnhealthy : bool;
  lc_recovery : option phase;         (* None: reconnecting is false *)
  lc_resp : resp_phase;
  lc_proxy : nat;                     (* the proxy [next] points to; 0 is proxyRef *)
  lc_cached : gset nat;               (* proxies that have been given a response cache *)
  lc_inflight : list nat;             (* limiter clients that requests are using *)
  lc_ctxDone : bool;
  lc_next : nat;                      (* resources created so far *)
  lc_closed : list nat                (* resources closed, in order *)
}.

Definition with_pub (p : published) (c : Lifecycle) : Lifecycle :=
  mkLife p (lc_res c) (lc_cacheRedis c) (lc_cacheRedisOwned c) (lc_authCacheRedis c) (lc_extRedis c) (lc_redisUnhealthy c)
    (lc_recovery c) (lc_resp c) (lc_proxy c) (lc_cached c) (lc_inflight c) (lc_ctxDone c) (lc_next c) (lc_closed c).
Definition with_res (m : gmap field nat) (c : Lifecycle) : Lifecycle :=
  mkLife (lc_pub c) m (lc_cacheRedis c) (lc_cacheRedisOwned c) (lc_authCacheRedis c) (lc_extRedis c) (lc_redisUnhealthy c)
    (lc_recovery c) (lc_resp c) (lc_proxy c) (lc_cached c) (lc_inflight c) (lc_ctxDone c) (lc_next c) (lc_closed c).
Definition with_cacheRedis (x : option nat) (owned : bool) (c : Lifecycle) : Lifecycle :=
  mkLife (lc_pub c) (lc_res c) x owned (lc_authCacheRedis c) (lc_extRedis c) (lc_redisUnhealthy c)
    (lc_recovery c) (lc_resp c) (lc_proxy c) (lc_cached c) (lc_inflight c) (lc_ctxDone c) (lc_next c) (lc_closed c).
Definition storeAuthCacheRedis (x : option nat) (c : Lifecycle) : Lifecycle :=
  mkLife (lc_pub c) (lc_res c) (lc_cacheRedis c) (lc_cacheRedisOwned c) x (lc_extRedis c) (lc_redisUnhealthy c)
    (lc_recovery c) (lc_resp c) (lc_proxy c) (lc_cached c) (lc_inflight c) (lc_ctxDone c) (lc_next c) (lc_closed c).
(** [ext.SetRedisClient] *)
Definition SetRedisClient (x : option nat) (c : Lifecycle) : Lifecycle :=
  mkLife (lc_pub c) (lc_res c) (lc_cacheRedis c) (lc_cacheRedisOwned c) (lc_authCacheRedis c) x (lc_redisUnhealthy c)
    (lc_recovery c) (lc_resp c) (lc_proxy c) (lc_cached c) (lc_inflight c) (lc_ctxDone c) (lc_next c) (lc_closed c).
Definition with_unhealthy (b : bool) (c : Lifecycle) : Lifecycle :=
  mkLife (lc_pub c) (lc_res c) (lc_cacheRedis c) (lc_cacheRedisOwned c) (lc_authCacheRedis c) (lc_extRedis c) b
    (lc_recovery c) (lc_resp c) (lc_proxy c) (lc_cached c) (lc_inflight c) (lc_ctxDone c) (lc_next c) (lc_closed c).
Definition with_recovery (p : option phase) (c : Lifecycle) : Lifecycle :=
  mkLife (lc_pub c) (lc_res c) (lc_cacheRedis c) (lc_cacheRedisOwned c) (lc_authCacheRedis c) (lc_extRedis c)
    (lc_redisUnhealthy c) p (lc_resp c) (lc_proxy c) (lc_cached c) (lc_inflight c) (lc_ctxDone c) (lc_next c) (lc_closed c).
Definition with_resp (p : resp_phase) (c : Lifecycle) : Lifecycle :=
  mkLife (lc_pub c) (lc_res c) (lc_cacheRedis c) (lc_cacheRedisOwned c) (lc_authCacheRedis c) (lc_extRedis c)
    (lc_redisUnhealthy c) (lc_recovery c) p (lc_proxy c) (lc_cached c) (lc_inflight c) (lc_ctxDone c) (lc_next c) (lc_closed c).
Definition with_proxy (p : nat) (cached : gset nat) (c : Lifecycle) : Lifecycle :=
  mkLife (lc_pub c) (lc_res c) (lc_cacheRedis c) (lc_cacheRedisOwned c) (lc_authCacheRedis c) (lc_extRedis c)
    (lc_redisUnhealthy c) (lc_recovery c) (lc_resp c) p cached (lc_inflight c) (lc_ctxDone c) (lc_next c) (lc_closed c).
Definition with_inflight (l : list nat) (c : Lifecycle) : Lifecycle :=
  mkLife (lc_pub c) (lc_res c) (lc_cacheRedis c) (lc_cacheRedisOwned c) (lc_authCacheRedis c) (lc_extRedis c)
    (lc_redisUnhealthy c) (lc_recovery c) (lc_resp c) (lc_proxy c) (lc_cached c) l (lc_ctxDone c) (lc_next c) (lc_closed c).
Definition cancel (c : Lifecycle) : Lifecycle :=
  mkLife (lc_pub c) (lc_res c) (lc_cacheRedis c) (lc_cacheRedisOwned c) (lc_authCacheRedis c) (lc_extRedis c)
    (lc_redisUnhealthy c) (lc_recovery c) (lc_resp c) (lc_proxy c) (lc_cached c) (lc_inflight c) true (lc_next c) (lc_closed c).

(** A constructor call: a fresh identity. *)
Definition create (c : Lifecycle) : Lifecycle * nat :=
  (mkLife (lc_pub c) (lc_res c) (lc_cacheRedis c) (lc_cacheRedisOwned c) (lc_authCacheRedis c) (lc_extRedis c)
     (lc_redisUnhealthy c) (lc_recovery c) (lc_resp c) (lc_proxy c) (lc_cached c) (lc_inflight c) (lc_ctxDone c)
     (S (lc_next c)) (lc_closed c), lc_next c).
(** [x.Close()]; [None] is nil. *)
Definition close (x : option nat) (c : Lifecycle) : Lifecycle :=
  mkLife (lc_pub c) (lc_res c) (lc_cacheRedis c) (lc_cacheRedisOwned c) (lc_authCacheRedis c) (lc_extRedis c)
    (lc_redisUnhealthy c) (lc_recovery c) (lc_resp c) (lc_proxy c) (lc_cached c) (lc_inflight c) (lc_ctxDone c) (lc_next c)
    (lc_closed c ++ option_list x).
(** [c.f.Swap(x)], returning what the field held. *)
Definition swap (f : field) (x : option nat) (c : Lifecycle) : Lifecycle * option nat :=
  (with_res (match x with Some x => <[f := x]> (lc_res c) | None => delete f (lc_res c) end) c, lc_res c !! f).
(** [old := c.f.Swap(x); if old != nil { old.Close() }] *)
Definition replace (f : field) (x : option nat) (c : Lifecycle) : Lifecycle :=
  let '(c, old) := swap f x c in close old c.
(** A field that gets a newly created resource. *)
Definition create_in (f : field) (c : Lifecycle) : Lifecycle :=
  let '(c, x) := create c in replace f (Some x) c.

Definition limiter (c : Lifecycle) : option nat := lc_res c !! FLimiter.
Definition cfg_of (c : Lifecycle) : Config := pb_cfg (lc_pub c).

(** ** The cache client *)

Definition dedicated_cache (cfg : Config) : bool :=
  match cfg_CacheRedis cfg with Some rc => negb (bool_decide (length (rc_Endpoints rc) = 0%nat)) | None => false end.

(** [ok]: the dedicated connection can be made. *)
Definition resolveCacheRedis (cfg : Config) (ok : bool) (c : Lifecycle) : Lifecycle * option nat :=
  match lc_cacheRedis c with
  | Some existing => (c, Some existing)
  | None =>
      if dedicated_cache cfg && ok then
        let '(c, x) := create c in (with_cacheRedis (Some x) true c, Some x)
      else
        let c := match limiter c with Some x => with_cacheRedis (Some x) false c | None => c end in
        (c, lc_cacheRedis c)
  end.

Definition releaseCacheRedis (c : Lifecycle) : Lifecycle :=
  let owned := lc_cacheRedisOwned c in
  let client := lc_cacheRedis c in
  let c := with_cacheRedis None false c in
  if owned then close client c else c.

(** ** Outage and recovery *)

Definition swapLimiterLocked (x : option nat) (c : Lifecycle) : Lifecycle * option nat := swap FLimiter x c.

Definition startRecoveryIfNeeded (c : Lifecycle) : Lifecycle :=
  if lc_ctxDone c then c
  else match lc_recovery c with Some _ => c | None => with_recovery (Some Starting) c end.

(** The connectivity branch of [handleLimiterError]. *)
Definition handleConnectivityErr (c : Lifecycle) : Lifecycle :=
  let '(c, old) := swapLimiterLocked None c in
  let c := with_unhealthy true c in
  startRecoveryIfNeeded (close old c).

Definition recoveryBackoffBase : Z := Second.
Definition recoveryBackoffMax : Z := 60 * Second.

Definition sameRedisEndpoints (a b : RedisConfig) : bool :=
  bool_decide (rc_Endpoints a = rc_Endpoints b) && bool_decide (rc_Mode a = rc_Mode b)
  && bool_decide (rc_MasterName a = rc_MasterName b).

(** [recoveryLoop] up to the loop; [ok]: [NewClientWithoutPing] succeeds. *)
Definition recovery_begin (ok : bool) (c : Lifecycle) : Lifecycle :=
  if ok then
    let '(c, x) := create c in
    with_recovery (Some (Looping (mkRecovery x (cfg_Redis (cfg_of c)) recoveryBackoffBase 0
      (rl_MaxRecoveryAttempts (cfg_RateLimit (cfg_of c)))))) c
  else with_recovery (Some Ending) c.

(** [_ = client.Close(); return] in [recoveryLoop]. *)
Definition recovery_quit (r : recovery) (c : Lifecycle) : Lifecycle := with_recovery (Some Ending) (close (Some (rv_client r)) c).

(** [recoveryRetry] up to the wait. *)
Definition recoveryRetry (r : recovery) (c : Lifecycle) : Lifecycle :=
  if (0 <? rv_maxAttempts r) && (rv_maxAttempts r <=? rv_attempt r) then recovery_quit r c
  else with_recovery (Some (Sleeping r)) c.

(** The rest of an iteration: the ping and its outcome. *)
Definition recovery_ping (ping_ok : bool) (r : recovery) (c : Lifecycle) : Lifecycle :=
  if ping_ok then with_recovery (Some (Pinged r)) c
  else recoveryRetry (mkRecovery (rv_client r) (rv_lastCfg r) (rv_backoff r) (rv_attempt r + 1) (rv_maxAttempts r)) c.

(** One iteration of the loop: the shutdown check, a new client when the
    endpoints have changed, the ping. *)
Definition recovery_iter (create_ok ping_ok : bool) (r : recovery) (c : Lifecycle) : Lifecycle :=
  if lc_ctxDone c then recovery_quit r c
  else
    let curCfg := cfg_Redis (cfg_of c) in
    if sameRedisEndpoints (rv_lastCfg r) curCfg then recovery_ping ping_ok r c
    else
      let c := close (Some (rv_client r)) c in
      if create_ok then
        let '(c, x) := create c in
        recovery_ping ping_ok (mkRecovery x curCfg recoveryBackoffBase (rv_attempt r) (rv_maxAttempts r)) c
      else with_recovery (Some Ending) c.

(** The end of the wait: the timer, or the cancelled context. *)
Definition recovery_wake (timer : bool) (r : recovery) (c : Lifecycle) : Lifecycle :=
  if timer then
    with_recovery (Some (Looping (mkRecovery (rv_client r) (rv_lastCfg r)
      (Z.min (rv_backoff r * 2) recoveryBackoffMax) (rv_attempt r) (rv_maxAttempts r)))) c
  else recovery_quit r c.

Definition recoveryInstall (client : nat) (c : Lifecycle) : Lifecycle :=
  if fleb (sp_ratePerSecond (pb_staticRL (lc_pub c))) 0 && negb (external_enabled (cfg_of c)) then
    let '(c, old) := swapLimiterLocked None c in
    let c := with_unhealthy false c in
    close (Some client) (close old c)
  else
    let '(c, old) := swapLimiterLocked (Some client) c in
    let c := with_unhealthy false c in
    let c := close old c in
    if negb (lc_cacheRedisOwned c) then
      let c := with_cacheRedis (Some client) false c in
      let c := storeAuthCacheRedis (Some client) c in
      match lc_res c !! FExternalRL with Some _ => SetRedisClient (Some client) c | None => c end
    else c.

(** ** The response cache *)

(** [installResponseCache]: the store goes to the proxy the chain was built with. *)
Definition installResponseCache (client : nat) (c : Lifecycle) : Lifecycle :=
  let c := replace FResponseCacheRedis (Some client) c in
  with_proxy (lc_proxy c) ({[ 0%nat ]} ∪ lc_cached c) c.

Definition initResponseCache (ok : bool) (c : Lifecycle) : Lifecycle :=
  if ok then let '(c, x) := create c in installResponseCache x c else with_resp RWaiting c.

(** One round of [responseCacheRecoveryLoop]. *)
Definition resp_round (ok : bool) (c : Lifecycle) : Lifecycle :=
  if lc_ctxDone c then with_resp RIdle c
  else if ok then let '(c, x) := create c in with_resp (RConnected x) c else c.

(** ** Start-up *)

Section params.
Context `{R : Rounding}.

(** Whether each connection or client can be made, in the order they are tried. *)
Record attempts := mkAttempts {
  at_redis : bool; at_auth : bool; at_cache1 : bool; at_cache2 : bool; at_ext : bool; at_resp : bool
}.

Definition handleRedisStartupFailure (fp : string) (c : Lifecycle) : Lifecycle * option error :=
  if bool_decide (fp = "passthrough") || bool_decide (fp = "inmemoryfallback") then (startRecoveryIfNeeded c, None)
  else (c, Some (errorf "redis connection failed")).

Definition initRedis (cfg : Config) (ok : bool) (c : Lifecycle) : Lifecycle * option error :=
  let p := parseRateLimitParams (cfg_RateLimit cfg) in
  if (rs_Average (rl_Static (cfg_RateLimit cfg)) =? 0) && negb (external_enabled cfg) then (c, None)
  else if negb ok then handleRedisStartupFailure (p_failurePolicy p) c
  else
    let '(c, x) := create c in
    if fltb 0 (p_ratePerSecond p) || external_enabled cfg then ((swap FLimiter (Some x) c).1, None)
    else (close (Some x) c, None).

Definition init_auth (cfg : Config) (a : attempts) (c : Lifecycle) : Lifecycle * option error :=
  if au_Enabled (cfg_Auth cfg) then
    if negb (at_auth a) then (c, Some (errorf "auth client"))
    else
      let '(c, x) := resolveCacheRedis cfg (at_cache1 a) (create_in FAuthClient c) in
      (storeAuthCacheRedis x c, None)
  else (c, None).

Definition init_external (cfg : Config) (a : attempts) (c : Lifecycle) : Lifecycle * option error :=
  if external_enabled cfg then
    let '(c, x) := resolveCacheRedis cfg (at_cache2 a) c in
    if negb (at_ext a) then (releaseCacheRedis c, Some (errorf "external ratelimit client"))
    else (SetRedisClient x (create_in FExternalRL c), None)
  else (c, None).

(** The steps of a constructor: the first error ends it. *)
Definition and_then (s : Lifecycle * option error) (f : Lifecycle -> Lifecycle * option error) : Lifecycle * option error :=
  match s.2 with None => f s.1 | Some _ => s end.

Definition initClients (cfg : Config) (a : attempts) (c : Lifecycle) : Lifecycle * option error :=
  and_then (init_auth cfg a c) (fun c =>
  and_then (init_external cfg a c) (fun c =>
  (if cc_Enabled (cfg_Cache cfg) then initResponseCache (at_resp a) c else c, None))).

(** A field that holds a resource only when [b]. *)
Definition create_if (b : bool) (f : field) (c : Lifecycle) : Lifecycle := if b then create_in f c else c.

Definition empty_life (p : published) : Lifecycle := mkLife p ∅ None false None None false None RIdle 0 ∅ [] false 0 [].

(** [NewChain] after the key strategies; on an error the caller only gets the
    error, and the state is what is left behind. *)
Definition build_chain (p : published) (a : attempts) : Lifecycle * option error :=
  let cfg := pb_cfg p in
  let c := create_in FStaticFallback (empty_life p) in
  let c := create_if (external_enabled cfg) FExternalFallback c in
  let c := create_if (bool_decide (is_Some (pb_globalBackstop p))) FGlobalBackstop c in
  let c := create_if (bool_decide (is_Some (pb_emitter p))) FEmitter c in
  and_then (initRedis cfg (at_redis a) c) (initClients cfg a).

Definition NewChain (cfg : Config) (a : attempts) : result Lifecycle :=
  p ← NewChain_settings cfg;
  match build_chain p a with (c, None) => Ok c | (_, Some e) => Err e end.

(** ** Reload, proxy swap and shutdown *)

Definition reloadExternalRL (cfg : Config) (a : attempts) (c : Lifecycle) : Lifecycle :=
  if negb (external_enabled cfg) then c
  else
    let '(c, x) := resolveCacheRedis cfg (at_cache1 a) (releaseCacheRedis c) in
    if at_ext a then SetRedisClient x (create_in FExternalRL c) else c.

Definition authChanged (prev new : Config) : bool :=
  let a := cfg_Auth prev in let b := cfg_Auth new in
  negb (bool_decide (au_Enabled b = au_Enabled a)) || negb (bool_decide (ah_URL (au_HTTP b) = ah_URL (au_HTTP a)))
  || negb (bool_decide (gc_Address (au_GRPC b) = gc_Address (au_GRPC a)))
  || negb (bool_decide (au_Timeout b = au_Timeout a)) || negb (bool_decide (au_FailurePolicy b = au_FailurePolicy a)).

Definition reloadAuth (prev new : Config) (a : attempts) (c : Lifecycle) : Lifecycle :=
  if negb (au_Enabled (cfg_Auth new)) || negb (authChanged prev new) then c
  else if at_auth a then create_in FAuthClient c else c.

(** The fresh limiters of a reload; the old ones are closed after the swap. *)
Definition reload_limiters (cfg : Config) (p : published) (c : Lifecycle) : Lifecycle :=
  let '(c, oldExternalFB) :=
    if external_enabled cfg then let '(c, x) := create c in swap FExternalFallback (Some x) c else (c, None) in
  let '(c, x) := create c in
  let '(c, oldStatic) := swap FStaticFallback (Some x) c in
  close oldExternalFB (close oldStatic (with_pub p c)).

Definition reload_emitter (p : published) (c : Lifecycle) : Lifecycle :=
  match pb_emitter p with Some _ => create_in FEmitter c | None => replace FEmitter None c end.

Definition Reload (cfg : Config) (a : attempts) (c : Lifecycle) : Lifecycle * option error :=
  match Reload_settings cfg (lc_pub c) with
  | (p, Some e) => (with_pub p c, Some e)
  | (p, None) =>
      let prevCfg := cfg_of c in
      let c := reload_limiters cfg p c in
      let c := reloadExternalRL cfg a c in
      let c := reloadAuth prevCfg cfg a c in
      let c := storeAuthCacheRedis (lc_cacheRedis c) c in
      (reload_emitter p c, None)
  end.

(** [SwapProxy]: a new proxy, built without a response cache ([buildProxy]). *)
Definition SwapProxy (c : Lifecycle) : Lifecycle := with_proxy (S (lc_proxy c)) (lc_cached c) c.

Definition closeResources (c : Lifecycle) : Lifecycle :=
  foldl (fun c f => replace f None c) (releaseCacheRedis c)
    [FResponseCacheRedis; FAuthClient; FExternalRL; FStaticFallback; FExternalFallback; FGlobalBackstop; FEmitter].

Definition Chain_Close (c : Lifecycle) : Lifecycle :=
  let '(c, old) := swapLimiterLocked None (cancel c) in
  let c := with_unhealthy true c in
  closeResources (close old c).

(** ** Runs *)

Fixpoint remove_one (x : nat) (l : list nat) : option (list nat) :=
  match l with
  | [] => None
  | y :: l => if bool_decide (x = y) then Some l else l' ← remove_one x l; Some (y :: l')
  end.

Inductive event :=
| ETake                                  (* a request reads [c.limiter] *)
| EReturn (x : nat)                      (* its call on client [x] ends without a connection error *)
| EFail (x : nat)                        (* it ends with one *)
| EBegin (ok : bool)
| EIter (create_ok ping_ok : bool)
| EWake (timer : bool)
| EInstall
| EEnd
| EResp (ok : bool)
| ERespInstall
| EReload (cfg : Config) (a : attempts)
| ESwapProxy
| EClose.

(** [None]: the event cannot happen in this state. The server reloads and swaps
    only while the chain is open, and closes it once. *)
Definition step (e : event) (c : Lifecycle) : option Lifecycle :=
  match e with
  | ETake => x ← limiter c; Some (with_inflight (x :: lc_inflight c) c)
  | EReturn x => l ← remove_one x (lc_inflight c); Some (with_inflight l c)
  | EFail x => l ← remove_one x (lc_inflight c); Some (handleConnectivityErr (with_inflight l c))
  | EBegin ok => match lc_recovery c with Some Starting => Some (recovery_begin ok c) | _ => None end
  | EIter create_ok ping_ok =>
      match lc_recovery c with Some (Looping r) => Some (recovery_iter create_ok ping_ok r c) | _ => None end
  | EWake timer =>
      match lc_recovery c with
      | Some (Sleeping r) => if timer || lc_ctxDone c then Some (recovery_wake timer r c) else None
      | _ => None
      end
  | EInstall =>
      match lc_recovery c with
      | Some (Pinged r) => Some (with_recovery (Some Ending) (recoveryInstall (rv_client r) c))
      | _ => None
      end
  | EEnd => match lc_recovery c with Some Ending => Some (with_recovery None c) | _ => None end
  | EResp ok => match lc_resp c with RWaiting => Some (resp_round ok c) | _ => None end
  | ERespInstall =>
      match lc_resp c with RConnected x => Some (installResponseCache x (with_resp RIdle c)) | _ => None end
  | EReload cfg a => if lc_ctxDone c then None else Some (Reload cfg a c).1
  | ESwapProxy => if lc_ctxDone c then None else Some (SwapProxy c)
  | EClose => if lc_ctxDone c then None else Some (Chain_Close c)
  end.

Fixpoint run (es : list event) (c : Lifecycle) : option Lifecycle :=
  match es with
  | [] => Some c
  | e :: es => c' ← step e c; run es c'
  end.
End params.

(** ** Accounting *)

(** The resources the state owns: the dedicated cache client, what the two
    goroutines hold, and the fields. *)
Definition cache_part (x : option nat) (owned : bool) : list nat := if owned then option_list x else [].
Definition phase_part (p : option phase) : list nat :=
  match p with Some (Looping r | Sleeping r | Pinged r) => [rv_client r] | _ => [] end.
Definition resp_part (p : resp_phase) : list nat := match p with RConnected x => [x] | _ => [] end.
Definition field_part (m : gmap field nat) : list nat := (map_to_list m).*2.
Definition owned (c : Lifecycle) : list nat :=
  cache_part (lc_cacheRedis c) (lc_cacheRedisOwned c) ++ phase_part (lc_recovery c) ++ resp_part (lc_resp c)
  ++ field_part (lc_res c).

(** Every resource ever created is in exactly one place: held by a local variable
    ([held]), owned by the state, or closed once. *)
Definition accounts (held : list nat) (c : Lifecycle) : Prop := held ++ owned c ++ lc_closed c ≡ₚ seq 0 (lc_next c).

Lemma field_part_split m f : field_part m ≡ₚ option_list (m !! f) ++ field_part (delete f m).
Proof.
  unfold field_part. destruct (m !! f) as [x|] eqn:E; cbn.
  - by rewrite <- (map_to_list_delete m f x E).
  - by rewrite (delete_id m f E).
Qed.

Lemma field_part_insert m f x : field_part (<[f := x]> m) ≡ₚ x :: field_part (delete f m).
Proof. rewrite (field_part_split _ f), lookup_insert_eq, delete_insert_eq. done. Qed.

Section accounting.
Context `{R : Rounding}.
Implicit Types (h : list nat) (c : Lifecycle).

Lemma accounts_create h c : accounts h c -> accounts (lc_next c :: h) (create c).1.
Proof.
  unfold accounts. cbn [create fst lc_next]. intros H. rewrite seq_S. cbn. rewrite <- H. fold (owned c).
  by rewrite <- Permutation_cons_append.
Qed.

Lemma accounts_close h x c : accounts (option_list x ++ h) c -> accounts h (close x c).
Proof.
  unfold accounts. cbn. fold (owned c). intros <-.
  rewrite (Permutation_app_comm (option_list x) h), <- !(assoc_L (++)). f_equiv.
  rewrite (Permutation_app_comm (option_list x)), <- !(assoc_L (++)). done.
Qed.

Lemma accounts_swap h f x c :
  accounts (option_list x ++ h) c -> accounts (option_list (lc_res c !! f) ++ h) (swap f x c).1.
Proof.
  unfold accounts. cbn. intros <-. unfold owned. cbn. rewrite (field_part_split (lc_res c) f). destruct x as [x|].
  - rewrite field_part_insert. solve_Permutation.
  - solve_Permutation.
Qed.

(** The parts that are not fields of [lc_res]: a new value takes what is held and
    gives back what was there. *)
Lemma accounts_recovery h p c :
  accounts (phase_part p ++ h) c -> accounts (phase_part (lc_recovery c) ++ h) (with_recovery p c).
Proof. unfold accounts. cbn. intros <-. unfold owned. cbn. solve_Permutation. Qed.

Lemma accounts_cache h x b c :
  accounts (cache_part x b ++ h) c ->
  accounts (cache_part (lc_cacheRedis c) (lc_cacheRedisOwned c) ++ h) (with_cacheRedis x b c).
Proof. unfold accounts. cbn. intros <-. unfold owned. cbn. solve_Permutation. Qed.

Lemma accounts_resp h p c : accounts (resp_part p ++ h) c -> accounts (resp_part (lc_resp c) ++ h) (with_resp p c).
Proof. unfold accounts. cbn. intros <-. unfold owned. cbn. solve_Permutation. Qed.

Lemma accounts_replace h f x c : accounts (option_list x ++ h) c -> accounts h (replace f x c).
Proof. intros H%(accounts_swap h f x c). unfold replace. cbn. by apply accounts_close. Qed.

Lemma accounts_create_in h f c : accounts h c -> accounts h (create_in f c).
Proof. intros H%accounts_create. unfold create_in. by apply accounts_replace. Qed.

Lemma accounts_create_if h b f c : accounts h c -> accounts h (create_if b f c).
Proof. destruct b; [apply accounts_create_in|done]. Qed.

Lemma accounts_pub h p c : accounts h c -> accounts h (with_pub p c).
Proof. done. Qed.
Lemma accounts_auth h x c : accounts h c -> accounts h (storeAuthCacheRedis x c).
Proof. done. Qed.
Lemma accounts_ext h x c : accounts h c -> accounts h (SetRedisClient x c).
Proof. done. Qed.
Lemma accounts_unhealthy h b c : accounts h c -> accounts h (with_unhealthy b c).
Proof. done. Qed.
Lemma accounts_proxy h p s c : accounts h c -> accounts h (with_proxy p s c).
Proof. done. Qed.
Lemma accounts_inflight h l c : accounts h c -> accounts h (with_inflight l c).
Proof. done. Qed.
Lemma accounts_cancel h c : accounts h c -> accounts h (cancel c).
Proof. done. Qed.
End accounting.

Create HintDb life.
#[export] Hint Resolve accounts_close accounts_replace accounts_create_in accounts_create_if accounts_pub accounts_auth accounts_ext
  accounts_unhealthy accounts_proxy accounts_inflight accounts_cancel : life.

(** ** Every operation keeps the accounts *)

Section operations.
Context `{R : Rounding}.
Implicit Types (h : list nat) (c : Lifecycle).

(** An owned cache client exists. *)
Definition cache_wf c : Prop := lc_cacheRedisOwned c = true -> is_Some (lc_cacheRedis c).

Lemma release_accounts h c : accounts h c -> accounts h (releaseCacheRedis c).
Proof.
  intros H. unfold releaseCacheRedis. apply (accounts_cache h None false) in H. unfold cache_part in H.
  destruct (lc_cacheRedisOwned c); [by apply accounts_close|done].
Qed.

Lemma resolve_accounts h cfg ok c :
  cache_wf c -> accounts h c ->
  accounts h (resolveCacheRedis cfg ok c).1 /\ cache_wf (resolveCacheRedis cfg ok c).1
  /\ (resolveCacheRedis cfg ok c).2 = lc_cacheRedis (resolveCacheRedis cfg ok c).1.
Proof.
  unfold resolveCacheRedis, cache_wf. intros Hw H. destruct (lc_cacheRedis c) as [x|] eqn:Ec; [done|].
  assert (lc_cacheRedisOwned c = false) as Eo by (destruct (lc_cacheRedisOwned c); [by destruct (Hw eq_refl)|done]).
  destruct (dedicated_cache cfg && ok).
  - split; [|cbn; eauto]. apply accounts_create, (accounts_cache h (Some (lc_next c)) true) in H. cbn in H.
    by rewrite Ec, Eo in H.
  - destruct (limiter c) as [x|]; cbn; [|by rewrite Eo, Ec].
    split; [|by split]. apply (accounts_cache h (Some x) false) in H. by rewrite Ec, Eo in H.
Qed.

Lemma startRecovery_accounts h c : accounts h c -> accounts h (startRecoveryIfNeeded c).
Proof.
  intros H. unfold startRecoveryIfNeeded. destruct (lc_ctxDone c); [done|].
  destruct (lc_recovery c) eqn:E; [done|]. apply (accounts_recovery h (Some Starting)) in H. by rewrite E in H.
Qed.

Lemma handleConnectivityErr_accounts h c : accounts h c -> accounts h (handleConnectivityErr c).
Proof.
  intros H. unfold handleConnectivityErr, swapLimiterLocked. apply startRecovery_accounts, accounts_close, accounts_unhealthy.
  by apply (accounts_swap h FLimiter None).
Qed.

(** While the recovery goroutine runs, its client is held rather than owned. *)
Definition running (held : list nat) (c : Lifecycle) : Prop := accounts held (with_recovery None c).

Lemma running_intro h c : accounts h c -> running (phase_part (lc_recovery c) ++ h) c.
Proof. apply (accounts_recovery h None). Qed.

Lemma running_stop h p c : running (phase_part p ++ h) c -> accounts h (with_recovery p c).
Proof. apply (accounts_recovery h p (with_recovery None c)). Qed.

Lemma running_close h x c : running (x :: h) c -> running h (close (Some x) c).
Proof. apply (accounts_close h (Some x) (with_recovery None c)). Qed.

Lemma running_create h c : running h c -> running (lc_next c :: h) (create c).1.
Proof. apply (accounts_create h (with_recovery None c)). Qed.

Lemma recovery_quit_accounts h r c : running (rv_client r :: h) c -> accounts h (recovery_quit r c).
Proof. intros H%running_close. by apply running_stop. Qed.

Lemma recovery_ping_accounts h ok r c : running (rv_client r :: h) c -> accounts h (recovery_ping ok r c).
Proof.
  intros H. unfold recovery_ping, recoveryRetry. destruct ok; [by apply running_stop|].
  destruct (_ && _); [by apply recovery_quit_accounts|by apply running_stop].
Qed.

Lemma recovery_begin_accounts h ok c : lc_recovery c = Some Starting -> accounts h c -> accounts h (recovery_begin ok c).
Proof.
  intros E H%running_intro. rewrite E in H. unfold recovery_begin.
  destruct ok; [apply running_create in H|]; by apply running_stop.
Qed.

Lemma recovery_iter_accounts h b1 b2 r c :
  lc_recovery c = Some (Looping r) -> accounts h c -> accounts h (recovery_iter b1 b2 r c).
Proof.
  intros E H%running_intro. rewrite E in H. unfold recovery_iter.
  destruct (lc_ctxDone c); [by apply recovery_quit_accounts|].
  destruct (sameRedisEndpoints _ _); [by apply recovery_ping_accounts|]. apply running_close in H.
  destruct b1; [apply running_create in H; by apply recovery_ping_accounts|by apply running_stop].
Qed.

Lemma recovery_wake_accounts h b r c :
  lc_recovery c = Some (Sleeping r) -> accounts h c -> accounts h (recovery_wake b r c).
Proof.
  intros E H%running_intro. rewrite E in H. unfold recovery_wake.
  destruct b; [by apply running_stop|by apply recovery_quit_accounts].
Qed.

Lemma recoveryInstall_accounts h x c : cache_wf c -> accounts (x :: h) c -> accounts h (recoveryInstall x c).
Proof.
  intros Hw H. unfold recoveryInstall, swapLimiterLocked. destruct (_ && _).
  - cbn [swap]. apply accounts_close, accounts_close, accounts_unhealthy. apply (accounts_swap (x :: h) FLimiter None) in H. done.
  - cbn [swap]. apply (accounts_swap h FLimiter (Some x)), accounts_close in H. cbn in H.
    destruct (lc_cacheRedisOwned c) eqn:Eo; cbn; rewrite Eo; cbn; [done|].
    apply (accounts_cache h (Some x) false) in H. cbn in H. rewrite Eo in H.
    by destruct (_ !! FExternalRL).
Qed.

Lemma EInstall_accounts h r c :
  cache_wf c -> lc_recovery c = Some (Pinged r) -> accounts h c ->
  accounts h (with_recovery (Some Ending) (recoveryInstall (rv_client r) c)).
Proof.
  intros Hw E H%running_intro. rewrite E in H. apply (recoveryInstall_accounts h _ (with_recovery None c) Hw) in H.
  apply (accounts_recovery h (Some Ending)) in H. revert H.
  assert (lc_recovery (recoveryInstall (rv_client r) (with_recovery None c)) = None
    /\ with_recovery (Some Ending) (recoveryInstall (rv_client r) (with_recovery None c))
       = with_recovery (Some Ending) (recoveryInstall (rv_client r) c)) as [-> ->]; [|done].
  unfold recoveryInstall. cbn. destruct (_ && _); [done|]. cbn. destruct (lc_cacheRedisOwned c); cbn; [done|].
  by destruct (_ !! FExternalRL).
Qed.

Lemma installResponseCache_accounts h x c : accounts (x :: h) c -> accounts h (installResponseCache x c).
Proof. intros H. unfold installResponseCache. apply accounts_proxy. by apply accounts_replace. Qed.

Lemma initResponseCache_accounts h ok c : lc_resp c = RIdle -> accounts h c -> accounts h (initResponseCache ok c).
Proof.
  intros E H. unfold initResponseCache. destruct ok; [by apply installResponseCache_accounts, accounts_create|].
  apply (accounts_resp h RWaiting) in H. by rewrite E in H.
Qed.

Lemma resp_round_accounts h ok c : lc_resp c = RWaiting -> accounts h c -> accounts h (resp_round ok c).
Proof.
  intros E H. unfold resp_round. destruct (lc_ctxDone c).
  - apply (accounts_resp h RIdle) in H. by rewrite E in H.
  - destruct ok; [|done]. apply accounts_create, (accounts_resp h (RConnected (lc_next c))) in H. cbn in H. by rewrite E in H.
Qed.

Lemma ERespInstall_accounts h x c :
  lc_resp c = RConnected x -> accounts h c -> accounts h (installResponseCache x (with_resp RIdle c)).
Proof. intros E H. apply installResponseCache_accounts. apply (accounts_resp h RIdle) in H. by rewrite E in H. Qed.
End operations.

(** ** The invariant of a run *)

Section invariant.
Context `{R : Rounding}.
Implicit Types (c : Lifecycle).

Record life_ok c : Prop := {
  lo_accounts : accounts [] c;
  lo_cache : cache_wf c
}.

Lemma life_ok_intro c : accounts [] c -> cache_wf c -> life_ok c.
Proof. by split. Qed.

Lemma release_ok c : life_ok c -> life_ok (releaseCacheRedis c).
Proof.
  intros [H _]. split; [by apply release_accounts|]. unfold cache_wf, releaseCacheRedis. by destruct (lc_cacheRedisOwned c).
Qed.

Lemma resolve_ok cfg ok c : life_ok c -> life_ok (resolveCacheRedis cfg ok c).1.
Proof. intros [H Hw]. destruct (resolve_accounts [] cfg ok c Hw H) as (? & ? & _). by split. Qed.

Lemma create_in_ok f c : life_ok c -> life_ok (create_in f c).
Proof. intros [H Hw]. split; [by apply accounts_create_in|done]. Qed.

Lemma reloadExternalRL_ok cfg a c : life_ok c -> life_ok (reloadExternalRL cfg a c).
Proof.
  intros H. unfold reloadExternalRL. destruct (external_enabled cfg); cbn [negb]; [|done].
  apply release_ok, (resolve_ok cfg (at_cache1 a)) in H. destruct (resolveCacheRedis _ _ _) as [c1 x]. cbn in H.
  destruct (at_ext a); [|done]. apply (create_in_ok FExternalRL) in H. by destruct H.
Qed.

Lemma reloadAuth_ok prev cfg a c : life_ok c -> life_ok (reloadAuth prev cfg a c).
Proof. intros H. unfold reloadAuth. destruct (_ || _); [done|]. destruct (at_auth a); [by apply create_in_ok|done]. Qed.

Lemma reload_limiters_ok cfg p c : life_ok c -> life_ok (reload_limiters cfg p c).
Proof.
  intros [H Hw]. split; [|unfold reload_limiters; by destruct (external_enabled cfg)].
  unfold reload_limiters. destruct (external_enabled cfg); cbn [create swap].
  - apply accounts_close, accounts_close, accounts_pub. apply accounts_create, (accounts_swap [] FExternalFallback (Some _)) in H.
    apply accounts_create in H. apply (accounts_swap _ FStaticFallback (Some _)) in H. by rewrite app_nil_r in *.
  - apply (accounts_close [] None), accounts_close, accounts_pub. rewrite app_nil_r.
    apply accounts_create, (accounts_swap [] FStaticFallback (Some _)) in H. by rewrite app_nil_r in H.
Qed.

Lemma reload_emitter_ok p c : life_ok c -> life_ok (reload_emitter p c).
Proof.
  intros H. unfold reload_emitter. destruct (pb_emitter p); [by apply create_in_ok|]. destruct H as [H Hw].
  split; [by apply accounts_replace|done].
Qed.

Lemma Reload_ok cfg a c : life_ok c -> life_ok (Reload cfg a c).1.
Proof.
  intros H. unfold Reload. destruct (Reload_settings cfg (lc_pub c)) as [p [e|]]; cbn; [by destruct H|].
  apply (reload_limiters_ok cfg p), (reloadExternalRL_ok cfg a), (reloadAuth_ok (cfg_of c) cfg a) in H.
  apply reload_emitter_ok. by destruct H.
Qed.

Lemma Close_ok c : life_ok c -> life_ok (Chain_Close c).
Proof.
  intros [H _]. unfold Chain_Close, closeResources. cbn [swapLimiterLocked swap].
  set (c1 := close _ _).
  assert (life_ok (releaseCacheRedis c1)) as H1.
  { apply accounts_cancel, (accounts_swap [] FLimiter None), accounts_close in H.
    split; [by apply release_accounts|]. unfold cache_wf, releaseCacheRedis. by destruct (lc_cacheRedisOwned c1). }
  clearbody c1. revert H1. generalize (releaseCacheRedis c1). intros c2 H1.
  generalize [FResponseCacheRedis; FAuthClient; FExternalRL; FStaticFallback; FExternalFallback; FGlobalBackstop; FEmitter].
  intros l. revert c2 H1. induction l as [|f l IH]; intros c2 [H2 Hw]; [done|]. apply IH.
  split; [by apply accounts_replace|done].
Qed.

Lemma startRecovery_wf c : cache_wf c -> cache_wf (startRecoveryIfNeeded c).
Proof. unfold startRecoveryIfNeeded. destruct (lc_ctxDone c); [done|]. by destruct (lc_recovery c). Qed.

(** The recovery steps leave the cache client alone, the installation aside. *)
Lemma recovery_ping_wf ok r c : cache_wf c -> cache_wf (recovery_ping ok r c).
Proof. unfold recovery_ping, recoveryRetry. destruct ok; [done|]. by destruct (_ && _). Qed.

Lemma recovery_iter_wf b1 b2 r c : cache_wf c -> cache_wf (recovery_iter b1 b2 r c).
Proof.
  intros H. unfold recovery_iter. destruct (lc_ctxDone c); [done|].
  destruct (sameRedisEndpoints _ _); [by apply recovery_ping_wf|]. destruct b1; [|done]. by apply recovery_ping_wf.
Qed.

Lemma recoveryInstall_wf x c : cache_wf c -> cache_wf (recoveryInstall x c).
Proof.
  intros H. unfold recoveryInstall. destruct (_ && _); [done|]. cbn.
  destruct (lc_cacheRedisOwned c); cbn; [exact H|]. by destruct (_ !! FExternalRL).
Qed.

Lemma step_ok e c c' : step e c = Some c' -> life_ok c -> life_ok c'.
Proof.
  intros Hs [H Hw]. destruct e; unfold step in Hs.
  - destruct (limiter c); cbn in Hs; [|done]. by injection Hs as <-.
  - destruct (remove_one x (lc_inflight c)); cbn in Hs; [|done]. by injection Hs as <-.
  - destruct (remove_one x (lc_inflight c)); cbn [mbind option_bind] in Hs; [|done]. injection Hs as <-. split; [exact (handleConnectivityErr_accounts [] (with_inflight l c) H)|].
    by apply startRecovery_wf.
  - destruct (lc_recovery c) as [[]|] eqn:E; try done. injection Hs as <-.
    split; [by apply recovery_begin_accounts|]. unfold recovery_begin. by destruct ok.
  - destruct (lc_recovery c) as [[]|] eqn:E; try done. injection Hs as <-.
    split; [by apply recovery_iter_accounts|by apply recovery_iter_wf].
  - destruct (lc_recovery c) as [[]|] eqn:E; try done. destruct (timer || _); [|done]. injection Hs as <-.
    split; [by apply recovery_wake_accounts|]. unfold recovery_wake. by destruct timer.
  - destruct (lc_recovery c) as [[]|] eqn:E; try done. injection Hs as <-.
    split; [by apply EInstall_accounts|by apply recoveryInstall_wf].
  - destruct (lc_recovery c) as [[]|] eqn:E; try done. injection Hs as <-. split; [|done].
    apply (accounts_recovery [] None) in H. by rewrite E in H.
  - destruct (lc_resp c) eqn:E; try done. injection Hs as <-. split; [by apply resp_round_accounts|].
    unfold resp_round. destruct (lc_ctxDone c); [done|]. by destruct ok.
  - destruct (lc_resp c) eqn:E; try done. injection Hs as <-. split; [by apply ERespInstall_accounts|done].
  - destruct (lc_ctxDone c); [done|]. injection Hs as <-. apply Reload_ok. by split.
  - destruct (lc_ctxDone c); [done|]. injection Hs as <-. split; [exact H|exact Hw].
  - destruct (lc_ctxDone c); [done|]. injection Hs as <-. apply Close_ok. by split.
Qed.

Lemma life_run_ok es : forall c c', run es c = Some c' -> life_ok c -> life_ok c'.
Proof.
  induction es as [|e es IH]; intros c c' Hr H; cbn in Hr; [by injection Hr as <-|].
  destruct (step e c) as [c1|] eqn:E; [|done]. eauto using step_ok.
Qed.
End invariant.

(** ** Start-up establishes the invariant *)

Section startup.
Context `{R : Rounding}.
Implicit Types (c : Lifecycle).

Lemma empty_life_ok p : life_ok (empty_life p).
Proof. split; [|done]. unfold accounts, owned, field_part. cbn. by rewrite map_to_list_empty. Qed.

Lemma create_if_ok b f c : life_ok c -> life_ok (create_if b f c).
Proof. destruct b; [apply create_in_ok|done]. Qed.

Lemma initRedis_ok cfg ok c : limiter c = None -> life_ok c -> life_ok (initRedis cfg ok c).1.
Proof.
  intros El [H Hw]. unfold initRedis. destruct (_ && negb _); [by split|]. destruct (negb ok).
  - unfold handleRedisStartupFailure. destruct (_ || _); [|by split].
    split; [by apply startRecovery_accounts|by apply startRecovery_wf].
  - cbn [create]. destruct (fltb _ _ || _); (split; [|done]).
    + apply accounts_create, (accounts_swap [] FLimiter (Some _)) in H. cbn in H. unfold limiter in El. by rewrite El in H.
    + apply accounts_create in H. by apply (accounts_close [] (Some _)).
Qed.

Lemma init_auth_ok cfg a c : life_ok c -> life_ok (init_auth cfg a c).1.
Proof.
  intros H. unfold init_auth. destruct (au_Enabled _); [|done]. destruct (negb _); [done|].
  apply (create_in_ok FAuthClient), (resolve_ok cfg (at_cache1 a)) in H. destruct (resolveCacheRedis _ _ _). by destruct H.
Qed.

Lemma init_external_ok cfg a c : life_ok c -> life_ok (init_external cfg a c).1.
Proof.
  intros H. unfold init_external. destruct (external_enabled _); [|done].
  apply (resolve_ok cfg (at_cache2 a)) in H. destruct (resolveCacheRedis _ _ _) as [c1 x]. cbn in H.
  destruct (negb _); [by apply release_ok|]. apply (create_in_ok FExternalRL) in H. by destruct H.
Qed.

(** Start-up leaves the response cache's goroutine idle until [initResponseCache]. *)
Definition resp_idle c : Prop := lc_resp c = RIdle.

Lemma init_auth_idle cfg a c : resp_idle c -> resp_idle (init_auth cfg a c).1.
Proof.
  intros H. unfold init_auth, resolveCacheRedis. destruct (au_Enabled _); [|done]. destruct (negb _); [done|].
  cbn. destruct (lc_cacheRedis c); [done|]. destruct (_ && _); [done|]. by case_match.
Qed.

Lemma init_external_idle cfg a c : resp_idle c -> resp_idle (init_external cfg a c).1.
Proof.
  intros H. unfold init_external, resolveCacheRedis, releaseCacheRedis, resp_idle in *. destruct (external_enabled _); [|done].
  destruct (lc_cacheRedis c); cbn; [|destruct (_ && _); [|destruct (limiter c)]]; cbn; destruct (at_ext a); cbn;
    repeat case_match; done.
Qed.

Lemma initClients_ok cfg a c : resp_idle c -> life_ok c -> life_ok (initClients cfg a c).1.
Proof.
  intros Hi H. unfold initClients, and_then.
  pose proof (init_auth_ok cfg a c H) as H1. apply (init_auth_idle cfg a) in Hi.
  destruct (init_auth cfg a c) as [c1 [e|]]; cbn in *; [done|].
  pose proof (init_external_ok cfg a c1 H1) as H2. apply (init_external_idle cfg a) in Hi.
  destruct (init_external cfg a c1) as [c2 [e|]]; cbn in *; [done|]. destruct (cc_Enabled _); [|done]. destruct H2 as [H2 Hw].
  split; [by apply initResponseCache_accounts|]. unfold initResponseCache. by destruct (at_resp a).
Qed.

Lemma initRedis_idle cfg ok c : resp_idle c -> resp_idle (initRedis cfg ok c).1.
Proof.
  intros H. unfold initRedis, handleRedisStartupFailure, startRecoveryIfNeeded. destruct (_ && negb _); [done|].
  destruct (negb ok); [|by destruct (fltb _ _ || _)]. destruct (_ || _); [|done]. destruct (lc_ctxDone c); [done|].
  by destruct (lc_recovery c).
Qed.

Lemma create_if_frame b f c :
  f <> FLimiter -> limiter (create_if b f c) = limiter c /\ lc_resp (create_if b f c) = lc_resp c.
Proof. intros Hf. destruct b; [|done]. split; [|done]. unfold limiter. cbn. by rewrite lookup_insert_ne. Qed.

Lemma build_chain_ok p a : life_ok (build_chain p a).1.
Proof.
  unfold build_chain. set (c := create_if _ FEmitter _).
  assert (life_ok c /\ limiter c = None /\ resp_idle c) as (H & El & Hi).
  { subst c. split; [repeat apply create_if_ok; apply create_in_ok, empty_life_ok|]. unfold resp_idle.
    change (create_in FStaticFallback (empty_life p)) with (create_if true FStaticFallback (empty_life p)).
    repeat (edestruct create_if_frame as [-> ->]; [done|]). done. }
  clearbody c. pose proof (initRedis_ok (pb_cfg p) (at_redis a) c El H) as H1. apply (initRedis_idle (pb_cfg p) (at_redis a)) in Hi.
  unfold and_then. destruct (initRedis _ _ c) as [c1 [e|]]; cbn in *; [done|]. by apply initClients_ok.
Qed.

Lemma NewChain_ok cfg a c : NewChain cfg a = Ok c -> life_ok c.
Proof.
  unfold NewChain. destruct (NewChain_settings cfg) as [p|]; [|done]. cbn. pose proof (build_chain_ok p a) as H.
  destruct (build_chain p a) as [c1 [e|]]; [done|]. by intros [= <-].
Qed.
End startup.

(** ** Who uses the cache client *)

Section users.
Context `{R : Rounding}.
Implicit Types (c : Lifecycle).

(** The auth cache and the external client use the cache client, which is a
    dedicated one or the limiter's. *)
Record users_ok c : Prop := {
  us_auth : lc_authCacheRedis c = None \/ lc_authCacheRedis c = lc_cacheRedis c;
  us_ext : is_Some (lc_res c !! FExternalRL) -> lc_extRedis c = lc_cacheRedis c;
  us_alias x y : lc_cacheRedisOwned c = false -> lc_cacheRedis c = Some x -> limiter c = Some y -> x = y
}.

(** What [users_ok] looks at. *)
Definition user_view c :=
  (lc_cacheRedis c, lc_cacheRedisOwned c, lc_authCacheRedis c, lc_extRedis c, limiter c, lc_res c !! FExternalRL).

Lemma users_view c c' : user_view c' = user_view c -> users_ok c -> users_ok c'.
Proof. unfold user_view. intros [= E1 E2 E3 E4 E5 E6] []. split; rewrite ?E1, ?E2, ?E3, ?E4, ?E5, ?E6; done. Qed.

Lemma startRecovery_view c : user_view (startRecoveryIfNeeded c) = user_view c.
Proof. unfold startRecoveryIfNeeded. destruct (lc_ctxDone c); [done|]. by destruct (lc_recovery c). Qed.

Lemma create_in_view f c : f <> FLimiter -> f <> FExternalRL -> user_view (create_in f c) = user_view c.
Proof. intros H1 H2. unfold user_view, limiter. cbn. by rewrite !lookup_insert_ne. Qed.

Lemma drop_limiter_users c : users_ok c -> users_ok (handleConnectivityErr c).
Proof.
  intros [H1 H2 H3]. unfold handleConnectivityErr. cbn [swapLimiterLocked swap].
  eapply users_view; [apply startRecovery_view|]. split; cbn; [done| |].
  - by rewrite lookup_delete_ne.
  - unfold limiter. cbn. by rewrite lookup_delete_eq.
Qed.

Lemma recovery_ping_view ok r c : user_view (recovery_ping ok r c) = user_view c.
Proof. unfold recovery_ping, recoveryRetry. destruct ok; [done|]. by destruct (_ && _). Qed.

Lemma recovery_iter_view b1 b2 r c : user_view (recovery_iter b1 b2 r c) = user_view c.
Proof.
  unfold recovery_iter. destruct (lc_ctxDone c); [done|]. destruct (sameRedisEndpoints _ _); [apply recovery_ping_view|].
  destruct b1; [|done]. etransitivity; [apply recovery_ping_view|done].
Qed.

Lemma recoveryInstall_users x c : users_ok c -> users_ok (recoveryInstall x c).
Proof.
  intros [H1 H2 H3]. unfold recoveryInstall. destruct (_ && _); cbn [swapLimiterLocked swap].
  - split; cbn; [done|by rewrite lookup_delete_ne|]. unfold limiter. cbn. by rewrite lookup_delete_eq.
  - cbn. destruct (lc_cacheRedisOwned c) eqn:Eo; cbn.
    + split; cbn; [done|by rewrite lookup_insert_ne|]. congruence.
    + rewrite lookup_insert_ne by done. destruct (lc_res c !! FExternalRL) eqn:Ee;
        (split; cbn; [by right| |unfold limiter; cbn; rewrite lookup_insert_eq; congruence]);
        rewrite ?lookup_insert_ne, ?Ee by done; done.
Qed.

Lemma resolve_users cfg ok c :
  lc_cacheRedis c = None -> lc_cacheRedisOwned c = false ->
  let '(c', x) := resolveCacheRedis cfg ok c in
  x = lc_cacheRedis c' /\ limiter c' = limiter c
  /\ (lc_cacheRedisOwned c' = false -> forall x y, lc_cacheRedis c' = Some x -> limiter c' = Some y -> x = y).
Proof.
  intros Ec Eo. unfold resolveCacheRedis. rewrite Ec. destruct (dedicated_cache cfg && ok); [done|].
  destruct (limiter c) as [z|] eqn:El; cbn; [|rewrite Ec, El; naive_solver].
  unfold limiter in *. cbn. rewrite El. naive_solver.
Qed.

Lemma reload_limiters_view cfg p c : user_view (reload_limiters cfg p c) = user_view c.
Proof.
  unfold reload_limiters, user_view, limiter. destruct (external_enabled cfg); cbn; by rewrite ?lookup_insert_ne.
Qed.

Lemma reload_emitter_view p c : user_view (reload_emitter p c) = user_view c.
Proof.
  unfold reload_emitter. destruct (pb_emitter p); [by apply create_in_view|].
  unfold user_view, limiter. cbn. by rewrite !lookup_delete_ne.
Qed.

Lemma reloadAuth_view prev cfg a c : user_view (reloadAuth prev cfg a c) = user_view c.
Proof. unfold reloadAuth. destruct (_ || _); [done|]. destruct (at_auth a); [by apply create_in_view|done]. Qed.

(** A reload of the external client that can be built. *)
Definition ext_builds (cfg : Config) (a : attempts) : bool := negb (external_enabled cfg) || at_ext a.

Lemma reloadExternalRL_users cfg a c :
  ext_builds cfg a = true -> users_ok c ->
  let c' := storeAuthCacheRedis (lc_cacheRedis (reloadExternalRL cfg a c)) (reloadExternalRL cfg a c) in users_ok c'.
Proof.
  unfold ext_builds, reloadExternalRL. intros Hb [H1 H2 H3]. destruct (external_enabled cfg); cbn [negb orb] in *.
  - assert (lc_cacheRedis (releaseCacheRedis c) = None /\ lc_cacheRedisOwned (releaseCacheRedis c) = false) as [Ec Eo]
      by (unfold releaseCacheRedis; by destruct (lc_cacheRedisOwned c)).
    pose proof (resolve_users cfg (at_cache1 a) _ Ec Eo) as Hr. destruct (resolveCacheRedis _ _ _) as [c1 x].
    destruct Hr as (-> & _ & Ha). rewrite Hb. split; cbn; [by right|done|]. intros x y Ho Hx Hl.
    apply (Ha Ho x y Hx). unfold limiter in *. cbn in Hl. by rewrite lookup_insert_ne in Hl.
  - split; cbn; [by right|done..].
Qed.

Lemma Reload_users cfg a c : ext_builds cfg a = true -> users_ok c -> users_ok (Reload cfg a c).1.
Proof.
  intros Hb H. unfold Reload. destruct (Reload_settings cfg (lc_pub c)) as [p [e|]]; cbn [fst].
  { by apply (users_view c). }
  eapply users_view; [apply reload_emitter_view|]. apply (users_view c (reload_limiters cfg p c)) in H; [|apply reload_limiters_view].
  revert H. generalize (reload_limiters cfg p c). intros c1 H.
  eapply users_view; [|apply (reloadExternalRL_users cfg a c1 Hb H)].
  pose proof (reloadAuth_view (cfg_of c) cfg a (reloadExternalRL cfg a c1)) as Ev. unfold user_view in Ev.
  injection Ev as E1 E2 E3 E4 E5 E6. unfold user_view, limiter in *. cbn. congruence.
Qed.

(** No reload of the run fails to build the external client. *)
Definition reloads_build (e : event) : bool := match e with EReload cfg a => ext_builds cfg a | _ => true end.

Lemma step_users e c c' :
  step e c = Some c' -> reloads_build e = true -> lc_ctxDone c' = false -> users_ok c -> users_ok c'.
Proof.
  intros Hs Hb Hd H. destruct e; unfold step in Hs.
  - destruct (limiter c); cbn in Hs; [|done]. injection Hs as <-. by apply (users_view c).
  - destruct (remove_one x (lc_inflight c)); cbn in Hs; [|done]. injection Hs as <-. by apply (users_view c).
  - destruct (remove_one x (lc_inflight c)); cbn [mbind option_bind] in Hs; [|done]. injection Hs as <-.
    by apply drop_limiter_users, (users_view c).
  - destruct (lc_recovery c) as [[]|]; try done. injection Hs as <-. apply (users_view c); [|done].
    unfold recovery_begin. by destruct ok.
  - destruct (lc_recovery c) as [[]|]; try done. injection Hs as <-. apply (users_view c); [|done]. apply recovery_iter_view.
  - destruct (lc_recovery c) as [[]|]; try done. destruct (timer || _); [|done]. injection Hs as <-.
    apply (users_view c); [|done]. unfold recovery_wake. by destruct timer.
  - destruct (lc_recovery c) as [[]|]; try done. injection Hs as <-.
    apply (recoveryInstall_users (rv_client r)) in H. by apply (users_view (recoveryInstall (rv_client r) c)).
  - destruct (lc_recovery c) as [[]|]; try done. injection Hs as <-. by apply (users_view c).
  - destruct (lc_resp c); try done. injection Hs as <-. apply (users_view c); [|done].
    unfold resp_round. destruct (lc_ctxDone c); [done|]. by destruct ok.
  - destruct (lc_resp c); try done. injection Hs as <-. apply (users_view c); [|done].
    unfold user_view, limiter, installResponseCache. cbn. by rewrite !lookup_insert_ne.
  - destruct (lc_ctxDone c); [done|]. injection Hs as <-. by apply Reload_users.
  - destruct (lc_ctxDone c); [done|]. injection Hs as <-. by apply (users_view c).
  - destruct (lc_ctxDone c); [done|]. injection Hs as <-. exfalso. revert Hd.
    unfold Chain_Close, closeResources, releaseCacheRedis. cbn. by destruct (lc_cacheRedisOwned c).
Qed.
End users.

Section startup_users.
Context `{R : Rounding}.
Implicit Types (c : Lifecycle).

(** No cache client yet. *)
Definition no_users c : Prop :=
  lc_cacheRedis c = None /\ lc_cacheRedisOwned c = false /\ lc_authCacheRedis c = None /\ lc_res c !! FExternalRL = None.

Lemma no_users_ok c : no_users c -> users_ok c.
Proof.
  intros (H1 & H2 & H3 & H4). split; [by left| |congruence]. rewrite H4. by intros [].
Qed.

Lemma create_if_no_users b f c : f <> FExternalRL -> no_users c -> no_users (create_if b f c).
Proof. intros Hf (? & ? & ? & ?). destruct b; [|done]. unfold no_users. cbn. by rewrite lookup_insert_ne. Qed.

Lemma initRedis_no_users cfg ok c : no_users c -> no_users (initRedis cfg ok c).1.
Proof.
  intros H. unfold initRedis, handleRedisStartupFailure, startRecoveryIfNeeded. destruct (_ && negb _); [done|].
  destruct (negb ok).
  - destruct (_ || _); [|done]. destruct (lc_ctxDone c); [done|]. by destruct (lc_recovery c).
  - destruct (fltb _ _ || _); [|done]. destruct H as (? & ? & ? & ?). unfold no_users. cbn. by rewrite lookup_insert_ne.
Qed.

Lemma init_auth_users cfg a c :
  no_users c -> users_ok (init_auth cfg a c).1 /\ lc_res (init_auth cfg a c).1 !! FExternalRL = None /\ cache_wf (init_auth cfg a c).1.
Proof.
  intros Hn. pose proof (no_users_ok c Hn) as Hu. destruct Hn as (Ec & Eo & Ea & Ee). unfold init_auth, cache_wf.
  destruct (au_Enabled _); [|cbn; by rewrite Eo]. destruct (negb _); [cbn; by rewrite Eo|].
  set (c0 := create_in FAuthClient c).
  assert (lc_res c0 !! FExternalRL = None) as Ee0 by (subst c0; cbn; by rewrite lookup_insert_ne).
  assert (lc_cacheRedis c0 = None /\ lc_cacheRedisOwned c0 = false) as [Ec0 Eo0] by done. clearbody c0.
  unfold resolveCacheRedis. rewrite Ec0. destruct (dedicated_cache cfg && at_cache1 a); cbn.
  { split_and!; [split; cbn; [by right|rewrite Ee0; by intros []|done]|done|eauto]. }
  destruct (limiter c0) as [z|] eqn:El; cbn.
  - split_and!; [|done..]. split; cbn; [by right|rewrite Ee0; by intros []|]. intros x y _ [= <-] Hl. unfold limiter in *. cbn in *. congruence.
  - rewrite Eo0, Ec0. split_and!; [|done..]. split; cbn; [by left|rewrite Ee0; by intros []|]. intros x y _ Hx. congruence.
Qed.

Lemma init_external_users cfg a c :
  users_ok c -> lc_res c !! FExternalRL = None -> cache_wf c -> (init_external cfg a c).2 = None ->
  users_ok (init_external cfg a c).1.
Proof.
  intros [H1 H2 H3] Ee Hw. unfold init_external. destruct (external_enabled cfg); [|done].
  unfold resolveCacheRedis. destruct (lc_cacheRedis c) as [z|] eqn:Ec.
  - destruct (at_ext a); [|done]. intros _. split; cbn; rewrite ?Ec; [done|done|]. intros x y Ho [= <-] Hl.
    apply (H3 z y Ho eq_refl). unfold limiter in *. cbn in Hl. by rewrite lookup_insert_ne in Hl.
  - assert (lc_cacheRedisOwned c = false) as Eo by (destruct (lc_cacheRedisOwned c) eqn:E; [|done]; destruct (Hw E); congruence).
    assert (lc_authCacheRedis c = None) as Ea by (destruct H1; congruence).
    destruct (dedicated_cache cfg && _); cbn.
    + destruct (at_ext a); [|done]. intros _. split; cbn; [by left|done|done].
    + destruct (limiter c) as [z|] eqn:El; destruct (at_ext a); cbn; try done; intros _; split; cbn; [by left|done| |by left|done|congruence].
      intros x y _ [= <-] Hl. unfold limiter in *. cbn in Hl. rewrite lookup_insert_ne in Hl by done. congruence.
Qed.

Lemma initResponseCache_view ok c : user_view (initResponseCache ok c) = user_view c.
Proof.
  unfold initResponseCache. destruct ok; [|done]. unfold user_view, limiter, installResponseCache. cbn. by rewrite !lookup_insert_ne.
Qed.

Lemma NewChain_users cfg a c : NewChain cfg a = Ok c -> users_ok c.
Proof.
  unfold NewChain. destruct (NewChain_settings cfg) as [p|]; [|done]. cbn. unfold build_chain.
  set (c0 := create_if _ FEmitter _). assert (no_users c0) as H0.
  { subst c0. repeat (apply create_if_no_users; [done|]). by apply (create_if_no_users true). }
  clearbody c0. apply (initRedis_no_users (pb_cfg p) (at_redis a)) in H0. unfold and_then at 1.
  destruct (initRedis _ _ c0) as [c1 [e|]]; cbn in *; [done|]. unfold initClients, and_then.
  destruct (init_auth_users (pb_cfg p) a c1 H0) as (H1 & E1 & Hw).
  destruct (init_auth _ _ c1) as [c2 [e|]]; cbn in *; [done|].
  pose proof (init_external_users (pb_cfg p) a c2 H1 E1 Hw) as H2.
  destruct (init_external _ _ c2) as [c3 [e|]]; cbn in *; [done|]. intros [= <-].
  destruct (cc_Enabled _); [|by apply H2]. eapply users_view; [apply initResponseCache_view|by apply H2].
Qed.
End startup_users.

(** ** Safety of a run *)

Section safety.
Context `{R : Rounding}.
Implicit Types (c : Lifecycle).

(** Only [Close] cancels the context. *)
Lemma step_open e c c' : step e c = Some c' -> lc_ctxDone c' = false -> lc_ctxDone c = false.
Proof.
  intros Hs Hd. destruct (lc_ctxDone c) eqn:E; [|done]. exfalso. destruct e; unfold step in Hs; rewrite ?E in Hs; try done.
  - destruct (limiter c); cbn in Hs; [|done]. injection Hs as <-. cbn in Hd. congruence.
  - destruct (remove_one x (lc_inflight c)); cbn in Hs; [|done]. injection Hs as <-. cbn in Hd. congruence.
  - destruct (remove_one x (lc_inflight c)); cbn [mbind option_bind] in Hs; [|done]. injection Hs as <-. revert Hd.
    unfold handleConnectivityErr, startRecoveryIfNeeded. cbn. rewrite E. cbn. congruence.
  - destruct (lc_recovery c) as [[]|]; try done. injection Hs as <-. revert Hd. unfold recovery_begin. destruct ok; cbn; congruence.
  - destruct (lc_recovery c) as [[]|]; try done. injection Hs as <-. revert Hd. unfold recovery_iter. rewrite E. cbn. congruence.
  - destruct (lc_recovery c) as [[]|]; try done. destruct (timer || _); [|done]. injection Hs as <-. revert Hd.
    unfold recovery_wake. destruct timer; cbn; congruence.
  - destruct (lc_recovery c) as [[]|]; try done. injection Hs as <-. revert Hd. unfold recoveryInstall.
    destruct (_ && _); cbn; [congruence|]. destruct (lc_cacheRedisOwned c); cbn; [congruence|].
    destruct (_ !! FExternalRL); cbn; congruence.
  - destruct (lc_recovery c) as [[]|]; try done. injection Hs as <-. cbn in Hd. congruence.
  - destruct (lc_resp c); try done. injection Hs as <-. revert Hd. unfold resp_round. rewrite E. cbn. congruence.
  - destruct (lc_resp c); try done. injection Hs as <-. cbn in Hd. congruence.
Qed.

Lemma run_open es c c' : run es c = Some c' -> lc_ctxDone c' = false -> lc_ctxDone c = false.
Proof.
  intros Hr Hd. revert c Hr. induction es as [|e es IH]; intros c Hr; cbn in Hr; [by injection Hr as <-|].
  destruct (step e c) as [c1|] eqn:E; [|done]. eapply step_open; eauto.
Qed.

Lemma run_users es : forall c c',
  run es c = Some c' -> forallb reloads_build es = true -> lc_ctxDone c' = false -> users_ok c -> users_ok c' /\ lc_ctxDone c = false.
Proof.
  induction es as [|e es IH]; intros c c' Hr Hb Hd H; cbn in Hr; [by injection Hr as <-|].
  destruct (step e c) as [c1|] eqn:E; [|done]. cbn in Hb. apply andb_true_iff in Hb as [Hb1 Hb2].
  assert (lc_ctxDone c1 = false -> users_ok c1) as H1 by (intros; by eapply step_users).
  assert (lc_ctxDone c1 = false) as Hd1 by (by apply (run_open es c1 c')).
  split; [by eapply IH; eauto|]. by eapply step_open.
Qed.

Lemma accounts_NoDup c : accounts [] c -> NoDup (owned c ++ lc_closed c).
Proof. unfold accounts. cbn. intros ->. apply NoDup_seq. Qed.

Lemma owned_open c x : accounts [] c -> x ∈ owned c -> x ∉ lc_closed c.
Proof. intros H%accounts_NoDup Ho Hc. apply NoDup_app in H as (_ & H & _). by apply (H x). Qed.

Lemma field_owned c f x : lc_res c !! f = Some x -> x ∈ owned c.
Proof.
  intros H. unfold owned. rewrite !elem_of_app. do 3 right. rewrite (field_part_split _ f), H. by left.
Qed.


End safety.

(** ** Concrete runs *)

Module LifeDemo.
Definition all_ok : attempts := mkAttempts true true true true true true.
Definition limited (average maxAttempts : Z) : Config :=
  let rl := cfg_RateLimit Defaults in
  set_cfg_RateLimit (mkRateLimitConfig (mkStaticRateLimitConfig average 10 "1s" (rs_KeyStrategy (rl_Static rl)) "http://app")
    (rl_FailurePolicy rl) (rl_FailureCode rl) (rl_KeyPrefix rl) (rl_External rl) (rl_MinTTL rl) maxAttempts
    (rl_GlobalPassthroughRPS rl)) Defaults.

(** External limits with a dedicated cache connection. *)
Definition external_cfg : Config :=
  set_cfg_CacheRedis (Some (cfg_Redis Defaults))
    (set_cfg_RateLimit (set_rl_External (mkExternalRLConfig true "5s" "" "http://limits" no_grpc no_filter
       (mkStaticRateLimitConfig 1 1 "1s" no_key_strategy "") 0 0 "" no_breaker) (cfg_RateLimit Defaults)) Defaults).
Definition blank : Lifecycle :=
  empty_life (mkPublished Defaults (new_staticParams (R := exact_rounding) Defaults) None (KSGlobal (mkGlobalStrategy "")) None
    (new_urlPolicy Defaults) 0 0 false false None None None ∅).
Definition started (cfg : Config) : Lifecycle :=
  match NewChain (R := exact_rounding) cfg all_ok with Ok c => c | Err _ => blank end.
Definition after (es : list event) (c : Lifecycle) : Lifecycle := default blank (run (R := exact_rounding) es c).

(** Two requests use client 2, one of them loses the connection; the recovery
    reconnects; then a reload. *)
Definition outage : list event := [ETake; ETake; EFail 2; EBegin true; EIter true true; EInstall; EEnd; EReturn 2].
Definition reload : list event := outage ++ [EReload external_cfg all_ok].
Definition reloaded : Lifecycle := after reload (started external_cfg).
End LifeDemo.


