(* ===== verification/LifeRuns.v ===== *)
(** * The middleware chain: shutdown, recovery and what cannot be recovered

    Theorems about runs of [Lifecycle]: a shut-down chain ends its recovery
    goroutine and leaves nothing open; the recovery loop backs off exponentially
    and reconnects at the first successful ping; and the states from which Redis
    limiting never comes back. *)
From S2P Require Import Prelude GoStrings GoTime Float64 ConfigTypes Config KeyStrategy InMemory Events RedisClient RedisTopology Bucket Chain Settings Lifecycle.

Local Open Scope Z_scope.

Section shutdown.
Context `{R : Rounding}.
Implicit Types (c : Lifecycle).

(** A goroutine that has connected and not yet installed its client. *)
Definition install_pending c : bool :=
  match lc_recovery c with Some (Pinged _) => true | _ => false end || match lc_resp c with RConnected _ => true | _ => false end.

(** A closed chain that owns nothing. *)
Record shut c : Prop := {
  sh_done : lc_ctxDone c = true;
  sh_res : lc_res c = ∅;
  sh_cache : lc_cacheRedisOwned c = false;
  sh_pending : install_pending c = false
}.

Lemma Close_shut c : install_pending c = false -> shut (Chain_Close c).
Proof.
  intros Hp. unfold Chain_Close, closeResources, releaseCacheRedis. cbn [swapLimiterLocked swap].
  destruct (lc_cacheRedisOwned c) eqn:Eo; cbn; rewrite Eo; cbn; (split; cbn; [done| |done|done]);
    apply map_eq; intros []; by simplify_map_eq.
Qed.

Lemma shut_view c c' :
  lc_ctxDone c' = lc_ctxDone c -> lc_res c' = lc_res c -> lc_cacheRedisOwned c' = lc_cacheRedisOwned c ->
  install_pending c' = false -> shut c -> shut c'.
Proof. intros E1 E2 E3 E4 []. by split; rewrite ?E1, ?E2, ?E3. Qed.

(** Nothing that can still happen makes a closed chain own a resource again. *)
Lemma shut_step e c c' : step e c = Some c' -> shut c -> shut c'.
Proof.
  intros Hs H. pose proof H as [Hd Hm Ho Hp].
  assert (limiter c = None) as El by (unfold limiter; by rewrite Hm).
  unfold install_pending in Hp. apply orb_false_iff in Hp as [Hp1 Hp2].
  destruct e; unfold step in Hs; rewrite ?Hd, ?El in Hs; try done.
  - destruct (remove_one x (lc_inflight c)); cbn in Hs; [|done]. injection Hs as <-.
    apply (shut_view c); try done; unfold install_pending; cbn; by rewrite ?Hp1, ?Hp2.
  - destruct (remove_one x (lc_inflight c)); cbn [mbind option_bind] in Hs; [|done]. injection Hs as <-.
    unfold handleConnectivityErr, startRecoveryIfNeeded. cbn. rewrite Hd. split; cbn; [done| |done|].
    + by rewrite Hm, delete_empty.
    + unfold install_pending. cbn. by rewrite Hp1, Hp2.
  - destruct (lc_recovery c) as [[]|]; try done. injection Hs as <-. unfold recovery_begin.
    destruct ok; (apply (shut_view c); try done; unfold install_pending; cbn; by rewrite ?Hp2).
  - destruct (lc_recovery c) as [[]|]; try done. injection Hs as <-. unfold recovery_iter. rewrite Hd.
    apply (shut_view c); try done; unfold install_pending; cbn; by rewrite ?Hp2.
  - destruct (lc_recovery c) as [[]|]; try done. rewrite orb_true_r in Hs. injection Hs as <-. unfold recovery_wake.
    destruct timer; (apply (shut_view c); try done; unfold install_pending; cbn; by rewrite ?Hp2).
  - by destruct (lc_recovery c) as [[]|].
  - destruct (lc_recovery c) as [[]|]; try done. injection Hs as <-.
    apply (shut_view c); try done; unfold install_pending; cbn; by rewrite ?Hp2.
  - destruct (lc_resp c); try done. injection Hs as <-. unfold resp_round. rewrite Hd.
    apply (shut_view c); try done; unfold install_pending; cbn; by rewrite ?Hp1.
  - by destruct (lc_resp c).
Qed.

Lemma shut_run es : forall c c', run es c = Some c' -> shut c -> shut c'.
Proof.
  induction es as [|e es IH]; intros c c' Hr H; cbn in Hr; [by injection Hr as <-|].
  destruct (step e c) as [c1|] eqn:E; [|done]. eauto using shut_step.
Qed.

Lemma shut_owned c : shut c -> owned c = phase_part (lc_recovery c).
Proof.
  intros [_ Hm Ho Hp]. unfold owned. rewrite Hm, Ho. unfold field_part. rewrite map_to_list_empty. cbn.
  unfold install_pending in Hp. apply orb_false_iff in Hp as [_ Hp]. destruct (lc_resp c); [by rewrite app_nil_r..|done].
Qed.


(** The steps of the recovery goroutine. *)
Definition is_recovery (e : event) : bool :=
  match e with EBegin _ | EIter _ _ | EWake _ | EInstall | EEnd => true | _ => false end.
Definition steps_left (p : option phase) : nat :=
  match p with
  | None => 0 | Some Ending => 1 | Some (Looping _) => 2 | Some (Pinged _) => 2 | Some (Sleeping _) => 3 | Some Starting => 3
  end.

Lemma closed_step e c c' :
  lc_ctxDone c = true -> step e c = Some c' ->
  lc_ctxDone c' = true /\ ((if is_recovery e then 1 else 0) + steps_left (lc_recovery c') <= steps_left (lc_recovery c))%nat.
Proof.
  intros Hd Hs. split.
  { destruct (lc_ctxDone c') eqn:E; [done|]. apply (step_open e c c') in E; congruence. }
  destruct e; unfold step in Hs; rewrite ?Hd in Hs; try done; cbn [is_recovery].
  - destruct (limiter c); cbn in Hs; [|done]. by injection Hs as <-.
  - destruct (remove_one x (lc_inflight c)); cbn in Hs; [|done]. by injection Hs as <-.
  - destruct (remove_one x (lc_inflight c)); cbn [mbind option_bind] in Hs; [|done]. injection Hs as <-.
    unfold handleConnectivityErr, startRecoveryIfNeeded. cbn. by rewrite Hd.
  - destruct (lc_recovery c) as [[]|]; try done. injection Hs as <-. unfold recovery_begin. destruct ok; cbn; lia.
  - destruct (lc_recovery c) as [[]|]; try done. injection Hs as <-. unfold recovery_iter. rewrite Hd. cbn. lia.
  - destruct (lc_recovery c) as [[]|]; try done. rewrite orb_true_r in Hs. injection Hs as <-.
    unfold recovery_wake. destruct timer; cbn; lia.
  - destruct (lc_recovery c) as [[]|]; try done. injection Hs as <-. cbn. lia.
  - destruct (lc_recovery c) as [[]|]; try done. injection Hs as <-. cbn. lia.
  - destruct (lc_resp c); try done. injection Hs as <-. unfold resp_round. rewrite Hd. cbn. lia.
  - destruct (lc_resp c); try done. injection Hs as <-. cbn. lia.
Qed.

(** C16: After [Close] the recovery goroutine ends. It takes at most three more
    steps, whatever else happens in between, and it is never blocked: until it
    has ended, one of its steps is possible. *)
Theorem shutdown_ends_recovery es c c' :
  lc_ctxDone c = true -> run es c = Some c' ->
  (length (filter (fun e => is_recovery e = true) es) + steps_left (lc_recovery c') <= 3)%nat
  /\ (lc_recovery c' <> None -> exists e c'', is_recovery e = true /\ step e c' = Some c'').
Proof.
  intros Hd Hr. assert (lc_ctxDone c' = true
    /\ (length (filter (fun e => is_recovery e = true) es) + steps_left (lc_recovery c') <= steps_left (lc_recovery c))%nat) as [Hd' Hl].
  { revert c Hd Hr. induction es as [|e es IH]; intros c Hd Hr; cbn in Hr; [by injection Hr as <-|].
    destruct (step e c) as [c1|] eqn:E; [|done]. destruct (closed_step e c c1 Hd E) as [Hd1 Hl1].
    destruct (IH c1 Hd1 Hr) as [Hd2 Hl2]. split; [done|]. rewrite filter_cons. case_decide as He.
    - rewrite He in Hl1. cbn. lia.
    - destruct (is_recovery e); [done|]. lia. }
  split.
  { assert (steps_left (lc_recovery c) <= 3)%nat by (destruct (lc_recovery c) as [[]|]; cbn; lia). lia. }
  intros Hne. destruct (lc_recovery c') as [[|r|r|r|]|] eqn:E; [| | | | |done].
  - exists (EBegin true). unfold step. rewrite E. eauto.
  - exists (EIter true true). unfold step. rewrite E. eauto.
  - exists (EWake false). unfold step. rewrite E, Hd'. cbn. eauto.
  - exists EInstall. unfold step. rewrite E. eauto.
  - exists EEnd. unfold step. rewrite E. eauto.
Qed.
End shutdown.

(** ** The recovery loop *)

Section recovery_loop.
Context `{R : Rounding}.
Implicit Types (c : Lifecycle).

(** [n] failed pings, each followed by its wait. *)
Fixpoint failing_rounds (n : nat) : list event :=
  match n with O => [] | S n => EIter true false :: EWake true :: failing_rounds n end.

(** The loop state after [n] failed attempts. *)
Definition after_failures (r : recovery) (n : nat) : recovery :=
  mkRecovery (rv_client r) (rv_lastCfg r) (Z.min (rv_backoff r * 2 ^ Z.of_nat n) recoveryBackoffMax)
    (rv_attempt r + Z.of_nat n) (rv_maxAttempts r).

(** An open chain whose recovery is about to ping the configured endpoints. *)
Record looping (r : recovery) c : Prop := {
  lp_phase : lc_recovery c = Some (Looping r);
  lp_open : lc_ctxDone c = false;
  lp_same : sameRedisEndpoints (rv_lastCfg r) (cfg_Redis (cfg_of c)) = true;
  lp_backoff : 0 < rv_backoff r <= recoveryBackoffMax
}.

(** The attempt limit is not reached by [n] more failures. *)
Definition attempts_left (r : recovery) (n : nat) : Prop :=
  rv_maxAttempts r <= 0 \/ rv_attempt r + Z.of_nat n < rv_maxAttempts r.

Lemma run_app es1 es2 c : run (es1 ++ es2) c = (c' ← run es1 c; run es2 c').
Proof. revert c. induction es1 as [|e es1 IH]; intros c; cbn; [done|]. destruct (step e c); cbn; [apply IH|done]. Qed.

Lemma with_recovery_same c p : lc_recovery c = p -> with_recovery p c = c.
Proof. intros <-. by destruct c. Qed.

Lemma one_failure r c :
  looping r c -> attempts_left r 1 ->
  exists c1, step (EIter true false) c = Some c1
    /\ step (EWake true) c1 = Some (with_recovery (Some (Looping (after_failures r 1))) c).
Proof.
  intros [H1 H2 H3 H4] Ha. unfold step. rewrite H1. eexists. split; [done|].
  unfold recovery_iter. rewrite H2, H3. unfold recovery_ping, recoveryRetry. cbn [rv_maxAttempts rv_attempt].
  assert ((0 <? rv_maxAttempts r) && (rv_maxAttempts r <=? rv_attempt r + 1) = false) as ->.
  { apply andb_false_iff. unfold attempts_left in Ha. rewrite Z.ltb_ge, Z.leb_gt. lia. }
  cbn. unfold after_failures. do 4 f_equal.
Qed.

Lemma rounds_run n : forall r c,
  looping r c -> attempts_left r n ->
  run (failing_rounds n) c = Some (with_recovery (Some (Looping (after_failures r n))) c).
Proof.
  induction n as [|n IH]; intros r c Hl Ha.
  - cbn. rewrite with_recovery_same; [done|]. rewrite (lp_phase _ _ Hl). unfold after_failures. cbn.
    rewrite Z.mul_1_r, Z.min_l, Z.add_0_r by apply (lp_backoff _ _ Hl). by destruct r.
  - destruct (one_failure r c Hl) as (c1 & E1 & E2); [unfold attempts_left in *; lia|]. cbn [failing_rounds run].
    rewrite E1. cbn [mbind option_bind]. rewrite E2. cbn [mbind option_bind]. destruct Hl as [H1 H2 H3 H4]. rewrite (IH (after_failures r 1)).
    + unfold after_failures. cbn [rv_client rv_lastCfg rv_backoff rv_attempt rv_maxAttempts].
      assert (Z.min (Z.min (rv_backoff r * 2 ^ Z.of_nat 1) recoveryBackoffMax * 2 ^ Z.of_nat n) recoveryBackoffMax
        = Z.min (rv_backoff r * 2 ^ Z.of_nat (S n)) recoveryBackoffMax) as ->.
      { rewrite (Nat2Z.inj_succ n), Z.pow_succ_r, Z.pow_1_r by lia.
        assert (0 < 2 ^ Z.of_nat n) by lia. assert (0 < recoveryBackoffMax) by done. nia. }
      assert (rv_attempt r + Z.of_nat 1 + Z.of_nat n = rv_attempt r + Z.of_nat (S n)) as -> by lia. done.
    + split; cbn; [done|done|done|]. unfold recoveryBackoffMax, Second, Millisecond, Microsecond in *. lia.
    + unfold attempts_left in *. cbn. lia.
Qed.

Lemma looping_after r c n : looping r c -> looping (after_failures r n) (with_recovery (Some (Looping (after_failures r n))) c).
Proof.
  intros [H1 H2 H3 H4]. split; cbn; [done..|]. assert (0 < 2 ^ Z.of_nat n) by lia. assert (0 < recoveryBackoffMax) by done. nia.
Qed.

Lemma one_success r c : looping r c -> step (EIter true true) c = Some (with_recovery (Some (Pinged r)) c).
Proof. intros [H1 H2 H3 _]. unfold step. rewrite H1. unfold recovery_iter. by rewrite H2, H3. Qed.

Lemma last_failure r c :
  looping r c -> 0 < rv_maxAttempts r <= rv_attempt r + 1 ->
  step (EIter true false) c = Some (with_recovery (Some Ending) (close (Some (rv_client r)) c)).
Proof.
  intros [H1 H2 H3 _] Hm. unfold step. rewrite H1. unfold recovery_iter. rewrite H2, H3. unfold recovery_ping, recoveryRetry.
  cbn [rv_maxAttempts rv_attempt].
  assert ((0 <? rv_maxAttempts r) && (rv_maxAttempts r <=? rv_attempt r + 1) = true) as ->; [|done].
  apply andb_true_iff. rewrite Z.ltb_lt, Z.leb_le. lia.
Qed.

(** Redis limiting is configured. *)
Definition limits_configured c : bool :=
  fltb 0 (sp_ratePerSecond (pb_staticRL (lc_pub c))) || external_enabled (cfg_of c).

Lemma install_limiter x c :
  limits_configured c = true ->
  let c' := recoveryInstall x c in
  limiter c' = Some x /\ lc_redisUnhealthy c' = false /\ (lc_cacheRedisOwned c = false -> lc_authCacheRedis c' = Some x).
Proof.
  unfold limits_configured, recoveryInstall. intros Hc.
  assert (fleb (sp_ratePerSecond (pb_staticRL (lc_pub c))) 0 && negb (external_enabled (cfg_of c)) = false) as ->.
  { apply orb_true_iff in Hc as [Hc|Hc]; [|by rewrite Hc, andb_false_r]. apply andb_false_iff. left. by apply fleb_gt, fltb_lt. }
  unfold limiter. cbn. destruct (lc_cacheRedisOwned c); cbn; [by rewrite lookup_insert_eq|].
  destruct (_ !! FExternalRL); cbn; by rewrite lookup_insert_eq.
Qed.

(** C15: Recovery retries with exponential backoff and reconnects. From the top of
    the recovery loop of an open chain, [n] failed pings double the delay [n]
    times up to the cap of a minute without changing anything else, and the
    first successful ping then makes the client the limiter's, clears the
    unhealthy flag and ends the goroutine; with a borrowed cache connection the
    auth cache follows. This holds for every [n] below a configured attempt
    limit, and for every [n] when there is none. *)
Theorem recovery_reconnects r c n :
  looping r c -> attempts_left r n -> limits_configured c = true ->
  run (failing_rounds n) c = Some (with_recovery (Some (Looping (after_failures r n))) c)
  /\ exists c', run (failing_rounds n ++ [EIter true true; EInstall; EEnd]) c = Some c'
    /\ limiter c' = Some (rv_client r) /\ lc_redisUnhealthy c' = false /\ lc_recovery c' = None
    /\ (lc_cacheRedisOwned c = false -> lc_authCacheRedis c' = Some (rv_client r)).
Proof.
  intros Hl Ha Hc. pose proof (rounds_run n r c Hl Ha) as Hr. split; [done|]. rewrite run_app, Hr. cbn [mbind option_bind run].
  rewrite (one_success (after_failures r n)) by (by apply looping_after). cbn [mbind option_bind].
  eexists. split; [reflexivity|].
  match goal with |- context [recoveryInstall ?x ?c1] => destruct (install_limiter x c1) as (H1 & H2 & H3); [done|] end.
  split_and!; [exact H1|exact H2|done|exact H3].
Qed.

(** With an attempt limit [m] the [m]-th failure ends the recovery for good. *)
Lemma recovery_gives_up r c n :
  looping r c -> 0 < rv_maxAttempts r -> rv_attempt r + Z.of_nat n + 1 = rv_maxAttempts r ->
  exists c', run (failing_rounds n ++ [EIter true false; EEnd]) c = Some c'
    /\ lc_recovery c' = None /\ rv_client r ∈ lc_closed c' /\ limiter c' = limiter c.
Proof.
  intros Hl Hm Hn. rewrite run_app, (rounds_run n r c Hl) by (right; lia). cbn [mbind option_bind run].
  rewrite (last_failure (after_failures r n)); [|by apply looping_after|cbn; lia]. cbn. eexists. split; [reflexivity|].
  cbn. split_and!; [done| |done]. rewrite elem_of_app. right. by left.
Qed.
End recovery_loop.

(** ** Limiting that never comes back *)

Section stuck.
Context `{R : Rounding}.
Implicit Types (c : Lifecycle).

(** No limiter, no request that still uses one, and no recovery. *)
Record stuck c : Prop := {
  sk_limiter : limiter c = None;
  sk_inflight : lc_inflight c = [];
  sk_recovery : lc_recovery c = None
}.

(** What a reload leaves alone. *)
Definition core c := (limiter c, lc_inflight c, lc_recovery c).

Lemma stuck_core c c' : core c' = core c -> stuck c -> stuck c'.
Proof. unfold core. intros [= E1 E2 E3] []. by split; rewrite ?E1, ?E2, ?E3. Qed.

Lemma create_in_core f c : f <> FLimiter -> core (create_in f c) = core c.
Proof. intros H. unfold core, limiter. cbn. by rewrite lookup_insert_ne. Qed.

Lemma resolve_core cfg ok c : core (resolveCacheRedis cfg ok c).1 = core c.
Proof.
  unfold resolveCacheRedis. destruct (lc_cacheRedis c); [done|]. destruct (_ && _); [done|]. by destruct (limiter c).
Qed.

Lemma release_core c : core (releaseCacheRedis c) = core c.
Proof. unfold releaseCacheRedis. by destruct (lc_cacheRedisOwned c). Qed.

Lemma reloadExternalRL_core cfg a c : core (reloadExternalRL cfg a c) = core c.
Proof.
  unfold reloadExternalRL. destruct (negb _); [done|].
  pose proof (resolve_core cfg (at_cache1 a) (releaseCacheRedis c)) as H. destruct (resolveCacheRedis _ _ _) as [c1 x].
  rewrite release_core in H. cbn in H. rewrite <- H. destruct (at_ext a); [|done].
  change (core (SetRedisClient x (create_in FExternalRL c1))) with (core (create_in FExternalRL c1)). by apply create_in_core.
Qed.

Lemma Reload_core cfg a c : core (Reload cfg a c).1 = core c.
Proof.
  unfold Reload. destruct (Reload_settings cfg (lc_pub c)) as [p [e|]]; cbn [fst]; [done|].
  set (c1 := reload_limiters cfg p c). assert (core c1 = core c) as <-.
  { subst c1. unfold reload_limiters, core, limiter. destruct (external_enabled cfg); cbn; by rewrite ?lookup_insert_ne. }
  rewrite <- (reloadExternalRL_core cfg a c1). set (c2 := reloadExternalRL cfg a c1). clearbody c2.
  set (c3 := reloadAuth _ cfg a c2). assert (core c3 = core c2) as <-.
  { subst c3. unfold reloadAuth. destruct (_ || _); [done|]. destruct (at_auth a); [by apply create_in_core|done]. }
  clearbody c3. unfold reload_emitter. destruct (pb_emitter p).
  - etransitivity; [by apply create_in_core|done].
  - unfold core, limiter. cbn. by rewrite lookup_delete_ne.
Qed.

Lemma Close_core c : core (Chain_Close c) = (None, lc_inflight c, lc_recovery c).
Proof.
  unfold Chain_Close, closeResources, releaseCacheRedis. cbn [swapLimiterLocked swap].
  destruct (lc_cacheRedisOwned c) eqn:Eo; cbn; rewrite Eo; unfold core, limiter; cbn; f_equal; f_equal; by simplify_map_eq.
Qed.

Lemma stuck_step e c c' : step e c = Some c' -> stuck c -> stuck c'.
Proof.
  intros Hs H. pose proof H as [H1 H2 H3]. destruct e; unfold step in Hs; rewrite ?H1, ?H2, ?H3 in Hs; try done.
  - destruct (lc_resp c); try done. injection Hs as <-. apply (stuck_core c); [|done]. unfold resp_round.
    destruct (lc_ctxDone c); [done|]. by destruct ok.
  - destruct (lc_resp c); try done. injection Hs as <-. apply (stuck_core c); [|done]. unfold core, limiter, installResponseCache.
    cbn. by rewrite lookup_insert_ne.
  - destruct (lc_ctxDone c); [done|]. injection Hs as <-. apply (stuck_core c); [apply Reload_core|done].
  - destruct (lc_ctxDone c); [done|]. injection Hs as <-. by apply (stuck_core c).
  - destruct (lc_ctxDone c); [done|]. injection Hs as <-. pose proof (Close_core c) as E. split.
    + exact (f_equal (fun v => v.1.1) E).
    + by rewrite <- H2, <- (f_equal (fun v => v.1.2) E : lc_inflight (Chain_Close c) = lc_inflight c).
    + by rewrite <- H3, <- (f_equal (fun v => v.2) E : lc_recovery (Chain_Close c) = lc_recovery c).
Qed.

Lemma stuck_run es : forall c c', run es c = Some c' -> stuck c -> stuck c'.
Proof.
  induction es as [|e es IH]; intros c c' Hr H; cbn in Hr; [by injection Hr as <-|].
  destruct (step e c) as [c1|] eqn:E; [|done]. eauto using stuck_step.
Qed.

(** A lost recovery stays lost. Recovery is only started by a request whose
    limiter call fails, so once there is no limiter, no such call in flight and
    no recovery goroutine, no sequence of requests, reloads or other events ever
    creates a limiter or starts a recovery: every request takes the failure
    policy until the process restarts. *)
Theorem lost_recovery_is_final c es c' :
  stuck c -> run es c = Some c' -> stuck c' /\ step ETake c' = None.
Proof.
  intros H Hr. assert (stuck c') as [E1 E2 E3] by (by eapply stuck_run). split; [done|]. unfold step. by rewrite E1.
Qed.

(** Whether [recoveryLoop] gets a client to start with. *)
Definition connects (r : option (result redis_client)) : bool := match r with Some (Ok _) => true | _ => false end.

(** In replication mode an outage is final. The recovery asks for a client
    without a ping, but for this topology the constructor looks for the master:
    when no node is the master at that moment, the recovery goroutine returns,
    and from then on no limiter is ever installed, whatever happens. *)
Theorem replication_outage_is_final {W} (clock : W -> Z) role pings (w : W) c :
  rc_Mode (cfg_Redis (cfg_of c)) = "replication" ->
  (forall a x, a ∈ rc_Endpoints (cfg_Redis (cfg_of c)) -> role w a = Some x -> ToLower x <> "master") ->
  limiter c = None -> lc_inflight c = [] -> lc_recovery c = Some Starting ->
  exists c1, run [EBegin (connects (NewClientWithoutPing clock role pings (cfg_Redis (cfg_of c)) w)); EEnd] c = Some c1
    /\ forall es c2, run es c1 = Some c2 -> stuck c2.
Proof.
  intros Hm Hr Hl Hi Hc. assert (connects (NewClientWithoutPing clock role pings (cfg_Redis (cfg_of c)) w) = false) as ->.
  { unfold NewClientWithoutPing, newClient. destruct (parseOptions _) as [o|] eqn:Eo; [|done].
    assert (o_mode o = "replication" /\ o_endpoints o = rc_Endpoints (cfg_Redis (cfg_of c))) as [-> ->].
    { unfold parseOptions in Eo. rewrite Hm in Eo. cbn in Eo. destruct (parseDur _ _); [|done]. destruct (parseDur _ _); [|done].
      destruct (parseDur _ _); [|done]. by injection Eo as <-. }
    cbn. destruct (newReplication _ _ _ w) as [r|] eqn:En; [|done].
    pose proof (newReplication_spec clock role (rc_Endpoints (cfg_Redis (cfg_of c))) w) as Hn. rewrite En in Hn.
    destruct (proj1 Hn eq_refl) as (a & x & Ha & Hx & Hmm). by destruct (Hr a x Ha Hx). }
  assert (step (EBegin false) c = Some (recovery_begin false c)) as Es by (unfold step; by rewrite Hc).
  cbn [run]. rewrite Es. cbn. eexists. split; [done|]. intros es c2 He. eapply stuck_run; [exact He|]. by split.
Qed.

(** A chain without limits at start-up is stuck from the beginning. *)
Lemma NewChain_unlimited cfg a c :
  rs_Average (rl_Static (cfg_RateLimit cfg)) = 0 -> external_enabled cfg = false -> NewChain cfg a = Ok c -> stuck c.
Proof.
  intros H0 He. unfold NewChain. destruct (NewChain_settings cfg) as [p|] eqn:Ep; [|done].
  assert (pb_cfg p = cfg) as Ec.
  { unfold NewChain_settings in Ep. destruct (NewKeyStrategy _); [|done]. rewrite He in Ep. cbn in Ep. by injection Ep as <-. }
  cbn. unfold build_chain. rewrite Ec. set (c0 := create_if _ FEmitter _).
  assert (stuck c0) as Hs.
  { assert (forall b f c, f <> FLimiter -> stuck c -> stuck (create_if b f c)) as Hi.
    { intros b f c1 Hf Hs. destruct b; [|done]. by apply (stuck_core c1); [apply create_in_core|]. }
    subst c0. repeat (apply Hi; [done|]). by apply (Hi true). }
  clearbody c0. unfold initRedis. rewrite H0, He. cbn [Z.eqb negb andb and_then fst snd]. unfold initClients.
  set (s := init_auth cfg a c0). assert (stuck s.1) as Hs1.
  { subst s. unfold init_auth. destruct (au_Enabled _); [|done]. destruct (negb _); [done|].
    pose proof (resolve_core cfg (at_cache1 a) (create_in FAuthClient c0)) as Hr. destruct (resolveCacheRedis _ _ _) as [c1 x].
    rewrite create_in_core in Hr by done. by apply (stuck_core c0). }
  destruct s as [c1 [e|]]; cbn in *; [done|]. unfold init_external. rewrite He. cbn. intros [= <-].
  destruct (cc_Enabled _); [|done]. apply (stuck_core c1); [|done]. unfold initResponseCache. destruct (at_resp a); [|done].
  unfold core, limiter, installResponseCache. cbn. by rewrite lookup_insert_ne.
Qed.

(** A reload cannot enable rate limiting. A chain that starts with
    [static.average = 0] and no external service has no limiter, and nothing
    that can happen to it, in particular no reload whatever average it sets,
    ever creates one. *)
Theorem reload_cannot_enable_limits cfg a c es c' :
  rs_Average (rl_Static (cfg_RateLimit cfg)) = 0 -> external_enabled cfg = false -> NewChain cfg a = Ok c ->
  run es c = Some c' -> stuck c'.
Proof. intros H0 He Hn Hr. eapply stuck_run; [done|]. by eapply NewChain_unlimited. Qed.
End stuck.

(** ** The response cache and the proxy *)

Section proxies.
Context `{R : Rounding}.
Implicit Types (c : Lifecycle).

(** Only the proxy the chain was built with ever gets a cache. *)
Definition cache_only_first c : Prop := lc_cached c ⊆ {[ 0%nat ]}.
Definition proxy_view c := (lc_proxy c, lc_cached c).

Lemma reloadExternalRL_proxy cfg a c : proxy_view (reloadExternalRL cfg a c) = proxy_view c.
Proof.
  unfold reloadExternalRL, resolveCacheRedis, releaseCacheRedis. destruct (negb _); [done|].
  destruct (lc_cacheRedisOwned c); cbn; destruct (dedicated_cache cfg && _); cbn; destruct (at_ext a); try done;
    unfold limiter; cbn; by destruct (lc_res c !! FLimiter).
Qed.

Lemma Reload_proxy cfg a c : proxy_view (Reload cfg a c).1 = proxy_view c.
Proof.
  unfold Reload. destruct (Reload_settings cfg (lc_pub c)) as [p [e|]]; cbn [fst]; [done|].
  set (c1 := reload_limiters cfg p c). assert (proxy_view c1 = proxy_view c) as <-.
  { subst c1. unfold reload_limiters. by destruct (external_enabled cfg). }
  rewrite <- (reloadExternalRL_proxy cfg a c1). set (c2 := reloadExternalRL cfg a c1). clearbody c2.
  unfold reload_emitter, reloadAuth. destruct (pb_emitter p), (_ || _), (at_auth a); done.
Qed.

(** A step of anything but [SwapProxy] keeps the proxy. *)
Lemma step_proxy e c c' :
  step e c = Some c' -> cache_only_first c ->
  cache_only_first c' /\ lc_proxy c' = match e with ESwapProxy => S (lc_proxy c) | _ => lc_proxy c end.
Proof.
  unfold cache_only_first. intros Hs H. assert (proxy_view c' = proxy_view c -> lc_cached c' ⊆ {[0%nat]} /\ lc_proxy c' = lc_proxy c) as Hv.
  { unfold proxy_view. intros [= E1 E2]. by rewrite E1, E2. }
  destruct e; unfold step in Hs.
  - destruct (limiter c); cbn in Hs; [|done]. injection Hs as <-. by apply Hv.
  - destruct (remove_one x (lc_inflight c)); cbn in Hs; [|done]. injection Hs as <-. by apply Hv.
  - destruct (remove_one x (lc_inflight c)); cbn [mbind option_bind] in Hs; [|done]. injection Hs as <-. apply Hv.
    unfold handleConnectivityErr, startRecoveryIfNeeded. cbn. destruct (lc_ctxDone c); [done|]. by destruct (lc_recovery c).
  - destruct (lc_recovery c) as [[]|]; try done. injection Hs as <-. apply Hv. unfold recovery_begin. by destruct ok.
  - destruct (lc_recovery c) as [[]|]; try done. injection Hs as <-. apply Hv. unfold recovery_iter, recovery_ping, recoveryRetry.
    destruct (lc_ctxDone c); [done|]. destruct (sameRedisEndpoints _ _), create_ok, ping_ok; cbn; try done; by case_match.
  - destruct (lc_recovery c) as [[]|]; try done. destruct (timer || _); [|done]. injection Hs as <-. apply Hv.
    unfold recovery_wake. by destruct timer.
  - destruct (lc_recovery c) as [[]|]; try done. injection Hs as <-. apply Hv. unfold recoveryInstall.
    destruct (_ && _); cbn; [done|]. destruct (lc_cacheRedisOwned c); cbn; [done|]. by destruct (_ !! FExternalRL).
  - destruct (lc_recovery c) as [[]|]; try done. injection Hs as <-. by apply Hv.
  - destruct (lc_resp c); try done. injection Hs as <-. apply Hv. unfold resp_round. destruct (lc_ctxDone c); [done|]. by destruct ok.
  - destruct (lc_resp c); try done. injection Hs as <-. cbn. split; [set_solver|done].
  - destruct (lc_ctxDone c); [done|]. injection Hs as <-. apply Hv, Reload_proxy.
  - destruct (lc_ctxDone c); [done|]. by injection Hs as <-.
  - destruct (lc_ctxDone c); [done|]. injection Hs as <-. apply Hv.
    unfold Chain_Close, closeResources, releaseCacheRedis. cbn [swapLimiterLocked swap]. by destruct (lc_cacheRedisOwned _).
Qed.

Definition is_swap (e : event) : bool := match e with ESwapProxy => true | _ => false end.

Lemma run_proxy es : forall c c',
  run es c = Some c' -> cache_only_first c ->
  cache_only_first c' /\ lc_proxy c' = (lc_proxy c + length (filter (fun e => is_swap e = true) es))%nat.
Proof.
  induction es as [|e es IH]; intros c c' Hr H; cbn in Hr; [injection Hr as <-; cbn; split; [done|lia]|].
  destruct (step e c) as [c1|] eqn:E; [|done]. destruct (step_proxy e c c1 E H) as [H1 E1].
  destruct (IH c1 c' Hr H1) as [H2 E2]. split; [done|]. rewrite E2, E1, filter_cons.
  destruct e; cbn [is_swap]; case_decide; try done; cbn; lia.
Qed.

Lemma NewChain_proxy cfg a c : NewChain cfg a = Ok c -> cache_only_first c.
Proof.
  unfold NewChain, cache_only_first. destruct (NewChain_settings cfg) as [p|]; [|done]. cbn. unfold build_chain.
  set (c0 := create_if _ FEmitter _). assert (lc_cached c0 = ∅) as H0.
  { subst c0. unfold create_if. destruct (external_enabled _), (bool_decide (is_Some (pb_globalBackstop p))),
      (bool_decide (is_Some (pb_emitter p))); done. }
  clearbody c0. unfold and_then at 1. destruct (initRedis (pb_cfg p) (at_redis a) c0) as [c1 [e|]] eqn:E1; [done|].
  assert (lc_cached c1 = ∅) as H1.
  { apply (f_equal fst) in E1. cbn in E1. rewrite <- E1, <- H0. unfold initRedis, handleRedisStartupFailure, startRecoveryIfNeeded.
    destruct (_ && negb _); [done|]. destruct (negb _); [|by destruct (fltb _ _ || _)]. destruct (_ || _); [|done].
    destruct (lc_ctxDone c0); [done|]. by destruct (lc_recovery c0). }
  cbn [snd fst]. unfold initClients, and_then. destruct (init_auth (pb_cfg p) a c1) as [c2 [e|]] eqn:E2; [done|].
  assert (lc_cached c2 = ∅) as H2.
  { apply (f_equal fst) in E2. cbn in E2. rewrite <- E2, <- H1. unfold init_auth, resolveCacheRedis.
    destruct (au_Enabled _); [|done]. destruct (negb _); [done|]. cbn. destruct (lc_cacheRedis c1); [done|].
    destruct (_ && _); [done|]. by case_match. }
  cbn [snd fst]. destruct (init_external (pb_cfg p) a c2) as [c3 [e|]] eqn:E3; [done|].
  assert (lc_cached c3 = ∅) as H3.
  { apply (f_equal fst) in E3. cbn in E3. rewrite <- E3, <- H2. unfold init_external, resolveCacheRedis, releaseCacheRedis.
    destruct (external_enabled _); [|done]. destruct (lc_cacheRedis c2); cbn; [|destruct (_ && _); [|destruct (limiter c2)]]; cbn;
      destruct (at_ext a); cbn; repeat case_match; done. }
  cbn [snd fst]. intros [= <-]. destruct (cc_Enabled _); [|by rewrite H3]. unfold initResponseCache.
  destruct (at_resp a); cbn; rewrite H3; set_solver.
Qed.

(** Swapping the proxy loses the response cache. After a run with at least one
    proxy swap (a reload that changes the backend), the proxy that serves
    requests has no response cache, although the chain's store stays open and a
    later recovery of the cache connection installs it, in the discarded proxy. *)
Theorem swapped_proxy_uncached cfg a c es c' :
  NewChain cfg a = Ok c -> run es c = Some c' -> existsb is_swap es = true -> lc_proxy c' ∉ lc_cached c'.
Proof.
  intros Hn Hr Hs. apply NewChain_proxy in Hn. destruct (run_proxy es c c' Hr Hn) as [H1 E1].
  assert (length (filter (fun e => is_swap e = true) es) <> 0)%nat as Hpos.
  { apply existsb_exists in Hs as (e & Hin & He). intros Hl%length_zero_iff_nil.
    assert (e ∈ filter (fun e => is_swap e = true) es) as Hin' by (apply list_elem_of_filter; by rewrite list_elem_of_In).
    rewrite Hl in Hin'. by apply not_elem_of_nil in Hin'. }
  intros Hin. apply H1 in Hin. set_unfold. lia.
Qed.
End proxies.

(** ** Clients survive reloads *)

Section clients.
Context `{R : Rounding}.
Implicit Types (c : Lifecycle).

(** The chain has an auth client ([FAuthClient]) or an external client
    ([FExternalRL]): requests are checked by it. *)
Definition checks_with (f : field) c : Prop := is_Some (lc_res c !! f).
Definition service (f : field) : bool := match f with FAuthClient | FExternalRL => true | _ => false end.

Lemma swap_checks f g x c : service f = true -> g <> f \/ is_Some x -> checks_with f c -> checks_with f (swap g x c).1.
Proof.
  intros Hf Hg H. unfold checks_with, swap. cbn. destruct (decide (g = f)) as [->|Hne].
  - destruct Hg as [|[y ->]]; [done|]. rewrite lookup_insert_eq. by eexists.
  - destruct x; [by rewrite lookup_insert_ne|by rewrite lookup_delete_ne].
Qed.

Lemma create_in_checks f g c : service f = true -> checks_with f c -> checks_with f (create_in g c).
Proof. intros Hf H. apply (swap_checks f g (Some (lc_next c)) (create c).1); [done|right; by eexists|done]. Qed.

Lemma release_checks f c : checks_with f (releaseCacheRedis c) <-> checks_with f c.
Proof. unfold releaseCacheRedis, checks_with. by destruct (lc_cacheRedisOwned c). Qed.

Lemma resolve_checks f cfg ok c : checks_with f (resolveCacheRedis cfg ok c).1 <-> checks_with f c.
Proof.
  unfold resolveCacheRedis, checks_with. destruct (lc_cacheRedis c); [done|]. destruct (_ && ok); [done|]. cbn. by destruct (limiter c).
Qed.

Lemma reloadExternalRL_checks f cfg a c : service f = true -> checks_with f c -> checks_with f (reloadExternalRL cfg a c).
Proof.
  intros Hf H. unfold reloadExternalRL. destruct (negb _); [done|].
  pose proof (resolve_checks f cfg (at_cache1 a) (releaseCacheRedis c)) as Hr.
  destruct (resolveCacheRedis _ _ _) as [c1 x]. cbn in Hr. assert (checks_with f c1) as H1 by (by apply Hr, release_checks).
  destruct (at_ext a); [|done]. by apply (create_in_checks f FExternalRL c1).
Qed.

Lemma Reload_checks f cfg a c : service f = true -> checks_with f c -> checks_with f (Reload cfg a c).1.
Proof.
  intros Hf H. unfold Reload. destruct (Reload_settings cfg (lc_pub c)) as [p [e|]]; [done|]. cbn [fst].
  assert (checks_with f (reload_limiters cfg p c)) as H1.
  { unfold reload_limiters, checks_with. destruct (external_enabled cfg); cbn; destruct f; try done; by rewrite !lookup_insert_ne. }
  assert (checks_with f (reloadExternalRL cfg a (reload_limiters cfg p c))) as H2 by (by apply reloadExternalRL_checks).
  revert H2. generalize (reloadExternalRL cfg a (reload_limiters cfg p c)). intros c1 H2.
  assert (checks_with f (reloadAuth (cfg_of c) cfg a c1)) as H3.
  { unfold reloadAuth. destruct (_ || _); [done|]. destruct (at_auth a); [|done]. by apply create_in_checks. }
  revert H3. generalize (reloadAuth (cfg_of c) cfg a c1). intros c2 H3. unfold reload_emitter.
  destruct (pb_emitter p); [by apply (create_in_checks f FEmitter)|].
  unfold replace, checks_with. cbn. destruct f; try done; by rewrite lookup_delete_ne.
Qed.

Lemma step_checks f e c c' :
  service f = true -> step e c = Some c' -> lc_ctxDone c' = false -> checks_with f c -> checks_with f c'.
Proof.
  intros Hf Hs Hd H. destruct e; unfold step in Hs.
  - destruct (limiter c); cbn in Hs; [|done]. by injection Hs as <-.
  - destruct (remove_one x (lc_inflight c)); cbn in Hs; [|done]. by injection Hs as <-.
  - destruct (remove_one x (lc_inflight c)); cbn [mbind option_bind] in Hs; [|done]. injection Hs as <-.
    unfold handleConnectivityErr, startRecoveryIfNeeded, checks_with. cbn.
    destruct (lc_ctxDone c), (lc_recovery c); cbn; destruct f; try done; by rewrite lookup_delete_ne.
  - destruct (lc_recovery c) as [[]|]; try done. injection Hs as <-. unfold recovery_begin. by destruct ok.
  - destruct (lc_recovery c) as [[]|]; try done. injection Hs as <-.
    unfold recovery_iter, recovery_ping, recoveryRetry, checks_with.
    destruct (lc_ctxDone c); [done|]. destruct (sameRedisEndpoints _ _), ping_ok, create_ok; cbn; try done; by destruct (_ && _).
  - destruct (lc_recovery c) as [[]|]; try done. destruct (timer || _); [|done]. injection Hs as <-. unfold recovery_wake. by destruct timer.
  - destruct (lc_recovery c) as [[]|]; try done. injection Hs as <-. unfold recoveryInstall, checks_with.
    destruct (_ && _); cbn; [destruct f; try done; by rewrite lookup_delete_ne|].
    destruct (lc_cacheRedisOwned c); cbn; [|destruct (<[_:=_]> _ !! FExternalRL); cbn]; destruct f; try done; by rewrite lookup_insert_ne.
  - destruct (lc_recovery c) as [[]|]; try done. by injection Hs as <-.
  - destruct (lc_resp c); try done. injection Hs as <-. unfold resp_round. destruct (lc_ctxDone c); [done|]. by destruct ok.
  - destruct (lc_resp c); try done. injection Hs as <-. unfold checks_with. cbn. destruct f; try done; by rewrite lookup_insert_ne.
  - destruct (lc_ctxDone c); [done|]. injection Hs as <-. by apply Reload_checks.
  - destruct (lc_ctxDone c); [done|]. by injection Hs as <-.
  - destruct (lc_ctxDone c); [done|]. injection Hs as <-. exfalso. revert Hd.
    unfold Chain_Close, closeResources, releaseCacheRedis. cbn. by destruct (lc_cacheRedisOwned c).
Qed.

(** A check is never lost while the chain is open. Once requests go through the
    auth service (or the external limits service), they do so in every later
    state of the open chain: no outage, recovery, failed client or reload drops
    the client. That includes a reload whose file disables the service: the old
    client stays in force until the process restarts. *)
Theorem checks_are_permanent f es c c' :
  service f = true -> run es c = Some c' -> lc_ctxDone c' = false -> checks_with f c -> checks_with f c'.
Proof.
  intros Hf Hr Hd. revert c Hr. induction es as [|e es IH]; intros c Hr; cbn in Hr; [by injection Hr as <-|].
  destruct (step e c) as [c1|] eqn:E; [|done]. intros H. apply (IH c1 Hr). apply (step_checks f e c); [done|done|by apply (run_open es c1 c')|done].
Qed.
End clients.

(** ** Concrete runs *)

Module RunDemo.
Import LifeDemo.
Definition limited10 : Lifecycle := started (limited 10 0).
(** An outage; the recovery is at the top of its loop. *)
Definition down : Lifecycle := after [ETake; EFail 1; EBegin true] limited10.
Definition down_r : recovery := mkRecovery 2 (cfg_Redis Defaults) Second 0 0.

(** Redis comes back, the recovery installs its client, and before the goroutine
    clears its flag another request loses the connection. *)
Definition lost_run : list event :=
  [ETake; EFail 1; EBegin true; EIter true true; EInstall; ETake; EFail 2; EEnd].
Definition lost : Lifecycle := after lost_run limited10.
(** An outage with a replicated Redis. *)
Definition replicated : Config :=
  set_cfg_Redis (mkRedisConfig ["a:6379"; "b:6379"] "replication" "" "" "" 0 0 "" "" "" (mkRedisTLSConfig false false) "" "") (limited 10 0).
Definition no_master (w : unit) (addr : string) : option string := None.
Definition replicated_down : Lifecycle := after [ETake; EFail 1] (started replicated).
Definition closing : list event := [EClose; EWake true; EIter true true; EEnd].
Definition sleeping : list event := [ETake; EFail 1; EBegin true; EIter true false].
End RunDemo.


Lemma shutdown_ends_recovery_witness :
  (length (filter (fun e => is_recovery e = true) [EWake true; EIter true true; EEnd]) = 3)%nat
  /\ (steps_left (lc_recovery (LifeDemo.after (RunDemo.sleeping ++ RunDemo.closing) RunDemo.limited10)) <= 0)%nat.
Proof.
  split; [vm_compute; reflexivity|].
  destruct (shutdown_ends_recovery (R := exact_rounding) [EWake true; EIter true true; EEnd]
    (LifeDemo.after (RunDemo.sleeping ++ [EClose]) RunDemo.limited10)
    (LifeDemo.after (RunDemo.sleeping ++ RunDemo.closing) RunDemo.limited10)) as [H _];
    [vm_compute; reflexivity|vm_compute; reflexivity|]. apply (le_S_n _ _ (le_S_n _ _ (le_S_n _ _ H))).
Defined.

Lemma recovery_reconnects_witness :
  exists c', run (R := exact_rounding) (failing_rounds 7 ++ [EIter true true; EInstall; EEnd]) RunDemo.down = Some c'
    /\ limiter c' = Some 2%nat /\ rv_backoff (after_failures RunDemo.down_r 5) = 32 * Second
    /\ rv_backoff (after_failures RunDemo.down_r 7) = 60 * Second.
Proof.
  destruct (recovery_reconnects (R := exact_rounding) RunDemo.down_r RunDemo.down 7) as [_ (c' & Hr & Hl & _)].
  - split; [vm_compute; reflexivity..|]. vm_compute. split; congruence.
  - left. vm_compute. congruence.
  - vm_compute. reflexivity.
  - exists c'. split; [exact Hr|]. split; [exact Hl|]. split; vm_compute; reflexivity.
Defined.

(** The state in which recovery is lost, reached with Redis reachable at every
    connection attempt. *)
Lemma lost_recovery_is_final_witness :
  run (R := exact_rounding) RunDemo.lost_run RunDemo.limited10 = Some RunDemo.lost /\ lc_ctxDone RunDemo.lost = false
  /\ forall es c', run (R := exact_rounding) es RunDemo.lost = Some c' -> limiter c' = None.
Proof.
  split; [vm_compute; reflexivity|]. split; [vm_compute; reflexivity|]. intros es c' Hr.
  apply (lost_recovery_is_final (R := exact_rounding) RunDemo.lost es c'); [|exact Hr]. split; vm_compute; reflexivity.
Defined.

Lemma replication_outage_is_final_witness :
  exists c1, run (R := exact_rounding) [EBegin false; EEnd] RunDemo.replicated_down = Some c1 /\ lc_ctxDone c1 = false
    /\ forall es c2, run (R := exact_rounding) es c1 = Some c2 -> limiter c2 = None.
Proof.
  destruct (replication_outage_is_final (R := exact_rounding) (fun _ : unit => 0) RunDemo.no_master (fun _ _ => true) tt RunDemo.replicated_down)
    as (c1 & H1 & H2); [vm_compute; reflexivity|intros a x _ Hx; discriminate Hx|vm_compute; reflexivity..|].
  exists c1. split; [exact H1|]. split; [vm_compute in H1; injection H1 as <-; reflexivity|]. intros es c2 Hr. apply (H2 es c2 Hr).
Defined.

Lemma reload_cannot_enable_limits_witness :
  let es := [EReload (LifeDemo.limited 10 0) LifeDemo.all_ok] in
  let c := LifeDemo.after es (LifeDemo.started (LifeDemo.limited 0 0)) in
  sp_average (pb_staticRL (lc_pub c)) = 10 /\ stuck c.
Proof.
  intros es c. split; [vm_compute; reflexivity|].
  apply (reload_cannot_enable_limits (R := exact_rounding) (LifeDemo.limited 0 0) LifeDemo.all_ok
           (LifeDemo.started (LifeDemo.limited 0 0)) es); vm_compute; reflexivity.
Defined.

Definition cached_cfg : Config :=
  let c := LifeDemo.limited 10 0 in
  mkConfig (cfg_Server c) (cfg_Admin c) (cfg_Backend c) (cfg_Auth c) (cfg_RateLimit c) (cfg_Redis c) (cfg_CacheRedis c)
    (mkCacheConfig true "") (cfg_ResponseCacheRedis c) (cfg_Events c) (cfg_Logging c) (cfg_Tracing c) (cfg_Metrics c).

Lemma swapped_proxy_uncached_witness :
  lc_proxy (LifeDemo.started cached_cfg) ∈ lc_cached (LifeDemo.started cached_cfg)
  /\ lc_proxy (LifeDemo.after [ESwapProxy] (LifeDemo.started cached_cfg))
     ∉ lc_cached (LifeDemo.after [ESwapProxy] (LifeDemo.started cached_cfg)).
Proof.
  split; [refine (bool_decide_unpack _ _); vm_compute; exact I|].
  apply (swapped_proxy_uncached (R := exact_rounding) cached_cfg LifeDemo.all_ok (LifeDemo.started cached_cfg) [ESwapProxy]);
    vm_compute; reflexivity.
Defined.

(** A late failure on the old client discards the client the recovery has just
    installed. *)
Lemma stale_error_drops_new_client :
  let c := LifeDemo.after [ETake; ETake; EFail 1; EBegin true; EIter true true; EInstall; EEnd] RunDemo.limited10 in
  limiter c = Some 2%nat /\ limiter (LifeDemo.after [EFail 1] c) = None /\ lc_closed (LifeDemo.after [EFail 1] c) = [1; 2]%nat.
Proof. split_and!; vm_compute; reflexivity. Qed.

(** A recovery whose ping succeeded before [Close] installs its client afterwards
    and leaves it open. *)
Lemma recovery_after_close_leaks :
  let c := LifeDemo.after [ETake; EFail 1; EBegin true; EIter true true; EClose; EInstall; EEnd] RunDemo.limited10 in
  lc_ctxDone c = true /\ limiter c = Some 2%nat /\ lc_closed c = [1; 0]%nat /\ lc_recovery c = None.
Proof. split_and!; vm_compute; reflexivity. Qed.

(** A reload whose external client cannot be built keeps the old one, which then
    holds the cache connection the reload has closed. *)
Lemma reload_failure_keeps_closed_client :
  let a := mkAttempts true true true true false true in
  let c := LifeDemo.after [EReload LifeDemo.external_cfg a] (LifeDemo.started LifeDemo.external_cfg) in
  lc_extRedis c = Some 3%nat /\ 3%nat ∈ lc_closed c /\ limiter c = Some 2%nat.
Proof. split_and!; [vm_compute; reflexivity| |vm_compute; reflexivity]. vm_compute. repeat constructor. Qed.

(** A start-up that fails after Redis is connected leaves the connection and the
    in-memory limiters open: the caller gets no chain to close. *)
Lemma failed_startup_leaks :
  exists p e, NewChain_settings (R := exact_rounding) LifeDemo.external_cfg = Ok p
    /\ (build_chain (R := exact_rounding) p (mkAttempts true true true true false true)).2 = Some e
    /\ field_part (lc_res (build_chain (R := exact_rounding) p (mkAttempts true true true true false true)).1) ≡ₚ [0; 1; 2]%nat.
Proof.
  destruct (NewChain_settings (R := exact_rounding) LifeDemo.external_cfg) as [p|e] eqn:E; [|vm_compute in E; discriminate].
  exists p, (errorf "external ratelimit client"). split; [done|]. vm_compute in E. injection E as <-.
  split; [vm_compute; reflexivity|]. vm_compute. solve_Permutation.
Qed.

(** The file with external limits, then one without them. *)
Lemma checks_are_permanent_witness :
  let c := LifeDemo.started LifeDemo.external_cfg in
  let c' := LifeDemo.after [EReload (LifeDemo.limited 10 0) LifeDemo.all_ok] c in
  external_enabled (cfg_of c') = false /\ checks_with FExternalRL c'.
Proof.
  intros c c'. split; [vm_compute; reflexivity|].
  apply (checks_are_permanent (R := exact_rounding) FExternalRL [EReload (LifeDemo.limited 10 0) LifeDemo.all_ok] c);
    [reflexivity|vm_compute; reflexivity|vm_compute; reflexivity|]. exists 4%nat. vm_compute. reflexivity.
Defined.
