(* ===== verification/Server.v ===== *)
(** * The server

    [internal/server/server.go]: construction, the TLS listeners and their
    certificate holders, reload and shutdown, on top of the chain ([Lifecycle])
    and the proxy ([Proxy]). Files are a function from paths to contents;
    parsing certificates and binding listeners are arguments. *)
From S2P Require Import Prelude GoStrings GoTime Float64 GoNet ConfigTypes Config Watcher AdminLimiter KeyStrategy UrlPolicy Bucket Chain Transport Proxy Settings Lifecycle.

Local Open Scope Z_scope.

(** ** Certificates *)

Section certificates.
Context {Cert Pool : Type}.
Variable X509KeyPair : string -> string -> option Cert.
Variable AppendCertsFromPEM : string -> option Pool.
(** [os.ReadFile]. *)
Implicit Types (files : string -> option string).

(** [tls.LoadX509KeyPair]. *)
Definition LoadX509KeyPair files (certFile keyFile : string) : option Cert :=
  c ← files certFile; k ← files keyFile; X509KeyPair c k.

(** [certHolder.Reload] and [clientCAHolder.Reload]: the value held, and whether
    the reload succeeded. *)
Definition certHolder_Reload files (certFile keyFile : string) (cur : option Cert) : option Cert * bool :=
  match LoadX509KeyPair files certFile keyFile with Some c => (Some c, true) | None => (cur, false) end.

Definition loadClientCAs files (path : string) : option Pool := d ← files path; AppendCertsFromPEM d.
Definition clientCAHolder_Reload files (path : string) (cur : option Pool) : option Pool * bool :=
  match loadClientCAs files path with Some p => (Some p, true) | None => (cur, false) end.
End certificates.

Inductive ClientAuthType := RequestClientCert | RequireAnyClientCert | RequireAndVerifyClientCert.

Definition mtlsClientAuth (mode : string) : ClientAuthType :=
  if bool_decide (mode = "request") then RequestClientCert
  else if bool_decide (mode = "require_any") then RequireAnyClientCert
  else RequireAndVerifyClientCert.

Definition VersionTLS12 : Z := 771.
Definition VersionTLS13 : Z := 772.
Definition tlsMinVersion (cfg : Config) : Z :=
  if bool_decide (st_MinVersion (sc_TLS (cfg_Server cfg)) = "1.3") then VersionTLS13 else VersionTLS12.

(** ** State *)

Section server.
Context `{R : Rounding}.
Context {Cert Pool : Type}.
Variable url_Parse : string -> result URL.
Variable ALPN : string -> option string.
Variable X509KeyPair : string -> string -> option Cert.
Variable AppendCertsFromPEM : string -> option Pool.

Record Server := mkServer {
  sv_cfg : Config;
  sv_chain : Lifecycle;
  sv_proxy : Proxy;                       (* the one the chain forwards to *)
  sv_health : HealthChecker;
  sv_certs : option (option Cert);        (* None: s.certs is nil *)
  sv_mtlsCAs : option (option Pool);
  sv_mtls : bool;                         (* mtlsServer != nil *)
  sv_http3 : bool                         (* http3Server != nil *)
}.

Definition redisHealthConfigured (c : Lifecycle) : bool :=
  (0 <? rs_Average (rl_Static (cfg_RateLimit (cfg_of c)))) || external_enabled (cfg_of c).

(** [redisPingerAdapter.Ping]; [ping]: the answer of the current client. *)
Definition redisPinger_Ping (c : Lifecycle) (ping : option error) : option error :=
  if negb (redisHealthConfigured c) then None
  else match limiter c with None => Some (errorf "rate-limit redis client is unavailable") | Some _ => ping end.

(** [New]; [a]: the connections the chain tries, [udp_ok] as in [buildTransports]. *)
Definition Server_New (cfg : Config) (a : attempts) (udp_ok : bool) : result Server :=
  rp ← buildProxy url_Parse ALPN cfg udp_ok;
  match NewChain cfg a with
  | Err e => Err (wrapf "create middleware chain" e)
  | Ok chain =>
      let tls := sc_TLS (cfg_Server cfg) in
      let timeout := match ParseDuration (sc_WriteTimeout (cfg_Server cfg)) (30 * Second) with Ok d => d | Err _ => 0 end in
      let chain' := with_pub (SetWriteTimeout timeout (lc_pub chain)) chain in
      Ok (mkServer cfg chain' rp (SetRedisPinger (redisHealthConfigured chain) NewHealthChecker) None None
            (mt_Enabled (st_MTLS tls)) (st_HTTP3Enabled tls))
  end.

(** ** Reload *)

Definition backendChanged (old new : Config) : bool :=
  negb (BackendConfig_Equal (cfg_Backend old) (cfg_Backend new))
  || negb (bool_decide (rs_BackendURL (rl_Static (cfg_RateLimit old)) = rs_BackendURL (rl_Static (cfg_RateLimit new))))
  || negb (bool_decide (rs_BackendURL (xr_Fallback (rl_External (cfg_RateLimit old)))
                        = rs_BackendURL (xr_Fallback (rl_External (cfg_RateLimit new))))).

Definition Server_Reload (files : string -> option string) (cfg : Config) (a : attempts) (udp_ok : bool) (s : Server)
    : Server * option error :=
  match Reload cfg a (sv_chain s) with
  | (chain, Some e) => (mkServer (sv_cfg s) chain (sv_proxy s) (sv_health s) (sv_certs s) (sv_mtlsCAs s) (sv_mtls s) (sv_http3 s), Some e)
  | (chain, None) =>
      let '(chain, rp) :=
        if backendChanged (sv_cfg s) cfg then
          match buildProxy url_Parse ALPN cfg udp_ok with Ok rp => (SwapProxy chain, rp) | Err _ => (chain, sv_proxy s) end
        else (chain, sv_proxy s) in
      let tls := sc_TLS (cfg_Server cfg) in
      let certs :=
        if negb (bool_decide (st_CertFile tls = "")) && negb (bool_decide (st_KeyFile tls = "")) then
          (fun cur => (certHolder_Reload X509KeyPair files (st_CertFile tls) (st_KeyFile tls) cur).1) <$> sv_certs s
        else sv_certs s in
      (mkServer cfg chain rp (sv_health s) certs (sv_mtlsCAs s) (sv_mtls s) (sv_http3 s), None)
  end.

Definition ReloadCerts (files : string -> option string) (certFile keyFile : string) (s : Server) : Server :=
  mkServer (sv_cfg s) (sv_chain s) (sv_proxy s) (sv_health s)
    ((fun cur => (certHolder_Reload X509KeyPair files certFile keyFile cur).1) <$> sv_certs s) (sv_mtlsCAs s) (sv_mtls s) (sv_http3 s).

Definition ReloadMTLSCA (files : string -> option string) (caFile : string) (s : Server) : Server :=
  mkServer (sv_cfg s) (sv_chain s) (sv_proxy s) (sv_health s) (sv_certs s)
    ((fun cur => (clientCAHolder_Reload AppendCertsFromPEM files caFile cur).1) <$> sv_mtlsCAs s) (sv_mtls s) (sv_http3 s).

(** ** Running *)

(** What [Run] does that can be observed, in order. *)
Inductive run_action :=
| RTelemetry | RStartListeners | RSetStarted | RSetReady | RSetNotReady
| RShutdownHTTP3 | RShutdownMain | RShutdownMTLS | RShutdownAdmin | RStopLimiter | RCloseChain | RFlushTelemetry.

Definition with_health (h : HealthChecker) (s : Server) : Server :=
  mkServer (sv_cfg s) (sv_chain s) (sv_proxy s) h (sv_certs s) (sv_mtlsCAs s) (sv_mtls s) (sv_http3 s).
Definition with_chain (c : Lifecycle) (s : Server) : Server :=
  mkServer (sv_cfg s) c (sv_proxy s) (sv_health s) (sv_certs s) (sv_mtlsCAs s) (sv_mtls s) (sv_http3 s).

(** The TLS part of [Run]: the certificate and, for mTLS, the client CAs must load. *)
Definition Run_tls (files : string -> option string) (s : Server) : result Server :=
  let tls := sc_TLS (cfg_Server (sv_cfg s)) in
  if negb (st_Enabled tls) then Ok s
  else
    match LoadX509KeyPair X509KeyPair files (st_CertFile tls) (st_KeyFile tls) with
    | None => Err (errorf "load TLS certificate")
    | Some c =>
        let with_certs cas := mkServer (sv_cfg s) (sv_chain s) (sv_proxy s) (sv_health s) (Some (Some c)) cas (sv_mtls s) (sv_http3 s) in
        if sv_mtls s then
          match loadClientCAs AppendCertsFromPEM files (mt_ClientCAFile (st_MTLS tls)) with
          | None => Err (errorf "read client CA file")
          | Some p => Ok (with_certs (Some (Some p)))
          end
        else Ok (with_certs (sv_mtlsCAs s))
    end.

Definition shutdown (s : Server) : Server * list run_action :=
  let s := with_health (SetNotReady (sv_health s)) s in
  let acts := [RSetNotReady] ++ (if sv_http3 s then [RShutdownHTTP3] else []) ++ [RShutdownMain]
              ++ (if sv_mtls s then [RShutdownMTLS] else []) ++ [RShutdownAdmin; RStopLimiter; RCloseChain; RFlushTelemetry] in
  (with_chain (Chain_Close (sv_chain s)) s, acts).

(** How a run can go: which of its channels is served first. [serving]: what happens
    to the chain and the health state while the server runs. *)
Inductive run_outcome := RBindFails (e : error) | RFails (e : error) (serving : Server -> Server) | RSignal (serving : Server -> Server).

Definition Run (files : string -> option string) (o : run_outcome) (s : Server) : Server * list run_action * option error :=
  match Run_tls files s with
  | Err e => (s, [RTelemetry], Some e)
  | Ok s =>
      let s := with_health (SetStarted (sv_health s)) s in
      let acts := [RTelemetry; RStartListeners; RSetStarted] in
      let ready := with_health (SetReady (sv_health s)) s in
      match o with
      | RBindFails e => (s, acts, Some e)
      | RFails e serving => (serving ready, acts ++ [RSetReady], Some e)
      | RSignal serving => let '(s, l) := shutdown (serving ready) in (s, acts ++ [RSetReady] ++ l, None)
      end
  end.
End server.

(** ** Handlers *)

(** [otelhttp] filters: whether a request is traced. *)
Definition skipCORSPreflight (r : Request) : bool :=
  negb (bool_decide (Method r = "OPTIONS")) || bool_decide (Header_Get (ReqHeader r) "Origin" = "")
  || bool_decide (Header_Get (ReqHeader r) "Access-Control-Request-Method" = "").
Definition skipStreaming (r : Request) : bool := negb (IsSSE r) && negb (IsWebSocketUpgrade r) && negb (IsGRPC r).

(** The response header the main handler adds before the chain runs; [quic]: what
    [SetQUICHeaders] would set. *)
Definition advertise_h3 (cfg : Config) (quic : option string) (r : Request) (h : Header) : Header :=
  let tls := sc_TLS (cfg_Server cfg) in
  if st_HTTP3Enabled tls && (ProtoMajor r <? 3) then
    if 0 <? st_HTTP3AdvertisePort tls
    then Header_Set h "Alt-Svc"
           ("h3=" +:+ String dquote ":" +:+ Itoa (st_HTTP3AdvertisePort tls) +:+ String dquote "; ma=2592000")
    else match quic with Some v => Header_Add h "Alt-Svc" v | None => h end
  else h.
