(* ===== verification/ServerProps.v ===== *)
(** * The server: theorems

    Reloading a running server ([Server]) with the configurations the watchers
    of [Watcher] deliver: that it succeeds, which settings reach the proxy, what
    certificate is served; and the order of start-up and shutdown. *)
From S2P Require Import Prelude GoStrings GoTime Float64 GoNet ConfigTypes Config Watcher AdminLimiter KeyStrategy UrlPolicy Bucket Chain Transport Proxy Settings Lifecycle Server.

Local Open Scope Z_scope.

(** ** What a reload does to the proxy *)

(** The settings of [buildProxy] that [backendChanged] does not look at. *)
Definition unwatched (cfg : Config) :=
  let s := cfg_Server cfg in
  (external_enabled cfg, sc_MaxWebSocketConnsPerKey s, sc_MaxWebSocketTransferBytes s, sc_WebSocketIdleTimeout s,
   sc_AllowedWebSocketOrigins s).

Lemma backendChanged_false old new :
  backendChanged old new = false ->
  BackendConfig_Equal (cfg_Backend old) (cfg_Backend new) = true
  /\ rs_BackendURL (rl_Static (cfg_RateLimit old)) = rs_BackendURL (rl_Static (cfg_RateLimit new))
  /\ rs_BackendURL (xr_Fallback (rl_External (cfg_RateLimit old))) = rs_BackendURL (xr_Fallback (rl_External (cfg_RateLimit new))).
Proof. unfold backendChanged. intros H. bools. done. Qed.

Section proxies.
Context `{R : Rounding} {Cert Pool : Type}.
Variable url_Parse : string -> result URL.
Variable ALPN : string -> option string.
Variable X509KeyPair : string -> string -> option Cert.
Abbreviation Server := (Server (Cert := Cert) (Pool := Pool)).
Abbreviation Server_Reload := (Server_Reload (Pool := Pool) url_Parse ALPN X509KeyPair).
Abbreviation buildProxy := (buildProxy url_Parse ALPN).
Implicit Types (s : Server) (files : string -> option string).

(** When the proxy may stay. If [backendChanged] sees no difference and the
    operating mode and the WebSocket settings are the same too, a proxy built
    from the new file is the one that is running: leaving it in place is what a
    restart would give. *)
Theorem unchanged_proxy_is_current old new udp :
  backendChanged old new = false -> unwatched old = unwatched new -> buildProxy new udp = buildProxy old udp.
Proof.
  intros (Hb & Hs & Hf)%backendChanged_false. unfold unwatched, external_enabled. intros [= E1 E2 E3 E4 E5].
  apply BackendConfig_Equal_spec in Hb as (B1 & B2 & B3 & B4 & B5 & B6 & B7 & _).
  unfold Proxy.buildProxy. by rewrite B1, B2, B3, B4, B5, B6, B7, Hs, Hf, E1, E2, E3, E4, E5.
Qed.

Lemma Server_Reload_proxy files cfg a udp s s' :
  Server_Reload files cfg a udp s = (s', None) -> backendChanged (sv_cfg s) cfg = false -> sv_proxy s' = sv_proxy s.
Proof.
  unfold Server.Server_Reload. destruct (Reload cfg a (sv_chain s)) as [c [e|]]; [done|]. intros Hr Hb. rewrite Hb in Hr.
  by injection Hr as <-.
Qed.

Lemma buildProxy_deny cfg udp p :
  buildProxy cfg udp = Ok p ->
  px_denyPrivateNetworks p = DenyPrivateNetworksEnabled (bc_URLPolicy (cfg_Backend cfg)) && external_enabled cfg.
Proof.
  unfold Proxy.buildProxy, New. destruct (if bool_decide (_ = "") then _ else _) as [t|e]; [|done]. cbn.
  destruct (ValidateBackendProtocol _); [done|]. by intros [= <-].
Qed.

(** Switching to external limits leaves the dialer unguarded. A server started
    with static limits builds its proxy without the connect-time check for
    private addresses. When a reload turns the external service on (whose
    answers choose the backends) and the backend section is the same, the old
    proxy stays, without the check that a restart with the same file has. *)
Theorem mode_switch_unguarded files cfg a udp udp' s s' p :
  buildProxy (sv_cfg s) udp = Ok (sv_proxy s) -> external_enabled (sv_cfg s) = false ->
  Server_Reload files cfg a udp' s = (s', None) -> backendChanged (sv_cfg s) cfg = false ->
  external_enabled cfg = true -> DenyPrivateNetworksEnabled (bc_URLPolicy (cfg_Backend cfg)) = true ->
  buildProxy cfg udp' = Ok p ->
  px_denyPrivateNetworks (sv_proxy s') = false /\ px_denyPrivateNetworks p = true.
Proof.
  intros Hs He Hr Hb He' Hd Hp. rewrite (Server_Reload_proxy _ _ _ _ _ _ Hr Hb).
  apply buildProxy_deny in Hs, Hp. by rewrite Hs, Hp, He, He', Hd, andb_false_r.
Qed.
End proxies.

(** ** Reloads the watcher triggers succeed *)

Section reloads.
Context `{R : Rounding} {Cert Pool : Type}.
Variable url_Parse : string -> result URL.
Variable URL_String : URL -> string.
Variable ALPN : string -> option string.
Variable X509KeyPair : string -> string -> option Cert.
Variable sha256 : string -> string.
Variable Unmarshal : string -> Config -> result Config.
Variable ParseEnv : Config -> result Config.

Lemma Reload_settings_total cfg p :
  valid_config cfg -> proxies_parse (static_key cfg) -> proxies_parse (fallback_key cfg) -> (Reload_settings cfg p).2 = None.
Proof.
  intros Hv Hp1 Hp2. pose proof (NewKeyStrategy_ok _ (vc_key _ Hv) Hp1) as Hk. fold (static_key cfg) in Hk.
  unfold Reload_settings. destruct (NewKeyStrategy (static_key cfg)); [|done].
  destruct (external_enabled cfg) eqn:He; [|done].
  apply (vc_external _ Hv) in He as (_ & _ & Hkf & _). pose proof (NewKeyStrategy_ok _ Hkf Hp2) as Hk2. fold (fallback_key cfg) in Hk2.
  by destruct (NewKeyStrategy (fallback_key cfg)).
Qed.

Lemma Reload_settings_cfg cfg p : (Reload_settings cfg p).2 = None -> pb_cfg (Reload_settings cfg p).1 = cfg.
Proof.
  unfold Reload_settings. destruct (NewKeyStrategy (static_key cfg)); [|done]. destruct (external_enabled cfg); [|done].
  by destruct (NewKeyStrategy (fallback_key cfg)).
Qed.

Lemma reload_limiters_pub cfg p c : lc_pub (reload_limiters cfg p c) = p.
Proof. unfold reload_limiters. by destruct (external_enabled cfg). Qed.

Lemma reloadExternalRL_pub cfg a c : lc_pub (reloadExternalRL cfg a c) = lc_pub c.
Proof.
  unfold reloadExternalRL, resolveCacheRedis, releaseCacheRedis. destruct (negb _); [done|].
  destruct (lc_cacheRedisOwned c); cbn; destruct (dedicated_cache cfg && _); cbn; destruct (at_ext a); try done;
    unfold limiter; cbn; by destruct (lc_res c !! FLimiter).
Qed.

Lemma Reload_cfg cfg a c : (Reload cfg a c).2 = None -> cfg_of (Reload cfg a c).1 = cfg.
Proof.
  unfold Reload. pose proof (Reload_settings_cfg cfg (lc_pub c)) as Hc.
  destruct (Reload_settings cfg (lc_pub c)) as [p [e|]]; [done|]. intros _. cbn [fst].
  transitivity (pb_cfg p); [|by apply Hc].
  pose proof (reload_limiters_pub cfg p c) as E1. revert E1. generalize (reload_limiters cfg p c). intros c1 E1.
  pose proof (reloadExternalRL_pub cfg a c1) as E2. revert E2. generalize (reloadExternalRL cfg a c1). intros c2 E2.
  assert (lc_pub (reloadAuth (cfg_of c) cfg a c2) = p) as E3.
  { unfold reloadAuth. destruct (_ || _); [congruence|]. destruct (at_auth a); cbn; congruence. }
  revert E3. generalize (reloadAuth (cfg_of c) cfg a c2). intros c3 E3.
  unfold cfg_of, reload_emitter. by destruct (pb_emitter p); cbn; rewrite E3.
Qed.

(** From file to server. Whatever happens to the configuration file, and in
    whatever order its changes meet the loop of the watcher: every configuration
    the watcher hands over is put in force by the server without an error,
    provided its trusted proxy ranges parse, which validation does not check. *)
Theorem watched_reload_succeeds es cfg0 seen f ws c files a udp (s : Server (Cert := Cert) (Pool := Pool)) :
  wrun sha256 Unmarshal ParseEnv url_Parse URL_String es (watcher_start sha256 cfg0 seen f) = Some ws ->
  c ∈ w_published (ws_w ws) -> proxies_parse (static_key c) -> proxies_parse (fallback_key c) ->
  let '(s', err) := Server_Reload url_Parse ALPN X509KeyPair files c a udp s in
  err = None /\ sv_cfg s' = c /\ cfg_of (sv_chain s') = c.
Proof.
  intros Hr Hc Hp1 Hp2. apply start_published in Hr as [_ H]. rewrite Forall_forall in H. destruct (H c Hc) as [Hv _].
  pose proof (Reload_settings_total c (lc_pub (sv_chain s)) Hv Hp1 Hp2) as Ht.
  pose proof (Reload_cfg c a (sv_chain s)) as Hg. unfold Server_Reload.
  assert ((Reload c a (sv_chain s)).2 = None) as Hn by (unfold Reload; by destruct (Reload_settings c _) as [? [|]]).
  destruct (Reload c a (sv_chain s)) as [chain [e|]]; [done|]. specialize (Hg eq_refl).
  destruct (backendChanged (sv_cfg s) c); [destruct (buildProxy url_Parse ALPN c udp)|]; done.
Qed.
End reloads.

(** ** Certificates *)

Section certificates.
Context {Cert Pool : Type}.
Variable X509KeyPair : string -> string -> option Cert.
Variable sha256 : string -> string.
Abbreviation Server := (Server (Cert := Cert) (Pool := Pool)).
Implicit Types (s : Server).

(** One tick of the certificate watcher of [main]: the files and the link as they
    are, the watcher and the server. *)
Definition cert_round (certFile keyFile : string) (files : string -> option string) (link : string) (cs : CertWatcher * Server)
    : CertWatcher * Server :=
  let '(cw, fired) := cert_tick sha256 (mkCertFS (files certFile) (files keyFile) link) cs.1 in
  (cw, if fired : bool then ReloadCerts X509KeyPair files certFile keyFile cs.2 else cs.2).

Definition cert_rounds (certFile keyFile : string) (hist : list ((string -> option string) * string)) (cs : CertWatcher * Server)
    : CertWatcher * Server :=
  foldl (fun cs h => cert_round certFile keyFile h.1 h.2 cs) cs hist.

Hypothesis sha256_inj : forall a b, sha256 a = sha256 b -> a = b.
Hypothesis sha256_nonempty : forall a, sha256 a <> "".

(** The hashes are those of a pair of contents, whose certificate is the one that
    is served if they have one. *)
Definition cert_tracked (certFile keyFile : string) (cs : CertWatcher * Server) : Prop :=
  exists files, lastCertHash cs.1 = hashFile sha256 (files certFile) /\ lastKeyHash cs.1 = hashFile sha256 (files keyFile)
    /\ sv_certs cs.2 <> None
    /\ (forall c, LoadX509KeyPair X509KeyPair files certFile keyFile = Some c -> sv_certs cs.2 = Some (Some c)).

Lemma cert_round_tracked certFile keyFile files link cs :
  cert_tracked certFile keyFile cs ->
  let cs' := cert_round certFile keyFile files link cs in
  cert_tracked certFile keyFile cs'
  /\ (forall c, LoadX509KeyPair X509KeyPair files certFile keyFile = Some c -> sv_certs cs'.2 = Some (Some c)).
Proof.
  intros (f0 & H1 & H2 & H3 & H4). destruct cs as [cw s]. cbn in *. unfold cert_round. cbn.
  set (cf := mkCertFS (files certFile) (files keyFile) link).
  pose proof (cert_tick_seen sha256 cf cw) as [S1 S2]. pose proof (cert_tick_silent sha256 cf cw) as Hs.
  destruct (cert_tick sha256 cf cw) as [cw' []]; cbn in *.
  - assert (forall c, LoadX509KeyPair X509KeyPair files certFile keyFile = Some c ->
      sv_certs (ReloadCerts X509KeyPair files certFile keyFile s) = Some (Some c)) as Hl.
    { intros c Hc. unfold ReloadCerts, certHolder_Reload. cbn. destruct (sv_certs s); [|done]. cbn. by rewrite Hc. }
    split; [|exact Hl]. exists files. split_and!; [done|done| |exact Hl]. cbn. by destruct (sv_certs s).
  - destruct (Hs eq_refl) as [E1 E2]. cbn in E1, E2.
    assert (files certFile = f0 certFile) as F1 by (apply (hashFile_inj sha256 sha256_inj sha256_nonempty); congruence).
    assert (files keyFile = f0 keyFile) as F2 by (apply (hashFile_inj sha256 sha256_inj sha256_nonempty); congruence).
    assert (LoadX509KeyPair X509KeyPair files certFile keyFile = LoadX509KeyPair X509KeyPair f0 certFile keyFile) as El
      by (unfold LoadX509KeyPair; by rewrite F1, F2).
    split; [|intros c; rewrite El; apply H4]. exists files. rewrite El. done.
Qed.

End certificates.

(** ** Start-up and shutdown *)

(** Position of the first occurrence. *)
Fixpoint position (p : run_action -> bool) (l : list run_action) : option nat :=
  match l with [] => None | x :: l => if p x then Some 0%nat else S <$> position p l end.
Definition stops_listener (x : run_action) : bool :=
  match x with RShutdownHTTP3 | RShutdownMain | RShutdownMTLS | RShutdownAdmin => true | _ => false end.
Definition is_close (x : run_action) : bool := match x with RCloseChain => true | _ => false end.
Definition is_not_ready (x : run_action) : bool := match x with RSetNotReady => true | _ => false end.

(** A run that a signal ends: the service reports not ready before a listener
    stops, no listener stops after the chain has been closed, and the chain is
    closed. A run that an error ends does not shut down at all: the chain stays
    open, and readiness as it was. *)
Lemma Run_shutdown {Cert Pool} X509KeyPair AppendCertsFromPEM files o (s s' : Server (Cert := Cert) (Pool := Pool)) acts err :
  Run X509KeyPair AppendCertsFromPEM files o s = (s', acts, err) ->
  match err with
  | None =>
      h_ready (sv_health s') = false /\ lc_ctxDone (sv_chain s') = true
      /\ (exists i j k, position is_not_ready acts = Some i /\ position stops_listener acts = Some j /\ position is_close acts = Some k
          /\ (i < j < k)%nat /\ forallb (fun x => negb (stops_listener x)) (drop k acts) = true)
  | Some _ => existsb is_close acts = false /\ existsb is_not_ready acts = false
  end.
Proof.
  unfold Run. destruct (Run_tls _ _ files s) as [s1|e]; [|by intros [= <- <- <-]].
  destruct o as [e|e serving|serving]; [by intros [= <- <- <-]..|].
  unfold shutdown. set (s2 := serving _). intros [= <- <- <-]. split; [done|]. split.
  - unfold with_chain. cbn. unfold Chain_Close, closeResources, releaseCacheRedis. cbn. by destruct (lc_cacheRedisOwned _).
  - cbn. destruct (sv_http3 s2), (sv_mtls s2); cbn; do 3 eexists; (split_and!; solve [done|lia]).
Qed.

(** ** Concrete servers *)

Module ServerDemo.
Definition x509 (c k : string) : option string := if bool_decide (c = k) then Some c else None.
Definition pem (d : string) : option string := Some d.
Definition alpn (addr : string) : option string := None.

(** The same file with the external service off and on, and with certificates. *)
Definition file (external : bool) (cert : string) : Config :=
  let rl := cfg_RateLimit LifeDemo.external_cfg in
  let e := rl_External rl in
  let s := cfg_Server LifeDemo.external_cfg in
  set_cfg_Server (set_sc_TLS (mkServerTLSConfig true cert cert false 0 "" (mkMTLSConfig false "" "" "")) s)
    (set_cfg_RateLimit (set_rl_External (mkExternalRLConfig external (xr_Timeout e) (xr_FailurePolicy e) (xr_HTTPURL e)
       (xr_GRPC e) (xr_HeaderFilter e) (xr_Fallback e) 0 0 "" no_breaker) rl) LifeDemo.external_cfg).
Definition files (path : string) : option string := Some path.
Definition no_server : Server (Cert := string) (Pool := string) :=
  mkServer Defaults LifeDemo.blank
    (mkProxy None (mkTransportSet false true false false 0 0 0 0) (mkPAT H1 false "h1") false false 0 None 0 0 0 ∅)
    NewHealthChecker None None false false.
Definition ok_server (r : result (Server (Cert := string) (Pool := string))) := match r with Ok s => s | Err _ => no_server end.
(** A server on certificate file "a", running. *)
Definition started (external : bool) : Server :=
  ok_server (s ← Server_New (R := exact_rounding) sample_parse alpn (file external "a") LifeDemo.all_ok true; Run_tls x509 pem files s).
Definition reload (cfg : Config) (s : Server) : Server * option error :=
  Server_Reload (R := exact_rounding) (Pool := string) sample_parse alpn x509 files cfg LifeDemo.all_ok true s.
Definition fresh_proxy (cfg : Config) : Proxy :=
  match buildProxy sample_parse alpn cfg true with Ok p => p | Err _ => sv_proxy no_server end.
Definition switched : Server := (reload (file true "a") (started false)).1.
End ServerDemo.

Lemma unchanged_proxy_is_current_witness :
  buildProxy sample_parse ServerDemo.alpn (ServerDemo.file true "b") true = buildProxy sample_parse ServerDemo.alpn (ServerDemo.file true "a") true.
Proof. apply (unchanged_proxy_is_current sample_parse ServerDemo.alpn (ServerDemo.file true "a")); vm_compute; reflexivity. Defined.

Lemma mode_switch_unguarded_witness :
  px_denyPrivateNetworks (sv_proxy ServerDemo.switched) = false
  /\ px_denyPrivateNetworks (ServerDemo.fresh_proxy (ServerDemo.file true "a")) = true.
Proof.
  apply (mode_switch_unguarded (R := exact_rounding) (Pool := string) sample_parse ServerDemo.alpn ServerDemo.x509 ServerDemo.files
    (ServerDemo.file true "a") LifeDemo.all_ok true true (ServerDemo.started false)); vm_compute; reflexivity.
Defined.


Lemma watched_reload_succeeds_witness :
  exists s', ServerDemo.reload (WatchDemo.loaded "xxx") (ServerDemo.started false) = (s', None) /\ sv_cfg s' = WatchDemo.loaded "xxx".
Proof.
  unfold ServerDemo.reload. pose proof (watched_reload_succeeds (R := exact_rounding) (Pool := string) sample_parse sample_string ServerDemo.alpn ServerDemo.x509
    WatchDemo.sha WatchDemo.Unmarshal WatchDemo.ParseEnv (WatchDemo.edits ++ [WFire (30 + debounce); WSnap]) (WatchDemo.loaded "x")
    (Some "x") (WatchDemo.file "x") (WatchDemo.at_ (WatchDemo.edits ++ [WFire (30 + debounce); WSnap])) (WatchDemo.loaded "xxx")
    ServerDemo.files LifeDemo.all_ok true (ServerDemo.started false)) as H.
  destruct (Server_Reload _ _ _ _ _ _ _ _) as [s' err]. exists s'.
  destruct H as (-> & H & _); [vm_compute; reflexivity|vm_compute; constructor|apply proxies_nil; vm_compute; reflexivity..|].
  split; [reflexivity|exact H].
Defined.

(** A reload moves the certificate from file "a" to file "b"; the watcher still
    polls "a", and the next change of "a" puts its certificate back in force. *)
Lemma watcher_reverts_certificate :
  let s := (ServerDemo.reload (ServerDemo.file true "b") (ServerDemo.started true)).1 in
  let files (p : string) := Some (p +:+ "2") in
  sv_certs s = Some (Some "b") /\ st_CertFile (sc_TLS (cfg_Server (sv_cfg s))) = "b"
  /\ sv_certs (cert_round ServerDemo.x509 WatchDemo.sha "a" "a" files "" (cert_start WatchDemo.sha (mkCertFS (Some "a") (Some "a") ""), s)).2
     = Some (Some "a2").
Proof. split_and!; vm_compute; reflexivity. Qed.

