(* ===== verification/Listeners.v ===== *)
(** * The goroutines of [Server.Run]

    The listeners of [internal/server/server.go] and the two selects of [Run] as a
    step relation: up to four goroutines ([startAdminServer],
    [startMainServerWithReady], [startMTLSServer], [startHTTP3Server]) that bind,
    serve and report over the channel of capacity four, the goroutine of [Run]
    that waits for the main listener, marks the server ready and shuts down, and
    the signal. [Server.Run] is the sequential view of it; a completed run of the
    goroutines is one of its outcomes. *)
From S2P Require Import Prelude GoStrings GoTime Float64 GoNet ConfigTypes Config AdminLimiter Chain Transport Proxy Settings Lifecycle Server ServerProps.

Local Open Scope Z_scope.

(** ** Server parameters *)

(** The fields of [http.Server] and [http3.Server] the code sets; timeouts in
    nanoseconds. *)
Record http_server := mkHTTPServer {
  hs_Addr : string;
  hs_ReadTimeout : Z;
  hs_WriteTimeout : Z;         (* 0: none *)
  hs_IdleTimeout : Z;
  hs_ReadHeaderTimeout : Z;
  hs_MaxHeaderBytes : Z;
  hs_HTTP1 : bool;             (* Protocols; the default of net/http when TLS is on *)
  hs_UnencryptedHTTP2 : bool
}.

Record http3_server := mkHTTP3Server {
  h3_Addr : string;
  h3_MaxHeaderBytes : Z;
  h3_IdleTimeout : Z;
  h3_MaxIdleTimeout : Z;
  h3_Allow0RTT : bool
}.

(** [d, _ := config.ParseDuration(s, fallback)]. *)
Definition duration_of (s : string) (fallback : Z) : Z := match ParseDuration s fallback with Ok d => d | Err _ => 0 end.

Definition buildMainServer (cfg : Config) : http_server * option http3_server :=
  let s := cfg_Server cfg in
  let readTimeout := duration_of (sc_ReadTimeout s) (30 * Second) in
  let idleTimeout := duration_of (sc_IdleTimeout s) (120 * Second) in
  let h3 := if st_HTTP3Enabled (sc_TLS s) then Some (mkHTTP3Server (sc_Address s) (2 ^ 20) idleTimeout idleTimeout false) else None in
  (mkHTTPServer (sc_Address s) readTimeout 0 idleTimeout (10 * Second) (2 ^ 20) true (negb (st_Enabled (sc_TLS s))), h3).

Definition buildMTLSServer (cfg : Config) : http_server :=
  let s := cfg_Server cfg in
  mkHTTPServer (mt_ListenAddr (st_MTLS (sc_TLS s))) (duration_of (sc_ReadTimeout s) (30 * Second)) 0
    (duration_of (sc_IdleTimeout s) (120 * Second)) (10 * Second) (2 ^ 20) true false.

(** The server part of [buildAdminServer]; its handler is [AdminLimiter] over the
    routes of [Admin]. *)
Definition admin_server (cfg : Config) : http_server :=
  let a := cfg_Admin cfg in
  mkHTTPServer (ac_Address a) (duration_of (ac_ReadTimeout a) (5 * Second)) (duration_of (ac_WriteTimeout a) (10 * Second))
    (duration_of (ac_IdleTimeout a) (30 * Second)) (5 * Second) (2 ^ 20) true false.

(** [underHTTPServerContext]: whether [http.ServerContextKey] is on the context the
    handlers see. *)
Definition underHTTPServerContext (has_key : bool) : bool := if has_key then has_key else true.

(** ** Goroutines *)

Inductive listener := LAdmin | LMain | LMTLS | LHTTP3.
#[global] Instance listener_eq_dec : EqDecision listener.
Proof. solve_decision. Defined.

(** Before the bind, serving, about to send on [errCh], returned. *)
Inductive gphase := GStarting | GServing | GSending (e : error) | GReturned.

(** [Run]: the goroutines are started; it waits for the main listener, for the
    end; [RunClosing]: inside [shutdown] with the servers still to shut down;
    returned. *)
Inductive rphase := RunStarted | RunFirst | RunSecond | RunClosing (todo : list listener) | RunReturned (err : option error).

Record net := mkNet {
  nt_admin : gphase; nt_main : gphase; nt_mtls : gphase; nt_h3 : gphase;
  nt_errCh : list error;
  nt_readyCh : bool;
  nt_ctx : bool;               (* ctx.Done() *)
  nt_run : rphase;
  nt_health : HealthChecker;
  nt_shut : list listener      (* Shutdown was called *)
}.

Definition phase_of (l : listener) (n : net) : gphase :=
  match l with LAdmin => nt_admin n | LMain => nt_main n | LMTLS => nt_mtls n | LHTTP3 => nt_h3 n end.

Definition set_phase_of (l : listener) (p : gphase) (n : net) : net :=
  let 'mkNet a m t h ec rc cx r he sh := n in
  match l with
  | LAdmin => mkNet p m t h ec rc cx r he sh
  | LMain => mkNet a p t h ec rc cx r he sh
  | LMTLS => mkNet a m p h ec rc cx r he sh
  | LHTTP3 => mkNet a m t p ec rc cx r he sh
  end.

Definition set_errCh (l : list error) (n : net) : net :=
  mkNet (nt_admin n) (nt_main n) (nt_mtls n) (nt_h3 n) l (nt_readyCh n) (nt_ctx n) (nt_run n) (nt_health n) (nt_shut n).
Definition set_run (r : rphase) (h : HealthChecker) (n : net) : net :=
  mkNet (nt_admin n) (nt_main n) (nt_mtls n) (nt_h3 n) (nt_errCh n) (nt_readyCh n) (nt_ctx n) r h (nt_shut n).
Definition close_ready (n : net) : net :=
  mkNet (nt_admin n) (nt_main n) (nt_mtls n) (nt_h3 n) (nt_errCh n) true (nt_ctx n) (nt_run n) (nt_health n) (nt_shut n).
Definition cancel_ctx (n : net) : net :=
  mkNet (nt_admin n) (nt_main n) (nt_mtls n) (nt_h3 n) (nt_errCh n) (nt_readyCh n) true (nt_run n) (nt_health n) (nt_shut n).
Definition mark_shut (l : listener) (n : net) : net :=
  mkNet (nt_admin n) (nt_main n) (nt_mtls n) (nt_h3 n) (nt_errCh n) (nt_readyCh n) (nt_ctx n) (nt_run n) (nt_health n) (l :: nt_shut n).

(** [make(chan error, 4)]. *)
Definition errCh_cap : nat := 4.

Definition listen_error (l : listener) (e : error) : error :=
  match l with
  | LAdmin => wrapf "admin server" e
  | LMain => wrapf "proxy server listen" e
  | LMTLS => wrapf "mTLS server listen" e
  | LHTTP3 => wrapf "HTTP/3 server" e
  end.
Definition serve_error (l : listener) (e : error) : error :=
  match l with
  | LAdmin => wrapf "admin server" e
  | LMain => wrapf "proxy server" e
  | LMTLS => wrapf "mTLS server" e
  | LHTTP3 => wrapf "HTTP/3 server" e
  end.

(** What can happen next. A bind fails or succeeds; a server that was shut down
    stops with [ErrServerClosed], any other error is its own. *)
Inductive net_event :=
| NBind (l : listener) (err : option error)
| NServeFails (l : listener) (e : error)
| NServerClosed (l : listener)
| NSend (l : listener)
| NSignal
| NStarted
| NReady
| NReceive
| NDrain
| NShutdown.

(** The servers [shutdown] shuts down, in order. *)
Definition shutdown_order (mtls http3 : bool) : list listener :=
  (if http3 then [LHTTP3] else []) ++ [LMain] ++ (if mtls then [LMTLS] else []) ++ [LAdmin].

Section run.
Variables mtls http3 : bool.

Definition nstep (n : net) (ev : net_event) : option net :=
  match ev with
  | NBind l err =>
      match phase_of l n with
      | GStarting =>
          match err with
          | Some e => Some (set_phase_of l (GSending (listen_error l e)) n)
          | None => Some (set_phase_of l GServing (if bool_decide (l = LMain) then close_ready n else n))
          end
      | _ => None
      end
  | NServeFails l e =>
      match phase_of l n with GServing => Some (set_phase_of l (GSending (serve_error l e)) n) | _ => None end
  | NServerClosed l =>
      match phase_of l n with
      | GStarting | GServing => if bool_decide (l ∈ nt_shut n) then Some (set_phase_of l GReturned n) else None
      | _ => None
      end
  | NSend l =>
      match phase_of l n with
      | GSending e => if bool_decide (length (nt_errCh n) < errCh_cap)%nat then Some (set_phase_of l GReturned (set_errCh (nt_errCh n ++ [e]) n)) else None
      | _ => None
      end
  | NSignal => if nt_ctx n then None else Some (cancel_ctx n)
  | NStarted => match nt_run n with RunStarted => Some (set_run RunFirst (SetStarted (nt_health n)) n) | _ => None end
  | NReady =>
      match nt_run n with
      | RunFirst => if nt_readyCh n then Some (set_run RunSecond (SetReady (nt_health n)) n) else None
      | _ => None
      end
  | NReceive =>
      match nt_run n, nt_errCh n with
      | RunFirst, e :: rest | RunSecond, e :: rest => Some (set_run (RunReturned (Some e)) (nt_health n) (set_errCh rest n))
      | _, _ => None
      end
  | NDrain =>
      match nt_run n with
      | RunSecond => if nt_ctx n then Some (set_run (RunClosing (shutdown_order mtls http3)) (SetNotReady (nt_health n)) n) else None
      | _ => None
      end
  | NShutdown =>
      match nt_run n with
      | RunClosing (l :: todo) => Some (set_run (RunClosing todo) (nt_health n) (mark_shut l n))
      | RunClosing [] => Some (set_run (RunReturned None) (nt_health n) n)
      | _ => None
      end
  end.

Definition nrun (n : net) (evs : list net_event) : option net := foldl (fun o ev => o ≫= fun n => nstep n ev) (Some n) evs.

(** After the go statements; a listener that is not configured has no goroutine. *)
Definition nstart (h : HealthChecker) : net :=
  mkNet GStarting GStarting (if mtls then GStarting else GReturned) (if http3 then GStarting else GReturned)
    [] false false RunStarted h [].
End run.

(** ** Invariant *)

Definition live1 (p : gphase) : nat := match p with GReturned => 0 | _ => 1 end.
(** Goroutines that may still send. *)
Definition live (n : net) : nat := live1 (nt_admin n) + live1 (nt_main n) + live1 (nt_mtls n) + live1 (nt_h3 n).

(** An error some listener of the run had. *)
Definition reported (evs : list net_event) (e : error) : Prop :=
  exists l e0, NBind l (Some e0) ∈ evs /\ e = listen_error l e0 \/ NServeFails l e0 ∈ evs /\ e = serve_error l e0.

(** What [Run] has done to the health state and to the servers. *)
Definition run_ok (mtls http3 : bool) (h : HealthChecker) (n : net) : Prop :=
  match nt_run n with
  | RunStarted => nt_health n = h /\ nt_shut n = []
  | RunFirst => nt_health n = SetStarted h /\ nt_shut n = []
  | RunSecond => nt_health n = SetReady (SetStarted h) /\ nt_shut n = [] /\ nt_readyCh n = true
  | RunClosing todo =>
      nt_health n = SetNotReady (SetReady (SetStarted h)) /\ rev (nt_shut n) ++ todo = shutdown_order mtls http3
      /\ nt_readyCh n = true /\ nt_ctx n = true
  | RunReturned (Some e) =>
      nt_shut n = [] /\ (nt_health n = SetStarted h \/ nt_health n = SetReady (SetStarted h) /\ nt_readyCh n = true)
  | RunReturned None =>
      nt_health n = SetNotReady (SetReady (SetStarted h)) /\ rev (nt_shut n) = shutdown_order mtls http3 /\ nt_readyCh n = true /\ nt_ctx n = true
  end.

Record net_ok (mtls http3 : bool) (h : HealthChecker) (evs : list net_event) (n : net) : Prop := {
  ok_room : (length (nt_errCh n) + live n <= errCh_cap)%nat;
  ok_reports : forall e, e ∈ nt_errCh n \/ (exists l, phase_of l n = GSending e) \/ nt_run n = RunReturned (Some e) -> reported evs e;
  ok_bound : nt_readyCh n = true -> NBind LMain None ∈ evs /\ nt_main n <> GStarting;
  ok_main : nt_main n = GServing -> nt_readyCh n = true;
  ok_failed : nt_run n = RunStarted \/ nt_run n = RunFirst -> nt_readyCh n = false -> nt_main n = GReturned -> nt_errCh n <> [];
  ok_signal : nt_ctx n = true -> NSignal ∈ evs;
  ok_absent : (mtls = false -> nt_mtls n = GReturned) /\ (http3 = false -> nt_h3 n = GReturned);
  ok_run : run_ok mtls http3 h n
}.

Lemma reported_mono evs ev e : reported evs e -> reported (evs ++ [ev]) e.
Proof. intros (l & e0 & [[H ->]|[H ->]]); exists l, e0; [left|right]; split; set_solver. Qed.

Lemma phase_set_eq l p n : phase_of l (set_phase_of l p n) = p.
Proof. by destruct n, l. Qed.
Lemma phase_set_ne l k p n : l <> k -> phase_of k (set_phase_of l p n) = phase_of k n.
Proof. by destruct n, l, k. Qed.

Lemma live_set l p n : (live (set_phase_of l p n) + live1 (phase_of l n) = live n + live1 p)%nat.
Proof. destruct n, l; unfold live; cbn; lia. Qed.

Lemma set_phase_frame l p n :
  nt_errCh (set_phase_of l p n) = nt_errCh n /\ nt_readyCh (set_phase_of l p n) = nt_readyCh n
  /\ nt_ctx (set_phase_of l p n) = nt_ctx n /\ nt_run (set_phase_of l p n) = nt_run n
  /\ nt_health (set_phase_of l p n) = nt_health n /\ nt_shut (set_phase_of l p n) = nt_shut n
  /\ nt_main (set_phase_of l p n) = (if decide (l = LMain) then p else nt_main n).
Proof. by destruct n, l. Qed.

Section preserved.
Variables mtls http3 : bool.
Variable h : HealthChecker.

(** A longer history keeps the invariant. *)
Lemma ok_later evs ev n : net_ok mtls http3 h evs n -> net_ok mtls http3 h (evs ++ [ev]) n.
Proof.
  intros [H1 H2 H3 H4 H5 H6 H8 H7]. split; try done; [..|set_solver].
  - intros e He. by apply reported_mono, H2.
  - intros Hr. destruct (H3 Hr). set_solver.
Qed.

Definition absent (n : net) : Prop := (mtls = false -> nt_mtls n = GReturned) /\ (http3 = false -> nt_h3 n = GReturned).
Lemma absent_set n l p : absent n -> phase_of l n <> GReturned -> absent (set_phase_of l p n).
Proof. destruct n, l; unfold absent; cbn; naive_solver. Qed.

(** A goroutine that has not returned moves on. *)
Lemma ok_set evs n l p :
  net_ok mtls http3 h evs n -> phase_of l n <> GReturned ->
  (forall e, p = GSending e -> reported evs e) ->
  (l = LMain -> p <> GStarting /\ (p = GServing -> nt_readyCh n = true)
               /\ (nt_run n = RunStarted \/ nt_run n = RunFirst -> nt_readyCh n = false -> p = GReturned -> nt_errCh n <> [])) ->
  net_ok mtls http3 h evs (set_phase_of l p n).
Proof.
  intros [H1 H2 H3 H4 H5 H6 H8 H7] Hl Hp Hm.
  destruct (set_phase_frame l p n) as (E1 & E2 & E3 & E4 & E5 & E6 & E7).
  split; rewrite ?E1, ?E2, ?E3, ?E4, ?E5, ?E6; try done.
  - pose proof (live_set l p n) as HL. destruct (phase_of l n), p; cbn in HL; try done; lia.
  - intros e [He|[[k Hk]|He]]; [apply H2; auto| |apply H2; auto].
    destruct (decide (l = k)) as [<-|Hne]; [rewrite phase_set_eq in Hk; by apply Hp|].
    rewrite phase_set_ne in Hk by done. apply H2; eauto.
  - intros Hr. destruct (H3 Hr). split; [done|]. rewrite E7. destruct (decide (l = LMain)); naive_solver.
  - rewrite E7. destruct (decide (l = LMain)); naive_solver.
  - rewrite E7. destruct (decide (l = LMain)); naive_solver.
  - by apply absent_set.
  - unfold run_ok in *. rewrite E2, E3, E4, E5, E6. exact H7.
Qed.

(** The main listener binds. *)
Lemma ok_bind_main evs n :
  net_ok mtls http3 h evs n -> nt_main n = GStarting -> NBind LMain None ∈ evs ->
  net_ok mtls http3 h evs (set_phase_of LMain GServing (close_ready n)).
Proof.
  intros [H1 H2 H3 H4 H5 H6 H8 H7] Hm Hin. destruct n as [a m t k ec rc cx r he sh]. cbn in Hm. subst m. split; cbn in *; try done.
  - intros e [He|[[l Hl]|He]]; [apply H2; auto| |apply H2; auto]. destruct l; try done; apply H2; right; left;
      [by exists LAdmin|by exists LMTLS|by exists LHTTP3].
  - unfold run_ok in *. cbn in *. destruct r as [| | |todo|[e|]]; try done; [by destruct H7 as (? & ? & _)|..].
    + by destruct H7 as (? & ? & _ & ?).
    + destruct H7 as (? & [?|[? _]]); auto.
    + by destruct H7 as (? & ? & _ & ?).
Qed.

(** [Run] moves on, perhaps taking an error off the channel. *)
Lemma ok_move evs n r he ec sh :
  net_ok mtls http3 h evs n ->
  (forall e, e ∈ ec -> e ∈ nt_errCh n) -> (length ec <= length (nt_errCh n))%nat ->
  (forall e, r = RunReturned (Some e) -> reported evs e) ->
  (r = RunStarted \/ r = RunFirst -> (nt_run n = RunStarted \/ nt_run n = RunFirst) /\ ec = nt_errCh n) ->
  let n' := mkNet (nt_admin n) (nt_main n) (nt_mtls n) (nt_h3 n) ec (nt_readyCh n) (nt_ctx n) r he sh in
  run_ok mtls http3 h n' -> net_ok mtls http3 h evs n'.
Proof.
  intros [H1 H2 H3 H4 H5 H6 H8 H7] Hec Hlen Hr Hf n' Hn. split; try done.
  - unfold live in *. cbn. lia.
  - intros e [He|[[l Hl]|He]]; [apply H2; cbn in He; auto|apply H2; right; left; by exists l|by apply Hr].
  - cbn. intros Hc. destruct (Hf Hc) as [Hc' ->]. by apply H5.
Qed.

(** A goroutine sends its error and returns. *)
Lemma ok_send evs n l e :
  net_ok mtls http3 h evs n -> phase_of l n = GSending e ->
  net_ok mtls http3 h evs (set_phase_of l GReturned (set_errCh (nt_errCh n ++ [e]) n)).
Proof.
  intros [H1 H2 H3 H4 H5 H6 H8 H7] Hl.
  destruct (set_phase_frame l GReturned (set_errCh (nt_errCh n ++ [e]) n)) as (E1 & E2 & E3 & E4 & E5 & E6 & E7).
  split; rewrite ?E1, ?E2, ?E3, ?E4; cbn [set_errCh nt_errCh nt_readyCh nt_ctx nt_run] in *.
  - pose proof (live_set l GReturned (set_errCh (nt_errCh n ++ [e]) n)) as HL.
    replace (phase_of l (set_errCh _ n)) with (GSending e) in HL by (by destruct l). cbn in HL.
    change (live (set_errCh (nt_errCh n ++ [e]) n)) with (live n) in HL. rewrite length_app. cbn. lia.
  - intros e' [He|[[k Hk]|He]]; [|destruct (decide (l = k)) as [<-|Hne]|apply H2; auto].
    + apply elem_of_app in He as [He| ->%list_elem_of_singleton]; apply H2; eauto.
    + by rewrite phase_set_eq in Hk.
    + rewrite phase_set_ne in Hk by done. apply H2. right. left. exists k. by destruct k.
  - intros Hr. destruct (H3 Hr). split; [done|]. rewrite E7. by destruct (decide (l = LMain)).
  - rewrite E7. by destruct (decide (l = LMain)).
  - intros _ _ _ Hx. by destruct (nt_errCh n).
  - done.
  - apply absent_set; [done|]. by destruct l; cbn in *; rewrite Hl.
  - unfold run_ok in *. rewrite E2, E3, E4, E5, E6. exact H7.
Qed.

Lemma ok_step evs n ev n' :
  nstep mtls http3 n ev = Some n' -> net_ok mtls http3 h evs n -> net_ok mtls http3 h (evs ++ [ev]) n'.
Proof.
  intros Hs Hok%(ok_later _ ev). pose proof (ok_run _ _ _ _ _ Hok) as Hrun. unfold run_ok in Hrun.
  destruct ev as [l err|l e|l|l| | | | | |]; cbn [nstep] in Hs.
  - destruct (phase_of l n) eqn:Hl; try done. destruct err as [e|]; simplify_eq.
    + apply ok_set; [done|by rewrite Hl| |done]. intros e' [= <-]. exists l, e. left. set_solver.
    + case_bool_decide as Hm; [subst l; apply ok_bind_main; set_solver|]. apply ok_set; [done|by rewrite Hl|done|done].
  - destruct (phase_of l n) eqn:Hl; try done. simplify_eq. apply ok_set; [done|by rewrite Hl| |done].
    intros e' [= <-]. exists l, e. right. set_solver.
  - assert (l ∈ nt_shut n /\ phase_of l n <> GReturned /\ n' = set_phase_of l GReturned n) as (Hin & Hl & ->)
      by (destruct (phase_of l n); try done; case_bool_decide; by simplify_eq).
    apply ok_set; [done|done|done|]. intros ->. split_and!; [done|done|]. intros [Hr|Hr]; rewrite Hr in Hrun; destruct Hrun as [_ Hr'];
      rewrite Hr' in Hin; by apply elem_of_nil in Hin.
  - destruct (phase_of l n) eqn:Hl; try done. case_bool_decide; simplify_eq. by apply ok_send.
  - destruct (nt_ctx n) eqn:Hc; simplify_eq. destruct Hok as [H1 H2 H3 H4 H5 H6 H8 H7]. split; try done; [set_solver|].
    unfold run_ok in *. cbn. destruct (nt_run n) as [| | |todo|[e|]]; try done; [by destruct H7 as (? & ? & ? & _)|by destruct H7 as (? & ? & ? & _)].
  - destruct (nt_run n) eqn:Hr; simplify_eq. apply ok_move; [done|done|done|done|by auto|]. unfold run_ok. cbn. by destruct Hrun as [-> ?].
  - destruct (nt_run n) eqn:Hr; try done. destruct (nt_readyCh n) eqn:Hrc; simplify_eq.
    apply ok_move; [done|done|done|done|by intros [?|?]|]. unfold run_ok. cbn. by destruct Hrun as [-> ?].
  - assert (exists e rest, nt_errCh n = e :: rest /\ (nt_run n = RunFirst \/ nt_run n = RunSecond)
            /\ n' = set_run (RunReturned (Some e)) (nt_health n) (set_errCh rest n)) as (e & rest & He & Hr & ->)
      by (destruct (nt_run n), (nt_errCh n); simplify_eq; eauto 10).
    apply (ok_move _ n (RunReturned (Some e)) (nt_health n) rest (nt_shut n)); [done|rewrite He; set_solver|rewrite He; cbn; lia| |by intros [?|?]|].
    + intros e' [= <-]. apply (ok_reports _ _ _ _ _ Hok). left. rewrite He. set_solver.
    + unfold run_ok. cbn. destruct Hr as [Hr|Hr]; rewrite Hr in Hrun; [by destruct Hrun; auto|destruct Hrun as (? & ? & ?); auto].
  - destruct (nt_run n) eqn:Hr; try done. destruct (nt_ctx n) eqn:Hc; simplify_eq.
    apply ok_move; [done|done|done|done|by intros [?|?]|]. unfold run_ok. cbn. destruct Hrun as (-> & -> & ?). done.
  - destruct (nt_run n) as [| | |todo|] eqn:Hr; try done. destruct Hrun as (Hh & Ho & Hrc & Hcx).
    destruct todo as [|l todo]; simplify_eq.
    + apply (ok_move _ n (RunReturned None) (nt_health n) (nt_errCh n) (nt_shut n)); [done|done|done|done|by intros [?|?]|].
      rewrite app_nil_r in Ho. done.
    + apply (ok_move _ n (RunClosing todo) (nt_health n) (nt_errCh n) (l :: nt_shut n)); [done|done|done|done|by intros [?|?]|].
      unfold run_ok. cbn. rewrite <- app_assoc. done.
Qed.

Lemma ok_nrun evs n : nrun mtls http3 (nstart mtls http3 h) evs = Some n -> net_ok mtls http3 h evs n.
Proof.
  revert n. induction evs as [|ev evs IH] using rev_ind; intros n Hr.
  - injection Hr as <-. split; try done.
    + unfold live. cbn. destruct mtls, http3; cbn; unfold errCh_cap; lia.
    + intros e [He|[[l Hl]|He]]; [by apply elem_of_nil in He| |done]. destruct l, mtls, http3; done.
    + by destruct mtls, http3.
  - unfold nrun in Hr. rewrite foldl_app in Hr. cbn in Hr. fold (nrun mtls http3 (nstart mtls http3 h) evs) in Hr.
    destruct (nrun mtls http3 (nstart mtls http3 h) evs) as [n0|]; [|done]. by apply (ok_step evs n0), IH.
Qed.
End preserved.

(** ** Termination *)

Definition gweight (p : gphase) : nat :=
  match p with GStarting => 3 | GServing => 2 | GSending _ => 1 | GReturned => 0 end.
Definition rweight (r : rphase) : nat :=
  match r with RunStarted => 8 | RunFirst => 7 | RunSecond => 6 | RunClosing todo => 1 + length todo | RunReturned _ => 0 end.
Definition weight (n : net) : nat :=
  gweight (nt_admin n) + gweight (nt_main n) + gweight (nt_mtls n) + gweight (nt_h3 n) + rweight (nt_run n)
  + (if nt_ctx n then 0 else 1).

Lemma weight_set l p n : (weight (set_phase_of l p n) + gweight (phase_of l n) = weight n + gweight p)%nat.
Proof. destruct n, l; unfold weight; cbn; lia. Qed.

Lemma shutdown_order_length mtls http3 : (length (shutdown_order mtls http3) <= 4)%nat.
Proof. by destruct mtls, http3; cbn; lia. Qed.

Lemma nstep_weight mtls http3 n ev n' : nstep mtls http3 n ev = Some n' -> (weight n' < weight n)%nat.
Proof.
  intros Hs. destruct ev as [l err|l e|l|l| | | | | |]; cbn [nstep] in Hs.
  - destruct (phase_of l n) eqn:Hl; try done. destruct err as [e|]; simplify_eq.
    + pose proof (weight_set l (GSending (listen_error l e)) n) as H. rewrite Hl in H. cbn in H. lia.
    + pose proof (weight_set l GServing (if bool_decide (l = LMain) then close_ready n else n)) as H.
      replace (phase_of l (if bool_decide (l = LMain) then close_ready n else n)) with GStarting in H by (by destruct l).
      replace (weight (if bool_decide (l = LMain) then close_ready n else n)) with (weight n) in H by (by destruct l).
      cbn in H. lia.
  - destruct (phase_of l n) eqn:Hl; simplify_eq. pose proof (weight_set l (GSending (serve_error l e)) n) as H.
    rewrite Hl in H. cbn in H. lia.
  - pose proof (weight_set l GReturned n) as HW. destruct (phase_of l n); try done; case_bool_decide; simplify_eq; cbn [gweight] in HW; lia.
  - destruct (phase_of l n) eqn:Hl; try done. case_bool_decide; simplify_eq.
    pose proof (weight_set l GReturned (set_errCh (nt_errCh n ++ [e]) n)) as HW.
    replace (phase_of l (set_errCh _ n)) with (GSending e) in HW by (by destruct l).
    change (weight (set_errCh (nt_errCh n ++ [e]) n)) with (weight n) in HW. cbn [gweight] in HW. lia.
  - destruct (nt_ctx n) eqn:Hc; simplify_eq. unfold weight. cbn. rewrite Hc. lia.
  - destruct (nt_run n) eqn:Hr; simplify_eq. unfold weight. cbn. rewrite Hr. cbn. lia.
  - destruct (nt_run n) eqn:Hr; try done. destruct (nt_readyCh n); simplify_eq. unfold weight. cbn. rewrite Hr. cbn. lia.
  - destruct (nt_run n) eqn:Hr, (nt_errCh n); simplify_eq; unfold weight; cbn; rewrite Hr; cbn; lia.
  - destruct (nt_run n) eqn:Hr; try done. destruct (nt_ctx n) eqn:Hc; simplify_eq. unfold weight. cbn -[shutdown_order]. rewrite Hr, Hc.
    pose proof (shutdown_order_length mtls http3). cbn -[shutdown_order]. lia.
  - destruct (nt_run n) as [| | |[|l todo]|] eqn:Hr; simplify_eq; unfold weight; cbn; rewrite Hr; cbn; lia.
Qed.

Lemma nrun_snoc mtls http3 n evs ev : nrun mtls http3 n (evs ++ [ev]) = nrun mtls http3 n evs ≫= fun n => nstep mtls http3 n ev.
Proof. unfold nrun. by rewrite foldl_app. Qed.

Lemma nrun_weight mtls http3 n evs n' : nrun mtls http3 n evs = Some n' -> (weight n' + length evs <= weight n)%nat.
Proof.
  revert n'. induction evs as [|ev evs IH] using rev_ind; intros n' Hr; [injection Hr as <-; cbn; lia|].
  rewrite nrun_snoc in Hr. destruct (nrun mtls http3 n evs) as [n0|] eqn:E; [|done]. cbn in Hr.
  specialize (IH n0 eq_refl). apply nstep_weight in Hr. rewrite length_app. cbn. lia.
Qed.

(** ** What [Run] promises *)

(** The steps that are due: all but a signal, which may never come, and the failure
    of a listener that serves. *)
Definition due (ev : net_event) : bool := match ev with NSignal | NServeFails _ _ => false | _ => true end.
Definition quiet (mtls http3 : bool) (n : net) : Prop := forall ev, due ev = true -> nstep mtls http3 n ev = None.

Lemma quiet_listener mtls http3 h evs n l :
  net_ok mtls http3 h evs n -> quiet mtls http3 n -> phase_of l n = GReturned \/ phase_of l n = GServing /\ l ∉ nt_shut n.
Proof.
  intros Hok Hq. destruct (phase_of l n) as [| |e|] eqn:Hl; [..|by left].
  - specialize (Hq (NBind l None) eq_refl). cbn in Hq. by rewrite Hl in Hq.
  - right. split; [done|]. intros Hin. specialize (Hq (NServerClosed l) eq_refl). cbn in Hq.
    rewrite Hl, bool_decide_eq_true_2 in Hq by done. done.
  - specialize (Hq (NSend l) eq_refl). cbn in Hq. rewrite Hl in Hq. pose proof (ok_room _ _ _ _ _ Hok) as H.
    assert (1 <= live n)%nat by (destruct l; cbn in Hl; unfold live; rewrite Hl; cbn; lia).
    by rewrite bool_decide_eq_true_2 in Hq by lia.
Qed.

(** Nothing is due: [Run] waits for the signal or has returned. *)
Lemma quiet_run mtls http3 h evs n :
  net_ok mtls http3 h evs n -> quiet mtls http3 n ->
  (nt_run n = RunSecond /\ nt_ctx n = false /\ nt_errCh n = []) \/ exists err, nt_run n = RunReturned err.
Proof.
  intros Hok Hq. destruct (nt_run n) as [| | |todo|err] eqn:Hr; [..|by right; eauto].
  - specialize (Hq NStarted eq_refl). cbn in Hq. by rewrite Hr in Hq.
  - pose proof (Hq NReady eq_refl) as H1. pose proof (Hq NReceive eq_refl) as H2. cbn in H1, H2. rewrite Hr in H1, H2.
    destruct (nt_readyCh n) eqn:Hrc; [done|]. destruct (nt_errCh n) eqn:He; [|done].
    destruct (quiet_listener _ _ _ _ _ LMain Hok Hq) as [Hm|[Hm _]]; cbn in Hm.
    + by destruct (ok_failed _ _ _ _ _ Hok (or_intror Hr) Hrc Hm).
    + apply (ok_main _ _ _ _ _ Hok) in Hm. congruence.
  - left. pose proof (Hq NDrain eq_refl) as H1. pose proof (Hq NReceive eq_refl) as H2. cbn in H1, H2. rewrite Hr in H1, H2.
    by destruct (nt_ctx n), (nt_errCh n).
  - specialize (Hq NShutdown eq_refl). cbn in Hq. rewrite Hr in Hq. by destruct todo.
Qed.

(** C19: [Run] always comes to an end. Whatever the order in which the listeners
    bind, fail, report and stop, a run has at most 21 steps, a goroutine that has an
    error to report is never blocked on the channel, and when nothing more is due
    [Run] has returned, unless it has marked the server ready, no listener has
    failed and no signal has come. After a graceful return every listener
    goroutine has ended; after an error those that still serve are left to the
    exit of the process. *)
Theorem run_settles mtls http3 h evs n :
  nrun mtls http3 (nstart mtls http3 h) evs = Some n ->
  (length evs <= 21)%nat
  /\ (forall l e, phase_of l n = GSending e -> is_Some (nstep mtls http3 n (NSend l)))
  /\ (quiet mtls http3 n ->
        ((nt_run n = RunSecond /\ nt_ctx n = false /\ nt_errCh n = []) \/ exists err, nt_run n = RunReturned err)
        /\ (nt_run n = RunReturned None -> forall l, phase_of l n = GReturned)).
Proof.
  intros Hr. pose proof (ok_nrun mtls http3 h evs n Hr) as Hok. split_and!.
  - apply nrun_weight in Hr. destruct mtls, http3; cbn in Hr; lia.
  - intros l e Hl. cbn. rewrite Hl. pose proof (ok_room _ _ _ _ _ Hok).
    assert (1 <= live n)%nat by (destruct l; cbn in Hl; unfold live; rewrite Hl; cbn; lia).
    rewrite bool_decide_eq_true_2 by lia. eauto.
  - intros Hq. split; [by eapply quiet_run|]. intros Hn l.
    destruct (quiet_listener _ _ _ _ _ l Hok Hq) as [H|[H Hin]]; [done|]. exfalso. apply Hin.
    pose proof (ok_run _ _ _ _ _ Hok) as Hrun. unfold run_ok in Hrun. rewrite Hn in Hrun. destruct Hrun as (_ & Ho & _).
    destruct (ok_absent _ _ _ _ _ Hok) as [Ht Hh]. apply list_elem_of_In, in_rev. rewrite Ho. clear - H Ht Hh.
    destruct l, mtls, http3; cbn in *; try tauto; exfalso; (rewrite Ht in H by done; done) || (rewrite Hh in H by done; done).
Qed.


Definition shutdown_of (x : run_action) : option listener :=
  match x with
  | RShutdownHTTP3 => Some LHTTP3 | RShutdownMain => Some LMain | RShutdownMTLS => Some LMTLS | RShutdownAdmin => Some LAdmin
  | _ => None
  end.

Lemma Run_tls_keeps {Cert Pool} X509KeyPair AppendCertsFromPEM files (s s1 : Server (Cert := Cert) (Pool := Pool)) :
  Run_tls X509KeyPair AppendCertsFromPEM files s = Ok s1 ->
  sv_health s1 = sv_health s /\ sv_mtls s1 = sv_mtls s /\ sv_http3 s1 = sv_http3 s /\ sv_chain s1 = sv_chain s.
Proof. unfold Run_tls. intros Hs. repeat case_match; simplify_eq; done. Qed.

(** The graceful end of the sequential view. *)
Lemma shutdown_listeners {Cert Pool} (s : Server (Cert := Cert) (Pool := Pool)) :
  omap shutdown_of (shutdown s).2 = shutdown_order (sv_mtls s) (sv_http3 s)
  /\ sv_health (shutdown s).1 = SetNotReady (sv_health s) /\ sv_chain (shutdown s).1 = Chain_Close (sv_chain s).
Proof. unfold shutdown. cbn. by destruct (sv_mtls s), (sv_http3 s). Qed.


(** ** A run *)

Module NetDemo.
(** Both optional listeners; the admin server fails while the server drains. *)
Definition evs : list net_event :=
  [NBind LAdmin None; NStarted; NBind LMain None; NReady; NBind LMTLS None; NBind LHTTP3 None; NSignal; NDrain;
   NShutdown; NServerClosed LHTTP3; NServeFails LAdmin (errorf "closed"); NSend LAdmin; NShutdown; NShutdown; NServerClosed LMain;
   NServerClosed LMTLS; NShutdown; NShutdown].
Definition final : net := default (nstart true true NewHealthChecker) (nrun true true (nstart true true NewHealthChecker) evs).
Lemma net_ran : nrun true true (nstart true true NewHealthChecker) evs = Some final.
Proof. vm_compute. reflexivity. Qed.
(** The port is taken: [Run] reports it although the admin server serves. *)
Definition taken : list net_event := [NStarted; NBind LMain (Some (errorf "in use")); NBind LAdmin None; NSend LMain; NReceive].
Definition refused : net := default (nstart false false NewHealthChecker) (nrun false false (nstart false false NewHealthChecker) taken).
Lemma ran_taken : nrun false false (nstart false false NewHealthChecker) taken = Some refused.
Proof. vm_compute. reflexivity. Qed.
End NetDemo.

Lemma run_settles_witness :
  (length NetDemo.evs <= 21)%nat /\ nt_run NetDemo.final = RunReturned None /\ forall l, phase_of l NetDemo.final = GReturned.
Proof.
  destruct (run_settles true true NewHealthChecker NetDemo.evs NetDemo.final NetDemo.net_ran) as (H1 & _ & H3).
  split_and!; [exact H1|reflexivity|]. apply H3; [|reflexivity].
  intros [l err|l e|l|l| | | | | |] Hd; try done; by destruct l.
Defined.


