(* ===== verification/AdminServer.v ===== *)
(** * The admin server

    The HTTP surface of the admin listener: [buildAdminServer] and its inline
    handlers (internal/server/server.go), the routing and the strict handlers
    generated from the API description (api/gen/http/admin/v1/admin.gen.go), the
    probes (internal/observability/health.go) and the limiter in front. Decoding
    a JSON body, cleaning a path and the pprof pages are arguments. *)
From S2P Require Import Prelude GoStrings GoTime Float64 GoNet ConfigTypes Config AdminLimiter RedisClient CacheControl CacheStore CacheWriter Chain ChainProps Observe Admin.

Local Open Scope Z_scope.

(** ** Requests and answers *)

Record PurgeTagsRequest := mkPurgeTags { pt_Tags : list string }.
Record PurgeURLRequest := mkPurgeURL { pu_Method : option string; pu_Url : string }.

Inductive payload :=
| PEmpty
| PText (s : string)
| PProbe (p : probe)
| PConfig (c : SanitizedConfig)
| PStats (m : MetricsSnapshot)
| PProfile (page : string).

(** An answer, or the redirect of the mux to the clean form of a path. *)
Inductive admin_answer := Answer (code : Z) (p : payload) | Redirect.

Definition method_not_allowed : admin_answer := Answer 405 (PText "Method Not Allowed").

(** ** Routes *)

Inductive route :=
| RStartz | RHealthz | RReadyz | RConfig | RStats | RPprof (page : string)
| RPurgeURL | RPurgeAuth | RPurgeTags.

(** The patterns [HandlerWithOptions] registers, without a base URL. *)
Definition HandlerWithOptions : list (option string * string * route) :=
  [(Some "POST", "/v1/cache/purge", RPurgeURL); (Some "POST", "/v1/cache/purge/auth", RPurgeAuth);
   (Some "POST", "/v1/cache/purge/tags", RPurgeTags)].

(** All patterns on the mux: method ([None]: any), path, handler. *)
Definition patterns : list (option string * string * route) :=
  [(None, "/startz", RStartz); (None, "/healthz", RHealthz); (None, "/readyz", RReadyz);
   (None, "/v1/config", RConfig); (None, "/v1/stats", RStats);
   (None, "/debug/pprof/", RPprof "index"); (None, "/debug/pprof/cmdline", RPprof "cmdline");
   (None, "/debug/pprof/profile", RPprof "profile"); (None, "/debug/pprof/symbol", RPprof "symbol");
   (None, "/debug/pprof/trace", RPprof "trace")] ++ HandlerWithOptions.

Inductive matched := Found (r : route) | WrongMethod | NotFound | CleanPath.

(** [ServeMux] for these patterns, none of which has a host or a wildcard; a path
    that ends in a slash matches its whole subtree, and a path without it is
    redirected there. *)
Definition mux (cleanPath : string -> string) (method path : string) : matched :=
  if negb (bool_decide (cleanPath path = path)) && negb (bool_decide (method = "CONNECT")) then CleanPath
  else match list_find (fun p => p.1.2 = path) patterns with
       | Some (_, (None, _, r)) => Found r
       | Some (_, (Some m, _, r)) => if bool_decide (m = method) then Found r else WrongMethod
       | None =>
           if HasPrefix path "/debug/pprof/" then Found (RPprof "index")
           else if bool_decide (path = "/debug/pprof") then CleanPath
           else NotFound
       end.

(** ** Handlers *)

Record admin_request := mkAdminRequest {
  ar_method : string; ar_path : string; ar_deep : string (* Query().Get("deep") *); ar_body : string
}.

Section admin.
Context {W : Type} `{CacheRedis W}.
Variable EscapedPath : URL -> string.
Variable ParseRequestURI : string -> result URL.
Variable url_Parse : string -> result URL.
Variable cleanPath : string -> string.
Variable decode_url : string -> result PurgeURLRequest.
Variable decode_tags : string -> result PurgeTagsRequest.
Variable ping : W -> option error.

(** What the handlers reach: [ad_cfg] is the configuration [buildAdminServer] was
    called with. *)
Record admin_state := mkAdmin {
  ad_cfg : Config;
  ad_health : HealthChecker;
  ad_metrics : Metrics;
  ad_store : option Store;     (* chain.ResponseCache() *)
  ad_auth : bool;              (* the chain has an auth cache *)
  ad_world : W
}.

Definition configHandler (a : admin_state) (r : admin_request) : admin_answer :=
  if negb (bool_decide (ar_method r = "GET")) then method_not_allowed else Answer 200 (PConfig (Sanitized url_Parse (ad_cfg a))).

Definition statsHandler (a : admin_state) (r : admin_request) : admin_answer :=
  if negb (bool_decide (ar_method r = "GET")) then method_not_allowed else Answer 200 (PStats (Snapshot (ad_metrics a))).

(** [RequestErrorHandlerFunc] of [NewStrictHandler]. *)
Definition request_error (e : error) : admin_answer := Answer 400 (PText ("can't decode JSON body: " +:+ err_msg e)).

(** The [Visit...Response] methods. *)
Definition Visit (p : purge_response) : admin_answer := match p with Purge204 => Answer 204 PEmpty | Purge404 => Answer 404 PEmpty end.

(** Both generated layers wrap a handler in the middlewares they are given; the
    server gives none. *)
Definition wrap_handler {A : Type} (middlewares : list (A -> A)) (handler : A) : A := foldl (fun h m => m h) handler middlewares.

Definition with_store (s : option Store) (w : W) (a : admin_state) : admin_state :=
  mkAdmin (ad_cfg a) (ad_health a) (ad_metrics a) s (ad_auth a) w.

(** The operations of [strictHandler]: decode, call the handler, write its answer. *)
Definition strict_PurgeResponseCacheURL (a : admin_state) (body : string) : admin_state * admin_answer :=
  match decode_url body with
  | Err e => (a, request_error e)
  | Ok b =>
      let '(s, w, res) := PurgeResponseCacheURL EscapedPath ParseRequestURI (ad_store a) (ad_world a) (pu_Method b) (pu_Url b) in
      (with_store s w a, Visit res)
  end.

Definition strict_PurgeResponseCacheTags (a : admin_state) (body : string) : admin_state * admin_answer :=
  match decode_tags body with
  | Err e => (a, request_error e)
  | Ok b =>
      let '(s, w, res) := PurgeResponseCacheTags (ad_store a) (ad_world a) (pt_Tags b) in (with_store s w a, Visit res)
  end.

Definition strict_PurgeAuthCacheTags (a : admin_state) (body : string) : admin_state * admin_answer :=
  match decode_tags body with
  | Err e => (a, request_error e)
  | Ok b => (with_store (ad_store a) (PurgeAuthCacheTags (ad_auth a) (ad_world a) (pt_Tags b)) a, Visit Purge204)
  end.

Definition serve_route (a : admin_state) (r : admin_request) (rt : route) : admin_state * admin_answer :=
  let probe p := (a, Answer (pr_code p) (PProbe p)) in
  match rt with
  | RStartz => probe (StartzHandler (ad_health a))
  | RHealthz => probe (HealthzHandler (ad_health a))
  | RReadyz => probe (ReadyzHandler (ad_health a) (ar_deep r) (ping (ad_world a)))
  | RConfig => (a, configHandler a r)
  | RStats => (a, statsHandler a r)
  | RPprof page => (a, Answer 200 (PProfile page))
  | RPurgeURL => wrap_handler [] strict_PurgeResponseCacheURL a (ar_body r)
  | RPurgeAuth => wrap_handler [] strict_PurgeAuthCacheTags a (ar_body r)
  | RPurgeTags => wrap_handler [] strict_PurgeResponseCacheTags a (ar_body r)
  end.

Definition adminMux_ServeHTTP (a : admin_state) (r : admin_request) : admin_state * admin_answer :=
  match mux cleanPath (ar_method r) (ar_path r) with
  | Found rt => serve_route a r rt
  | WrongMethod => (a, method_not_allowed)
  | NotFound => (a, Answer 404 (PText "404 page not found"))
  | CleanPath => (a, Redirect)
  end.

(** [adminRateLimiter.ServeHTTP] over [tokens]; the refills happen outside. *)
Definition admin_ServeHTTP (tokens : Z) (a : admin_state) (r : admin_request) : Z * admin_state * admin_answer :=
  if tokens <=? 0 then (tokens, a, Answer 429 (PText "admin rate limit exceeded"))
  else let '(a, x) := adminMux_ServeHTTP a r in (tokens - 1, a, x).

(** A sequence of requests, each after the refills [refill] has added tokens. *)
Fixpoint admin_session (tokens : Z) (a : admin_state) (rs : list (Z * admin_request)) : admin_state * list admin_answer :=
  match rs with
  | [] => (a, [])
  | (refill, r) :: rs =>
      let '(tokens, a, x) := admin_ServeHTTP (Z.min 100 (tokens + refill)) a r in
      let '(a, xs) := admin_session tokens a rs in (a, x :: xs)
  end.

(** ** What a request can change *)

Definition purge_paths : list string := ["/v1/cache/purge"; "/v1/cache/purge/auth"; "/v1/cache/purge/tags"].
Definition is_purge (rt : route) : bool := match rt with RPurgeURL | RPurgeAuth | RPurgeTags => true | _ => false end.

(** A purge is only routed to by a POST to its own path. *)
Lemma mux_purge method path rt :
  mux cleanPath method path = Found rt -> is_purge rt = true -> method = "POST" /\ path ∈ purge_paths.
Proof.
  unfold mux. destruct (_ && _); [done|]. destruct (list_find _ patterns) as [[i p]|] eqn:E.
  - apply list_find_Some in E as (Hi & Hp & _). apply list_elem_of_lookup_2 in Hi.
    unfold patterns, HandlerWithOptions in Hi; cbn [app] in Hi. repeat (apply elem_of_cons in Hi as [->|Hi]); [..|by apply elem_of_nil in Hi];
      cbn in Hp; subst path; cbn; try (by intros [= <-]); case_bool_decide; intros [= <-] _; (split; [done|]); unfold purge_paths; set_solver.
  - destruct (HasPrefix _ _); [by intros [= <-]|]. by case_bool_decide.
Qed.

Definition decodes (body : string) : Prop := (exists b, decode_url body = Ok b) \/ exists b, decode_tags body = Ok b.

Lemma serve_route_frame a r rt :
  let a' := (serve_route a r rt).1 in
  (ad_cfg a', ad_health a', ad_metrics a', ad_auth a') = (ad_cfg a, ad_health a, ad_metrics a, ad_auth a)
  /\ (a' = a \/ is_purge rt = true /\ decodes (ar_body r)).
Proof.
  destruct rt; cbn [serve_route wrap_handler foldl fst is_purge]; try by auto.
  - unfold strict_PurgeResponseCacheURL. destruct (decode_url (ar_body r)) eqn:E; [|by auto].
    destruct (PurgeResponseCacheURL _ _ _ _ _ _) as [[s w] res]. split; [done|]. right. split; [done|]. left. eauto.
  - unfold strict_PurgeAuthCacheTags. destruct (decode_tags (ar_body r)) eqn:E; [|by auto].
    split; [done|]. right. split; [done|]. right. eauto.
  - unfold strict_PurgeResponseCacheTags. destruct (decode_tags (ar_body r)) eqn:E; [|by auto].
    destruct (PurgeResponseCacheTags _ _ _) as [[s w] res]. split; [done|]. right. split; [done|]. right. eauto.
Qed.


(** ** Secrets *)

(** The sections and fields the sanitized view is made of. *)
Definition agree_public (c c' : Config) : Prop :=
  (cfg_Server c, cfg_Admin c, cfg_Backend c, cfg_Logging c, cfg_Tracing c, cfg_Metrics c)
  = (cfg_Server c', cfg_Admin c', cfg_Backend c', cfg_Logging c', cfg_Tracing c', cfg_Metrics c')
  /\ (let l := cfg_RateLimit c in let l' := cfg_RateLimit c' in
      (rl_Static l, rl_FailurePolicy l, rl_FailureCode l, xr_Enabled (rl_External l), rs_BackendURL (xr_Fallback (rl_External l)))
      = (rl_Static l', rl_FailurePolicy l', rl_FailureCode l', xr_Enabled (rl_External l'), rs_BackendURL (xr_Fallback (rl_External l')))).

Lemma agree_sanitized c c' : agree_public c c' -> Sanitized url_Parse c = Sanitized url_Parse c'.
Proof. intros [[=] [=]]. by apply Sanitized_noninterference. Qed.

Definition with_cfg (c : Config) (a : admin_state) : admin_state :=
  mkAdmin c (ad_health a) (ad_metrics a) (ad_store a) (ad_auth a) (ad_world a).

Lemma serve_route_cfg a c r rt :
  Sanitized url_Parse c = Sanitized url_Parse (ad_cfg a) ->
  serve_route (with_cfg c a) r rt = (with_cfg c (serve_route a r rt).1, (serve_route a r rt).2).
Proof.
  intros Hc. destruct rt; cbn [serve_route wrap_handler foldl]; try done.
  - unfold configHandler. cbn [ad_cfg with_cfg]. rewrite Hc. done.
  - unfold strict_PurgeResponseCacheURL. destruct (decode_url (ar_body r)); [|done]. cbn [ad_store ad_world with_cfg].
    by destruct (PurgeResponseCacheURL _ _ _ _ _ _) as [[s w] res].
  - unfold strict_PurgeAuthCacheTags. by destruct (decode_tags (ar_body r)).
  - unfold strict_PurgeResponseCacheTags. destruct (decode_tags (ar_body r)); [|done]. cbn [ad_store ad_world with_cfg].
    by destruct (PurgeResponseCacheTags _ _ _) as [[s w] res].
Qed.

Lemma admin_cfg tokens a c r :
  Sanitized url_Parse c = Sanitized url_Parse (ad_cfg a) ->
  admin_ServeHTTP tokens (with_cfg c a) r
  = ((admin_ServeHTTP tokens a r).1.1, with_cfg c (admin_ServeHTTP tokens a r).1.2, (admin_ServeHTTP tokens a r).2).
Proof.
  intros Hc. unfold admin_ServeHTTP. destruct (tokens <=? 0); [done|]. unfold adminMux_ServeHTTP.
  destruct (mux cleanPath (ar_method r) (ar_path r)) as [rt| | |]; [|done..].
  rewrite serve_route_cfg by done. by destruct (serve_route a r rt).
Qed.

Lemma admin_keeps_cfg tokens a r : ad_cfg (admin_ServeHTTP tokens a r).1.2 = ad_cfg a.
Proof.
  unfold admin_ServeHTTP, adminMux_ServeHTTP. destruct (tokens <=? 0); [done|].
  destruct (mux cleanPath (ar_method r) (ar_path r)) as [rt| | |]; [|done..].
  pose proof (serve_route_frame a r rt) as [Hf _]. destruct (serve_route a r rt) as [a' x]. cbn in *. congruence.
Qed.


(** The configuration that is shown is the one the server was built with. *)
Lemma config_answer tokens a r :
  0 < tokens -> cleanPath "/v1/config" = "/v1/config" -> ar_method r = "GET" -> ar_path r = "/v1/config" ->
  (admin_ServeHTTP tokens a r).2 = Answer 200 (PConfig (Sanitized url_Parse (ad_cfg a))).
Proof.
  destruct r as [m p d body]. cbn [ar_method ar_path]. intros Ht Hc -> ->. unfold admin_ServeHTTP, adminMux_ServeHTTP, mux.
  cbn [ar_method ar_path]. rewrite (proj2 (Z.leb_gt tokens 0) Ht), Hc. reflexivity.
Qed.
End admin.

(** ** A purge over HTTP *)

Section purge.
Context {W : Type} `{CacheRedisLaws W}.
Variable decode : string -> option Entry.
Variable EscapedPath : URL -> string.
Variable ParseRequestURI : string -> result URL.
Variable url_Parse : string -> result URL.
Variable cleanPath : string -> string.
Variable decode_url : string -> result PurgeURLRequest.
Variable decode_tags : string -> result PurgeTagsRequest.
Variable ping : W -> option error.
Hypothesis clean_paths : forall p, p ∈ purge_paths -> cleanPath p = p.

Lemma mux_post path rt :
  path ∈ purge_paths -> list_find (fun p => p.1.2 = path) patterns = Some rt -> mux cleanPath "POST" path = Found rt.2.2.
Proof.
  intros Hp Hf. unfold mux. rewrite (clean_paths path Hp), bool_decide_eq_true_2 by done. cbn [negb andb]. rewrite Hf.
  destruct rt as [i [[[m|] p] r]]; [|done]. apply list_find_Some in Hf as (Hi & Hpp & _). apply list_elem_of_lookup_2 in Hi.
  cbn in *. subst p. unfold patterns, HandlerWithOptions in Hi; cbn [app] in Hi. repeat (apply elem_of_cons in Hi as [Hi|Hi]); [..|by apply elem_of_nil in Hi]; by simplify_eq.
Qed.

(** A purge over HTTP takes effect. When a POST of a URL to the purge endpoint
    is answered with 204 and the response cache is on, the next request with that
    method and target is not answered from the cache. *)
Theorem purge_over_http tokens a s body b r rw now s2 :
  ad_store a = Some s -> decode_url body = Ok b ->
  ParseRequestURI (pu_Url b) = Ok (ReqURL r) -> default "GET" (pu_Method b) = Method r ->
  let '(_, a', x) := admin_ServeHTTP EscapedPath ParseRequestURI url_Parse cleanPath decode_url decode_tags ping tokens a
                       (mkAdminRequest "POST" "/v1/cache/purge" "" body) in
  x = Answer 204 PEmpty ->
  serveCached EscapedPath (lookup_entry decode s2 (ad_world a')) rw r now = None.
Proof.
  intros Hs Hb Hu Hm. unfold admin_ServeHTTP. destruct (tokens <=? 0); [done|]. unfold adminMux_ServeHTTP. cbn [ar_method ar_path].
  rewrite (mux_post _ (10%nat, (Some "POST", "/v1/cache/purge", RPurgeURL))) by (done || (unfold purge_paths; set_solver)).
  cbn [snd serve_route wrap_handler foldl]. unfold strict_PurgeResponseCacheURL. cbn [ar_body]. rewrite Hb, Hs.
  destruct (PurgeResponseCacheURL _ _ (Some s) _ _ _) as [[so w] res] eqn:E. cbn [ad_world with_store]. intros Hx.
  destruct res; [|done]. by eapply (purge_url_effective decode EscapedPath ParseRequestURI).
Qed.
End purge.

Module AdminDemo.
Definition decode_url (body : string) : result PurgeURLRequest :=
  if bool_decide (body = "") then Err (errorf "EOF") else Ok (mkPurgeURL None body).
Definition decode_tags (body : string) : result PurgeTagsRequest := Err (errorf "EOF").
Definition state : admin_state (W := map_redis) :=
  mkAdmin sample_config NewHealthChecker NewMetrics (Some PurgeDemo.store) false PurgeDemo.redis.
Definition serve := admin_ServeHTTP PurgeDemo.path PurgeDemo.parse sample_parse (fun p => p) decode_url decode_tags (fun _ => None).
Definition session := admin_session PurgeDemo.path PurgeDemo.parse sample_parse (fun p => p) decode_url decode_tags (fun _ => None).
Definition purge : admin_request := mkAdminRequest "POST" "/v1/cache/purge" "" "/a".
Definition secret : RedisConfig :=
  mkRedisConfig ["10.0.0.9:6379"] "single" "" "root" "hunter2" 0 10 "5s" "3s" "3s" (mkRedisTLSConfig false false) "" "".
Definition requests : list (Z * admin_request) :=
  [(0, mkAdminRequest "GET" "/v1/config" "" ""); (1, mkAdminRequest "GET" "/readyz" "true" ""); (0, purge); (0, mkAdminRequest "GET" "/v1/stats" "" "")].
End AdminDemo.


Lemma purge_over_http_witness :
  lookup_entry PurgeDemo.decode PurgeDemo.store PurgeDemo.redis "GET|/a" <> None
  /\ serveCached PurgeDemo.path (lookup_entry PurgeDemo.decode PurgeDemo.store (ad_world (AdminDemo.serve 5 AdminDemo.state AdminDemo.purge).1.2))
       (mkRW ∅ []) PurgeDemo.request 0 = None.
Proof.
  split; [vm_compute; discriminate|].
  pose proof (purge_over_http PurgeDemo.decode PurgeDemo.path PurgeDemo.parse sample_parse (fun p => p) AdminDemo.decode_url
    AdminDemo.decode_tags (fun _ => None) (fun p _ => eq_refl) 5 AdminDemo.state PurgeDemo.store "/a" (mkPurgeURL None "/a")
    PurgeDemo.request (mkRW ∅ []) 0 PurgeDemo.store eq_refl eq_refl eq_refl eq_refl) as Hp.
  fold (AdminDemo.serve 5 AdminDemo.state) in Hp. fold AdminDemo.purge in Hp.
  assert ((AdminDemo.serve 5 AdminDemo.state AdminDemo.purge).2 = Answer 204 PEmpty) as Hx by (vm_compute; reflexivity).
  destruct (AdminDemo.serve 5 AdminDemo.state AdminDemo.purge) as [[t a'] x]. exact (Hp Hx).
Defined.
