(* ===== verification/System.v ===== *)
(** * The process

    [cmd/edgequota/main.go]: loading the configuration, building the server and
    running it beside the configuration watcher, the certificate watcher and the
    watcher of the client CA file, as one step relation over the components
    ([Watcher], [Server], [Lifecycle], [AdminServer]). The file system may change
    at any point; the callback of a watcher runs in its goroutine, so a published
    configuration is handed to [Server.Reload] in the step that publishes it. *)
From S2P Require Import Prelude GoStrings GoTime Float64 GoNet ConfigTypes Config Watcher AdminLimiter KeyStrategy RedisClient CacheControl CacheStore CacheWriter.
From S2P Require Import Bucket Chain ChainProps Observe Admin Transport Proxy Settings Lifecycle LifeRuns Server ServerProps AdminServer.

Local Open Scope Z_scope.

(** ** The chain keeps its configuration *)

(** Events of the chain's own goroutines and of the requests. *)
Definition internal (e : event) : bool := match e with EReload _ _ | ESwapProxy | EClose => false | _ => true end.

Lemma startRecovery_pub c : lc_pub (startRecoveryIfNeeded c) = lc_pub c.
Proof. unfold startRecoveryIfNeeded. destruct (lc_ctxDone c); [done|]. by destruct (lc_recovery c). Qed.

Lemma recoveryInstall_pub `{Rounding} x c : lc_pub (recoveryInstall x c) = lc_pub c.
Proof. unfold recoveryInstall. destruct (_ && _); [done|]. cbn. destruct (negb _); [|done]. by destruct (_ !! FExternalRL). Qed.

Lemma recovery_ping_pub b r c : lc_pub (recovery_ping b r c) = lc_pub c.
Proof. unfold recovery_ping, recoveryRetry. destruct b; [done|]. by destruct (_ && _). Qed.

Lemma step_pub `{Rounding} e c c' : internal e = true -> step e c = Some c' -> lc_pub c' = lc_pub c.
Proof.
  destruct e as [|x|x|ok|cok pok|tm| | |ok| |cfg a| |]; cbn [internal step]; try done; intros _ Hs.
  - destruct (limiter c); [|done]. by injection Hs as <-.
  - destruct (remove_one x (lc_inflight c)); [|done]. by injection Hs as <-.
  - destruct (remove_one x (lc_inflight c)); [|done]. injection Hs as <-. unfold handleConnectivityErr. cbn. by rewrite startRecovery_pub.
  - destruct (lc_recovery c) as [[]|]; try done. injection Hs as <-. by destruct ok.
  - destruct (lc_recovery c) as [[]|]; try done. injection Hs as <-. unfold recovery_iter. destruct (lc_ctxDone c); [done|].
    destruct (sameRedisEndpoints _ _); [apply recovery_ping_pub|]. destruct cok; [|done]. cbn. by rewrite recovery_ping_pub.
  - destruct (lc_recovery c) as [[]|]; try done. destruct (tm || lc_ctxDone c); [|done]. injection Hs as <-. by destruct tm.
  - destruct (lc_recovery c) as [[]|]; try done. injection Hs as <-. cbn. apply recoveryInstall_pub.
  - destruct (lc_recovery c) as [[]|]; try done. by injection Hs as <-.
  - destruct (lc_resp c); try done. injection Hs as <-. unfold resp_round. destruct (lc_ctxDone c); [done|]. by destruct ok.
  - destruct (lc_resp c); try done. by injection Hs as <-.
Qed.

Lemma Reload_failed_cfg `{Rounding} cfg a c e : (Reload cfg a c).2 = Some e -> cfg_of (Reload cfg a c).1 = cfg_of c.
Proof.
  unfold Reload, Reload_settings. destruct (NewKeyStrategy (static_key cfg)); [|done].
  destruct (external_enabled cfg); [|done]. by destruct (NewKeyStrategy (fallback_key cfg)).
Qed.

Lemma Chain_Close_pub c : lc_pub (Chain_Close c) = lc_pub c.
Proof. unfold Chain_Close, closeResources, releaseCacheRedis. cbn. by destruct (lc_cacheRedisOwned c). Qed.

Lemma resolve_pub cfg b c : lc_pub (resolveCacheRedis cfg b c).1 = lc_pub c.
Proof. unfold resolveCacheRedis. destruct (lc_cacheRedis c); [done|]. destruct (_ && _); [done|]. cbn. by destruct (limiter c). Qed.

Lemma create_if_pub b f c : lc_pub (create_if b f c) = lc_pub c.
Proof. by destruct b. Qed.

Lemma and_then_pub (r : Lifecycle * option error) f p :
  lc_pub r.1 = p -> (forall c, lc_pub c = p -> lc_pub (f c).1 = p) -> lc_pub (and_then r f).1 = p.
Proof. unfold and_then. destruct r as [c [e|]]; cbn; auto. Qed.

Lemma initRedis_pub `{Rounding} cfg ok c : lc_pub (initRedis cfg ok c).1 = lc_pub c.
Proof.
  unfold initRedis, handleRedisStartupFailure. destruct (_ && _); [done|]. destruct ok; cbn [negb].
  - cbn. by destruct (_ || _).
  - destruct (_ || _); [apply startRecovery_pub|done].
Qed.

Lemma initClients_pub cfg a c : lc_pub (initClients cfg a c).1 = lc_pub c.
Proof.
  unfold initClients. apply and_then_pub; [|intros c1 <-; apply and_then_pub; [|intros c2 <-]].
  - unfold init_auth. destruct (au_Enabled _); [|done]. destruct (at_auth a); [|done]. cbn [negb].
    pose proof (resolve_pub cfg (at_cache1 a) (create_in FAuthClient c)) as E. by destruct (resolveCacheRedis _ _ _).
  - unfold init_external. destruct (external_enabled cfg); [|done]. pose proof (resolve_pub cfg (at_cache2 a) c1) as E.
    destruct (resolveCacheRedis _ _ _) as [c2 x]. cbn [fst] in E. destruct (at_ext a); cbn [negb fst]; [done|].
    unfold releaseCacheRedis. by destruct (lc_cacheRedisOwned c2).
  - destruct (cc_Enabled _); [|done]. unfold initResponseCache. by destruct (at_resp a).
Qed.

Lemma NewChain_settings_cfg `{Rounding} cfg p : NewChain_settings cfg = Ok p -> pb_cfg p = cfg.
Proof.
  unfold NewChain_settings. destruct (NewKeyStrategy (static_key cfg)); [|done].
  destruct (external_enabled cfg); [destruct (NewKeyStrategy (fallback_key cfg)); [|done]|]; cbn; by intros [= <-].
Qed.

Lemma NewChain_cfg `{Rounding} cfg a c : NewChain cfg a = Ok c -> cfg_of c = cfg.
Proof.
  unfold NewChain, mbind, result_bind. destruct (NewChain_settings cfg) as [p|] eqn:Ep; [|done]. apply NewChain_settings_cfg in Ep.
  destruct (build_chain p a) as [c1 [e|]] eqn:Eb; [done|]. intros [= ->]. unfold cfg_of. rewrite <- Ep. f_equal.
  replace c with (build_chain p a).1 by (by rewrite Eb). unfold build_chain. apply and_then_pub.
  - by rewrite initRedis_pub, !create_if_pub.
  - intros c2 <-. apply initClients_pub.
Qed.

(** ** State *)

Inductive process_phase := PBooted | PRunning | PExited.

Section system.
Context `{R : Rounding}.
Context {Cert Pool : Type}.
Variable sha256 : string -> string.
Variable Unmarshal : string -> Config -> result Config.
Variable ParseEnv : Config -> result Config.
Variable url_Parse : string -> result URL.
Variable URL_String : URL -> string.
Variable ALPN : string -> option string.
Variable X509KeyPair : string -> string -> option Cert.
Variable AppendCertsFromPEM : string -> option Pool.
Abbreviation Server := (Server (Cert := Cert) (Pool := Pool)).
Abbreviation wstep := (wstep sha256 Unmarshal ParseEnv url_Parse URL_String).
Implicit Types (sv srv : Server).

Record system := mkSystem {
  sy_cfg0 : Config;                        (* what [main] has loaded; the admin handlers and the file watchers keep it *)
  sy_server : Server;
  sy_watch : wstate;
  sy_certs : option CertWatcher;           (* None: not started *)
  sy_ca : option CertWatcher;
  sy_files : string -> option string;      (* the other files *)
  sy_link : string -> string;              (* the link next to a file *)
  sy_phase : process_phase
}.

Definition cert_view (files : string -> option string) (link : string -> string) (certFile keyFile : string) : cert_fs :=
  mkCertFS (files certFile) (files keyFile) (link certFile).

(** [main] up to [srv.Run]; [f]: the configuration file, read as [fs_data f]. *)
Definition boot (f : fs) (files : string -> option string) (link : string -> string) (a : attempts) (udp : bool) : result system :=
  cfg ← LoadFromPath Unmarshal ParseEnv url_Parse URL_String (fs_data f);
  srv ← Server_New url_Parse ALPN cfg a udp;
  let tls := sc_TLS (cfg_Server cfg) in
  let ca := mt_ClientCAFile (st_MTLS tls) in
  Ok (mkSystem cfg srv (watcher_start sha256 cfg (fs_data f) f)
        (if st_Enabled tls && negb (bool_decide (st_CertFile tls = ""))
         then Some (cert_start sha256 (cert_view files link (st_CertFile tls) (st_KeyFile tls))) else None)
        (if st_Enabled tls && mt_Enabled (st_MTLS tls) && negb (bool_decide (ca = ""))
         then Some (cert_start sha256 (cert_view files link ca ca)) else None)
        files link PBooted).

Inductive sevent :=
| SFiles (files : string -> option string) (link : string -> string)   (* other files change *)
| SConfig (e : wevent) (a : attempts) (udp : bool)                     (* the configuration watcher *)
| SCert                                                                (* a tick of the certificate watcher *)
| SCA                                                                  (* of the CA watcher *)
| SRun                                                                 (* [Run] up to the listeners *)
| SChain (e : event)                                                   (* the chain's goroutines *)
| SStop.                                                               (* the signal, and the shutdown *)

Definition set_server (srv : Server) (s : system) : system :=
  mkSystem (sy_cfg0 s) srv (sy_watch s) (sy_certs s) (sy_ca s) (sy_files s) (sy_link s) (sy_phase s).
Definition set_phase_to (p : process_phase) (s : system) : system :=
  mkSystem (sy_cfg0 s) (sy_server s) (sy_watch s) (sy_certs s) (sy_ca s) (sy_files s) (sy_link s) p.

(** The callback of the configuration watcher; an error is logged. *)
Definition on_config (files : string -> option string) (a : attempts) (udp : bool) (srv : Server) (new : list Config) : Server :=
  foldl (fun srv c => (Server_Reload url_Parse ALPN X509KeyPair files c a udp srv).1) srv new.

Definition ca_round (caFile : string) (files : string -> option string) (link : string) (cs : CertWatcher * Server) : CertWatcher * Server :=
  let '(cw, fired) := cert_tick sha256 (mkCertFS (files caFile) (files caFile) link) cs.1 in
  (cw, if fired : bool then ReloadMTLSCA AppendCertsFromPEM files caFile cs.2 else cs.2).

Definition sstep (s : system) (ev : sevent) : option system :=
  match sy_phase s with
  | PExited => None
  | _ =>
      let tls := sc_TLS (cfg_Server (sy_cfg0 s)) in
      match ev with
      | SFiles files link =>
          Some (mkSystem (sy_cfg0 s) (sy_server s) (sy_watch s) (sy_certs s) (sy_ca s) files link (sy_phase s))
      | SConfig e a udp =>
          ws ← wstep e (sy_watch s);
          let new := drop (length (w_published (ws_w (sy_watch s)))) (w_published (ws_w ws)) in
          Some (mkSystem (sy_cfg0 s) (on_config (sy_files s) a udp (sy_server s) new) ws (sy_certs s) (sy_ca s)
                  (sy_files s) (sy_link s) (sy_phase s))
      | SCert =>
          cw ← sy_certs s;
          let '(cw, srv) := cert_round X509KeyPair sha256 (st_CertFile tls) (st_KeyFile tls) (sy_files s)
                              (sy_link s (st_CertFile tls)) (cw, sy_server s) in
          Some (mkSystem (sy_cfg0 s) srv (sy_watch s) (Some cw) (sy_ca s) (sy_files s) (sy_link s) (sy_phase s))
      | SCA =>
          cw ← sy_ca s;
          let caFile := mt_ClientCAFile (st_MTLS tls) in
          let '(cw, srv) := ca_round caFile (sy_files s) (sy_link s caFile) (cw, sy_server s) in
          Some (mkSystem (sy_cfg0 s) srv (sy_watch s) (sy_certs s) (Some cw) (sy_files s) (sy_link s) (sy_phase s))
      | SRun =>
          match sy_phase s with
          | PBooted =>
              match Run_tls X509KeyPair AppendCertsFromPEM (sy_files s) (sy_server s) with
              | Ok srv => Some (set_phase_to PRunning (set_server srv s))
              | Err _ => Some (set_phase_to PExited s)
              end
          | _ => None
          end
      | SChain e =>
          if internal e then c ← step e (sv_chain (sy_server s)); Some (set_server (with_chain c (sy_server s)) s) else None
      | SStop =>
          match sy_phase s with
          | PRunning => Some (set_phase_to PExited (set_server (shutdown (sy_server s)).1 s))
          | _ => None
          end
      end
  end.

Definition sysrun (s : system) (evs : list sevent) : option system := foldl (fun o ev => o ≫= fun s => sstep s ev) (Some s) evs.

(** ** Invariant *)

(** What the server has in force, beside the configurations the watcher has
    published: [sv] is the server, [ps] the published ones. *)
Record in_force (cfg0 : Config) (ps : list Config) (sv : Server) : Prop := {
  if_known : sv_cfg sv ∈ cfg0 :: ps;
  if_chain : cfg_of (sv_chain sv) = sv_cfg sv;
  if_mtls : sv_mtls sv = mt_Enabled (st_MTLS (sc_TLS (cfg_Server cfg0)));
  if_http3 : sv_http3 sv = st_HTTP3Enabled (sc_TLS (cfg_Server cfg0));
  if_last : Forall (fun c => proxies_parse (static_key c) /\ proxies_parse (fallback_key c)) ps -> last (cfg0 :: ps) = Some (sv_cfg sv)
}.

(** A certificate is there once the process runs with TLS. *)
Definition cert_ok (ph : process_phase) (cfg0 : Config) (sv : Server) : Prop :=
  ph = PRunning -> st_Enabled (sc_TLS (cfg_Server cfg0)) = true -> exists c, sv_certs sv = Some (Some c).

Record system_ok (s : system) : Prop := {
  so_valid : valid_config (sy_cfg0 s);
  so_published : published_ok (sy_cfg0 s) (ws_w (sy_watch s));
  so_force : in_force (sy_cfg0 s) (w_published (ws_w (sy_watch s))) (sy_server s);
  so_cert : cert_ok (sy_phase s) (sy_cfg0 s) (sy_server s)
}.

(** Certificates that are replaced stay certificates. *)
Lemma fmap_cert (f : option Cert -> option Cert) (x : option (option Cert)) :
  (forall c, is_Some (f (Some c))) -> (exists c, x = Some (Some c)) -> exists c, f <$> x = Some (Some c).
Proof. intros Hf [c ->]. destruct (Hf c) as [c' Hc]. exists c'. cbn. by rewrite Hc. Qed.

Lemma certHolder_keeps files cf kf c : is_Some (certHolder_Reload X509KeyPair files cf kf (Some c)).1.
Proof. unfold certHolder_Reload. destruct (LoadX509KeyPair X509KeyPair files cf kf); cbn; eauto. Qed.

Lemma Server_Reload_certs files c a udp sv :
  (exists x, sv_certs sv = Some (Some x)) ->
  exists x, sv_certs (Server_Reload url_Parse ALPN X509KeyPair files c a udp sv).1 = Some (Some x).
Proof.
  intros Hx. unfold Server_Reload. destruct (Reload c a (sv_chain sv)) as [chain [e|]]; [exact Hx|].
  destruct (if backendChanged (sv_cfg sv) c then _ else _) as [chain' rp]. cbn [fst sv_certs].
  destruct (_ && _); [|exact Hx]. apply fmap_cert; [|exact Hx]. intros x. apply certHolder_keeps.
Qed.

(** One published configuration reaches the server. *)
Lemma in_force_reload cfg0 ps sv files c a udp :
  valid_config c -> in_force cfg0 ps sv ->
  in_force cfg0 (ps ++ [c]) (Server_Reload url_Parse ALPN X509KeyPair files c a udp sv).1.
Proof.
  intros Hv [H1 H2 H3 H4 H5]. unfold Server_Reload.
  pose proof (Reload_cfg c a (sv_chain sv)) as Hg. pose proof (Reload_failed_cfg c a (sv_chain sv)) as Hf.
  assert (proxies_parse (static_key c) -> proxies_parse (fallback_key c) -> (Reload c a (sv_chain sv)).2 = None) as Ht.
  { intros P1 P2. pose proof (Reload_settings_total c (lc_pub (sv_chain sv)) Hv P1 P2). unfold Reload. by destruct (Reload_settings c _) as [? [|]]. }
  destruct (Reload c a (sv_chain sv)) as [chain [e|]]; cbn [fst snd] in *.
  - split; cbn; try done; [set_solver|by rewrite (Hf e eq_refl)|].
    intros Hp. apply Forall_app in Hp as [_ Hp]. apply Forall_singleton in Hp as [P1 P2]. by specialize (Ht P1 P2).
  - specialize (Hg eq_refl).
    assert (exists chain' rp, (if backendChanged (sv_cfg sv) c
              then match buildProxy url_Parse ALPN c udp with Ok rp => (SwapProxy chain, rp) | Err _ => (chain, sv_proxy sv) end
              else (chain, sv_proxy sv)) = (chain', rp) /\ cfg_of chain' = c) as (chain' & rp & -> & Hc).
    { destruct (backendChanged _ _); [|eauto]. destruct (buildProxy _ _ _ _); eauto. }
    split; cbn; try done; [set_solver|]. intros _. by rewrite app_comm_cons, last_snoc.
Qed.

Lemma wstep_grows e ws ws' :
  wstep e ws = Some ws' ->
  w_published (ws_w ws') = w_published (ws_w ws) \/ exists c, w_published (ws_w ws') = w_published (ws_w ws) ++ [c] /\ valid_config c.
Proof.
  assert (forall data w, w_published (reload Unmarshal ParseEnv url_Parse URL_String data w) = w_published w
    \/ exists c, w_published (reload Unmarshal ParseEnv url_Parse URL_String data w) = w_published w ++ [c] /\ valid_config c) as Hr.
  { intros data w. unfold reload. destruct (LoadFromPath _ _ _ _ data) as [c|] eqn:E; [|by left]. apply LoadFromPath_valid in E.
    destruct (RequiresRestart c (w_lastConfig w)); [|by left]. right. eauto. }
  intros Hs. destruct ws as [f w ps tm ch ph sn], e; unfold wstep in Hs; cbn in *.
  - injection Hs as <-. by left.
  - destruct ph; try done. destruct (handleFSEvent op now tm). injection Hs as <-. by left.
  - destruct ph, ch as [[d []]|]; try done. destruct (d <=? now); [|done]. injection Hs as <-. apply Hr.
  - destruct ph; try done. injection Hs as <-. by left.
  - destruct ph; try done. destruct (ps_changed sha256 f ps) as [ps' []]; injection Hs as <-; by left.
  - destruct ph; try done. injection Hs as <-. apply Hr.
  - destruct ph; try done. injection Hs as <-. by left.
Qed.

(** A change of the server that is not a reload. *)
Lemma in_force_same cfg0 ps sv sv' :
  sv_cfg sv' = sv_cfg sv -> cfg_of (sv_chain sv') = cfg_of (sv_chain sv) -> sv_mtls sv' = sv_mtls sv -> sv_http3 sv' = sv_http3 sv ->
  in_force cfg0 ps sv -> in_force cfg0 ps sv'.
Proof. intros E1 E2 E3 E4 [H1 H2 H3 H4 H5]. split; rewrite ?E1, ?E2, ?E3, ?E4; done. Qed.

Lemma Run_tls_force files sv sv' :
  Run_tls X509KeyPair AppendCertsFromPEM files sv = Ok sv' ->
  sv_cfg sv' = sv_cfg sv /\ sv_chain sv' = sv_chain sv /\ sv_mtls sv' = sv_mtls sv /\ sv_http3 sv' = sv_http3 sv
  /\ (st_Enabled (sc_TLS (cfg_Server (sv_cfg sv))) = true -> exists c, sv_certs sv' = Some (Some c)).
Proof.
  unfold Run_tls. destruct (st_Enabled _) eqn:He; cbn [negb]; [|by intros [= <-]].
  destruct (LoadX509KeyPair _ _ _ _) as [c|]; [|done].
  destruct (sv_mtls sv); [destruct (loadClientCAs _ _ _); [|done]|]; intros [= <-]; cbn; eauto 10.
Qed.

(** The configuration watcher makes a step and its callback runs. *)
Lemma config_step s e a udp ws :
  system_ok s -> wstep e (sy_watch s) = Some ws ->
  system_ok (mkSystem (sy_cfg0 s)
    (on_config (sy_files s) a udp (sy_server s) (drop (length (w_published (ws_w (sy_watch s)))) (w_published (ws_w ws)))) ws
    (sy_certs s) (sy_ca s) (sy_files s) (sy_link s) (sy_phase s)).
Proof.
  intros [Hv Hp Hf Hc] Hw. split; cbn [sy_cfg0 sy_watch sy_server sy_phase]; [done|by eapply wstep_published|..].
  - destruct (wstep_grows e _ _ Hw) as [->|(c & -> & Hvc)]; [by rewrite drop_all|]. rewrite drop_app_length. cbn [on_config foldl].
    by apply in_force_reload.
  - intros Hph Ht. specialize (Hc Hph Ht). destruct (wstep_grows e _ _ Hw) as [->|(c & -> & Hvc)]; [by rewrite drop_all|].
    rewrite drop_app_length. cbn [on_config foldl]. by apply Server_Reload_certs.
Qed.

(** The other goroutines change the certificates, the CAs or the chain. *)
Lemma server_step s sv certs ca :
  system_ok s ->
  sv_cfg sv = sv_cfg (sy_server s) -> cfg_of (sv_chain sv) = cfg_of (sv_chain (sy_server s)) ->
  sv_mtls sv = sv_mtls (sy_server s) -> sv_http3 sv = sv_http3 (sy_server s) ->
  ((exists c, sv_certs (sy_server s) = Some (Some c)) -> exists c, sv_certs sv = Some (Some c)) ->
  system_ok (mkSystem (sy_cfg0 s) sv (sy_watch s) certs ca (sy_files s) (sy_link s) (sy_phase s)).
Proof.
  intros [Hv Hp Hf Hc] E1 E2 E3 E4 E5. split; cbn; [done|done|by eapply in_force_same|]. intros Hph Ht. auto.
Qed.

Lemma in_force_tls s : system_ok s -> st_Enabled (sc_TLS (cfg_Server (sv_cfg (sy_server s)))) = st_Enabled (sc_TLS (cfg_Server (sy_cfg0 s))).
Proof.
  intros [Hv [_ Hp] [Hk _ _ _ _] _]. apply elem_of_cons in Hk as [->|Hk]; [done|].
  rewrite Forall_forall in Hp. destruct (Hp _ Hk) as [_ Hr]. unfold restart_view in Hr. by simplify_eq.
Qed.

Lemma system_step s ev s' : sstep s ev = Some s' -> system_ok s -> system_ok s'.
Proof.
  intros Hs Hok. unfold sstep in Hs.
  assert (sy_phase s <> PExited) as Hne by (by intros E; rewrite E in Hs).
  destruct ev as [files link|e a udp| | | |e|].
  - assert (s' = mkSystem (sy_cfg0 s) (sy_server s) (sy_watch s) (sy_certs s) (sy_ca s) files link (sy_phase s)) as ->
      by (destruct (sy_phase s); simplify_eq; done). by destruct Hok.
  - destruct (wstep e (sy_watch s)) as [ws|] eqn:Ew; [|by destruct (sy_phase s)].
    pose proof (config_step s e a udp ws Hok Ew) as H. cbn in Hs. destruct (sy_phase s); simplify_eq; done.
  - destruct (sy_certs s) as [cw|]; [|by destruct (sy_phase s)]. cbn in Hs. unfold cert_round in Hs. cbn in Hs.
    destruct (cert_tick _ _ cw) as [cw' fired].
    pose proof (server_step s (if fired then ReloadCerts X509KeyPair (sy_files s) (st_CertFile (sc_TLS (cfg_Server (sy_cfg0 s))))
      (st_KeyFile (sc_TLS (cfg_Server (sy_cfg0 s)))) (sy_server s) else sy_server s) (Some cw') (sy_ca s) Hok) as H.
    destruct (sy_phase s); simplify_eq; (apply H; destruct fired; try done; intros Hx; apply fmap_cert; [|exact Hx];
      intros x; apply certHolder_keeps).
  - destruct (sy_ca s) as [cw|]; [|by destruct (sy_phase s)]. cbn in Hs. unfold ca_round in Hs. cbn in Hs.
    destruct (cert_tick _ _ cw) as [cw' fired].
    pose proof (server_step s (if fired then ReloadMTLSCA AppendCertsFromPEM (sy_files s)
      (mt_ClientCAFile (st_MTLS (sc_TLS (cfg_Server (sy_cfg0 s))))) (sy_server s) else sy_server s) (sy_certs s) (Some cw') Hok) as H.
    destruct (sy_phase s); simplify_eq; (apply H; by destruct fired).
  - destruct (sy_phase s) eqn:Hph; try done. pose proof (in_force_tls s Hok) as Ht.
    destruct (Run_tls _ _ (sy_files s) (sy_server s)) as [sv|] eqn:E; simplify_eq; [|by destruct Hok].
    apply Run_tls_force in E as (E1 & E2 & E3 & E4 & E5). destruct Hok as [Hv Hp Hf Hc].
    split; cbn; [done|done| |by rewrite Ht in E5; intros _]. eapply in_force_same; [..|exact Hf]; congruence.
  - destruct (internal e) eqn:Hi; [|by destruct (sy_phase s)].
    destruct (step e (sv_chain (sy_server s))) as [c|] eqn:E; [|by destruct (sy_phase s)].
    apply step_pub in E; [|done].
    pose proof (server_step s (with_chain c (sy_server s)) (sy_certs s) (sy_ca s) Hok eq_refl) as H.
    cbn in Hs. destruct (sy_phase s) eqn:Hph; simplify_eq; rewrite <- Hph in *;
      (unfold set_server; rewrite ?Hph in *; apply H; try done; cbn; unfold cfg_of; by rewrite E).
  - destruct (sy_phase s) eqn:Hph; try done. injection Hs as <-. destruct Hok as [Hv Hp Hf Hc]. split; cbn [set_phase_to set_server sy_cfg0 sy_watch sy_server sy_phase]; [done|done| |done].
    eapply in_force_same; [..|exact Hf]; try done.
    unfold shutdown, cfg_of. cbn [fst with_chain sv_chain with_health]. by rewrite Chain_Close_pub.
Qed.

Lemma system_run s evs s' : sysrun s evs = Some s' -> system_ok s -> system_ok s'.
Proof.
  unfold sysrun. revert s. induction evs as [|ev evs IH]; intros s Hr Hok; cbn in Hr; [by injection Hr as <-|].
  destruct (sstep s ev) as [s1|] eqn:E; [by apply (IH s1), (system_step s ev)|].
  exfalso. clear -Hr. induction evs; [done|]. by apply IHevs.
Qed.

Lemma boot_ok f files link a udp s : boot f files link a udp = Ok s -> system_ok s /\ w_published (ws_w (sy_watch s)) = [].
Proof.
  unfold boot, mbind, result_bind. destruct (LoadFromPath _ _ _ _ (fs_data f)) as [cfg|] eqn:El; [|done]. apply LoadFromPath_valid in El.
  unfold Server_New, mbind, result_bind. destruct (buildProxy _ _ _ _) as [rp|]; [|done].
  destruct (NewChain cfg a) as [chain|] eqn:Ec; [|done]. apply NewChain_cfg in Ec. intros [= <-]. split; [|done].
  split; cbn; [done|by split|split; cbn; [by left|exact Ec|done..]|done].
Qed.


(** ** The admin server of the process *)

(** What [buildAdminServer] was given by [New]: the configuration is the one of the
    start, the rest is looked up at each request. *)
Definition admin_of {W} (metrics : Metrics) (store : option Store) (auth : bool) (w : W) (s : system) : admin_state (W := W) :=
  mkAdmin (sy_cfg0 s) (sv_health (sy_server s)) metrics store auth w.

Lemma sstep_cfg0 s ev s' : sstep s ev = Some s' -> sy_cfg0 s' = sy_cfg0 s.
Proof.
  intros Hs. unfold sstep in Hs. unfold mbind, option_bind in Hs. repeat case_match; simplify_eq; done.
Qed.

Lemma sysrun_cfg0 s evs s' : sysrun s evs = Some s' -> sy_cfg0 s' = sy_cfg0 s.
Proof.
  unfold sysrun. revert s. induction evs as [|ev evs IH]; intros s Hr; cbn in Hr; [by injection Hr as <-|].
  destruct (sstep s ev) as [s1|] eqn:E; [rewrite (IH s1 Hr); by eapply sstep_cfg0|].
  exfalso. clear -Hr. induction evs; [done|]. by apply IHevs.
Qed.

(** The configuration endpoint does not follow reloads. Whatever has been
    reloaded since, [GET /v1/config] answers with the configuration the process
    was started with, while the server runs on the last one that was published
    (when the trusted proxy ranges of all of them parse). *)
Theorem config_endpoint_stale {W} `{CacheRedis W} EscapedPath ParseRequestURI decode_url decode_tags ping
    f files link a udp s0 evs s metrics store auth (w : W) tokens c :
  boot f files link a udp = Ok s0 -> sysrun s0 evs = Some s -> 0 < tokens ->
  last (w_published (ws_w (sy_watch s))) = Some c ->
  Forall (fun c => proxies_parse (static_key c) /\ proxies_parse (fallback_key c)) (w_published (ws_w (sy_watch s))) ->
  (admin_ServeHTTP EscapedPath ParseRequestURI url_Parse (fun p => p) decode_url decode_tags ping tokens
     (admin_of metrics store auth w s) (mkAdminRequest "GET" "/v1/config" "" "")).2
  = Answer 200 (PConfig (Sanitized url_Parse (sy_cfg0 s0)))
  /\ sv_cfg (sy_server s) = c.
Proof.
  intros [Hb _]%boot_ok Hr Ht Hl Hp. split.
  - rewrite config_answer by done. cbn [admin_of ad_cfg]. by rewrite (sysrun_cfg0 s0 evs s Hr).
  - pose proof (if_last _ _ _ (so_force s (system_run s0 evs s Hr Hb)) Hp) as H5.
    destruct (w_published _) as [|p l]; [done|]. cbn in *. congruence.
Qed.
End system.

(** ** A process *)

Module SystemDemo.
Definition files (p : string) : option string := Some p.
Definition link (p : string) : string := "".
Definition booted : result (system (Cert := string) (Pool := string)) :=
  boot (R := exact_rounding) WatchDemo.sha WatchDemo.Unmarshal WatchDemo.ParseEnv sample_parse sample_string ServerDemo.alpn
    (WatchDemo.file "x") files link LifeDemo.all_ok true.
Definition no_system : system := mkSystem Defaults ServerDemo.no_server WatchDemo.start None None files link PExited.
Definition s0 : system := match booted with Ok s => s | Err _ => no_system end.
Definition run := sysrun (R := exact_rounding) WatchDemo.sha WatchDemo.Unmarshal WatchDemo.ParseEnv sample_parse sample_string
  ServerDemo.alpn ServerDemo.x509 ServerDemo.pem.
(** The file is edited while a request meets a failing Redis. *)
Definition evs : list sevent :=
  (fun e => SConfig e LifeDemo.all_ok true) <$> [WChange (WatchDemo.file "xx"); WNotify OpWrite 10; WChange (WatchDemo.file "xxx"); WNotify OpWrite 30].
Definition script : list sevent :=
  SRun :: SChain ETake :: evs ++ [SConfig (WFire (30 + debounce)) LifeDemo.all_ok true; SChain (EFail 1); SConfig WSnap LifeDemo.all_ok true].
Definition final : system := default no_system (run s0 script).
Definition is_running (s : option (system (Cert := string) (Pool := string))) : bool :=
  match s with Some s => match sy_phase s with PRunning => true | _ => false end | None => false end.
Lemma ok_or {A} (r : result A) d : is_ok r = true -> r = Ok (match r with Ok a => a | Err _ => d end).
Proof. by destruct r. Qed.
Lemma some_or {A} (P : option A -> bool) (o : option A) d : P None = false -> P o = true -> o = Some (default d o).
Proof. destruct o; [done|congruence]. Qed.
Lemma boots :
  boot (R := exact_rounding) WatchDemo.sha WatchDemo.Unmarshal WatchDemo.ParseEnv sample_parse sample_string ServerDemo.alpn
    (WatchDemo.file "x") files link LifeDemo.all_ok true = Ok s0.
Proof. unfold s0, booted. apply ok_or. vm_compute. reflexivity. Qed.
Lemma runs :
  sysrun (R := exact_rounding) WatchDemo.sha WatchDemo.Unmarshal WatchDemo.ParseEnv sample_parse sample_string
    ServerDemo.alpn ServerDemo.x509 ServerDemo.pem s0 script = Some final.
Proof. unfold final, run. apply (some_or is_running); [done|]. vm_compute. reflexivity. Qed.
End SystemDemo.


Lemma config_endpoint_stale_witness :
  (admin_ServeHTTP PurgeDemo.path PurgeDemo.parse sample_parse (fun p => p) AdminDemo.decode_url AdminDemo.decode_tags (fun _ => None) 5
     (admin_of NewMetrics None false PurgeDemo.redis SystemDemo.final) (mkAdminRequest "GET" "/v1/config" "" "")).2
  = Answer 200 (PConfig (Sanitized sample_parse (WatchDemo.loaded "x")))
  /\ sv_cfg (sy_server SystemDemo.final) = WatchDemo.loaded "xxx".
Proof.
  assert (w_published (ws_w (sy_watch SystemDemo.final)) = [WatchDemo.loaded "xxx"]) as Hp by (vm_compute; reflexivity).
  assert (sy_cfg0 SystemDemo.s0 = WatchDemo.loaded "x") as H0 by (vm_compute; reflexivity).
  rewrite <- H0.
  apply (config_endpoint_stale (R := exact_rounding) WatchDemo.sha WatchDemo.Unmarshal WatchDemo.ParseEnv sample_parse sample_string ServerDemo.alpn
    ServerDemo.x509 ServerDemo.pem PurgeDemo.path PurgeDemo.parse AdminDemo.decode_url AdminDemo.decode_tags (fun _ => None)
    (WatchDemo.file "x") SystemDemo.files SystemDemo.link LifeDemo.all_ok true SystemDemo.s0 SystemDemo.script SystemDemo.final
    NewMetrics None false PurgeDemo.redis 5 (WatchDemo.loaded "xxx") SystemDemo.boots SystemDemo.runs); [lia|by rewrite Hp|].
  rewrite Hp. apply Forall_singleton. split; apply proxies_nil; vm_compute; reflexivity.
Defined.
